(* ===== verification/_CoqProject ===== *)
-Q . S2P
Prelude.v
JsString.v
JsNum.v
VssData.v
Decompress.v
DecompressSpec.v
Dom.v
DomClass.v
DomMarks.v
HugoLearn.v
SearchPage.v
Highlight.v
Learn.v
LearnSession.v
LearnPage.v
Speedometer.v
Json.v
DecompressObject.v
W3cClient.v
ClientPages.v
Sticky.v
Bs.v
ButtonLife.v
BsIndex.v
Carousel.v
CarouselLife.v
Collapse.v
Accordion.v
Modal.v
ModalLife.v
ModalFocus.v
ScrollSpy.v
ScrollSpyPage.v
Tab.v
TabLife.v
PopperDom.v
PopperOffset.v
Popper.v
PopperSpec.v
PopperLife.v
Dropdown.v
DropdownLife.v
JsObject.v
BsNames.v
BsClasses.v
PluginClasses.v
BsModule.v
PopperClass.v
BsPlugins.v
Tooltip.v
TooltipTimers.v
TooltipOptions.v
TooltipLife.v
Popover.v
TipClasses.v
TooltipSample.v
PopperOptions.v
PopperUtils.v
