(* ===== verification/Prelude.v ===== *)
(** * VISSR: the JavaScript programs of the repository

    The repository holds a vehicle signal server with its feeders and clients.
    This development models its JavaScript programs as functional programs and
    proves what makes them correct.  There are four groups.

    - _The compact message client_ (src/client/client-1.0/Javascript) decodes
      messages in which keywords, signal paths, time stamps and numbers are
      packed into bytes; four pages beside it send requests by hand.
    - _The demo client_ (src/client/w3cDemo/js) talks to the server over a
      WebSocket or over HTTP and shows the speed on a gauge.
    - _The scripts of the tutorial_ (src/tutorial/themes/learn/static/js)
      search, highlight, copy and navigate its pages.
    - _The user interface library_ of the demo client: Bootstrap
      (w3cDemo/js/bootstrap.js) and the Popper positioning engine (the copy in
      bootstrap.bundle.js).

    ** Files

    Shared: [Prelude] (outcomes, the monad of handlers, loops with fuel, lists,
    tactics); [JsString] (strings as lists of 16-bit code units); [JsNum] (32-bit
    integers, doubles as [spec_float] with 53 bits, number parsing and
    printing); [Dom] (the document as a finite map of elements, with the jQuery
    methods the sources call); [DomClass] (documents up to one class, with
    [Proper] instances for what does not depend on it); [DomMarks] (documents up to
    some classes and attributes); [Json] ([JSON.parse] and [JSON.stringify]);
    [JsObject] (a heap of objects with prototypes and property attributes).

    - [VssData]: uuiddata.js and vsspathlist.js, the tables, entry by entry.
    - [Decompress]: w3cdecompress.js, [decompressMessage] as a loop over the code
      units; [DecompressSpec]: what the messages of its format decode to, and its
      theorems; [DecompressObject]: JSON objects packed into messages, decoded and
      parsed again.
    - [Speedometer]: speedometer.js, the plugin [addSpeedometer]: the style
      rules, the marks of the dial, the reading of the input.
    - [W3cClient]: w3c-client.js, ws-w3c.js and rest-w3c.js as handlers on the
      state of the demo page (sockets, frames, requests, logs, inputs).
    - [ClientPages]: the scripts of wsclient.html, httpclient.html, agtclient.html
      and atclient.html, with their boxes, output areas, sockets and requests.
    - [HugoLearn]: hugo-learn.js; [SearchPage]: search.js; [Highlight]: the
      highlighter of learn.js (lines 424 to 496); [Learn]: the rest of learn.js,
      a module for each concern; [LearnSession]: these concerns together, over a
      visit of many pages, and the icons of the menu; [LearnPage]: the marking of
      links and the table of contents; [Sticky]: jquery.sticky.js.
    - [Bs]: what the Bootstrap plugins share (a page with its listeners, events
      and waiting callbacks), [Util], the emulation of transition ends, [Alert]
      and [Button].  One file for each plugin, and others for its life in time:
      [ButtonLife] (a group of radio buttons); [Carousel] (with clicks and calls of
      its interface) and [CarouselLife] (a machine of buttons, timers and
      transitions that its runs refine); [Collapse] and [Accordion] (the members of a
      group); [Modal], [ModalLife] (opening and closing with the transitions of
      backdrop and dialog) and [ModalFocus] (the focus goes back to the toggle);
      [ScrollSpy] (the list of sections) and [ScrollSpyPage] (the plugin on its
      page); [Tab] and [TabLife] (a list of links and their panes); [Dropdown] and
      [DropdownLife] (clicks, keys and calls).  What the plugins have to do with
      each other: [BsNames] (their names, events, classes and selectors),
      [BsPlugins] (registration, name spaces, the way of a click through the
      listeners of all plugins at elements and at the document) and [BsIndex] (the check of the jQuery version).
      How the library is put together: [BsClasses] (the helpers that make classes
      and merge objects), [PluginClasses] (the classes, with Popover as a subclass
      of Tooltip) and [BsModule] (the wrapper of the file and its exports).
      [TipClasses] finds the widgets of tooltips and popovers in these classes.
    - [Tooltip]: the plugin, with the interface [Widget] for what its subclass
      overrides; [TooltipTimers], [TooltipOptions], [TooltipLife]: its theorems,
      for every [Widget]; [Popover]: the subclass, an instance of [Widget];
      [TooltipSample]: a page on which both run.
    - [PopperDom]: what Popper measures; [PopperOffset]: its offset option;
      [Popper]: placements and modifiers; [PopperLife]: an instance over time;
      [PopperSpec]: the theorems on where the popper ends up; [PopperOptions]:
      the merging of options, and the options that dropdowns and tooltips give;
      [PopperUtils]: the functions with a fallback for older browsers;
      [PopperClass]: the class and the start of its constructor.

    ** How the code is modelled

    Pure functions are functions.  Handlers that change a page are programs of
    the monad [jsM]: they pass a state on and return or throw, and what was done
    before an exception stays done.  What the browser does later (timers,
    transition ends, animation frames, socket messages, clicks) is a step of a
    run; theorems about runs hold for every sequence of steps.  Callbacks that
    wait are data, kept in the page, and resumed by the step that ends the wait.
    Third-party code and the browser are parameters: the layout of a page
    ([Layout], [Sizes], [ModalLayout], [Visibility], [TipEnv], [Page]), the
    selector engine and the listeners of the application ([Browser]), the value
    of a text between the quotes of a selector ([CssText]), the links of the
    tutorial and what its pages find for a search text ([Site]), the effect of
    [innerHTML] on text ([Markup]), lunr, [Math.sin] and [Math.cos].  Objects that
    outlive the element they belong to (tooltips, with timers and callbacks that
    hold on to them) live in a heap.

    Loops that are not structural have fuel, and the theorems that a call
    returns say how much is enough: one unit for each code unit of a message and
    one more for the decoder; the weight of the tree for the highlighter; the
    depth of the tree for Popper, a field of its page; for a chain of prototypes the
    place of the object in the heap, since prototypes are older than their objects.  The recursion of the
    carousel through its own events has a fuel of its own; its invariant holds
    for every amount.

    ** What the theorems show

    - Decoder: a packed object of time stamps, request types and whole numbers
      decodes to the text [JSON.stringify] gives for it, every call returns,
      integers are read on 32 bits, which path a reference selects, which
      branches the tables make unreachable.
    - Demo client: from the frame on the socket to the lit marks of the dial; the
      requests that are sent and those that are not; the clamped reading.
    - Client pages: what is sent for which clicks, what the output areas show, and
      the cases in which a text or a token is lost.
    - Tutorial: highlighting ends, keeps the text and can be undone; tab choices
      survive a reload; one delayed call for each burst; sidebar, search box,
      anchors, copied text; query strings; the search results; a whole visit
      refines a machine that knows the pages seen, the text searched for and
      whether the page listens to the arrow keys.
    - Sticky: a refinement of the scroll handler by a machine of three modes, the
      history of its events, and [unstick] as the inverse of [init].
    - Bootstrap: one transition end for each transition, its timer or its event,
      also when several transitions follow each other on an element; alerts; a radio group refines a
      machine of its active button and its checked input; one animation at a time
      in a carousel whatever is clicked and called; a carousel shows the items
      that a machine of its buttons, timers and transitions shows; showing one
      member of an accordion closes the others; a modal can be opened and closed
      again and again, leaves nothing behind, restores the paddings and margins it
      changed, those of its own element apart, which it empties, and gives the
      focus back, and what goes wrong when its show event is prevented
      or its toggle closes it; scrolling marks the section in view and no other;
      a set of tabs refines a machine of its links and panes, with one pane open
      for a user who waits and several for one who does not; at most one open
      dropdown whatever the user does; a click on a toggle reaches one plugin at
      the document, and of those at elements the ones that are bound there;
      plugins remove their own listeners only and give their names back.
    - Classes: which function a method call on a tooltip or a popover reaches, what
      the getters answer, that merged options are new objects, that the fallback
      for [Object.assign] does what that function does, what the module exports; the
      classes of tooltips and popovers implement the widgets that model them.
    - Tooltip and Popover: the options are the given ones, of the right types, or
      the call throws; at most one timer for each object along every run; a
      visit of the mouse ends with the page as it was; a user who comes back
      during the fading sees the tip again; after dispose no timer and no
      callback of the object is left.
    - Popper: the geometry of the placements, the best automatic placement, the
      nearest place inside the boundaries, popper and reference kept together,
      the arrow, the behaviors that never flip, and the life of an instance: its
      listeners, its callbacks and the silence after its end; the options that a
      dropdown and a tooltip give come out as the modifiers they rely on.

    ** What is not modelled

    The server, the feeders, the tools and the other clients are written in Go,
    Kotlin, Java and Python.  Minified third-party scripts are described where
    they are used.  The rest of bootstrap.bundle.js repeats bootstrap.js and has
    no definitions of its own; minified scripts and mappen.js, a single call of the
    OpenLayers library, have none either.  Of Bootstrap, what only reads a
    measure (reflow, the width of the scroll bar) is a parameter.  Of learn.js, the
    set-up of third-party widgets (perfect-scrollbar, featherlight) is left out, and
    of hugo-learn.js and search.js that of the clipboard and auto-complete
    libraries.  Popper's coordinates
    are exact rationals or NaN, without the rounding of doubles, which is exact on
    the layout grid of browsers; percentages of it may round.  The layout of
    Sticky, Modal and ScrollSpy is in whole pixels.

    The theorem on the turns of the carousel supposes that no listener of the
    application prevents an event; that on dropdowns, that none prevents a menu
    from being hidden; that on the tabs, that what listeners prevent does not
    depend on which tab is active.  Theorems that ask a selector again after
    classes have changed (dropdowns, scroll spies) are about selectors that do not
    ask for the classes the plugin changes, such as identifiers.  Objects have no
    symbol keys.

    Left for later: objects of several plugins on one element (a tooltip on a
    dropdown toggle, tabs in a modal), and runs of the carousel in which listeners
    of the application prevent events. *)

From Stdlib Require Export ZArith Lia.
From stdpp Require Export base list list_numbers option gmap strings.

#[export] Set Default Goal Selector "!".

Declare Scope js_scope.
Delimit Scope js_scope with js.

Local Open Scope Z_scope.

(** ** Outcomes: a JavaScript call returns a value or throws. *)

Inductive js_exn :=
  | TypeError
  | ReferenceError
  | SyntaxError
  | ErrorMsg (msg : string).

Inductive outcome (A : Type) :=
  | Ret (a : A)
  | Throw (e : js_exn).
Arguments Ret {A} a.
Arguments Throw {A} e.

Definition obind {A B} (m : outcome A) (f : A → outcome B) : outcome B :=
  match m with Ret a => f a | Throw e => Throw e end.

Notation "'let!' x ':=' m 'in' k" := (obind m (λ x, k))
  (at level 10, x pattern, m at level 100, k at level 200) : js_scope.

#[export] Instance js_exn_eq_dec : EqDecision js_exn.
Proof. solve_decision. Defined.

#[export] Instance outcome_eq_dec {A} `{EqDecision A} : EqDecision (outcome A).
Proof. solve_decision. Defined.

Lemma obind_Ret_inv {A B} (m : outcome A) (f : A → outcome B) b :
  obind m f = Ret b ↔ ∃ a, m = Ret a ∧ f a = Ret b.
Proof. destruct m; simpl; naive_solver. Qed.

(** ** Handlers: state passing with exceptions

    A handler runs on a state and returns or throws; what it did to the state
    before it threw stays done. *)

Definition jsM (S A : Type) : Type := S → S * outcome A.

Definition mthrow {S A} (e : js_exn) : jsM S A := λ s, (s, Throw e).
Definition mget {S A} (f : S → A) : jsM S A := λ s, (s, Ret (f s)).
Definition mupdate {S} (f : S → S) : jsM S () := λ s, (f s, Ret ()).

#[export] Instance jsM_ret {S} : MRet (jsM S) := λ A a s, (s, Ret a).
#[export] Instance jsM_bind {S} : MBind (jsM S) := λ A B f m s,
  match m s with
  | (s', Ret a) => f a s'
  | (s', Throw e) => (s', Throw e)
  end.

Definition mguard {S} (b : bool) (m : jsM S ()) : jsM S () := if b then m else mret ().

Fixpoint meach {S A} (f : A → jsM S ()) (l : list A) : jsM S () :=
  match l with [] => mret () | x :: l' => f x ;; meach f l' end.

(** Run the first part of a handler. *)
Lemma bind_ret {S A B} (m : jsM S A) (k : A → jsM S B) s s' a :
  m s = (s', Ret a) → (x ← m; k x) s = k a s'.
Proof. intros H. unfold mbind, jsM_bind. by rewrite H. Qed.
Lemma bind_throw {S A B} (m : jsM S A) (k : A → jsM S B) s s' e :
  m s = (s', Throw e) → (x ← m; k x) s = (s', Throw e).
Proof. intros H. unfold mbind, jsM_bind. by rewrite H. Qed.

(** Invariants of handlers: what every step keeps, a handler keeps, also when
    it throws. *)
Definition keeps {S A} (I : S → Prop) (m : jsM S A) : Prop := ∀ s, I s → I (m s).1.

Section keeps.
Context {S : Type} (I : S → Prop).

Lemma keeps_ret {A} (a : A) : keeps I (mret a).
Proof. by intros s H. Qed.
Lemma keeps_throw {A} e : keeps I (mthrow (A:=A) e).
Proof. by intros s H. Qed.
Lemma keeps_get {A} (f : S → A) : keeps I (mget f).
Proof. by intros s H. Qed.
Lemma keeps_update f : (∀ s, I s → I (f s)) → keeps I (mupdate f).
Proof. intros Hf s H. by apply Hf. Qed.
Lemma keeps_bind {A B} (m : jsM S A) (f : A → jsM S B) :
  keeps I m → (∀ a, keeps I (f a)) → keeps I (a ← m; f a).
Proof.
  intros Hm Hf s H. unfold mbind, jsM_bind. specialize (Hm s H).
  destruct (m s) as [s' [a|e]]; [by apply Hf|done].
Qed.
Lemma keeps_guard b m : keeps I m → keeps I (mguard b m).
Proof. destruct b; [done|]. intros _. apply keeps_ret. Qed.
Lemma keeps_each {A} (f : A → jsM S ()) l : (∀ x, keeps I (f x)) → keeps I (meach f l).
Proof. intros Hf. induction l; simpl; [apply keeps_ret|]. by apply keeps_bind. Qed.
End keeps.

(** Total triples: from [P] the handler returns, in a state that satisfies
    [Q]. *)
Definition triple {S A} (P : S → Prop) (m : jsM S A) (Q : A → S → Prop) : Prop :=
  ∀ s, P s → ∃ a s', m s = (s', Ret a) ∧ Q a s'.

Section triple.
Context {S : Type}.
Implicit Types P : S → Prop.

Lemma triple_ret {A} P (a : A) : triple P (mret a) (λ _, P).
Proof. intros s H. by exists a, s. Qed.
Lemma triple_get {A} P (f : S → A) : triple P (mget f) (λ a s, P s ∧ a = f s).
Proof. intros s H. by exists (f s), s. Qed.
Lemma triple_update P P' f : (∀ s, P s → P' (f s)) → triple P (mupdate f) (λ _, P').
Proof. intros Hf s H. exists (), (f s). auto. Qed.
Lemma triple_bind {A B} P (m : jsM S A) Q (f : A → jsM S B) R :
  triple P m Q → (∀ a, triple (Q a) (f a) R) → triple P (a ← m; f a) R.
Proof.
  intros Hm Hf s H. destruct (Hm s H) as (a & s' & E & Ha). destruct (Hf a s' Ha) as (b & s2 & E2 & Hb).
  exists b, s2. unfold mbind, jsM_bind. by rewrite E.
Qed.
Lemma triple_conseq {A} P P' (m : jsM S A) Q Q' :
  triple P m Q → (∀ s, P' s → P s) → (∀ a s, Q a s → Q' a s) → triple P' m Q'.
Proof. intros Hm HP HQ s H. destruct (Hm s (HP s H)) as (a & s' & E & Ha). eauto. Qed.
Lemma triple_keep_get {A B} P (f : S → A) (k : A → jsM S B) R :
  (∀ a, triple P (k a) R) → triple P (a ← mget f; k a) R.
Proof.
  intros Hk. eapply triple_bind; [apply triple_get|]. intros a.
  eapply triple_conseq; [apply (Hk a)|naive_solver|done].
Qed.
Lemma triple_seq {B} P (m : jsM S ()) P' (k : jsM S B) R :
  triple P m (λ _, P') → triple P' k R → triple P (_ ← m; k) R.
Proof. intros Hm Hk. eapply triple_bind; [exact Hm|]. by intros []. Qed.
Lemma triple_guard P b m : triple P m (λ _, P) → triple P (mguard b m) (λ _, P).
Proof. intros Hm. destruct b; [done|]. apply triple_ret. Qed.
Lemma triple_each {A} P (f : A → jsM S ()) l :
  (∀ x, x ∈ l → triple P (f x) (λ _, P)) → triple P (meach f l) (λ _, P).
Proof.
  induction l as [|x l IH]; intros Hf; [apply triple_ret|]. cbn [meach].
  eapply triple_bind; [apply Hf; by left|]. intros a. apply IH. intros y Hy. apply Hf. by right.
Qed.
End triple.

(** ** The loop of a [while] statement with fuel

    [None] is "fuel exhausted"; a step answers [inl s'] to go on and [inr r]
    when the loop condition is false. *)

Section loop.
Context {S R : Type} (step : S → S + R).

Fixpoint while_fuel (fuel : nat) (s : S) : option R :=
  match fuel with
  | O => None
  | Datatypes.S f =>
      match step s with
      | inl s' => while_fuel f s'
      | inr r => Some r
      end
  end.

(** A measure that every iteration decreases bounds the iterations. *)
Lemma while_fuel_measure (m : S → nat) (P : S → Prop) :
  (∀ s s', P s → step s = inl s' → P s' ∧ (m s' < m s)%nat) →
  ∀ fuel s, P s → (m s < fuel)%nat → is_Some (while_fuel fuel s).
Proof.
  intros Hm fuel; induction fuel as [|f IH]; intros s HP Hlt; simpl; [lia|].
  destruct (step s) as [s'|r] eqn:E; [|by eexists].
  destruct (Hm _ _ HP E). apply IH; [done|lia].
Qed.

Lemma while_fuel_mono f1 f2 s r :
  while_fuel f1 s = Some r → (f1 ≤ f2)%nat → while_fuel f2 s = Some r.
Proof.
  revert f2 s; induction f1 as [|f1 IH]; intros f2 s Hr Hle; simpl in *; [done|].
  destruct f2 as [|f2]; [lia|]; simpl.
  destruct (step s); [|done]. apply IH; [done|lia].
Qed.

Lemma while_fuel_det f1 f2 s r1 r2 :
  while_fuel f1 s = Some r1 → while_fuel f2 s = Some r2 → r1 = r2.
Proof.
  intros H1 H2. apply (while_fuel_mono _ (f1 `max` f2)) in H1; [|lia].
  apply (while_fuel_mono _ (f1 `max` f2)) in H2; [|lia]. congruence.
Qed.

(** [while_reach s s']: some iterations lead from [s] to [s']. *)
Definition while_reach (s s' : S) : Prop :=
  ∃ n, ∀ f, while_fuel (n + f) s = while_fuel f s'.

#[global] Instance while_reach_refl : Reflexive while_reach.
Proof. intros s. by exists 0%nat. Qed.

#[global] Instance while_reach_trans : Transitive while_reach.
Proof.
  intros s1 s2 s3 [n Hn] [m Hm]. exists (n + m)%nat. intros f.
  by rewrite <- Nat.add_assoc, Hn, Hm.
Qed.

Lemma while_reach_step s s' : step s = inl s' → while_reach s s'.
Proof. intros H. exists 1%nat. intros f. simpl. by rewrite H. Qed.

Lemma while_reach_done s s' r fuel r' :
  while_reach s s' → step s' = inr r → while_fuel fuel s = Some r' → r' = r.
Proof.
  intros [n Hn] Hs Hf. eapply while_fuel_det; [exact Hf|].
  rewrite (Hn 1%nat). simpl. by rewrite Hs.
Qed.
End loop.

(** The names every plain object inherits. *)
Definition object_prototype : list string :=
  ["constructor"; "__defineGetter__"; "__defineSetter__"; "hasOwnProperty"; "__lookupGetter__";
   "__lookupSetter__"; "isPrototypeOf"; "propertyIsEnumerable"; "toString"; "valueOf";
   "__proto__"; "toLocaleString"]%string.

(** ** Lists *)

Lemma take_drop_lookup {A} (l : list A) n x :
  l !! n = Some x → l = take n l ++ x :: drop (S n) l.
Proof. intros H. symmetry. by apply take_drop_middle. Qed.

Lemma lookup_app_exact {A} (l1 l2 : list A) x :
  (l1 ++ x :: l2) !! length l1 = Some x.
Proof. by apply list_lookup_middle. Qed.

Lemma lookup_app_plus {A} (l1 l2 : list A) n :
  (l1 ++ l2) !! (length l1 + n)%nat = l2 !! n.
Proof. rewrite lookup_app_r by lia. f_equal; lia. Qed.

Lemma mjoin_fmap_cons {A B} (f : A → list B) x l :
  mjoin (f <$> x :: l) = f x ++ mjoin (f <$> l).
Proof. reflexivity. Qed.

Lemma mapM_app_Some {A B} (f : A → option B) l1 l2 k1 k2 :
  mapM f l1 = Some k1 → mapM f l2 = Some k2 → mapM f (l1 ++ l2) = Some (k1 ++ k2).
Proof. rewrite !mapM_Some. apply Forall2_app. Qed.

Lemma filter_all {A} (P : A → Prop) `{∀ x, Decision (P x)} (l : list A) :
  (∀ x, x ∈ l → P x) → filter P l = l.
Proof.
  induction l as [|x l IH]; intros HP; [done|].
  rewrite filter_cons_True by (apply HP; by left). f_equal. apply IH. intros y Hy. apply HP. by right.
Qed.

(** At most one element satisfies [P]; the others are not touched by taking
    the ones with [Q] and [P] out. *)
Lemma filter_take_one {A} (P Q : A → Prop) `{∀ x, Decision (P x), ∀ x, Decision (Q x)} (l : list A) :
  (length (filter P l) ≤ 1)%nat →
  (filter (λ x, Q x ∧ P x) l = [] ∧ filter P (filter (λ x, ¬ (Q x ∧ P x)) l) = filter P l) ∨
  (filter P (filter (λ x, ¬ (Q x ∧ P x)) l) = [] ∧ filter (λ x, Q x ∧ P x) l = filter P l).
Proof.
  induction l as [|x l IH]; intros Hl; [by left|]. destruct (decide (P x)) as [Hx|Hx].
  - rewrite (filter_cons_True P) in Hl |- * by done. simpl in Hl.
    assert (Hnil : filter P l = []) by (destruct (filter P l); [done|simpl in Hl; lia]).
    rewrite Hnil in IH |- *.
    assert (filter (λ x, Q x ∧ P x) l = [] ∧ filter P (filter (λ x, ¬ (Q x ∧ P x)) l) = []) as [H1 H2]
      by (destruct IH as [[]|[]]; [simpl; lia|done|done]).
    destruct (decide (Q x)) as [Hq|Hq]; [right|left].
    + rewrite (filter_cons_False (λ x, ¬ (Q x ∧ P x))), (filter_cons_True (λ x, Q x ∧ P x)) by tauto.
      by rewrite H1, H2.
    + rewrite (filter_cons_True (λ x, ¬ (Q x ∧ P x))), (filter_cons_False (λ x, Q x ∧ P x)) by tauto.
      by rewrite filter_cons_True, H1, H2.
  - rewrite (filter_cons_False P) in Hl |- * by done.
    rewrite !(filter_cons_False (λ x, Q x ∧ P x)) by naive_solver.
    rewrite (filter_cons_True (λ x, ¬ (Q x ∧ P x))) by naive_solver.
    rewrite (filter_cons_False P) by done. by apply IH.
Qed.

(** ** Integers *)

Lemma Zland_bound a n : 0 ≤ n → 0 ≤ Z.land a (Z.ones n) < 2 ^ n.
Proof. intros Hn. rewrite Z.land_ones by done. apply Z.mod_pos_bound. lia. Qed.

(** A decidable fact about a finite range is checked by evaluation. *)
Lemma check_range (P : Z → Prop) `{∀ z, Decision (P z)} n b :
  forallb (λ z, bool_decide (P z)) (seqZ 0 n) = true → 0 ≤ b < n → P b.
Proof.
  intros HP Hb. rewrite forallb_forall in HP.
  eapply bool_decide_eq_true_1, HP, list_elem_of_In, elem_of_seqZ. lia.
Qed.

Ltac check_range b n :=
  pattern b; apply (check_range _ n); [vm_compute; reflexivity|lia].

(** Prove a decidable closed proposition by evaluating its decision. *)
Ltac by_evaluation :=
  match goal with |- ?P => refine (bool_decide_unpack P _); vm_compute; exact I end.

(** Go through the members of a list, evaluating what can be evaluated. *)
Ltac each_of H :=
  lazymatch type of H with
  | _ ∈ [] => destruct (proj1 (elem_of_nil _) H)
  | _ => apply elem_of_cons in H as [->|H]; [try (vm_compute; reflexivity)|each_of H]
  end.

(** The same by position, for a list of three. *)
Ltac each_at H i := destruct i as [|[|[|i]]]; [injection H as <-..|discriminate H].

Ltac euclid := Z.to_euclidean_division_equations; lia.

(** Case analysis on the guard of the goal or of a hypothesis. *)
Ltac case_branch :=
  match goal with
  | |- context [if ?b then _ else _] => destruct b eqn:?
  | H : context [if ?b then _ else _] |- _ => destruct b eqn:?
  | |- context [match ?x with _ => _ end] => destruct x eqn:?
  end; simplify_eq/=.

Create HintDb js discriminated.
#[export] Hint Constructors outcome : js.
#[export] Hint Resolve keeps_ret keeps_throw keeps_get keeps_update keeps_bind keeps_guard keeps_each : js.
