(* ===== verification/JsString.v ===== *)
(** * JavaScript strings

    A string is its list of UTF-16 code units; [js] turns an ASCII literal
    into one.  The file models the [String.prototype] methods the sources
    call, the decimal printing of integers ([Number::toString] restricted to
    integers) and [parseInt]. *)

From S2P Require Import Prelude.
Local Open Scope Z_scope.

Abbreviation jsstring := (list Z).

Definition unit_of_ascii (a : Ascii.ascii) : Z := Z.of_N (Ascii.N_of_ascii a).

Fixpoint js (s : string) : jsstring :=
  match s with
  | EmptyString => []
  | String a s' => unit_of_ascii a :: js s'
  end.

(** Code units of the punctuation the sources use. *)
Definition c_quote : Z := 34.      (* double quote *)
Definition c_lbrace : Z := 123.
Definition c_rbrace : Z := 125.
Definition c_zero : Z := 48.
Definition c_minus : Z := 45.

(** A code unit is an unsigned 16-bit integer. *)
Definition is_unit (c : Z) : Prop := 0 ≤ c < 65536.
Definition is_byte (c : Z) : Prop := 0 ≤ c < 256.
Definition is_ascii (c : Z) : Prop := 0 ≤ c < 128.

#[export] Instance is_unit_dec c : Decision (is_unit c).
Proof. unfold is_unit. apply _. Defined.
#[export] Instance is_byte_dec c : Decision (is_byte c).
Proof. unfold is_byte. apply _. Defined.
#[export] Instance is_ascii_dec c : Decision (is_ascii c).
Proof. unfold is_ascii. apply _. Defined.

(** [s.charCodeAt(i)]: [None] is NaN. *)
Definition charCodeAt (s : jsstring) (i : nat) : option Z := s !! i.

(** [s.charAt(i)]: the empty string out of range. *)
Definition charAt (s : jsstring) (i : nat) : jsstring :=
  match s !! i with Some c => [c] | None => [] end.

Definition startsWith (s p : jsstring) : bool :=
  bool_decide (take (length p) s = p).

Definition endsWith (s p : jsstring) : bool :=
  bool_decide (length p ≤ length s)%nat &&
  bool_decide (drop (length s - length p) s = p).

(** [s.indexOf(p, from)]: the first match at or after [from]. *)
Fixpoint indexOf_aux (p s : jsstring) (pos : nat) : option nat :=
  if startsWith s p then Some pos
  else match s with
       | [] => None
       | _ :: s' => indexOf_aux p s' (S pos)
       end.

Definition indexOf (s p : jsstring) (from : nat) : option nat :=
  let from := Nat.min from (length s) in
  indexOf_aux p (drop from s) from.

(** [s.split(sep)] for a one-unit separator: never the empty array. *)
Fixpoint split_on (sep : Z) (s : jsstring) : list jsstring :=
  match s with
  | [] => [[]]
  | c :: s' =>
      if Z.eqb c sep then [] :: split_on sep s'
      else match split_on sep s' with
           | [] => [[c]]
           | w :: ws => (c :: w) :: ws
           end
  end.

(** [l.join(sep)] for a one-unit separator. *)
Fixpoint join_with (sep : Z) (ws : list jsstring) : jsstring :=
  match ws with
  | [] => []
  | [w] => w
  | w :: ws' => w ++ sep :: join_with sep ws'
  end.

(** [s.replace(/ab/g, rep)] for a pattern of two literal units: matches are
    found from left to right and do not overlap. *)
Fixpoint replace2 (a b : Z) (rep s : jsstring) : jsstring :=
  match s with
  | x :: ((y :: s'') as s') =>
      if Z.eqb x a && Z.eqb y b then rep ++ replace2 a b rep s''
      else x :: replace2 a b rep s'
  | _ => s
  end.

(** [s.replace(/pat/g, rep)] for a literal pattern and a replacement text
    without dollar signs; [skip] counts the units a match still covers. *)
Fixpoint replace_all_from (pat rep : jsstring) (skip : nat) (s : jsstring) : jsstring :=
  match s with
  | [] => []
  | c :: s' =>
      match skip with
      | S k => replace_all_from pat rep k s'
      | O => if startsWith s pat then rep ++ replace_all_from pat rep (length pat - 1) s'
             else c :: replace_all_from pat rep 0 s'
      end
  end.
Definition replace_all (pat rep s : jsstring) : jsstring := replace_all_from pat rep 0 s.

(** [s.padStart(n, c)] for a one-unit fill string. *)
Definition padStart (s : jsstring) (n : nat) (c : Z) : jsstring :=
  replicate (n - length s) c ++ s.

(** ** Printing integers *)

Fixpoint digits_fuel (fuel : nat) (n : Z) (acc : jsstring) : jsstring :=
  match fuel with
  | O => acc
  | S f =>
      if n <? 10 then (c_zero + n) :: acc
      else digits_fuel f (n / 10) ((c_zero + n mod 10) :: acc)
  end.

(** A number has at most as many decimal as binary digits. *)
Definition js_of_nonneg (n : Z) : jsstring :=
  digits_fuel (S (Z.to_nat (Z.log2 n))) n [].

(** [z.toString()] for an integral number of magnitude below 10^21. *)
Definition js_of_Z (z : Z) : jsstring :=
  if z <? 0 then c_minus :: js_of_nonneg (- z) else js_of_nonneg z.

(** ** [parseInt] *)

Definition is_digit (c : Z) : bool := (48 <=? c) && (c <=? 57).

Definition digit_val (radix c : Z) : option Z :=
  let v := if is_digit c then c - 48
           else if (97 <=? c) && (c <=? 122) then c - 87
           else if (65 <=? c) && (c <=? 90) then c - 55
           else radix in
  if v <? radix then Some v else None.

(** The longest prefix of digits, with the number of units it took. *)
Fixpoint digits_value (radix acc : Z) (s : jsstring) : Z * nat :=
  match s with
  | [] => (acc, 0%nat)
  | c :: s' =>
      match digit_val radix c with
      | Some d => let r := digits_value radix (acc * radix + d) s' in (r.1, S r.2)
      | None => (acc, 0%nat)
      end
  end.

Definition is_space (c : Z) : bool :=
  bool_decide (c ∈ ([9; 10; 11; 12; 13; 32; 160; 5760; 8232; 8233; 8239; 8287; 12288; 65279] : list Z))
  || ((8192 <=? c) && (c <=? 8202)).

Fixpoint trim_start (s : jsstring) : jsstring :=
  match s with
  | c :: s' => if is_space c then trim_start s' else s
  | [] => []
  end.

(** [parseInt(s)] without a radix: [None] is NaN. *)
Definition parseInt (s : jsstring) : option Z :=
  let s := trim_start s in
  let '(sign, s) := match s with
                    | 45 :: s' => (-1, s')
                    | 43 :: s' => (1, s')
                    | _ => (1, s)
                    end in
  let '(radix, s) := match s with
                     | 48 :: x :: s' =>
                         if Z.eqb x 120 || Z.eqb x 88 then (16, s') else (10, s)
                     | _ => (10, s)
                     end in
  match digits_value radix 0 s with
  | (_, O) => None
  | (v, S _) => Some (sign * v)
  end.

(** ** Prefixes, suffixes and search *)

Lemma startsWith_spec s p : startsWith s p = true ↔ ∃ t, s = p ++ t.
Proof.
  unfold startsWith. rewrite bool_decide_eq_true. split.
  - intros H. exists (drop (length p) s). rewrite <- H at 1. by rewrite take_drop.
  - intros [t ->]. by rewrite take_app_length.
Qed.

Lemma endsWith_spec s p : endsWith s p = true ↔ ∃ t, s = t ++ p.
Proof.
  unfold endsWith. rewrite andb_true_iff, !bool_decide_eq_true. split.
  - intros [_ H]. exists (take (length s - length p) s). rewrite <- H at 2. by rewrite take_drop.
  - intros [t ->]. rewrite length_app. split; [lia|].
    rewrite drop_app_ge by lia. by replace (_ - _ - _)%nat with 0%nat by lia.
Qed.

Lemma indexOf_aux_Some p s pos i :
  indexOf_aux p s pos = Some i →
  (pos ≤ i ≤ pos + length s)%nat ∧ startsWith (drop (i - pos) s) p = true.
Proof.
  revert pos; induction s as [|c s IH]; intros pos; simpl;
    (destruct (startsWith _ p) eqn:E; [intros ?; simplify_eq; rewrite Nat.sub_diag; split; [lia|done]|]);
    [done|].
  intros H. destruct (IH _ H) as [Hb Hs]. split; [lia|].
  replace (i - pos)%nat with (S (i - S pos)) by lia. done.
Qed.

Lemma indexOf_aux_None p s pos :
  indexOf_aux p s pos = None → ∀ n, startsWith (drop n s) p = false.
Proof.
  revert pos; induction s as [|c s IH]; intros pos; simpl;
    (destruct (startsWith _ p) eqn:E; [done|]); intros H n.
  - by rewrite drop_nil.
  - destruct n as [|n]; [done|]. eauto.
Qed.

(** ** Split and join *)

Lemma split_on_cons_ne sep s : ∃ w ws, split_on sep s = w :: ws.
Proof. induction s as [|c s (w & ws & IH)]; simpl; [eauto|]. rewrite IH. case_match; eauto. Qed.

Lemma join_split sep s : join_with sep (split_on sep s) = s.
Proof.
  induction s as [|c s IH]; [done|]; simpl.
  destruct (split_on_cons_ne sep s) as (w & ws & E). rewrite E in *.
  case_match eqn:Ec.
  - apply Z.eqb_eq in Ec as ->. simpl in *. by rewrite IH.
  - destruct ws; simpl in *; by rewrite <- IH.
Qed.

Lemma split_on_no_sep sep s : Forall (λ w, sep ∉ w) (split_on sep s).
Proof.
  induction s as [|c s IH]; simpl.
  - constructor; [by apply not_elem_of_nil|constructor].
  - case_match eqn:Ec.
    + constructor; [by apply not_elem_of_nil|done].
    + apply Z.eqb_neq in Ec.
      destruct (split_on sep s); inversion IH; subst; constructor; set_solver.
Qed.

Lemma split_on_app sep w s :
  sep ∉ w → split_on sep (w ++ sep :: s) = w :: split_on sep s.
Proof.
  intros Hw. induction w as [|c w IH]; simpl; [by rewrite Z.eqb_refl|].
  rewrite not_elem_of_cons in Hw. destruct Hw as [Hc Hw].
  rewrite IH by done. by rewrite (proj2 (Z.eqb_neq c sep)).
Qed.

Lemma split_on_id sep w : sep ∉ w → split_on sep w = [w].
Proof.
  intros Hw. induction w as [|c w IH]; [done|]; simpl.
  rewrite not_elem_of_cons in Hw. destruct Hw as [Hc Hw].
  rewrite IH by done. by rewrite (proj2 (Z.eqb_neq c sep)).
Qed.

(** Splitting what was joined gives the words back. *)
Lemma split_join sep ws :
  ws ≠ [] → Forall (λ w, sep ∉ w) ws → split_on sep (join_with sep ws) = ws.
Proof.
  intros Hne Hws. induction ws as [|w ws IH]; [done|].
  inversion Hws as [|?? Hw Hws']; subst. destruct ws as [|w' ws].
  - by apply split_on_id.
  - change (join_with sep (w :: w' :: ws)) with (w ++ sep :: join_with sep (w' :: ws)).
    rewrite split_on_app by done. by rewrite IH.
Qed.

(** ** Printing and parsing integers *)

Lemma digits_value_app radix acc s t :
  (digits_value radix acc s).2 = length s →
  digits_value radix acc (s ++ t) =
    let r := digits_value radix (digits_value radix acc s).1 t in
    (r.1, (length s + r.2)%nat).
Proof.
  revert acc; induction s as [|c s IH]; intros acc H; simpl in *.
  - by destruct (digits_value radix acc t).
  - destruct (digit_val radix c) as [d|]; simpl in *; [|lia].
    rewrite IH by lia. done.
Qed.

Lemma digit_val_dec d : 0 ≤ d < 10 → digit_val 10 (c_zero + d) = Some d.
Proof.
  intros Hd. unfold digit_val, is_digit, c_zero.
  rewrite (proj2 (Z.leb_le 48 _)), (proj2 (Z.leb_le _ 57)) by lia; simpl.
  replace (48 + d - 48) with d by lia.
  by rewrite (proj2 (Z.ltb_lt d 10)) by lia.
Qed.

Lemma digits_value_snoc acc s d :
  0 ≤ d < 10 → (digits_value 10 acc s).2 = length s →
  digits_value 10 acc (s ++ [c_zero + d]) =
    ((digits_value 10 acc s).1 * 10 + d, S (length s)).
Proof.
  intros Hd Hs. rewrite digits_value_app by done. simpl.
  rewrite digit_val_dec by done. simpl. f_equal; lia.
Qed.

Lemma digits_fuel_app f n acc : digits_fuel f n acc = digits_fuel f n [] ++ acc.
Proof.
  revert n acc; induction f as [|f IH]; intros n acc; simpl; [done|].
  case_match; [done|]. rewrite IH, (IH _ [_]), <- app_assoc. done.
Qed.

Lemma digits_fuel_value f n :
  0 ≤ n < 10 ^ Z.of_nat f →
  digits_value 10 0 (digits_fuel f n []) = (n, length (digits_fuel f n [])).
Proof.
  revert n; induction f as [|f IH]; intros n Hn.
  - replace n with 0 by (simpl in Hn; lia). done.
  - simpl. destruct (n <? 10) eqn:E.
    + apply Z.ltb_lt in E. change [c_zero + n] with ([] ++ [c_zero + n]).
      rewrite digits_value_snoc by (simpl; lia || done). done.
    + apply Z.ltb_ge in E. rewrite digits_fuel_app.
      rewrite Nat2Z.inj_succ, Z.pow_succ_r in Hn by lia.
      assert (Hq : 0 ≤ n / 10 < 10 ^ Z.of_nat f)
        by (split; [apply Z.div_pos; lia|apply Z.div_lt_upper_bound; lia]).
      specialize (IH _ Hq). pose proof (Z.mod_pos_bound n 10 ltac:(lia)).
      rewrite digits_value_snoc by (try lia; by rewrite IH).
      rewrite IH, length_app; simpl. f_equal; [|lia].
      rewrite (Z.div_mod n 10) at 3 by lia. lia.
Qed.

Lemma log2_digits n : 0 ≤ n → n < 10 ^ Z.of_nat (S (Z.to_nat (Z.log2 n))).
Proof.
  intros Hn. pose proof (Z.log2_nonneg n) as Hl.
  rewrite Nat2Z.inj_succ, Z2Nat.id by lia.
  destruct (Z.eq_dec n 0) as [->|]; [simpl; lia|].
  destruct (Z.log2_spec n) as [_ H]; [lia|].
  eapply Z.lt_le_trans; [exact H|]. apply Z.pow_le_mono_l; lia.
Qed.

Lemma js_of_nonneg_value n :
  0 ≤ n → digits_value 10 0 (js_of_nonneg n) = (n, length (js_of_nonneg n)).
Proof. intros Hn. apply digits_fuel_value. split; [done|by apply log2_digits]. Qed.

Lemma digits_fuel_digits f n :
  0 ≤ n → Forall (λ c, is_digit c = true) (digits_fuel f n []).
Proof.
  assert (Hd : ∀ d, 0 ≤ d < 10 → is_digit (c_zero + d) = true).
  { intros d Hd. unfold is_digit, c_zero. apply andb_true_iff; split; apply Z.leb_le; lia. }
  revert n; induction f as [|f IH]; intros n Hn; simpl; [done|].
  destruct (n <? 10) eqn:E.
  - apply Z.ltb_lt in E. repeat constructor. apply Hd; lia.
  - rewrite digits_fuel_app. apply Forall_app; split; [apply IH, Z.div_pos; lia|].
    repeat constructor. apply Hd, Z.mod_pos_bound; lia.
Qed.

Lemma js_of_nonneg_digits n : 0 ≤ n → Forall (λ c, is_digit c = true) (js_of_nonneg n).
Proof. apply digits_fuel_digits. Qed.

Lemma js_of_nonneg_cons n : ∃ c s, js_of_nonneg n = c :: s.
Proof.
  unfold js_of_nonneg; simpl. case_match; [eauto|].
  rewrite digits_fuel_app. destruct (digits_fuel _ _ _); simpl; eauto.
Qed.

Lemma js_of_nonneg_inj n m :
  0 ≤ n → 0 ≤ m → js_of_nonneg n = js_of_nonneg m → n = m.
Proof.
  intros Hn Hm E. apply (f_equal (digits_value 10 0)) in E.
  rewrite !js_of_nonneg_value in E by done. by simplify_eq.
Qed.

Lemma is_digit_range c : is_digit c = true ↔ 48 ≤ c ≤ 57.
Proof. unfold is_digit. rewrite andb_true_iff, !Z.leb_le. done. Qed.

#[export] Instance js_of_Z_inj : Inj (=) (=) js_of_Z.
Proof.
  intros a b. unfold js_of_Z.
  destruct (Z.ltb_spec a 0), (Z.ltb_spec b 0); intros E.
  - injection E as E. apply js_of_nonneg_inj in E; lia.
  - pose proof (js_of_nonneg_digits b ltac:(lia)) as Hd. rewrite <- E in Hd.
    inversion Hd as [|?? Hc]; subst. rewrite is_digit_range in Hc. unfold c_minus in Hc; lia.
  - pose proof (js_of_nonneg_digits a ltac:(lia)) as Hd. rewrite E in Hd.
    inversion Hd as [|?? Hc]; subst. rewrite is_digit_range in Hc. unfold c_minus in Hc; lia.
  - apply js_of_nonneg_inj in E; lia.
Qed.

Lemma is_digit_not_space c : is_digit c = true → is_space c = false.
Proof.
  rewrite is_digit_range. intros Hc. unfold is_space.
  rewrite bool_decide_false; simpl.
  - rewrite (proj2 (Z.leb_gt 8192 c)) by lia. done.
  - rewrite !elem_of_cons, elem_of_nil. lia.
Qed.

(** A string of digits is read back in base ten. *)
Lemma parseInt_digits c s :
  Forall (λ c, is_digit c = true) (c :: s) →
  parseInt (c :: s) =
    match digits_value 10 0 (c :: s) with (_, O) => None | (v, S _) => Some v end.
Proof.
  intros Hd. inversion Hd as [|?? Hc Hs]; subst.
  unfold parseInt. simpl trim_start. rewrite is_digit_not_space by done.
  apply is_digit_range in Hc.
  assert (Hsgn : match c :: s with
                 | 45 :: s' => (-1, s') | 43 :: s' => (1, s') | _ => (1, c :: s)
                 end = (1, c :: s)).
  { repeat case_match; simplify_eq; done || lia. }
  rewrite Hsgn.
  assert (Hrad : match c :: s with
                 | 48 :: x :: s' => if Z.eqb x 120 || Z.eqb x 88 then (16, s') else (10, c :: s)
                 | _ => (10, c :: s)
                 end = (10, c :: s)).
  { destruct s as [|x s]; [by repeat case_match|].
    inversion Hs as [|?? Hx _]; subst. apply is_digit_range in Hx.
    rewrite (proj2 (Z.eqb_neq x 120)), (proj2 (Z.eqb_neq x 88)) by lia.
    by repeat case_match. }
  rewrite Hrad. by destruct (digits_value 10 0 (c :: s)) as [v [|n]]; rewrite ?Z.mul_1_l.
Qed.

(** [parseInt] reads back what [toString] printed. *)
Lemma parseInt_js_of_nonneg n : 0 ≤ n → parseInt (js_of_nonneg n) = Some n.
Proof.
  intros Hn. pose proof (js_of_nonneg_digits n Hn) as Hd.
  pose proof (js_of_nonneg_value n Hn) as Hv.
  destruct (js_of_nonneg_cons n) as (c & s & E). rewrite E in *.
  rewrite parseInt_digits by done. by rewrite Hv.
Qed.

Lemma length_padStart s n c : length (padStart s n c) = Nat.max n (length s).
Proof. unfold padStart. rewrite length_app, length_replicate. lia. Qed.

(** ** Replacement of a two-unit pattern *)

(** [has_pair a b s]: the pattern occurs in [s]. *)
Fixpoint has_pair (a b : Z) (s : jsstring) : bool :=
  match s with
  | x :: ((y :: _) as s') => (Z.eqb x a && Z.eqb y b) || has_pair a b s'
  | _ => false
  end.

Lemma replace2_id a b rep s : has_pair a b s = false → replace2 a b rep s = s.
Proof.
  induction s as [|x s IH]; [done|]. destruct s as [|y s]; [done|].
  simpl in *. intros [E1 E2]%orb_false_iff. rewrite E1. by rewrite IH.
Qed.

Lemma has_pair_notin_app a b x y : a ∉ x → has_pair a b (x ++ y) = has_pair a b y.
Proof.
  induction x as [|c x IH]; intros Hx; [done|].
  rewrite not_elem_of_cons in Hx. destruct Hx as [Hc Hx]. rewrite <- IH by done.
  simpl. rewrite (proj2 (Z.eqb_neq c a)) by done. by destruct (x ++ y).
Qed.

Lemma has_pair_notin a b x : a ∉ x → has_pair a b x = false.
Proof. intros Hx. rewrite <- (app_nil_r x). by rewrite has_pair_notin_app. Qed.

Lemma replace2_cons_ne a b rep x y s :
  y ≠ b → replace2 a b rep (x :: y :: s) = x :: replace2 a b rep (y :: s).
Proof. intros Hy. simpl. by rewrite (proj2 (Z.eqb_neq y b)), andb_false_r. Qed.

(** A match of [aa] between two parts. *)
Lemma replace2_double a rep x y :
  has_pair a a (x ++ [a]) = false →
  replace2 a a rep (x ++ a :: a :: y) = x ++ rep ++ replace2 a a rep y.
Proof.
  induction x as [|c x IH]; intros H.
  - simpl. by rewrite Z.eqb_refl.
  - specialize (IH ltac:(by destruct x; simpl in *; [|apply orb_false_iff in H as [_ ?]])).
    destruct x as [|d x]; simpl in *.
    + apply orb_false_iff in H as [-> _]. by rewrite IH.
    + apply orb_false_iff in H as [-> _]. by rewrite IH.
Qed.

#[global] Arguments js_of_nonneg : simpl never.
#[global] Arguments js_of_Z : simpl never.
#[global] Arguments parseInt : simpl never.
#[global] Arguments startsWith : simpl never.
#[global] Arguments endsWith : simpl never.
