(* ===== verification/JsNum.v ===== *)
(** * JavaScript numbers

    The integer operators on 32-bit words ([&], [|], [<<], [>>>]) on numbers
    that are integers or NaN ([option Z]), and IEEE 754 doubles with
    [Number::toString] for them. *)

From Stdlib Require Import SpecFloat.
From S2P Require Import Prelude JsString.
Local Open Scope Z_scope.

(** ** Integral numbers: [None] is NaN *)

Abbreviation intnum := (option Z).

(** ToInt32 and ToUint32. *)
Definition to_uint32 (n : intnum) : Z :=
  match n with Some z => z mod 2 ^ 32 | None => 0 end.

Definition wrap32 (z : Z) : Z :=
  let m := z mod 2 ^ 32 in if m <? 2 ^ 31 then m else m - 2 ^ 32.

Definition to_int32 (n : intnum) : Z :=
  match n with Some z => wrap32 z | None => 0 end.

Definition bit_and (a b : intnum) : Z := Z.land (to_int32 a) (to_int32 b).
Definition bit_or (a b : intnum) : Z := Z.lor (to_int32 a) (to_int32 b).
Definition shift_left (a : intnum) (n : Z) : Z := wrap32 (Z.shiftl (to_int32 a) n).
Definition shift_right_u (a : intnum) (n : Z) : Z := Z.shiftr (to_uint32 a) n.

(** Addition: NaN absorbs. *)
Definition num_add (a b : intnum) : intnum :=
  match a, b with Some x, Some y => Some (x + y) | _, _ => None end.

(** [n.toString()] and the string concatenation of a number. *)
Definition js_of_intnum (n : intnum) : jsstring :=
  match n with Some z => js_of_Z z | None => js "NaN" end.

(** [parseInt(n)] on a number reads its printed form. *)
Definition parseInt_num (n : intnum) : intnum := parseInt (js_of_intnum n).

(** Wrap-around to 32 bits. *)
Lemma wrap32_small z : 0 ≤ z < 2 ^ 31 → wrap32 z = z.
Proof.
  intros Hz. unfold wrap32. rewrite Z.mod_small by lia.
  by rewrite (proj2 (Z.ltb_lt _ _)) by lia.
Qed.

Lemma wrap32_high z : 2 ^ 31 ≤ z < 2 ^ 32 → wrap32 z = z - 2 ^ 32.
Proof.
  intros Hz. unfold wrap32. rewrite Z.mod_small by lia.
  by rewrite (proj2 (Z.ltb_ge _ _)) by lia.
Qed.

Lemma wrap32_range z : - 2 ^ 31 ≤ wrap32 z < 2 ^ 31.
Proof.
  unfold wrap32. pose proof (Z.mod_pos_bound z (2 ^ 32) ltac:(lia)).
  destruct (Z.ltb_spec (z mod 2 ^ 32) (2 ^ 31)); lia.
Qed.

Lemma wrap32_mod z : wrap32 z mod 2 ^ 32 = z mod 2 ^ 32.
Proof.
  unfold wrap32. destruct (_ <? _); [by rewrite Z.mod_mod by lia|].
  rewrite Zminus_mod, Z_mod_same_full, Z.sub_0_r, !Z.mod_mod by lia. done.
Qed.

Lemma wrap32_eq a b : a mod 2 ^ 32 = b mod 2 ^ 32 → wrap32 a = wrap32 b.
Proof. unfold wrap32. by intros ->. Qed.

Lemma wrap32_idem z : wrap32 (wrap32 z) = wrap32 z.
Proof. apply wrap32_eq, wrap32_mod. Qed.

(** Shifting a byte position: [(v << 8) + b] is [v * 256 + b] on 32 bits. *)
Lemma shift_left_8 v : shift_left (Some (wrap32 v)) 8 = wrap32 (v * 256).
Proof.
  unfold shift_left; cbn [to_int32]. apply wrap32_eq.
  rewrite wrap32_idem, Z.shiftl_mul_pow2 by lia.
  rewrite <- Z.mul_mod_idemp_l by lia. rewrite wrap32_mod. by rewrite Z.mul_mod_idemp_l by lia.
Qed.

Lemma wrap32_add_byte v b : 0 ≤ b < 256 → wrap32 (v * 256) + b = wrap32 (v * 256 + b).
Proof.
  intros Hb. set (r := v mod 2 ^ 24).
  assert (Hr : 0 ≤ r < 2 ^ 24) by (apply Z.mod_pos_bound; lia).
  assert (Hv : v = 2 ^ 24 * (v / 2 ^ 24) + r) by (apply Z.div_mod; lia).
  assert (H : ∀ c, 0 ≤ c < 256 → (v * 256 + c) mod 2 ^ 32 = 256 * r + c).
  { intros c Hc. symmetry. apply Z.mod_unique with (v / 2 ^ 24); [lia|].
    rewrite Hv at 1. lia. }
  unfold wrap32. rewrite (H b Hb). pose proof (H 0 ltac:(lia)) as H0. rewrite !Z.add_0_r in H0.
  rewrite H0. destruct (Z.ltb_spec (256 * r) (2 ^ 31)), (Z.ltb_spec (256 * r + b) (2 ^ 31)); lia.
Qed.

Lemma parseInt_num_nonneg z : 0 ≤ z → parseInt_num (Some z) = Some z.
Proof.
  intros Hz. unfold parseInt_num, js_of_intnum, js_of_Z.
  rewrite (proj2 (Z.ltb_ge z 0)) by done. by apply parseInt_js_of_nonneg.
Qed.

Lemma js_of_intnum_nonneg z : 0 ≤ z → js_of_intnum (Some z) = js_of_nonneg z.
Proof. intros Hz. simpl. unfold js_of_Z. by rewrite (proj2 (Z.ltb_ge z 0)). Qed.

(** Bit fields of bytes. *)
Lemma bit_and_nonneg a b : 0 ≤ a < 2 ^ 31 → 0 ≤ b < 2 ^ 31 →
  bit_and (Some a) (Some b) = Z.land a b.
Proof. intros Ha Hb. unfold bit_and; simpl. by rewrite !wrap32_small by lia. Qed.

Lemma bit_or_nonneg a b : 0 ≤ a < 2 ^ 31 → 0 ≤ b < 2 ^ 31 →
  bit_or (Some a) (Some b) = Z.lor a b.
Proof. intros Ha Hb. unfold bit_or; simpl. by rewrite !wrap32_small by lia. Qed.

(** ** Doubles *)

Abbreviation double := spec_float.
Definition prec64 : Z := 53.
Definition emax64 : Z := 1024.

Definition double_of_Z (z : Z) : double := binary_normalize prec64 emax64 z 0 false.
Definition dadd : double → double → double := SFadd prec64 emax64.
Definition dsub : double → double → double := SFsub prec64 emax64.
Definition dmul : double → double → double := SFmul prec64 emax64.
Definition ddiv : double → double → double := SFdiv prec64 emax64.
Definition dlt : double → double → bool := SFltb.
Definition dle : double → double → bool := SFleb.
Definition deq : double → double → bool := SFeqb.

(** The 32-bit pattern of a single as a double: every single is a double. *)
Definition double_of_f32_bits (w : Z) : double :=
  let sign := Z.testbit w 31 in
  let ex := Z.land (Z.shiftr w 23) 255 in
  let mant := Z.land w (2 ^ 23 - 1) in
  if ex =? 255 then (if mant =? 0 then S754_infinity sign else S754_nan)
  else if ex =? 0 then
    (if mant =? 0 then S754_zero sign
     else binary_normalize prec64 emax64 (if sign then - mant else mant) (-149) sign)
  else let m := mant + 2 ^ 23 in
       binary_normalize prec64 emax64 (if sign then - m else m) (ex - 150) sign.

(** [Number::toString]: the shortest digits that round back to the double
    [m * 2^e].  A candidate [s * 10^(n-k)] rounds back when it lies between
    the midpoints to the neighbours (included when [m] is even, ties going to
    even). Everything is scaled to integers: [pow_frac b x] is [b^x] as a
    fraction. *)
Definition pow_frac (b x : Z) : Z * Z := if 0 <=? x then (b ^ x, 1) else (1, b ^ (- x)).

(** [s * 10^t] compared with [q/4 * 2^e]. *)
Definition cmp_scaled (s t q e : Z) : comparison :=
  let '(tn, td) := pow_frac 10 t in
  let '(en, ed) := pow_frac 2 e in
  Z.compare (4 * s * tn * ed) (q * en * td).

Definition rounds_back (m e s t : Z) : bool :=
  let low := if (m =? 2 ^ 52) && (-1074 <? e) then 4 * m - 1 else 4 * m - 2 in
  let high := 4 * m + 2 in
  match cmp_scaled s t low e with
  | Lt => false
  | Eq => Z.even m
  | Gt => true
  end &&
  match cmp_scaled s t high e with
  | Gt => false
  | Eq => Z.even m
  | Lt => true
  end.

(** The decimal exponent [n] with [10^(n-1) <= m*2^e < 10^n], searched from a
    lower estimate. *)
Fixpoint dec_exponent (fuel : nat) (m e n : Z) : Z :=
  match fuel with
  | O => n
  | S f => match cmp_scaled 1 n (4 * m) e with
           | Gt => n
           | _ => dec_exponent f m e (n + 1)
           end
  end.

(** [floor (m * 2^e / 10^t)] *)
Definition scaled_floor (m e t : Z) : Z :=
  let '(tn, td) := pow_frac 10 t in
  let '(en, ed) := pow_frac 2 e in
  (m * en * td) / (ed * tn).

(** The shortest [(s, k)]; of two candidates of one length the closer. *)
Fixpoint shortest (fuel : nat) (m e n k : Z) : Z * Z :=
  let t := n - k in
  let s0 := scaled_floor m e t in
  let s1 := s0 + 1 in
  match fuel with
  | O => (s0, k)
  | S f =>
      match rounds_back m e s0 t, rounds_back m e s1 t with
      | true, true =>
          (match cmp_scaled (s0 + s1) t (8 * m) e with Lt => s1 | _ => s0 end, k)
      | true, false => (s0, k)
      | false, true => (s1, k)
      | false, false => shortest f m e n (k + 1)
      end
  end.

(** Layout of the digits [ds] ([k] of them) with exponent [n]. *)
Definition layout (ds : jsstring) (k n : Z) : jsstring :=
  if (k <=? n) && (n <=? 21) then ds ++ replicate (Z.to_nat (n - k)) c_zero
  else if (0 <? n) && (n <=? 21) then take (Z.to_nat n) ds ++ js "." ++ drop (Z.to_nat n) ds
  else if (-6 <? n) && (n <=? 0) then js "0." ++ replicate (Z.to_nat (- n)) c_zero ++ ds
  else
    let ex := (if 0 <? n then js "e+" else js "e-") ++ js_of_nonneg (Z.abs (n - 1)) in
    match ds with
    | [d] => d :: ex
    | d :: ds' => d :: js "." ++ ds' ++ ex
    | [] => ex
    end.

Definition js_of_finite (m e : Z) : jsstring :=
  let n := dec_exponent 700 m e (((Z.log2 m + e) * 3) / 10 - 1) in
  let '(s, k) := shortest 17 m e n 1 in
  let '(s, n) := if s =? 10 ^ k then (10 ^ (k - 1), n + 1) else (s, n) in
  layout (js_of_nonneg s) k n.

Definition js_of_double (d : double) : jsstring :=
  match d with
  | S754_nan => js "NaN"
  | S754_zero _ => js "0"
  | S754_infinity s => if s then js "-Infinity" else js "Infinity"
  | S754_finite s m e =>
      if s then c_minus :: js_of_finite (Zpos m) e else js_of_finite (Zpos m) e
  end.

#[global] Arguments js_of_double : simpl never.
#[global] Arguments double_of_f32_bits : simpl never.
#[global] Arguments wrap32 : simpl never.
#[global] Arguments to_int32 : simpl never.
#[global] Arguments to_uint32 : simpl never.

Example js_of_double_int : js_of_double (double_of_Z 180) = js "180".
Proof. vm_compute. reflexivity. Qed.

Example js_of_double_tenth :
  js_of_double (double_of_f32_bits 0x3DCCCCCD) = js "0.10000000149011612".
Proof. vm_compute. reflexivity. Qed.

Example js_of_double_frac : js_of_double (ddiv (double_of_Z 1) (double_of_Z 10)) = js "0.1".
Proof. vm_compute. reflexivity. Qed.

Example js_of_double_small :
  js_of_double (double_of_f32_bits 0x00000001) = js "1.401298464324817e-45".
Proof. vm_compute. reflexivity. Qed.

Example js_of_double_large :
  js_of_double (double_of_f32_bits 0xFF7FFFFF) = js "-3.4028234663852886e+38".
Proof. vm_compute. reflexivity. Qed.

(** ** StringToNumber *)

Fixpoint trim_end (s : jsstring) : jsstring :=
  match s with
  | [] => []
  | c :: s' => match trim_end s' with
               | [] => if is_space c then [] else [c]
               | t => c :: t
               end
  end.
Definition trim (s : jsstring) : jsstring := trim_end (trim_start s).

(** [d * 10^e], correctly rounded. *)
Definition double_of_decimal (neg : bool) (d e : Z) : double :=
  if d =? 0 then S754_zero neg
  else if 0 <=? e then binary_normalize prec64 emax64 (if neg then - (d * 10 ^ e) else d * 10 ^ e) 0 neg
  else match d, 10 ^ (- e) with
       | Zpos m, Zpos p => ddiv (S754_finite neg m 0) (S754_finite false p 0)
       | _, _ => S754_nan
       end.

(** The rest of a decimal literal after its digits: an exponent part or
    nothing; [None] is a syntax error. *)
Definition exponent_part (s : jsstring) : option Z :=
  match s with
  | [] => Some 0
  | c :: s' =>
      if (c =? 101) || (c =? 69) then
        let '(sign, s'') := match s' with
                            | 45 :: t => (-1, t)
                            | 43 :: t => (1, t)
                            | _ => (1, s')
                            end in
        match digits_value 10 0 s'' with
        | (v, S n) => if Nat.eqb (S n) (length s'') then Some (sign * v) else None
        | (_, O) => None
        end
      else None
  end.

Definition decimal_literal (neg : bool) (s : jsstring) : double :=
  let '(ip, n) := digits_value 10 0 s in
  let rest := drop n s in
  let '(v, frac, rest) :=
    match rest with
    | 46 :: t => let '(v, k) := digits_value 10 ip t in (v, k, drop k t)
    | _ => (ip, O, rest)
    end in
  if Nat.eqb (n + frac) 0 then S754_nan
  else match exponent_part rest with
       | Some e => double_of_decimal neg v (e - Z.of_nat frac)
       | None => S754_nan
       end.

Definition radix_literal (radix : Z) (s : jsstring) : double :=
  match digits_value radix 0 s with
  | (v, S n) => if Nat.eqb (S n) (length s) then double_of_decimal false v 0 else S754_nan
  | (_, O) => S754_nan
  end.

Definition toNumber (s : jsstring) : double :=
  let s := trim s in
  match s with
  | [] => S754_zero false
  | 48 :: x :: t =>
      if (x =? 120) || (x =? 88) then radix_literal 16 t
      else if (x =? 111) || (x =? 79) then radix_literal 8 t
      else if (x =? 98) || (x =? 66) then radix_literal 2 t
      else decimal_literal false s
  | _ =>
      let '(neg, t) := match s with
                       | 45 :: t => (true, t)
                       | 43 :: t => (false, t)
                       | _ => (false, s)
                       end in
      if bool_decide (t = js "Infinity") then S754_infinity neg else decimal_literal neg t
  end.

#[global] Arguments toNumber : simpl never.

Definition double_one : double := double_of_Z 1.

Example toNumber_tenth : js_of_double (toNumber (js " -12.50e1 ")) = js "-125".
Proof. vm_compute. reflexivity. Qed.
Example toNumber_dec : toNumber (js ".1") = ddiv (double_of_Z 1) (double_of_Z 10).
Proof. vm_compute. reflexivity. Qed.
Example toNumber_hex : toNumber (js "0xff") = double_of_Z 255.
Proof. vm_compute. reflexivity. Qed.
Example toNumber_bad : toNumber (js "12px") = S754_nan.
Proof. vm_compute. reflexivity. Qed.

(** ** The order on doubles *)

Lemma dle_spec x y :
  dle x y = true ↔ ∃ c, SFcompare x y = Some c ∧ c ≠ Gt.
Proof.
  unfold dle, SFleb. destruct (SFcompare x y) as [[]|]; split; try done; intros; try (by eexists);
    by destruct H as (? & [= <-] & ?).
Qed.

Lemma dle_trans x y z : dle x y = true → dle y z = true → dle x z = true.
Proof.
  rewrite !dle_spec. intros (c1 & H1 & N1) (c2 & H2 & N2).
  destruct x as [[]|[]| |[] m1 e1], y as [[]|[]| |[] m2 e2], z as [[]|[]| |[] m3 e3];
    cbn [SFcompare] in *; simplify_eq; try done; try (by eexists); eexists; split; try done;
    change (Pos.compare_cont Eq) with Pos.compare in *;
    destruct (Z.compare_spec e1 e2), (Z.compare_spec e2 e3), (Z.compare_spec e1 e3),
    (Pos.compare_spec m1 m2), (Pos.compare_spec m2 m3), (Pos.compare_spec m1 m3); simpl in *;
    intros; first [discriminate|done|lia].
Qed.

(** The order is total on numbers other than NaN. *)
Definition is_nan (d : double) : bool := match d with S754_nan => true | _ => false end.

Lemma SFcompare_opp x y : SFcompare y x = CompOpp <$> SFcompare x y.
Proof.
  destruct x as [[]|[]| |[] m1 e1], y as [[]|[]| |[] m2 e2]; try done; cbn [SFcompare]; simpl;
    change (Pos.compare_cont Eq) with Pos.compare;
    rewrite (Z.compare_antisym e1 e2), (Pos.compare_antisym m1 m2);
    by destruct (e1 ?= e2), (m1 ?= m2)%positive.
Qed.

Lemma SFcompare_total x y : is_nan x = false → is_nan y = false → is_Some (SFcompare x y).
Proof. destruct x as [[]|[]| |[] m1 e1], y as [[]|[]| |[] m2 e2]; try done; by eexists. Qed.

Lemma dlt_dle x y :
  is_nan x = false → is_nan y = false → dlt x y = negb (dle y x).
Proof.
  intros Hx Hy. destruct (SFcompare_total x y Hx Hy) as [c Hc].
  unfold dlt, dle, SFltb, SFleb. rewrite (SFcompare_opp x y), Hc. by destruct c.
Qed.

Lemma dle_not_nan x y : dle x y = true → is_nan x = false ∧ is_nan y = false.
Proof. by destruct x as [[]|[]| |[]], y as [[]|[]| |[]]. Qed.

(** ** Values and the operators on them

    The kinds of value the page scripts compute with: a comparison or an
    arithmetic operator converts its operands to numbers, except that [+]
    concatenates when one operand is a string and [<] on two strings compares
    code units. *)

Inductive jsval :=
  | VUndef
  | VNum (d : double)
  | VStr (s : jsstring).

Definition toNum (v : jsval) : double :=
  match v with VUndef => S754_nan | VNum d => d | VStr s => toNumber s end.
Definition toStr (v : jsval) : jsstring :=
  match v with VUndef => js "undefined" | VNum d => js_of_double d | VStr s => s end.

Fixpoint str_lt (s t : jsstring) : bool :=
  match s, t with
  | _, [] => false
  | [], _ => true
  | a :: s', b :: t' => (a <? b) || ((a =? b) && str_lt s' t')
  end.

Definition js_lt (a b : jsval) : bool :=
  match a, b with
  | VStr s, VStr t => str_lt s t
  | _, _ => dlt (toNum a) (toNum b)
  end.
(** [a <= b] *)
Definition js_le (a b : jsval) : bool :=
  match a, b with
  | VStr s, VStr t => negb (str_lt t s)
  | _, _ => dle (toNum a) (toNum b)
  end.
Definition js_add (a b : jsval) : jsval :=
  match a, b with
  | VStr _, _ | _, VStr _ => VStr (toStr a ++ toStr b)
  | _, _ => VNum (dadd (toNum a) (toNum b))
  end.
Definition js_sub (a b : jsval) : jsval := VNum (dsub (toNum a) (toNum b)).
Definition js_mul (a b : jsval) : jsval := VNum (dmul (toNum a) (toNum b)).
Definition js_div (a b : jsval) : jsval := VNum (ddiv (toNum a) (toNum b)).

(** The remainder [x % y] has the sign of [x]. *)
Definition dmod (x y : double) : double :=
  match x, y with
  | S754_nan, _ | _, S754_nan | S754_infinity _, _ | _, S754_zero _ => S754_nan
  | S754_zero _, _ | _, S754_infinity _ => x
  | S754_finite s m e, S754_finite _ m' e' =>
      let e0 := Z.min e e' in
      let r := (Zpos m * 2 ^ (e - e0)) mod (Zpos m' * 2 ^ (e' - e0)) in
      binary_normalize prec64 emax64 (if s then - r else r) e0 s
  end.
Definition js_mod (a b : jsval) : jsval := VNum (dmod (toNum a) (toNum b)).

Definition num (z : Z) : jsval := VNum (double_of_Z z).

#[export] Instance spec_float_eq_dec : EqDecision spec_float.
Proof. solve_decision. Defined.
#[export] Instance jsval_eq_dec : EqDecision jsval.
Proof. solve_decision. Defined.

Example js_mod_neg : js_mod (num (-7)) (num 2) = num (-1).
Proof. vm_compute. reflexivity. Qed.
