(* ===== verification/VssData.v ===== *)
(** * The code tables of the payload decoder

    [keywords] is [keywordlist["keywords"]] of uuiddata.js and [leafPaths] is
    [uuidlist["LeafPaths"]] of vsspathlist.js, entry by entry and in order:
    the decoder of w3cdecompress.js indexes both arrays. *)

From S2P Require Import Prelude JsString.
Local Open Scope string_scope.

(** uuiddata.js: [keywordlist["keywords"]]. *)
Definition keywords : list string := [
  "action";
  "requestId";
  "value";
  "ts";
  "path";
  "subscriptionId";
  "data";
  "dp";
  "filter";
  "authorization";
  "get";
  "set";
  "subscribe";
  "unsubscribe";
  "subscription";
  "nuint8";
  "uint8";
  "nuint16";
  "uint16";
  "nuint24";
  "uint24";
  "nuint32";
  "uint32";
  "bool";
  "float";
  "unknown"
].

(** vsspathlist.js, lines 3 to 122. *)
Definition leafPaths_1 : list string := [
  "Vehicle.ADAS.ABS.Error";
  "Vehicle.ADAS.ABS.IsActive";
  "Vehicle.ADAS.ABS.IsEngaged";
  "Vehicle.ADAS.CruiseControl.Error";
  "Vehicle.ADAS.CruiseControl.IsActive";
  "Vehicle.ADAS.CruiseControl.SpeedSet";
  "Vehicle.ADAS.ESC.Error";
  "Vehicle.ADAS.ESC.IsActive";
  "Vehicle.ADAS.ESC.IsEngaged";
  "Vehicle.ADAS.LaneDepartureDetection.Error";
  "Vehicle.ADAS.LaneDepartureDetection.IsActive";
  "Vehicle.ADAS.LaneDepartureDetection.Warning";
  "Vehicle.ADAS.ObstacleDetection.DistanceToObject";
  "Vehicle.ADAS.ObstacleDetection.Error";
  "Vehicle.ADAS.ObstacleDetection.IsActive";
  "Vehicle.ADAS.TCS.Error";
  "Vehicle.ADAS.TCS.IsActive";
  "Vehicle.ADAS.TCS.IsEngaged";
  "Vehicle.Acceleration.Lateral";
  "Vehicle.Acceleration.Longitudinal";
  "Vehicle.Acceleration.Vertical";
  "Vehicle.AmbientAirTemperature";
  "Vehicle.AngularVelocity.Pitch";
  "Vehicle.AngularVelocity.Roll";
  "Vehicle.AngularVelocity.Yaw";
  "Vehicle.AverageSpeed";
  "Vehicle.Body.BodyType";
  "Vehicle.Body.ChargingPort.Type";
  "Vehicle.Body.Hood.IsOpen";
  "Vehicle.Body.Horn.IsActive";
  "Vehicle.Body.Lights.IsBackupOn";
  "Vehicle.Body.Lights.IsBrakeOn";
  "Vehicle.Body.Lights.IsFrontFogOn";
  "Vehicle.Body.Lights.IsHazardOn";
  "Vehicle.Body.Lights.IsHighBeamOn";
  "Vehicle.Body.Lights.IsLeftIndicatorOn";
  "Vehicle.Body.Lights.IsLowBeamOn";
  "Vehicle.Body.Lights.IsParkingOn";
  "Vehicle.Body.Lights.IsRearFogOn";
  "Vehicle.Body.Lights.IsRightIndicatorOn";
  "Vehicle.Body.Lights.IsRunningOn";
  "Vehicle.Body.Mirrors.Heating.Status";
  "Vehicle.Body.Mirrors.Pan";
  "Vehicle.Body.Mirrors.Tilt";
  "Vehicle.Body.Raindetection.intensity";
  "Vehicle.Body.RefuelPosition";
  "Vehicle.Body.Trunk.IsLocked";
  "Vehicle.Body.Trunk.IsOpen";
  "Vehicle.Body.Windshield.Heating.Status";
  "Vehicle.Body.Windshield.WasherFluid.Level";
  "Vehicle.Body.Windshield.WasherFluid.LevelLow";
  "Vehicle.Body.Windshield.Wiping.Status";
  "Vehicle.Cabin.Convertible.Status";
  "Vehicle.Cabin.Door.IsChildLockActive";
  "Vehicle.Cabin.Door.IsLocked";
  "Vehicle.Cabin.Door.IsOpen";
  "Vehicle.Cabin.Door.Shade.Position";
  "Vehicle.Cabin.Door.Shade.Switch";
  "Vehicle.Cabin.Door.Window.ChildLock";
  "Vehicle.Cabin.Door.Window.Position";
  "Vehicle.Cabin.Door.Window.Switch";
  "Vehicle.Cabin.Door.Window.isOpen";
  "Vehicle.Cabin.DoorCount";
  "Vehicle.Cabin.DriverPosition";
  "Vehicle.Cabin.HVAC.AmbientAirTemperature";
  "Vehicle.Cabin.HVAC.IsAirConditioningActive";
  "Vehicle.Cabin.HVAC.IsFrontDefrosterActive";
  "Vehicle.Cabin.HVAC.IsRearDefrosterActive";
  "Vehicle.Cabin.HVAC.IsRecirculationActive";
  "Vehicle.Cabin.HVAC.Station.AirDistribution";
  "Vehicle.Cabin.HVAC.Station.FanSpeed";
  "Vehicle.Cabin.HVAC.Station.Temperature";
  "Vehicle.Cabin.Infotainment.HMI.CurrentLanguage";
  "Vehicle.Cabin.Infotainment.HMI.DateFormat";
  "Vehicle.Cabin.Infotainment.HMI.DayNightMode";
  "Vehicle.Cabin.Infotainment.HMI.DistanceUnit";
  "Vehicle.Cabin.Infotainment.HMI.EVEconomyUnits";
  "Vehicle.Cabin.Infotainment.HMI.FuelEconomyUnits";
  "Vehicle.Cabin.Infotainment.HMI.TemperatureUnit";
  "Vehicle.Cabin.Infotainment.HMI.TimeFormat";
  "Vehicle.Cabin.Infotainment.Media.Action";
  "Vehicle.Cabin.Infotainment.Media.DeclinedURI";
  "Vehicle.Cabin.Infotainment.Media.Played.Album";
  "Vehicle.Cabin.Infotainment.Media.Played.Artist";
  "Vehicle.Cabin.Infotainment.Media.Played.Source";
  "Vehicle.Cabin.Infotainment.Media.Played.Track";
  "Vehicle.Cabin.Infotainment.Media.Played.URI";
  "Vehicle.Cabin.Infotainment.Media.SelectedURI";
  "Vehicle.Cabin.Infotainment.Media.Volume";
  "Vehicle.Cabin.Infotainment.Navigation.CurrentLocation.Accuracy";
  "Vehicle.Cabin.Infotainment.Navigation.CurrentLocation.Altitude";
  "Vehicle.Cabin.Infotainment.Navigation.CurrentLocation.Heading";
  "Vehicle.Cabin.Infotainment.Navigation.CurrentLocation.Latitude";
  "Vehicle.Cabin.Infotainment.Navigation.CurrentLocation.Longitude";
  "Vehicle.Cabin.Infotainment.Navigation.CurrentLocation.Speed";
  "Vehicle.Cabin.Infotainment.Navigation.DestinationSet.Latitude";
  "Vehicle.Cabin.Infotainment.Navigation.DestinationSet.Longitude";
  "Vehicle.Cabin.Lights.AmbientLight";
  "Vehicle.Cabin.Lights.IsDomeOn";
  "Vehicle.Cabin.Lights.IsGloveBoxOn";
  "Vehicle.Cabin.Lights.IsTrunkOn";
  "Vehicle.Cabin.Lights.LightIntensity";
  "Vehicle.Cabin.Lights.Spotlight.IsPassengerOn";
  "Vehicle.Cabin.Lights.Spotlight.IsSharedOn";
  "Vehicle.Cabin.RearShade.Position";
  "Vehicle.Cabin.RearShade.Switch";
  "Vehicle.Cabin.RearviewMirror.DimmingLevel";
  "Vehicle.Cabin.Seat.Airbag.IsDeployed";
  "Vehicle.Cabin.Seat.Cushion.Height";
  "Vehicle.Cabin.Seat.Cushion.Length";
  "Vehicle.Cabin.Seat.HasPassenger";
  "Vehicle.Cabin.Seat.HeadRestraint.Height";
  "Vehicle.Cabin.Seat.Heating";
  "Vehicle.Cabin.Seat.IsBelted";
  "Vehicle.Cabin.Seat.Lumbar.Height";
  "Vehicle.Cabin.Seat.Lumbar.Inflation";
  "Vehicle.Cabin.Seat.Massage";
  "Vehicle.Cabin.Seat.Position";
  "Vehicle.Cabin.Seat.Recline";
  "Vehicle.Cabin.Seat.SideBolster.Inflation"
].

(** vsspathlist.js, lines 123 to 242. *)
Definition leafPaths_2 : list string := [
  "Vehicle.Cabin.Seat.Switch.Backward";
  "Vehicle.Cabin.Seat.Switch.Cooler";
  "Vehicle.Cabin.Seat.Switch.Cushion.Backward";
  "Vehicle.Cabin.Seat.Switch.Cushion.Down";
  "Vehicle.Cabin.Seat.Switch.Cushion.Forward";
  "Vehicle.Cabin.Seat.Switch.Cushion.Up";
  "Vehicle.Cabin.Seat.Switch.Down";
  "Vehicle.Cabin.Seat.Switch.Forward";
  "Vehicle.Cabin.Seat.Switch.HeadRestraint.Down";
  "Vehicle.Cabin.Seat.Switch.HeadRestraint.Up";
  "Vehicle.Cabin.Seat.Switch.Lumbar.Deflate";
  "Vehicle.Cabin.Seat.Switch.Lumbar.Down";
  "Vehicle.Cabin.Seat.Switch.Lumbar.Inflate";
  "Vehicle.Cabin.Seat.Switch.Lumbar.Up";
  "Vehicle.Cabin.Seat.Switch.Massage.Decrease";
  "Vehicle.Cabin.Seat.Switch.Massage.Increase";
  "Vehicle.Cabin.Seat.Switch.Recline.Backward";
  "Vehicle.Cabin.Seat.Switch.Recline.Forward";
  "Vehicle.Cabin.Seat.Switch.SideBolster.Deflate";
  "Vehicle.Cabin.Seat.Switch.SideBolster.Inflate";
  "Vehicle.Cabin.Seat.Switch.Up";
  "Vehicle.Cabin.Seat.Switch.Warmer";
  "Vehicle.Cabin.SeatPosCount";
  "Vehicle.Cabin.SeatRowCount";
  "Vehicle.Cabin.SteeringWheel.Position";
  "Vehicle.Cabin.Sunroof.Position";
  "Vehicle.Cabin.Sunroof.Shade.Position";
  "Vehicle.Cabin.Sunroof.Shade.Switch";
  "Vehicle.Cabin.Sunroof.Switch";
  "Vehicle.Chassis.Accelerator.PedalPosition";
  "Vehicle.Chassis.Axle.TireDiameter";
  "Vehicle.Chassis.Axle.TireWidth";
  "Vehicle.Chassis.Axle.Wheel.Brake.BrakesWorn";
  "Vehicle.Chassis.Axle.Wheel.Brake.FluidLevel";
  "Vehicle.Chassis.Axle.Wheel.Brake.FluidLevelLow";
  "Vehicle.Chassis.Axle.Wheel.Brake.PadWear";
  "Vehicle.Chassis.Axle.Wheel.Tire.Pressure";
  "Vehicle.Chassis.Axle.Wheel.Tire.PressureLow";
  "Vehicle.Chassis.Axle.Wheel.Tire.Temperature";
  "Vehicle.Chassis.Axle.WheelCount";
  "Vehicle.Chassis.Axle.WheelDiameter";
  "Vehicle.Chassis.Axle.WheelWidth";
  "Vehicle.Chassis.AxleCount";
  "Vehicle.Chassis.Brake.PedalPosition";
  "Vehicle.Chassis.CurbWeight";
  "Vehicle.Chassis.GrossWeight";
  "Vehicle.Chassis.Height";
  "Vehicle.Chassis.Length";
  "Vehicle.Chassis.ParkingBrake.IsEngaged";
  "Vehicle.Chassis.SteeringWheel.Angle";
  "Vehicle.Chassis.SteeringWheel.Extension";
  "Vehicle.Chassis.SteeringWheel.Tilt";
  "Vehicle.Chassis.TowWeight";
  "Vehicle.Chassis.Track";
  "Vehicle.Chassis.Trailer.Connected";
  "Vehicle.Chassis.Wheelbase";
  "Vehicle.Chassis.Width";
  "Vehicle.DriveTime";
  "Vehicle.IdleTime";
  "Vehicle.IgnitionOffTime";
  "Vehicle.IgnitionOnTime";
  "Vehicle.IsMoving";
  "Vehicle.OBD.AbsoluteLoad";
  "Vehicle.OBD.AcceleratorPositionD";
  "Vehicle.OBD.AcceleratorPositionE";
  "Vehicle.OBD.AcceleratorPositionF";
  "Vehicle.OBD.AirStatus";
  "Vehicle.OBD.AmbientAirTemperature";
  "Vehicle.OBD.AuxInputStatus";
  "Vehicle.OBD.BarometricPressure";
  "Vehicle.OBD.Catalyst.Bank1.Temperature1";
  "Vehicle.OBD.Catalyst.Bank1.Temperature2";
  "Vehicle.OBD.Catalyst.Bank2.Temperature1";
  "Vehicle.OBD.Catalyst.Bank2.Temperature2";
  "Vehicle.OBD.CommandedEGR";
  "Vehicle.OBD.CommandedEVAP";
  "Vehicle.OBD.CommandedEquivalenceRatio";
  "Vehicle.OBD.ControlModuleVoltage";
  "Vehicle.OBD.CoolantTemperature";
  "Vehicle.OBD.DistanceSinceDTCClear";
  "Vehicle.OBD.DistanceWithMIL";
  "Vehicle.OBD.DriveCycleStatus.DTCCount";
  "Vehicle.OBD.DriveCycleStatus.IgnitionType";
  "Vehicle.OBD.DriveCycleStatus.MIL";
  "Vehicle.OBD.EGRError";
  "Vehicle.OBD.EVAPVaporPressure";
  "Vehicle.OBD.EVAPVaporPressureAbsolute";
  "Vehicle.OBD.EVAPVaporPressureAlternate";
  "Vehicle.OBD.EngineLoad";
  "Vehicle.OBD.EngineSpeed";
  "Vehicle.OBD.EthanolPercent";
  "Vehicle.OBD.FreezeDTC";
  "Vehicle.OBD.FuelInjectionTiming";
  "Vehicle.OBD.FuelLevel";
  "Vehicle.OBD.FuelPressure";
  "Vehicle.OBD.FuelRailPressureAbsolute";
  "Vehicle.OBD.FuelRailPressureDirect";
  "Vehicle.OBD.FuelRailPressureVac";
  "Vehicle.OBD.FuelRate";
  "Vehicle.OBD.FuelStatus";
  "Vehicle.OBD.FuelType";
  "Vehicle.OBD.HybridBatteryRemaining";
  "Vehicle.OBD.IntakeTemp";
  "Vehicle.OBD.LongTermFuelTrim1";
  "Vehicle.OBD.LongTermFuelTrim2";
  "Vehicle.OBD.LongTermO2Trim1";
  "Vehicle.OBD.LongTermO2Trim2";
  "Vehicle.OBD.MAF";
  "Vehicle.OBD.MAP";
  "Vehicle.OBD.MaxMAF";
  "Vehicle.OBD.O2.Bank1.Sensor1.Voltage";
  "Vehicle.OBD.O2.Bank1.Sensor2.Voltage";
  "Vehicle.OBD.O2.Bank1.Sensor3.Voltage";
  "Vehicle.OBD.O2.Bank1.Sensor4.Voltage";
  "Vehicle.OBD.O2.Bank2.Sensor1.Voltage";
  "Vehicle.OBD.O2.Bank2.Sensor2.Voltage";
  "Vehicle.OBD.O2.Bank2.Sensor3.Voltage";
  "Vehicle.OBD.O2.Bank2.Sensor4.Voltage";
  "Vehicle.OBD.O2WR.Sensor1.Current";
  "Vehicle.OBD.O2WR.Sensor1.Voltage"
].

(** vsspathlist.js, lines 243 to 354. *)
Definition leafPaths_3 : list string := [
  "Vehicle.OBD.O2WR.Sensor2.Current";
  "Vehicle.OBD.O2WR.Sensor2.Voltage";
  "Vehicle.OBD.O2WR.Sensor3.Current";
  "Vehicle.OBD.O2WR.Sensor3.Voltage";
  "Vehicle.OBD.O2WR.Sensor4.Current";
  "Vehicle.OBD.O2WR.Sensor4.Voltage";
  "Vehicle.OBD.O2WR.Sensor5.Current";
  "Vehicle.OBD.O2WR.Sensor5.Voltage";
  "Vehicle.OBD.O2WR.Sensor6.Current";
  "Vehicle.OBD.O2WR.Sensor6.Voltage";
  "Vehicle.OBD.O2WR.Sensor7.Current";
  "Vehicle.OBD.O2WR.Sensor7.Voltage";
  "Vehicle.OBD.O2WR.Sensor8.Current";
  "Vehicle.OBD.O2WR.Sensor8.Voltage";
  "Vehicle.OBD.OilTemperature";
  "Vehicle.OBD.PidsA";
  "Vehicle.OBD.PidsB";
  "Vehicle.OBD.PidsC";
  "Vehicle.OBD.RelativeAcceleratorPosition";
  "Vehicle.OBD.RelativeThrottlePosition";
  "Vehicle.OBD.RunTime";
  "Vehicle.OBD.RunTimeMIL";
  "Vehicle.OBD.ShortTermFuelTrim1";
  "Vehicle.OBD.ShortTermFuelTrim2";
  "Vehicle.OBD.ShortTermO2Trim1";
  "Vehicle.OBD.ShortTermO2Trim2";
  "Vehicle.OBD.Speed";
  "Vehicle.OBD.Status.DTCCount";
  "Vehicle.OBD.Status.IgnitionType";
  "Vehicle.OBD.Status.MIL";
  "Vehicle.OBD.ThrottleActuator";
  "Vehicle.OBD.ThrottlePosition";
  "Vehicle.OBD.ThrottlePositionB";
  "Vehicle.OBD.ThrottlePositionC";
  "Vehicle.OBD.TimeSinceDTCCleared";
  "Vehicle.OBD.TimingAdvance";
  "Vehicle.OBD.WarmupsSinceDTCClear";
  "Vehicle.Powertrain.AccumulatedBrakingEnergy";
  "Vehicle.Powertrain.EnergyStorage.Battery.Battery.AccumulatedChargedEnergy";
  "Vehicle.Powertrain.EnergyStorage.Battery.Battery.AccumulatedConsumedEnergy";
  "Vehicle.Powertrain.EnergyStorage.Battery.Battery.GrossCapacity";
  "Vehicle.Powertrain.EnergyStorage.Battery.Battery.NetCapacity";
  "Vehicle.Powertrain.EnergyStorage.Battery.Battery.NominalVoltage";
  "Vehicle.Powertrain.EnergyStorage.Battery.Battery.ReferentVoltage";
  "Vehicle.Powertrain.EnergyStorage.Battery.Battery.StateOfCharge.Displayed";
  "Vehicle.Powertrain.EnergyStorage.Battery.Battery.StateOfCharge.Target";
  "Vehicle.Powertrain.EnergyStorage.Battery.Battery.Temperature";
  "Vehicle.Powertrain.EnergyStorage.FuelSystem.AverageConsumption";
  "Vehicle.Powertrain.EnergyStorage.FuelSystem.ConsumptionSinceStart";
  "Vehicle.Powertrain.EnergyStorage.FuelSystem.EngineStopStartEnabled";
  "Vehicle.Powertrain.EnergyStorage.FuelSystem.FuelType";
  "Vehicle.Powertrain.EnergyStorage.FuelSystem.HybridType";
  "Vehicle.Powertrain.EnergyStorage.FuelSystem.InstantConsumption";
  "Vehicle.Powertrain.EnergyStorage.FuelSystem.Level";
  "Vehicle.Powertrain.EnergyStorage.FuelSystem.LowFuelLevel";
  "Vehicle.Powertrain.EnergyStorage.FuelSystem.Range";
  "Vehicle.Powertrain.EnergyStorage.FuelSystem.TankCapacity";
  "Vehicle.Powertrain.EnergyStorage.FuelSystem.TimeSinceStart";
  "Vehicle.Powertrain.PowerSource.CombustionEngine.Configuration";
  "Vehicle.Powertrain.PowerSource.CombustionEngine.Displacement";
  "Vehicle.Powertrain.PowerSource.CombustionEngine.Engine.AmbientAirTemperature";
  "Vehicle.Powertrain.PowerSource.CombustionEngine.Engine.ECT";
  "Vehicle.Powertrain.PowerSource.CombustionEngine.Engine.EOP";
  "Vehicle.Powertrain.PowerSource.CombustionEngine.Engine.EOT";
  "Vehicle.Powertrain.PowerSource.CombustionEngine.Engine.MAF";
  "Vehicle.Powertrain.PowerSource.CombustionEngine.Engine.MAP";
  "Vehicle.Powertrain.PowerSource.CombustionEngine.Engine.Power";
  "Vehicle.Powertrain.PowerSource.CombustionEngine.Engine.Speed";
  "Vehicle.Powertrain.PowerSource.CombustionEngine.Engine.TPS";
  "Vehicle.Powertrain.PowerSource.CombustionEngine.Engine.Torque";
  "Vehicle.Powertrain.PowerSource.CombustionEngine.FuelType";
  "Vehicle.Powertrain.PowerSource.CombustionEngine.MaxPower";
  "Vehicle.Powertrain.PowerSource.CombustionEngine.MaxTorque";
  "Vehicle.Powertrain.Transmission.ClutchWear";
  "Vehicle.Powertrain.Transmission.DriveType";
  "Vehicle.Powertrain.Transmission.Gear";
  "Vehicle.Powertrain.Transmission.GearChangeMode";
  "Vehicle.Powertrain.Transmission.GearCount";
  "Vehicle.Powertrain.Transmission.PerformanceMode";
  "Vehicle.Powertrain.Transmission.Speed";
  "Vehicle.Powertrain.Transmission.Temperature";
  "Vehicle.Powertrain.Transmission.TravelledDistance";
  "Vehicle.Powertrain.Transmission.Type";
  "Vehicle.RoofLoad";
  "Vehicle.Speed";
  "Vehicle.TravelledDistance";
  "Vehicle.TripMeterReading";
  "Vehicle.VehicleIdentification.ACRISSCode";
  "Vehicle.VehicleIdentification.Brand";
  "Vehicle.VehicleIdentification.Model";
  "Vehicle.VehicleIdentification.VIN";
  "Vehicle.VehicleIdentification.WMI";
  "Vehicle.VehicleIdentification.Year";
  "Vehicle.VehicleIdentification.bodyType";
  "Vehicle.VehicleIdentification.dateVehicleFirstRegistered";
  "Vehicle.VehicleIdentification.knownVehicleDamages";
  "Vehicle.VehicleIdentification.meetsEmissionStandard";
  "Vehicle.VehicleIdentification.productionDate";
  "Vehicle.VehicleIdentification.purchaseDate";
  "Vehicle.VehicleIdentification.vehicleConfiguration";
  "Vehicle.VehicleIdentification.vehicleModelDate";
  "Vehicle.VehicleIdentification.vehicleSeatingCapacity";
  "Vehicle.VehicleIdentification.vehicleSpecialUsage";
  "Vehicle.VehicleIdentification.vehicleinteriorColor";
  "Vehicle.VehicleIdentification.vehicleinteriorType";
  "Vehicle.VersionVSS.Label";
  "Vehicle.VersionVSS.Major";
  "Vehicle.VersionVSS.Minor";
  "Vehicle.VersionVSS.Patch";
  "Vehicle.accelerationTime";
  "Vehicle.cargoVolume";
  "Vehicle.emissionsCO2"
].

(** vsspathlist.js: [uuidlist["LeafPaths"]]. *)
Definition leafPaths : list string := leafPaths_1 ++ leafPaths_2 ++ leafPaths_3.

(** The arrays as the decoder sees them. *)
Definition keywordlist : list jsstring := js <$> keywords.
Definition uuidmap : list jsstring := js <$> leafPaths.

(** Comparison of strings by code units. *)
Fixpoint js_ltb (s t : jsstring) : bool :=
  match s, t with
  | _, [] => false
  | [], _ :: _ => true
  | a :: s', b :: t' => (a <? b)%Z || ((a =? b)%Z && js_ltb s' t')
  end.

Fixpoint strictly_sorted (l : list jsstring) : bool :=
  match l with
  | x :: ((y :: _) as l') => js_ltb x y && strictly_sorted l'
  | _ => true
  end.

Lemma js_ltb_irrefl s : js_ltb s s = false.
Proof. induction s as [|c s IH]; [done|]; simpl. by rewrite Z.ltb_irrefl, IH, andb_false_r. Qed.

Lemma js_ltb_trans r s t : js_ltb r s = true → js_ltb s t = true → js_ltb r t = true.
Proof.
  revert s t; induction r as [|a r IH]; intros [|b s] [|c t]; simpl; try done.
  rewrite !orb_true_iff, !andb_true_iff, !Z.ltb_lt, !Z.eqb_eq.
  intros [|[-> ?]] [|[-> ?]]; [left; lia|left; lia|left; lia|right; eauto].
Qed.

Lemma strictly_sorted_lt l i j x y :
  strictly_sorted l = true → (i < j)%nat → l !! i = Some x → l !! j = Some y → js_ltb x y = true.
Proof.
  revert i j x; induction l as [|a l IH]; intros i j x Hs Hij Hx Hy; [done|].
  destruct j as [|j]; [lia|]. destruct l as [|b l]; [done|].
  simpl in Hs. apply andb_true_iff in Hs as [Hab Hs]. simpl in Hy.
  destruct i as [|i]; simpl in Hx.
  - simplify_eq. destruct j as [|j]; [by simplify_eq/=|].
    eapply js_ltb_trans; [exact Hab|]. by apply (IH 0 (S j) b Hs); [lia| |].
  - by apply (IH i j x Hs); [lia| |].
Qed.

(** The path list is in strictly increasing code-unit order, so that a
    path is the entry of exactly one index: two indices that give the same
    path are equal. *)
Theorem leafPaths_index_unique (i j : nat) p :
  uuidmap !! i = Some p → uuidmap !! j = Some p → i = j.
Proof.
  intros Hi Hj. assert (Hs : strictly_sorted uuidmap = true) by (vm_compute; reflexivity).
  destruct (Nat.lt_trichotomy i j) as [H|[H|H]]; [exfalso|done|exfalso].
  - pose proof (strictly_sorted_lt _ _ _ _ _ Hs H Hi Hj) as E. by rewrite js_ltb_irrefl in E.
  - pose proof (strictly_sorted_lt _ _ _ _ _ Hs H Hj Hi) as E. by rewrite js_ltb_irrefl in E.
Qed.

Lemma leafPaths_index_unique_witness :
  uuidmap !! 351%nat = Some (js "Vehicle.emissionsCO2") ∧ (351 = 351)%nat.
Proof.
  split; [reflexivity|].
  exact (leafPaths_index_unique 351 351 (js "Vehicle.emissionsCO2") eq_refl eq_refl).
Defined.
