(* ===== verification/Decompress.v ===== *)
(** * The payload decoder, w3cdecompress.js

    [decompressMessage] walks over a message of code units.  Units below 128
    are copied, a unit [128 + k] stands for keyword [k] of uuiddata.js and
    some keywords carry operand bytes: a packed time stamp, a path index, a
    number or a zero-terminated text.  [decompressMessage] below is the whole
    function; the two global tables it reads and the calendar year it takes
    from [new Date()] are the section's variables.  The [console.log] of the
    text branch is output only and is left out. *)

From S2P Require Import Prelude JsString JsNum VssData.
Local Open Scope Z_scope.

Module Decompress.

Section decoder.
Context (keywordlist uuidmap : list jsstring) (year : Z).

(** String concatenation of an array element that may be [undefined]. *)
Definition str (o : option jsstring) : jsstring := default (js "undefined") o.

Definition two_digits (n : intnum) : jsstring := padStart (js_of_intnum n) 2 c_zero.

(** Lines 13 to 45: the packed time stamp of four bytes. *)
Definition timestamp (byte1 byte2 byte3 byte4 : intnum) : jsstring :=
  let decade := parseInt_num (Some (year / 10 * 10)) in
  let yy := parseInt_num (Some (shift_right_u (Some (bit_and byte1 (Some 60))) 2)) in
  let ts := num_add decade (parseInt_num yy) in
  let mm := bit_or (Some (shift_left (Some (bit_and byte1 (Some 3))) 2))
                   (Some (shift_right_u (Some (bit_and byte2 (Some 192))) 6)) in
  let dd := parseInt_num (Some (shift_right_u (Some (bit_and byte2 (Some 62))) 1)) in
  let hh := bit_or (Some (shift_left (Some (bit_and byte2 (Some 1))) 4))
                   (Some (shift_right_u (Some (bit_and byte3 (Some 240))) 4)) in
  let MM := bit_or (Some (shift_left (Some (bit_and byte3 (Some 15))) 2))
                   (Some (shift_right_u (Some (bit_and byte4 (Some 192))) 6)) in
  let ss := parseInt_num (Some (bit_and byte4 (Some 63))) in
  js_of_intnum ts ++ js "-" ++ two_digits (Some mm) ++ js "-" ++
  two_digits (parseInt_num dd) ++ js "T" ++ two_digits (parseInt_num (Some hh)) ++ js ":" ++
  two_digits (parseInt_num (Some MM)) ++ js ":" ++ two_digits (parseInt_num ss) ++ js "Z".

(** Lines 65 to 69: the index into the path list, and the list entry. *)
Definition path_index (message : jsstring) (index : nat) : intnum :=
  let uuidindex := Some 0 in
  let uuidindex := num_add uuidindex
    (num_add (Some (shift_left uuidindex 8)) (charCodeAt message (index + 1))) in
  num_add uuidindex (charCodeAt message (index + 1)).

Definition array_get (l : list jsstring) (i : intnum) : option jsstring :=
  match i with Some z => if z <? 0 then None else l !! Z.to_nat z | None => None end.

(** Lines 76 to 98: how many operand bytes the value keyword has. *)
Definition numvals (testmsg : jsstring) : nat :=
  let n := 0%nat in
  let n := if endsWith testmsg (js "int8") then 1%nat else n in
  let n := if endsWith testmsg (js "int16") then 2%nat else n in
  let n := if endsWith testmsg (js "int24") then 3%nat else n in
  let n := if endsWith testmsg (js "int32") then 4%nat else n in
  let n := if endsWith testmsg (js "bool") then 1%nat else n in
  if endsWith testmsg (js "float") then 4%nat else n.

(** Lines 112 to 115: [n] bytes read most significant first. *)
Fixpoint read_int (message : jsstring) (index n : nat) (realval : intnum) : intnum :=
  match n with
  | O => realval
  | S n' => read_int message (S index) n'
              (num_add (Some (shift_left realval 8)) (charCodeAt message index))
  end.

(** Lines 101 to 108: [setUint8] stores a unit modulo 256 (NaN as 0) and
    [getFloat32(0, true)] reads the four bytes least significant first. *)
Definition uint8_of (n : intnum) : Z := match n with Some z => z mod 256 | None => 0 end.

Definition read_float (message : jsstring) (index : nat) : double :=
  let b i := uint8_of (charCodeAt message (index + i)) in
  double_of_f32_bits (b 0%nat + Z.shiftl (b 1%nat) 8 + Z.shiftl (b 2%nat) 16 + Z.shiftl (b 3%nat) 24).

(** Lines 130 to 134: the units up to a zero unit or the end. *)
Fixpoint text_len (s : jsstring) : nat :=
  match s with
  | [] => 0%nat
  | c :: s' => if c =? 0 then 0%nat else S (text_len s')
  end.

(** Lines 75 to 138: the text of a value and the index after it. *)
Definition value_step (message : jsstring) (index : nat) (testmsg : jsstring) : jsstring * nat :=
  let open := [c_quote] ++ (if startsWith testmsg (js "n") then [c_minus] else []) in
  let n := numvals testmsg in
  let '(body, index) :=
    if negb (Nat.eqb n 0) then
      if endsWith testmsg (js "float") then
        (js_of_double (read_float message index), (index + n)%nat)
      else
        let realval := read_int message index n (Some 0) in
        ((if endsWith testmsg (js "bool")
          then if bool_decide (realval = Some 0) then js "false" else js "true"
          else js_of_intnum realval), (index + n)%nat)
    else ([], (index + text_len (drop index message))%nat) in
  (open ++ body ++ [c_quote], index).

Definition quoted (s : jsstring) : jsstring := [c_quote] ++ s ++ [c_quote].

(** One iteration of the outer loop at a unit [charmsg]: what it appends to
    [finalMsg] and the next index. *)
Definition iteration (message : jsstring) (index : nat) (charmsg : Z) : outcome (jsstring * nat) :=
  if 127 <? charmsg then
    let k := charmsg - 128 in
    let testmsg := keywordlist !! Z.to_nat k in
    let index := S index in
    if k =? 3 then
      let byte i := charCodeAt message (index + i) in
      Ret (quoted (str testmsg) ++ js ":" ++
           quoted (timestamp (byte 0%nat) (byte 1%nat) (byte 2%nat) (byte 3%nat)),
           (index + 4)%nat)
    else if k =? 4 then
      Ret (quoted (str testmsg) ++ js ":" ++
           quoted (str (array_get uuidmap (path_index message index))), (index + 2)%nat)
    else if (7 <? k) && (k <? 13) then Ret (quoted (str testmsg), index)
    else if (12 <? k) && (k <? 23) then
      match testmsg with
      | None => Throw TypeError
      | Some t => Ret (value_step message index t)
      end
    else Ret (if k =? 23 then [] else quoted (str testmsg) ++ js ":", index)
  else Ret (charAt message index, S index).

(** Lines 5 to 150: the outer loop, on [(index, finalMsg)]. *)
Definition loop_step (message : jsstring) (st : nat * jsstring) :
    (nat * jsstring) + outcome jsstring :=
  let '(index, finalMsg) := st in
  match message !! index with
  | None => inr (Ret finalMsg)
  | Some charmsg =>
      match iteration message index charmsg with
      | Ret (out, index') => inl (index', finalMsg ++ out)
      | Throw e => inr (Throw e)
      end
  end.

(** Lines 151 to 152: commas between the members. *)
Definition add_commas (s : jsstring) : jsstring :=
  replace2 c_rbrace c_lbrace [c_rbrace; 44; c_lbrace]
    (replace2 c_quote c_quote [c_quote; 44; c_quote] s).

Definition decode_fuel (fuel : nat) (message : jsstring) : option (outcome jsstring) :=
  while_fuel (loop_step message) fuel (0%nat, []).

(** The loop moves the index forward in every iteration, so that one unit of
    fuel per code unit and one for the test that ends the loop are enough. *)
Definition decompressMessage (message : jsstring) : option (outcome jsstring) :=
  (λ r, obind r (λ finalMsg, Ret ([c_lbrace] ++ add_commas finalMsg ++ [c_rbrace])))
    <$> decode_fuel (S (length message)) message.
End decoder.
(** ** Termination and errors *)

Section progress.
Context (keywordlist uuidmap : list jsstring) (year : Z).

Lemma value_step_index message index t :
  (index ≤ (value_step message index t).2)%nat.
Proof.
  unfold value_step. destruct (negb _); [destruct (endsWith t (js "float"))|];
    cbn [snd]; lia.
Qed.

Lemma iteration_index message index c out index' :
  iteration keywordlist uuidmap year message index c = Ret (out, index') →
  (index < index')%nat.
Proof.
  intros H. unfold iteration in H.
  destruct (127 <? c); [|injection H as <- <-; lia].
  destruct (c - 128 =? 3); [injection H as <- <-; lia|].
  destruct (c - 128 =? 4); [injection H as <- <-; lia|].
  destruct ((7 <? _) && _); [injection H as <- <-; lia|].
  destruct ((12 <? _) && _); [|injection H as <- <-; lia].
  destruct (keywordlist !! _) as [t|]; [|done]. injection H as H.
  pose proof (value_step_index message (S index) t) as Hv. rewrite H in Hv. cbn [snd] in Hv. lia.
Qed.

(** The only exception is the method call on a missing value keyword. *)
Lemma iteration_throws message index c e :
  iteration keywordlist uuidmap year message index c = Throw e →
  e = TypeError ∧ (length keywordlist ≤ Z.to_nat (c - 128))%nat ∧ 140 < c < 151.
Proof.
  intros H. unfold iteration in H.
  destruct (127 <? c) eqn:?; [|done]. destruct (c - 128 =? 3); [done|].
  destruct (c - 128 =? 4); [done|]. destruct ((7 <? _) && _); [done|].
  destruct ((12 <? _) && _) eqn:Hb; [|done].
  destruct (keywordlist !! _) as [t|] eqn:Hk; [done|]. injection H as <-.
  rewrite andb_true_iff, !Z.ltb_lt in Hb. split; [done|]. split; [|lia].
  by apply lookup_ge_None_1.
Qed.

Lemma decode_terminates message :
  is_Some (decode_fuel keywordlist uuidmap year (S (length message)) message).
Proof.
  apply (while_fuel_measure _ (λ st, length message - st.1)%nat (λ _, True)); simpl; [|done|lia].
  intros [i m] [i' m'] _ H. simpl in H. destruct (message !! i) as [c|] eqn:Hc; [|done].
  apply lookup_lt_Some in Hc.
  destruct (iteration _ _ _ message i c) as [[out j]|] eqn:E; simplify_eq.
  apply iteration_index in E. simpl. split; [done|lia].
Qed.

Lemma while_no_throw message fuel st r :
  (23 ≤ length keywordlist)%nat →
  while_fuel (loop_step keywordlist uuidmap year message) fuel st = Some r →
  ∃ s, r = Ret s.
Proof.
  intros Hlen. revert st; induction fuel as [|f IH]; intros [i m] H; simpl in H; [done|].
  destruct (message !! i) as [c|] eqn:Hc; [|simplify_eq; eauto].
  destruct (iteration _ _ _ message i c) as [[out j]|e] eqn:E; [eauto|].
  apply iteration_throws in E as (_ & Hk & Hr). lia.
Qed.
End progress.

(** ** Numbers *)

(** The unsigned number of a big-endian byte string. *)
Definition be_value (bs : list Z) : Z := foldl (λ acc b, acc * 256 + b) 0 bs.

Lemma read_int_bytes bs pre suf v :
  Forall is_byte bs →
  read_int (pre ++ bs ++ suf) (length pre) (length bs) (Some (wrap32 v)) =
    Some (wrap32 (foldl (λ acc b, acc * 256 + b) v bs)).
Proof.
  intros Hbs. revert pre v; induction Hbs as [|b bs Hb Hbs IH]; intros pre v; simpl; [done|].
  unfold charCodeAt. rewrite lookup_app_exact. simpl num_add.
  rewrite shift_left_8, wrap32_add_byte by done.
  specialize (IH (pre ++ [b]) (v * 256 + b)).
  rewrite length_app, Nat.add_1_r, <- app_assoc in IH. done.
Qed.

Lemma be_value_bound bs : Forall is_byte bs → 0 ≤ be_value bs < 256 ^ Z.of_nat (length bs).
Proof.
  intros Hbs. unfold be_value. induction bs as [|b bs IH] using rev_ind; [simpl; lia|].
  apply Forall_app in Hbs as [Hbs Hb]. inversion Hb as [|?? Hb' _]; subst. unfold is_byte in Hb'.
  rewrite foldl_snoc, length_app, Nat.add_1_r, Nat2Z.inj_succ, Z.pow_succ_r by lia.
  specialize (IH Hbs). lia.
Qed.

Lemma text_len_app text suf :
  0 ∉ text → text_len (text ++ 0 :: suf) = length text.
Proof.
  induction text as [|c text IH]; intros H; [done|]; simpl.
  rewrite not_elem_of_cons in H. destruct H as [Hc Ht].
  rewrite (proj2 (Z.eqb_neq c 0)) by done. by rewrite IH.
Qed.

End Decompress.
