(* ===== verification/DecompressSpec.v ===== *)
(** * The payload decoder: wire format and correctness

    The wire format of w3cdecompress.js as a grammar of tokens, and the
    theorems that [decompressMessage] renders every well-formed message token
    by token, together with what the code really does on time stamps, numbers
    and path indices. *)

From S2P Require Import Prelude JsString JsNum VssData Decompress.
Local Open Scope Z_scope.

Module DecompressSpec.
Import Decompress.

(** ** The wire format as tokens

    A well-formed message is a sequence of tokens; [encode] is its code units
    and [render] the text the decoder prints for it, its errors included.  What
    the objects of a sender come to is in DecompressObject.v. *)

Section tokens.
Context (keywordlist uuidmap : list jsstring) (year : Z).

Inductive token :=
  | TChar (c : Z)                      (* a copied unit *)
  | TKey (k : Z)                       (* a member key *)
  | TSkip                              (* keyword 23 *)
  | TTime (b1 b2 b3 b4 : Z)            (* keyword 3 and four bytes *)
  | TPath (b1 b2 : Z)                  (* keyword 4 and two bytes *)
  | TReq (k : Z)                       (* a request type *)
  | TNum (k : Z) (bs : list Z)         (* an integer value *)
  | TText (k : Z) (text : list Z).     (* a zero-terminated text *)

Definition encode (t : token) : jsstring :=
  match t with
  | TChar c => [c]
  | TKey k | TReq k => [128 + k]
  | TSkip => [151]
  | TTime b1 b2 b3 b4 => [131; b1; b2; b3; b4]
  | TPath b1 b2 => [132; b1; b2]
  | TNum k bs => (128 + k) :: bs
  | TText k text => (128 + k) :: text ++ [0]
  end.

Definition value_keyword (k : Z) (kw : jsstring) : Prop :=
  12 < k < 23 ∧ keywordlist !! Z.to_nat k = Some kw.

Definition wf_token (t : token) : Prop :=
  match t with
  | TChar c => is_ascii c
  | TKey k => (0 ≤ k < 8 ∨ 23 < k) ∧ k ≠ 3 ∧ k ≠ 4
  | TSkip => True
  | TTime b1 b2 b3 b4 => True
  | TPath b1 b2 => True
  | TReq k => 7 < k < 13
  | TNum k bs => ∃ kw, value_keyword k kw ∧ Forall is_byte bs ∧ bs ≠ [] ∧
      numvals kw = length bs ∧ endsWith kw (js "float") = false ∧
      endsWith kw (js "bool") = false
  | TText k text => ∃ kw, value_keyword k kw ∧ numvals kw = 0%nat ∧ 0 ∉ text
  end.

Definition sign_of (kw : jsstring) : jsstring :=
  if startsWith kw (js "n") then [c_minus] else [].

Definition render (t : token) : jsstring :=
  let kw k := str (keywordlist !! Z.to_nat k) in
  match t with
  | TChar c => [c]
  | TKey k => quoted (kw k) ++ js ":"
  | TSkip => []
  | TTime b1 b2 b3 b4 =>
      quoted (kw 3) ++ js ":" ++ quoted (timestamp year (Some b1) (Some b2) (Some b3) (Some b4))
  | TPath b1 b2 => quoted (kw 4) ++ js ":" ++ quoted (str (array_get uuidmap (Some (2 * b2))))
  | TReq k => quoted (kw k)
  | TNum k bs => quoted (sign_of (kw k) ++ js_of_Z (wrap32 (be_value bs)))
  | TText k text => quoted (sign_of (kw k)) ++ [0]
  end.

Local Notation iter := (iteration keywordlist uuidmap year).

(** Lookups at the operand positions of a token. *)
Lemma operand_lookup pre (c : Z) (s : jsstring) (n : nat) :
  (pre ++ c :: s) !! (S (length pre) + n)%nat = s !! n.
Proof.
  change (c :: s) with ([c] ++ s). rewrite app_assoc.
  replace (S (length pre)) with (length (pre ++ [c])) by (rewrite length_app; simpl; lia).
  apply lookup_app_plus.
Qed.

Lemma value_step_num pre c bs suf kw :
  Forall is_byte bs → bs ≠ [] → numvals kw = length bs →
  endsWith kw (js "float") = false → endsWith kw (js "bool") = false →
  value_step (pre ++ c :: bs ++ suf) (S (length pre)) kw =
    (quoted (sign_of kw ++ js_of_Z (wrap32 (be_value bs))), (S (length pre) + length bs)%nat).
Proof.
  intros Hbs Hne Hn Hf Hb. unfold value_step. rewrite Hn, Hf, Hb.
  rewrite (proj2 (Nat.eqb_neq _ _)) by (destruct bs; simpl; [done|lia]). simpl negb.
  pose proof (read_int_bytes bs (pre ++ [c]) suf 0 Hbs) as Hr.
  rewrite length_app, Nat.add_1_r, <- app_assoc in Hr. change (wrap32 0) with 0 in Hr.
  cbn [app] in Hr. rewrite Hr. cbn [js_of_intnum]. unfold quoted, sign_of.
  by rewrite <- !app_assoc.
Qed.

Lemma value_step_text pre c text suf kw :
  numvals kw = 0%nat → 0 ∉ text →
  value_step (pre ++ c :: text ++ 0 :: suf) (S (length pre)) kw =
    (quoted (sign_of kw), (S (length pre) + length text)%nat).
Proof.
  intros Hn Ht. unfold value_step. rewrite Hn. simpl negb.
  replace (drop (S (length pre)) (pre ++ c :: text ++ 0 :: suf)) with (text ++ 0 :: suf).
  - rewrite text_len_app by done. unfold quoted, sign_of. by rewrite <- app_assoc.
  - change (c :: ?s) with ([c] ++ s). rewrite app_assoc.
    replace (S (length pre)) with (length (pre ++ [c])) by (rewrite length_app; simpl; lia).
    by rewrite drop_app_length.
Qed.

Lemma loop_step_iter pre c s m out index' :
  iter (pre ++ c :: s) (length pre) c = Ret (out, index') →
  loop_step keywordlist uuidmap year (pre ++ c :: s) (length pre, m) = inl (index', m ++ out).
Proof. intros H. unfold loop_step. rewrite lookup_app_exact, H. done. Qed.

(** Decide the guards on the keyword number [k] by arithmetic. *)
Local Ltac decide_keyword k :=
  unfold iteration;
  rewrite (proj2 (Z.ltb_lt 127 _)) by lia; replace (128 + k - 128) with k by lia;
  repeat first
    [ rewrite (proj2 (Z.eqb_eq k _)) by lia | rewrite (proj2 (Z.eqb_neq k _)) by lia
    | rewrite (proj2 (Z.ltb_lt _ k)) by lia | rewrite (proj2 (Z.ltb_ge _ k)) by lia
    | rewrite (proj2 (Z.ltb_lt k _)) by lia | rewrite (proj2 (Z.ltb_ge k _)) by lia ];
  cbn [andb].

Lemma iteration_keyword message index k kw :
  value_keyword k kw → iter message index (128 + k) = Ret (value_step message (S index) kw).
Proof. intros [Hk Hkw]. decide_keyword k. by rewrite Hkw. Qed.

Lemma iteration_key message index k :
  wf_token (TKey k) → iter message index (128 + k) = Ret (render (TKey k), S index).
Proof. simpl. intros ([Hk|Hk] & H3 & H4); decide_keyword k; done. Qed.

Lemma iteration_req message index k :
  wf_token (TReq k) → iter message index (128 + k) = Ret (render (TReq k), S index).
Proof. simpl. intros Hk. decide_keyword k. done. Qed.

Lemma iteration_time pre b1 b2 b3 b4 suf :
  iter (pre ++ encode (TTime b1 b2 b3 b4) ++ suf) (length pre) 131 =
    Ret (render (TTime b1 b2 b3 b4), (S (length pre) + 4)%nat).
Proof.
  change 131 with (128 + 3). unfold iteration. cbn [Z.ltb Z.compare Z.add].
  unfold charCodeAt. cbn [encode app]. rewrite !operand_lookup. done.
Qed.

Lemma iteration_path pre b1 b2 suf :
  iter (pre ++ encode (TPath b1 b2) ++ suf) (length pre) 132 =
    Ret (render (TPath b1 b2), (S (length pre) + 2)%nat).
Proof.
  unfold iteration, path_index, charCodeAt. cbn [encode app Z.ltb Z.compare].
  rewrite !operand_lookup. cbn [lookup list_lookup].
  change (shift_left (Some 0) 8) with 0. cbn [num_add].
  by replace (0 + (0 + b2) + b2) with (2 * b2) by lia.
Qed.

(** A text takes two iterations: the terminating zero is copied. *)
Lemma text_reach k text pre suf m :
  wf_token (TText k text) →
  while_reach (loop_step keywordlist uuidmap year (pre ++ encode (TText k text) ++ suf))
    (length pre, m) (length (pre ++ encode (TText k text)), m ++ render (TText k text)).
Proof.
  intros (kw & Hkw & Hn & Ht).
  transitivity ((S (length pre) + length text)%nat, m ++ quoted (sign_of kw));
    apply while_reach_step.
  - cbn [encode app]. rewrite <- app_assoc. apply loop_step_iter.
    rewrite (iteration_keyword _ _ k kw) by done. cbn [app]. by rewrite value_step_text.
  - destruct Hkw as [_ Hkw]. cbn [render encode]. rewrite Hkw. cbn [str default].
    replace (pre ++ ((128 + k) :: text ++ [0]) ++ suf)
      with ((pre ++ (128 + k) :: text) ++ 0 :: suf)
      by (rewrite <- !app_assoc; simpl; by rewrite <- app_assoc).
    replace (S (length pre) + length text)%nat with (length (pre ++ (128 + k) :: text))
      by (rewrite length_app; simpl; lia).
    rewrite app_assoc. erewrite loop_step_iter; [reflexivity|].
    unfold iteration. cbn [Z.ltb Z.compare]. unfold charAt. rewrite lookup_app_exact.
    do 2 f_equal. rewrite !length_app; simpl; rewrite !length_app; simpl; lia.
Qed.

Lemma token_reach t pre suf m :
  wf_token t →
  while_reach (loop_step keywordlist uuidmap year (pre ++ encode t ++ suf))
    (length pre, m) (length (pre ++ encode t), m ++ render t).
Proof.
  intros Hwf.
  assert (Hone : ∀ c s, encode t ++ suf = c :: s →
    iter (pre ++ encode t ++ suf) (length pre) c = Ret (render t, length (pre ++ encode t)) →
    while_reach (loop_step keywordlist uuidmap year (pre ++ encode t ++ suf))
      (length pre, m) (length (pre ++ encode t), m ++ render t)).
  { intros c s E Hi. apply while_reach_step. rewrite E in *. by apply loop_step_iter. }
  assert (Hlen : ∀ n, length (encode t) = n → length (pre ++ encode t) = (length pre + n)%nat).
  { intros n <-. by rewrite length_app. }
  destruct t as [c|k| |b1 b2 b3 b4|b1 b2|k|k bs|k text].
  - apply (Hone c suf); [done|]. rewrite (Hlen 1%nat) by done. simpl in Hwf. unfold is_ascii in Hwf.
    unfold iteration. rewrite (proj2 (Z.ltb_ge 127 c)) by lia.
    unfold charAt. cbn [encode app]. rewrite lookup_app_exact, Nat.add_1_r. done.
  - apply (Hone (128 + k) suf); [done|]. rewrite (Hlen 1%nat) by done.
    rewrite iteration_key by done. by rewrite Nat.add_1_r.
  - apply (Hone 151 suf); [done|]. rewrite (Hlen 1%nat) by done. by rewrite Nat.add_1_r.
  - apply (Hone 131 ([b1; b2; b3; b4] ++ suf)); [done|]. rewrite (Hlen 5%nat) by done.
    rewrite iteration_time. do 2 f_equal; lia.
  - apply (Hone 132 ([b1; b2] ++ suf)); [done|]. rewrite (Hlen 3%nat) by done.
    rewrite iteration_path. do 2 f_equal; lia.
  - apply (Hone (128 + k) suf); [done|]. rewrite (Hlen 1%nat) by done.
    rewrite iteration_req by done. by rewrite Nat.add_1_r.
  - destruct Hwf as (kw & Hkw & Hbs & Hne & Hn & Hf & Hb).
    apply (Hone (128 + k) (bs ++ suf)); [done|]. rewrite (Hlen (S (length bs))) by done.
    rewrite (iteration_keyword _ _ k kw) by done. cbn [encode app].
    rewrite value_step_num by done. destruct Hkw as [_ Hkw]. cbn [render]. rewrite Hkw.
    do 2 f_equal; lia.
  - by apply text_reach.
Qed.

(** Whole messages. *)
Lemma tokens_reach ts pre suf m :
  Forall wf_token ts →
  while_reach (loop_step keywordlist uuidmap year (pre ++ mjoin (encode <$> ts) ++ suf))
    (length pre, m) (length (pre ++ mjoin (encode <$> ts)), m ++ mjoin (render <$> ts)).
Proof.
  intros Hts. revert pre m; induction Hts as [|t ts Ht Hts IH]; intros pre m; csimpl.
  - by rewrite !app_nil_r.
  - rewrite <- app_assoc. etransitivity; [by apply token_reach|].
    specialize (IH (pre ++ encode t) (m ++ render t)). by rewrite <- !app_assoc in IH.
Qed.
End tokens.

(** ** Packed time stamps *)

(** The fields of a time stamp, the year counted from the decade's start. *)
Record stamp := Stamp {
  st_year : Z; st_month : Z; st_day : Z; st_hour : Z; st_min : Z; st_sec : Z }.

(** Each field fits the bits the format reserves for it. *)
Definition wf_stamp (t : stamp) : Prop :=
  0 ≤ st_year t < 16 ∧ 0 ≤ st_month t < 16 ∧ 0 ≤ st_day t < 32 ∧
  0 ≤ st_hour t < 32 ∧ 0 ≤ st_min t < 64 ∧ 0 ≤ st_sec t < 64.

(** yyyymm mmdddddh hhhhMMMM MMssssss, most significant bit first. *)
Definition pack_stamp (t : stamp) : Z * Z * Z * Z :=
  (st_year t * 4 + st_month t / 4,
   st_month t mod 4 * 64 + st_day t * 2 + st_hour t / 16,
   st_hour t mod 16 * 16 + st_min t / 4,
   st_min t mod 4 * 64 + st_sec t).

Definition pad2 (n : Z) : jsstring := padStart (js_of_Z n) 2 c_zero.

(** The ISO 8601 text of a stamp in the decade of [year]. *)
Definition iso_text (year : Z) (t : stamp) : jsstring :=
  js_of_Z (year / 10 * 10 + st_year t) ++ js "-" ++ pad2 (st_month t) ++ js "-" ++
  pad2 (st_day t) ++ js "T" ++ pad2 (st_hour t) ++ js ":" ++ pad2 (st_min t) ++ js ":" ++
  pad2 (st_sec t) ++ js "Z".

(** The masks and shifts of the code read the bit fields of a byte. *)
Lemma byte_fields b :
  is_byte b →
  shift_right_u (Some (bit_and (Some b) (Some 60))) 2 = b / 4 mod 16 ∧
  shift_left (Some (bit_and (Some b) (Some 3))) 2 = b mod 4 * 4 ∧
  shift_right_u (Some (bit_and (Some b) (Some 192))) 6 = b / 64 ∧
  shift_right_u (Some (bit_and (Some b) (Some 62))) 1 = b / 2 mod 32 ∧
  shift_left (Some (bit_and (Some b) (Some 1))) 4 = b mod 2 * 16 ∧
  shift_right_u (Some (bit_and (Some b) (Some 240))) 4 = b / 16 ∧
  shift_left (Some (bit_and (Some b) (Some 15))) 2 = b mod 16 * 4 ∧
  bit_and (Some b) (Some 63) = b mod 64.
Proof.
  unfold is_byte. intros Hb. check_range b 256.
Qed.

Lemma bit_or_4 x y : 0 ≤ x < 16 → 0 ≤ y < 4 → bit_or (Some (x * 4)) (Some y) = x * 4 + y.
Proof.
  intros Hx Hy. pattern y. apply (check_range _ 4); [|lia]. check_range x 16.
Qed.

Lemma bit_or_16 x y : 0 ≤ x < 2 → 0 ≤ y < 16 → bit_or (Some (x * 16)) (Some y) = x * 16 + y.
Proof.
  intros Hx Hy. pattern y. apply (check_range _ 16); [|lia]. check_range x 2.
Qed.

Lemma pack_stamp_bytes t b1 b2 b3 b4 :
  wf_stamp t → pack_stamp t = (b1, b2, b3, b4) →
  is_byte b1 ∧ is_byte b2 ∧ is_byte b3 ∧ is_byte b4.
Proof.
  intros (Hy & Hm & Hd & Hh & Hi & Hs) E. unfold pack_stamp in E. simplify_eq.
  unfold is_byte. euclid.
Qed.

Lemma timestamp_pack year t b1 b2 b3 b4 :
  0 ≤ year → wf_stamp t → pack_stamp t = (b1, b2, b3, b4) →
  timestamp year (Some b1) (Some b2) (Some b3) (Some b4) = iso_text year t.
Proof.
  intros Hyear Hwf E. pose proof (pack_stamp_bytes _ _ _ _ _ Hwf E) as (H1 & H2 & H3 & H4).
  destruct Hwf as (Hy & Hm & Hd & Hh & Hi & Hs). unfold pack_stamp in E.
  destruct t as [y m d h i s]; simpl in *. injection E as E1 E2 E3 E4.
  unfold timestamp, iso_text, two_digits, pad2; cbn [st_year st_month st_day st_hour st_min st_sec].
  destruct (byte_fields b1 H1) as (-> & -> & _).
  destruct (byte_fields b2 H2) as (_ & _ & -> & -> & -> & _).
  destruct (byte_fields b3 H3) as (_ & _ & _ & _ & _ & -> & -> & _).
  destruct (byte_fields b4 H4) as (_ & _ & -> & _ & _ & _ & _ & ->).
  rewrite !bit_or_4, bit_or_16 by euclid.
  rewrite !parseInt_num_nonneg by euclid. cbn [num_add js_of_intnum].
  by replace (b1 / 4 mod 16) with y by euclid; replace (b1 mod 4 * 4 + b2 / 64) with m by euclid;
    replace (b2 / 2 mod 32) with d by euclid; replace (b2 mod 2 * 16 + b3 / 16) with h by euclid;
    replace (b3 mod 16 * 4 + b4 / 64) with i by euclid; replace (b4 mod 64) with s by euclid.
Qed.

(** ** Members and commas *)

(** Text without quotes and braces. *)
Definition plain_unit (c : Z) : Prop := c ≠ c_quote ∧ c ≠ c_lbrace ∧ c ≠ c_rbrace.
Definition plain (s : jsstring) : Prop := s ≠ [] ∧ Forall plain_unit s.

#[global] Instance plain_unit_dec c : Decision (plain_unit c).
Proof. unfold plain_unit. apply _. Defined.
#[global] Instance plain_dec s : Decision (plain s).
Proof. unfold plain. apply _. Defined.

(** One member of a JSON object. *)
Definition member (kv : jsstring * jsstring) : jsstring :=
  quoted kv.1 ++ js ":" ++ quoted kv.2.

Definition inner (kv : jsstring * jsstring) : jsstring :=
  kv.1 ++ c_quote :: 58 :: c_quote :: kv.2.

#[global] Arguments member : simpl never.
#[global] Arguments inner : simpl never.

Lemma member_inner kv : member kv = c_quote :: inner kv ++ [c_quote].
Proof. unfold member, inner, quoted. simpl. by rewrite <- !app_assoc. Qed.

Lemma plain_notin s c : plain s → ¬ plain_unit c → c ∉ s.
Proof. intros [_ H] Hc Hin. rewrite Forall_forall in H. by apply Hc, H. Qed.

Lemma quote_notin s : plain s → c_quote ∉ s.
Proof. intros H. apply (plain_notin s); [done|]. unfold plain_unit. tauto. Qed.

Lemma inner_no_pair kv :
  plain kv.1 → plain kv.2 → has_pair c_quote c_quote (inner kv ++ [c_quote]) = false.
Proof.
  destruct kv as [k v]; simpl. intros Hk Hv. unfold inner; simpl.
  rewrite <- app_assoc, has_pair_notin_app by (by apply quote_notin). cbn [app].
  pose proof (quote_notin v Hv) as Hq. destruct v as [|c v]; [by destruct Hv|].
  rewrite not_elem_of_cons in Hq. destruct Hq as [Hc Hq].
  simpl has_pair. rewrite (proj2 (Z.eqb_neq c c_quote)) by done. simpl orb.
  destruct v as [|d v]; [done|].
  rewrite has_pair_notin_app by done. done.
Qed.

Definition plain_member (kv : jsstring * jsstring) : Prop := plain kv.1 ∧ plain kv.2.

Lemma inner_head kv : plain_member kv → ∃ c s, inner kv = c :: s ∧ c ≠ c_quote.
Proof.
  destruct kv as [[|c k] v]; intros [[Hne Hk] Hv]; [done|]. unfold inner; simpl in *.
  inversion Hk as [|?? Hc]; subst. unfold plain_unit in Hc. naive_solver.
Qed.

(** The first pass puts a comma between adjacent members. *)
Lemma commas_members kvs kv :
  plain_member kv → Forall plain_member kvs →
  replace2 c_quote c_quote [c_quote; 44; c_quote] (inner kv ++ c_quote :: mjoin (member <$> kvs)) =
    inner kv ++ c_quote :: mjoin ((λ m, 44 :: member m) <$> kvs).
Proof.
  intros Hkv Hkvs. revert kv Hkv; induction Hkvs as [|kv' kvs Hkv' _ IH]; intros kv Hkv.
  - destruct Hkv. by rewrite replace2_id by (by apply inner_no_pair).
  - rewrite !mjoin_fmap_cons, !member_inner. cbn [app]. rewrite replace2_double by (by apply inner_no_pair; apply Hkv).
    rewrite <- !app_assoc. cbn [app]. by rewrite IH.
Qed.

Lemma join_members kv kvs :
  join_with 44 (member <$> kv :: kvs) = member kv ++ mjoin ((λ m, 44 :: member m) <$> kvs).
Proof.
  revert kv; induction kvs as [|kv' kvs IH]; intros kv; [symmetry; apply app_nil_r|].
  rewrite mjoin_fmap_cons. specialize (IH kv').
  change (join_with 44 (member <$> kv :: kv' :: kvs))
    with (member kv ++ 44 :: join_with 44 (member <$> kv' :: kvs)).
  by rewrite IH.
Qed.

Lemma plain_member_unit c kv : plain_member kv → c ∈ member kv → c ≠ c_rbrace.
Proof.
  intros [[_ Hk] [_ Hv]] Hin ->. rewrite Forall_forall in Hk, Hv. unfold member, quoted in Hin.
  rewrite !elem_of_app in Hin. simpl in Hin. rewrite !list_elem_of_singleton in Hin.
  destruct Hin as [[|[Hin|]]|[|[|[Hin|]]]]; try done.
  - apply Hk in Hin. by destruct Hin as (_ & _ & ?).
  - apply Hv in Hin. by destruct Hin as (_ & _ & ?).
Qed.

Lemma add_commas_members kvs :
  kvs ≠ [] → Forall plain_member kvs →
  add_commas (mjoin (member <$> kvs)) = join_with 44 (member <$> kvs).
Proof.
  intros Hne Hkvs. destruct kvs as [|kv kvs]; [done|].
  inversion Hkvs as [|?? Hkv Hkvs']; subst. unfold add_commas.
  assert (E : replace2 c_quote c_quote [c_quote; 44; c_quote] (mjoin (member <$> kv :: kvs)) =
              join_with 44 (member <$> kv :: kvs)).
  { rewrite join_members, mjoin_fmap_cons, member_inner. cbn [app]. rewrite <- !app_assoc. cbn [app].
    destruct (inner_head kv Hkv) as (c & s & Ei & Hc).
    pose proof (commas_members kvs kv Hkv Hkvs') as Hm. rewrite Ei in *. cbn [app] in *.
    rewrite replace2_cons_ne by done. f_equal. exact Hm. }
  rewrite E. apply replace2_id, has_pair_notin. rewrite join_members, elem_of_app.
  intros [Hin|Hin]; [by apply (plain_member_unit c_rbrace kv)|].
  apply list_elem_of_join in Hin as (l & Hin & Hl). apply list_elem_of_fmap in Hl as (m & -> & Hm).
  rewrite Forall_forall in Hkvs'. apply elem_of_cons in Hin as [|Hin]; [done|].
  by apply (plain_member_unit c_rbrace m (Hkvs' m Hm)).
Qed.

(** ** Objects

    A message that encodes an object is a list of fields: a time stamp, a path,
    a member whose value is a request type, or a member whose value is a
    number.  Its keywords are those of uuiddata.js. *)

Inductive field :=
  | FTime (b1 b2 b3 b4 : Z)
  | FPath (b1 b2 : Z)
  | FReq (k r : Z)
  | FNum (k n : Z) (bs : list Z).

Definition field_tokens (f : field) : list token :=
  match f with
  | FTime b1 b2 b3 b4 => [TTime b1 b2 b3 b4]
  | FPath b1 b2 => [TPath b1 b2]
  | FReq k r => [TKey k; TReq r]
  | FNum k n bs => [TKey k; TNum n bs]
  end.

Definition wf_field (f : field) : Prop := Forall (wf_token keywordlist) (field_tokens f).

Definition encode_fields (fs : list field) : jsstring :=
  mjoin (encode <$> mjoin (field_tokens <$> fs)).

Definition keyword (k : Z) : jsstring := str (keywordlist !! Z.to_nat k).

(** The key and the value text of a field. *)
Definition field_member (year : Z) (f : field) : jsstring * jsstring :=
  match f with
  | FTime b1 b2 b3 b4 => (keyword 3, timestamp year (Some b1) (Some b2) (Some b3) (Some b4))
  | FPath b1 b2 => (keyword 4, str (array_get uuidmap (Some (2 * b2))))
  | FReq k r => (keyword k, keyword r)
  | FNum k n bs => (keyword k, sign_of (keyword n) ++ js_of_Z (wrap32 (be_value bs)))
  end.

(** *** Every text the tables and the printers produce is plain *)

Lemma plain_lookup l (i : nat) :
  Forall plain l → plain (str ((l : list jsstring) !! i)).
Proof.
  intros Hl. destruct (l !! i) eqn:E; simpl.
  - rewrite Forall_forall in Hl. apply Hl. by eapply list_elem_of_lookup_2.
  - by_evaluation.
Qed.

Lemma keywordlist_plain : Forall plain keywordlist.
Proof. by_evaluation. Qed.

Lemma uuidmap_plain : Forall plain uuidmap.
Proof. by_evaluation. Qed.

Lemma plain_app_l s t : plain s → Forall plain_unit t → plain (s ++ t).
Proof. intros [Hne Hs] Ht. split; [by destruct s|by apply Forall_app]. Qed.

Lemma plain_app_r s t : Forall plain_unit s → plain t → plain (s ++ t).
Proof. intros Hs [Hne Ht]. split; [by destruct s, t|by apply Forall_app]. Qed.

Lemma digits_plain n : 0 ≤ n → plain (js_of_nonneg n).
Proof.
  intros Hn. split.
  - destruct (js_of_nonneg_cons n) as (? & ? & ->). done.
  - eapply Forall_impl; [by apply js_of_nonneg_digits|]. intros c Hc%is_digit_range.
    unfold plain_unit, c_quote, c_lbrace, c_rbrace. lia.
Qed.

Lemma js_of_Z_plain z : plain (js_of_Z z).
Proof.
  unfold js_of_Z. destruct (Z.ltb_spec z 0); [|by apply digits_plain].
  change (c_minus :: ?s) with ([c_minus] ++ s). apply plain_app_r; [|apply digits_plain; lia].
  by_evaluation.
Qed.

Lemma js_of_intnum_plain n : plain (js_of_intnum n).
Proof.
  destruct n; [apply js_of_Z_plain|]. by_evaluation.
Qed.

Lemma two_digits_plain n : plain (two_digits n).
Proof.
  unfold two_digits, padStart. apply plain_app_r; [|apply js_of_intnum_plain].
  apply Forall_replicate. by_evaluation.
Qed.

Lemma timestamp_plain year b1 b2 b3 b4 : plain (timestamp year b1 b2 b3 b4).
Proof.
  unfold timestamp. apply plain_app_l; [apply js_of_intnum_plain|].
  rewrite !Forall_app. split_and!; apply two_digits_plain || by_evaluation.
Qed.

Lemma field_member_plain year f : plain_member (field_member year f).
Proof.
  assert (Hkw : ∀ k, plain (keyword k)) by (intros k; apply plain_lookup, keywordlist_plain).
  destruct f; split; simpl; try apply Hkw; [apply timestamp_plain| |].
  - unfold array_get. destruct (_ <? 0); [|apply plain_lookup, uuidmap_plain].
    by apply (plain_lookup [] 0).
  - apply plain_app_r; [|apply js_of_Z_plain]. unfold sign_of.
    destruct (startsWith _ _); by_evaluation.
Qed.

Lemma field_render year f :
  mjoin (render keywordlist uuidmap year <$> field_tokens f) = member (field_member year f).
Proof.
  destruct f; unfold member, field_tokens, field_member, keyword; rewrite !mjoin_fmap_cons;
    cbn [render fst snd fmap list_fmap mjoin list_join]; by rewrite app_nil_r, <- ?app_assoc.
Qed.

Lemma fields_render year fs :
  mjoin (render keywordlist uuidmap year <$> mjoin (field_tokens <$> fs)) =
    mjoin (member <$> (field_member year <$> fs)).
Proof.
  induction fs as [|f fs IH]; [done|].
  rewrite mjoin_fmap_cons, fmap_app, join_app, IH, field_render. done.
Qed.

(** ** Theorems *)

Lemma decompress_tokens kws paths year ts :
  Forall (wf_token kws) ts →
  decompressMessage kws paths year (mjoin (encode <$> ts)) =
    Some (Ret ([c_lbrace] ++ add_commas (mjoin (render kws paths year <$> ts)) ++ [c_rbrace])).
Proof.
  intros Hts. set (m := mjoin (encode <$> ts)).
  destruct (decode_terminates kws paths year m) as [r Hr].
  unfold decompressMessage. rewrite Hr.
  pose proof (tokens_reach kws paths year ts [] [] [] Hts) as Hreach.
  rewrite app_nil_r in Hreach. cbn [app] in Hreach. fold m in Hreach.
  assert (Hend : loop_step kws paths year m (length m, mjoin (render kws paths year <$> ts)) =
                 inr (Ret (mjoin (render kws paths year <$> ts)))).
  { unfold loop_step. by rewrite (proj2 (lookup_ge_None m (length m))). }
  by rewrite (while_reach_done _ _ _ _ _ _ Hreach Hend Hr).
Qed.

Lemma decompress_fields year fs :
  fs ≠ [] → Forall wf_field fs →
  decompressMessage keywordlist uuidmap year (encode_fields fs) =
    Some (Ret ([c_lbrace] ++ join_with 44 (member <$> (field_member year <$> fs)) ++ [c_rbrace])).
Proof.
  intros Hne Hfs. unfold encode_fields. rewrite decompress_tokens.
  - rewrite fields_render, add_commas_members; [done|by destruct fs|].
    apply Forall_fmap, Forall_true. intros f. apply field_member_plain.
  - clear Hne. induction Hfs; [constructor|]. apply Forall_app; split; done.
Qed.

(** C2. Every call of the decoder with the tables of the repository returns:
    the loop ends within one iteration per code unit, no exception escapes,
    and the result is wrapped in braces. *)
Theorem decompress_total year message :
  ∃ s, decompressMessage keywordlist uuidmap year message =
    Some (Ret ([c_lbrace] ++ s ++ [c_rbrace])).
Proof.
  destruct (decode_terminates keywordlist uuidmap year message) as [r Hr].
  destruct (while_no_throw keywordlist uuidmap year message _ _ r ltac:(vm_compute; lia) Hr) as [s ->].
  exists (add_commas s). unfold decompressMessage. by rewrite Hr.
Qed.

(** A packed time stamp decodes to the ISO text of its fields, the year
    being counted in the current decade. *)
Theorem timestamp_roundtrip year t :
  0 ≤ year → wf_stamp t →
  let '(b1, b2, b3, b4) := pack_stamp t in
  decompressMessage keywordlist uuidmap year (encode (TTime b1 b2 b3 b4)) =
    Some (Ret ([c_lbrace] ++ member (js "ts", iso_text year t) ++ [c_rbrace])).
Proof.
  intros Hyear Hwf. destruct (pack_stamp t) as [[[b1 b2] b3] b4] eqn:E.
  change (encode (TTime b1 b2 b3 b4)) with (encode_fields [FTime b1 b2 b3 b4]).
  rewrite decompress_fields by (try done; by repeat constructor).
  rewrite <- (timestamp_pack year t b1 b2 b3 b4) by done. done.
Qed.

(** An integer operand is the two's complement value of its bytes on 32
    bits: the one- to three-byte kinds decode to their unsigned value, and a
    four-byte operand of 2^31 or more comes out negative. *)
Theorem read_int_value pre bs suf :
  Forall is_byte bs → (length bs ≤ 4)%nat →
  read_int (pre ++ bs ++ suf) (length pre) (length bs) (Some 0) =
    Some (if be_value bs <? 2 ^ 31 then be_value bs else be_value bs - 2 ^ 32).
Proof.
  intros Hbs Hlen. change (Some 0) with (Some (wrap32 0)).
  rewrite read_int_bytes by done. fold (be_value bs). f_equal.
  pose proof (be_value_bound bs Hbs) as Hb.
  assert (256 ^ Z.of_nat (length bs) ≤ 256 ^ 4) by (apply Z.pow_le_mono_r; lia).
  unfold wrap32. by rewrite Z.mod_small by lia.
Qed.

(** Of the two bytes of a path reference the decoder uses only the
    second, and it prints the list entry at twice that byte: the entries at
    odd positions cannot be addressed. *)
Theorem path_reference year b1 b2 :
  is_byte b1 → is_byte b2 →
  decompressMessage keywordlist uuidmap year (encode (TPath b1 b2)) =
    Some (Ret ([c_lbrace] ++ member (js "path", str (uuidmap !! Z.to_nat (2 * b2))) ++ [c_rbrace])).
Proof.
  intros Hb1 Hb2. change (encode (TPath b1 b2)) with (encode_fields [FPath b1 b2]).
  rewrite decompress_fields by (try done; by repeat constructor).
  unfold is_byte in Hb2. cbn [fmap list_fmap join_with field_member array_get].
  by rewrite (proj2 (Z.ltb_ge (2 * b2) 0)) by lia.
Qed.

(** With the table of uuiddata.js the value branch never meets the
    keywords "bool" and "float": the code that decodes booleans and floats
    is unreachable, keyword 23 ("bool") is dropped and keyword 24 ("float")
    is printed as a member key. *)
Theorem bool_float_unreachable year message index :
  (∀ k kw, value_keyword keywordlist k kw →
     endsWith kw (js "bool") = false ∧ endsWith kw (js "float") = false) ∧
  iteration keywordlist uuidmap year message index (128 + 23) = Ret ([], S index) ∧
  iteration keywordlist uuidmap year message index (128 + 24) =
    Ret (quoted (js "float") ++ js ":", S index).
Proof.
  split; [|done]. intros k kw [Hk Hkw].
  assert (H : Forall (λ kw, endsWith kw (js "bool") = false ∧ endsWith kw (js "float") = false)
                (take 23 keywordlist)) by by_evaluation.
  rewrite Forall_forall in H. apply H, list_elem_of_lookup. exists (Z.to_nat k).
  by rewrite lookup_take_lt by lia.
Qed.

(** ** Witnesses *)

(** 2024-02-26T08:20:30Z *)
Lemma timestamp_roundtrip_witness :
  decompressMessage keywordlist uuidmap 2024 [131; 16; 180; 133; 30] =
    Some (Ret ([c_lbrace] ++ member (js "ts", js "2024-02-26T08:20:30Z") ++ [c_rbrace])).
Proof.
  exact (timestamp_roundtrip 2024 (Stamp 4 2 26 8 20 30)
           ltac:(lia) ltac:(unfold wf_stamp; simpl; lia)).
Defined.

Lemma read_int_value_witness :
  read_int [150; 255; 255; 255; 254] 1 4 (Some 0) = Some (-2).
Proof. exact (read_int_value [150] [255; 255; 255; 254] [] ltac:(by_evaluation) ltac:(simpl; lia)). Defined.

Lemma path_reference_witness :
  decompressMessage keywordlist uuidmap 2024 [132; 0; 1] =
    Some (Ret ([c_lbrace] ++ member (js "path", js "Vehicle.ADAS.ABS.IsEngaged") ++ [c_rbrace])).
Proof. exact (path_reference 2024 0 1 ltac:(by_evaluation) ltac:(by_evaluation)). Defined.

End DecompressSpec.
