(* ===== verification/Dom.v ===== *)
(** * The document and the jQuery methods the sources call

    A document is a finite map from node identifiers to elements.  The jQuery
    methods on one element ([addClass], [removeClass], [attr], [css], ...) are
    functions on documents; on a collection they are applied to each member
    in order.  Selectors are boolean predicates on nodes. *)

From S2P Require Import Prelude.
Local Open Scope string_scope.

Abbreviation nid := nat.

Record elem := Elem {
  tagName : string;
  elId : string;
  classList : list string;
  attributes : gmap string string;
  inlineStyle : gmap string string;
  parentNode : option nid;
  childNodes : list nid
}.

Abbreviation dom := (gmap nid elem).

#[export] Instance elem_eq_dec : EqDecision elem.
Proof. solve_decision. Defined.

Module Dom.

(** ** Field updates *)

Definition with_classes (f : list string → list string) (e : elem) : elem :=
  Elem (tagName e) (elId e) (f (classList e)) (attributes e) (inlineStyle e) (parentNode e) (childNodes e).
Definition with_attrs (f : gmap string string → gmap string string) (e : elem) : elem :=
  Elem (tagName e) (elId e) (classList e) (f (attributes e)) (inlineStyle e) (parentNode e) (childNodes e).
Definition with_style (f : gmap string string → gmap string string) (e : elem) : elem :=
  Elem (tagName e) (elId e) (classList e) (attributes e) (f (inlineStyle e)) (parentNode e) (childNodes e).
Definition with_id (i : string) (e : elem) : elem :=
  Elem (tagName e) i (classList e) (attributes e) (inlineStyle e) (parentNode e) (childNodes e).
Definition with_parent (p : option nid) (e : elem) : elem :=
  Elem (tagName e) (elId e) (classList e) (attributes e) (inlineStyle e) p (childNodes e).
Definition with_children (f : list nid → list nid) (e : elem) : elem :=
  Elem (tagName e) (elId e) (classList e) (attributes e) (inlineStyle e) (parentNode e) (f (childNodes e)).

(** ** Classes *)

Definition hasClass (d : dom) (n : nid) (c : string) : bool :=
  match d !! n with
  | Some e => bool_decide (c ∈ classList e)
  | None => false
  end.

Definition add_to (c : string) (cs : list string) : list string :=
  if bool_decide (c ∈ cs) then cs else (cs ++ [c])%list.
Definition remove_from (c : string) (cs : list string) : list string :=
  filter (λ x, x ≠ c) cs.

Definition addClass (c : string) (n : nid) (d : dom) : dom := alter (with_classes (add_to c)) n d.
Definition removeClass (c : string) (n : nid) (d : dom) : dom :=
  alter (with_classes (remove_from c)) n d.
Definition toggleClass (c : string) (n : nid) (d : dom) : dom :=
  if hasClass d n c then removeClass c n d else addClass c n d.
(** [toggleClass(c, state)] *)
Definition toggleClassTo (c : string) (state : bool) (n : nid) (d : dom) : dom :=
  if state then addClass c n d else removeClass c n d.

(** ** Attributes and inline style *)

Definition getAttribute (d : dom) (n : nid) (a : string) : option string :=
  e ← d !! n; attributes e !! a.
Definition hasAttribute (d : dom) (n : nid) (a : string) : bool :=
  bool_decide (is_Some (getAttribute d n a)).
Definition setAttribute (a v : string) (n : nid) (d : dom) : dom := alter (with_attrs <[a := v]>) n d.
Definition removeAttribute (a : string) (n : nid) (d : dom) : dom :=
  alter (with_attrs (delete a)) n d.

(** [el.setAttribute('id', i)] *)
Definition setId (i : string) (n : nid) (d : dom) : dom := alter (with_id i) n d.

(** [css(p, v)]: the empty string removes the inline declaration. *)
Definition css (p v : string) (n : nid) (d : dom) : dom :=
  alter (with_style (if bool_decide (v = "") then delete p else <[p := v]>)) n d.
Definition getStyle (d : dom) (n : nid) (p : string) : option string :=
  e ← d !! n; inlineStyle e !! p.

Definition bool_attr (b : bool) : string := if b then "true" else "false".

(** ** Collections *)

Definition each (f : nid → dom → dom) (ns : list nid) (d : dom) : dom :=
  foldl (λ d n, f n d) d ns.

(** [$(ns).hasClass(c)]: some member has it. *)
Definition anyHasClass (d : dom) (ns : list nid) (c : string) : bool :=
  existsb (λ n, hasClass d n c) ns.

(** ** Navigation *)

Abbreviation selector := (dom → nid → bool).

Definition parent (d : dom) (n : nid) : option nid := e ← d !! n; parentNode e.
Definition children (d : dom) (n : nid) : list nid :=
  match d !! n with Some e => childNodes e | None => [] end.

(** [closest]: the node itself or its nearest ancestor that matches. *)
Fixpoint closest_fuel (fuel : nat) (P : selector) (d : dom) (n : nid) : option nid :=
  match fuel with
  | O => None
  | S f => if P d n then Some n
           else match parent d n with
                | Some p => closest_fuel f P d p
                | None => None
                end
  end.
Definition closest (P : selector) (d : dom) (n : nid) : option nid :=
  closest_fuel (S (size d)) P d n.

(** Descendants in document order. *)
Fixpoint descendants_fuel (fuel : nat) (d : dom) (n : nid) : list nid :=
  match fuel with
  | O => []
  | S f => mjoin ((λ c, c :: descendants_fuel f d c) <$> children d n)
  end.
Definition descendants (d : dom) (n : nid) : list nid := descendants_fuel (size d) d n.
Definition find (P : selector) (d : dom) (n : nid) : list nid :=
  filter (λ m, P d m) (descendants d n).

(** [$(sel)]: all nodes of the document that match.  [order] lists the nodes
    in document order. *)
Definition query (order : list nid) (P : selector) (d : dom) : list nid :=
  filter (λ m, P d m) order.

(** ** Selectors *)

Definition sel_class (c : string) : selector := λ d n, hasClass d n c.
Definition sel_tag (t : string) : selector :=
  λ d n, match d !! n with Some e => bool_decide (tagName e = t) | None => false end.
Definition sel_id (i : string) : selector :=
  λ d n, match d !! n with Some e => bool_decide (elId e = i) | None => false end.
Definition sel_has_attr (a : string) : selector := λ d n, hasAttribute d n a.
Definition sel_attr (a v : string) : selector :=
  λ d n, bool_decide (getAttribute d n a = Some v).
Definition sel_attr_prefix (a v : string) : selector :=
  λ d n, match getAttribute d n a with Some x => String.prefix v x | None => false end.
Definition sel_and (P Q : selector) : selector := λ d n, P d n && Q d n.
Definition sel_or (P Q : selector) : selector := λ d n, P d n || Q d n.
Definition sel_not (P : selector) : selector := λ d n, negb (P d n).
(** [P > Q] and [P Q] *)
Definition sel_child (P Q : selector) : selector :=
  λ d n, Q d n && match parent d n with Some p => P d p | None => false end.
Definition sel_desc (P Q : selector) : selector :=
  λ d n, Q d n && match parent d n with
                  | Some p => bool_decide (is_Some (closest P d p))
                  | None => false
                  end.

(** [detach]: unlink a node from its parent; the node keeps its subtree. *)
Definition detach (n : nid) (d : dom) : dom :=
  match parent d n with
  | Some p => alter (with_parent None) n (alter (with_children (filter (λ m, m ≠ n))) p d)
  | None => d
  end.
(** [remove]: the node and its subtree are gone. *)
Definition remove (n : nid) (d : dom) : dom :=
  let d' := detach n d in
  foldl (λ d m, delete m d) d' (n :: descendants d' n).

(** [appendChild]. *)
Definition append (p n : nid) (d : dom) : dom :=
  alter (with_parent (Some p)) n (alter (with_children (λ cs, (cs ++ [n])%list)) p (detach n d)).

(** A node the document does not use. *)
Definition new_node (d : dom) : nid := map_fold (λ k _ m, Nat.max (S k) m) O d.

(** ** How the updates interact *)

Lemma new_node_fresh d : d !! new_node d = None.
Proof.
  assert (H : ∀ k, is_Some (d !! k) → (k < new_node d)%nat).
  { unfold new_node. apply (map_fold_weak_ind (λ m d, ∀ k, is_Some (d !! k) → (k < m)%nat)).
    - intros k [x Hx]. by rewrite lookup_empty in Hx.
    - intros i x m r Hi IH k Hk. rewrite lookup_insert in Hk. case_decide; [subst; lia|].
      specialize (IH k Hk). lia. }
  destruct (d !! new_node d) eqn:E; [|done]. specialize (H (new_node d) ltac:(by eexists)). lia.
Qed.


(** Operations that leave the classes, the attributes, the style or the tree
    alone: one lemma on [alter] per observation. *)
Lemma present_alter f (n m : nid) (d : dom) : is_Some (alter f n d !! m) ↔ is_Some (d !! m).
Proof. rewrite lookup_alter. case_decide; [subst; by rewrite fmap_is_Some|done]. Qed.

Lemma hasClass_alter f n d m c :
  (∀ e, classList (f e) = classList e) → hasClass (alter f n d) m c = hasClass d m c.
Proof.
  intros Hf. unfold hasClass. rewrite lookup_alter. case_decide; [|done]. subst.
  destruct (d !! m); simpl; [by rewrite Hf|done].
Qed.

Lemma getAttribute_alter f n d m a :
  (∀ e, attributes (f e) = attributes e) → getAttribute (alter f n d) m a = getAttribute d m a.
Proof.
  intros Hf. unfold getAttribute. rewrite lookup_alter. case_decide; [|done]. subst.
  destruct (d !! m); simpl; [by rewrite Hf|done].
Qed.

Lemma getStyle_alter f n d m p :
  (∀ e, inlineStyle (f e) = inlineStyle e) → getStyle (alter f n d) m p = getStyle d m p.
Proof.
  intros Hf. unfold getStyle. rewrite lookup_alter. case_decide; [|done]. subst.
  destruct (d !! m); simpl; [by rewrite Hf|done].
Qed.

Lemma parent_alter f n d m :
  (∀ e, parentNode (f e) = parentNode e) → parent (alter f n d) m = parent d m.
Proof.
  intros Hf. unfold parent. rewrite lookup_alter. case_decide; [|done]. subst.
  destruct (d !! m); simpl; [by rewrite Hf|done].
Qed.

Lemma children_alter f n d m :
  (∀ e, childNodes (f e) = childNodes e) → children (alter f n d) m = children d m.
Proof.
  intros Hf. unfold children. rewrite lookup_alter. case_decide; [|done]. subst.
  destruct (d !! m); simpl; [by rewrite Hf|done].
Qed.

Lemma elem_of_add_to c cs x : x ∈ add_to c cs ↔ x = c ∨ x ∈ cs.
Proof. unfold add_to. case_bool_decide; set_solver. Qed.

Lemma elem_of_remove_from c cs x : x ∈ remove_from c cs ↔ x ≠ c ∧ x ∈ cs.
Proof. unfold remove_from. by rewrite list_elem_of_filter. Qed.

Lemma hasClass_addClass c n d m c' :
  hasClass (addClass c n d) m c' =
    (bool_decide (n = m ∧ c = c' ∧ is_Some (d !! m)) || hasClass d m c').
Proof.
  unfold hasClass, addClass. rewrite lookup_alter. case_decide as Hn.
  - subst. destruct (d !! m) as [e|]; simpl; [|by rewrite bool_decide_false by naive_solver].
    apply eq_iff_eq_true. rewrite orb_true_iff, !bool_decide_eq_true, elem_of_add_to.
    split; [|naive_solver]. intros [->|]; [left; eauto|by right].
  - by rewrite bool_decide_false by naive_solver.
Qed.

Lemma hasClass_removeClass c n d m c' :
  hasClass (removeClass c n d) m c' = (negb (bool_decide (n = m ∧ c = c')) && hasClass d m c').
Proof.
  unfold hasClass, removeClass. rewrite lookup_alter. case_decide as Hn.
  - subst. destruct (d !! m) as [e|]; simpl; [|by rewrite andb_false_r].
    apply eq_iff_eq_true.
    rewrite andb_true_iff, negb_true_iff, bool_decide_eq_true, elem_of_remove_from,
      bool_decide_eq_false, bool_decide_eq_true. naive_solver.
  - by rewrite bool_decide_false by naive_solver.
Qed.

Lemma hasClass_add_same c n d :
  is_Some (d !! n) → hasClass (addClass c n d) n c = true.
Proof. intros H. rewrite hasClass_addClass. by rewrite bool_decide_true. Qed.

Lemma hasClass_add_other c n d m c' :
  n ≠ m ∨ c ≠ c' → hasClass (addClass c n d) m c' = hasClass d m c'.
Proof. intros H. rewrite hasClass_addClass. by rewrite bool_decide_false by naive_solver. Qed.

Lemma hasClass_remove_same c n d : hasClass (removeClass c n d) n c = false.
Proof. rewrite hasClass_removeClass. by rewrite bool_decide_true. Qed.

Lemma hasClass_remove_other c n d m c' :
  n ≠ m ∨ c ≠ c' → hasClass (removeClass c n d) m c' = hasClass d m c'.
Proof. intros H. rewrite hasClass_removeClass. by rewrite bool_decide_false by naive_solver. Qed.

Lemma hasClass_present d n c : hasClass d n c = true → is_Some (d !! n).
Proof. unfold hasClass. by destruct (d !! n). Qed.

Lemma hasClass_toggle_same c n d :
  is_Some (d !! n) → hasClass (toggleClass c n d) n c = negb (hasClass d n c).
Proof.
  intros H. unfold toggleClass. destruct (hasClass d n c) eqn:E.
  - apply hasClass_remove_same.
  - by apply hasClass_add_same.
Qed.

Lemma hasClass_toggle_other c n d m c' :
  n ≠ m ∨ c ≠ c' → hasClass (toggleClass c n d) m c' = hasClass d m c'.
Proof.
  intros H. unfold toggleClass. case_match;
    [by apply hasClass_remove_other|by apply hasClass_add_other].
Qed.

Lemma hasClass_setAttribute a v n d m c : hasClass (setAttribute a v n d) m c = hasClass d m c.
Proof. by apply hasClass_alter. Qed.
Lemma hasClass_removeAttribute a n d m c : hasClass (removeAttribute a n d) m c = hasClass d m c.
Proof. by apply hasClass_alter. Qed.
Lemma hasClass_css p v n d m c : hasClass (css p v n d) m c = hasClass d m c.
Proof. by apply hasClass_alter. Qed.

Lemma getAttribute_addClass c n d m a : getAttribute (addClass c n d) m a = getAttribute d m a.
Proof. by apply getAttribute_alter. Qed.
Lemma getAttribute_removeClass c n d m a : getAttribute (removeClass c n d) m a = getAttribute d m a.
Proof. by apply getAttribute_alter. Qed.
Lemma getAttribute_css p v n d m a : getAttribute (css p v n d) m a = getAttribute d m a.
Proof. by apply getAttribute_alter. Qed.

Lemma getAttribute_set_same a v n d :
  is_Some (d !! n) → getAttribute (setAttribute a v n d) n a = Some v.
Proof.
  intros [e He]. unfold getAttribute, setAttribute. rewrite lookup_alter_eq, He. simpl.
  apply lookup_insert_eq.
Qed.

Lemma getAttribute_set_other a v n d m a' :
  n ≠ m ∨ a ≠ a' → getAttribute (setAttribute a v n d) m a' = getAttribute d m a'.
Proof.
  intros H. unfold getAttribute, setAttribute. rewrite lookup_alter. case_decide; [|done].
  subst. destruct (d !! m); [|done]. simpl. apply lookup_insert_ne. naive_solver.
Qed.

Lemma getStyle_addClass c n d m p : getStyle (addClass c n d) m p = getStyle d m p.
Proof. by apply getStyle_alter. Qed.
Lemma getStyle_removeClass c n d m p : getStyle (removeClass c n d) m p = getStyle d m p.
Proof. by apply getStyle_alter. Qed.
Lemma getStyle_setAttribute a v n d m p : getStyle (setAttribute a v n d) m p = getStyle d m p.
Proof. by apply getStyle_alter. Qed.

Lemma getStyle_css_same p v n d :
  is_Some (d !! n) → getStyle (css p v n d) n p = if bool_decide (v = "") then None else Some v.
Proof.
  intros [e He]. unfold getStyle, css. rewrite lookup_alter_eq, He. simpl.
  case_bool_decide; [apply lookup_delete_eq|apply lookup_insert_eq].
Qed.

Lemma getStyle_css_other p v n d m p' :
  n ≠ m ∨ p ≠ p' → getStyle (css p v n d) m p' = getStyle d m p'.
Proof.
  intros H. unfold getStyle, css. rewrite lookup_alter. case_decide; [|done].
  subst. destruct (d !! m); [|done]. simpl.
  case_bool_decide; [apply lookup_delete_ne|apply lookup_insert_ne]; naive_solver.
Qed.

Lemma present_addClass c n d m : is_Some (addClass c n d !! m) ↔ is_Some (d !! m).
Proof. apply present_alter. Qed.
Lemma present_removeClass c n d m : is_Some (removeClass c n d !! m) ↔ is_Some (d !! m).
Proof. apply present_alter. Qed.
Lemma present_setAttribute a v n d m : is_Some (setAttribute a v n d !! m) ↔ is_Some (d !! m).
Proof. apply present_alter. Qed.
Lemma present_css p v n d m : is_Some (css p v n d !! m) ↔ is_Some (d !! m).
Proof. apply present_alter. Qed.
Lemma present_toggleClass c n d m : is_Some (toggleClass c n d !! m) ↔ is_Some (d !! m).
Proof. unfold toggleClass. case_match; apply present_alter. Qed.

Lemma parent_css p v n d m : parent (css p v n d) m = parent d m.
Proof. by apply parent_alter. Qed.
Lemma parent_addClass c n d m : parent (addClass c n d) m = parent d m.
Proof. by apply parent_alter. Qed.
Lemma parent_removeClass c n d m : parent (removeClass c n d) m = parent d m.
Proof. by apply parent_alter. Qed.
Lemma parent_setAttribute a v n d m : parent (setAttribute a v n d) m = parent d m.
Proof. by apply parent_alter. Qed.
Lemma children_addClass c n d m : children (addClass c n d) m = children d m.
Proof. by apply children_alter. Qed.
Lemma children_removeClass c n d m : children (removeClass c n d) m = children d m.
Proof. by apply children_alter. Qed.
Lemma children_setAttribute a v n d m : children (setAttribute a v n d) m = children d m.
Proof. by apply children_alter. Qed.

Lemma hasClass_setId i n d m c : hasClass (setId i n d) m c = hasClass d m c.
Proof. by apply hasClass_alter. Qed.
Lemma getAttribute_setId i n d m a : getAttribute (setId i n d) m a = getAttribute d m a.
Proof. by apply getAttribute_alter. Qed.
Lemma parent_setId i n d m : parent (setId i n d) m = parent d m.
Proof. by apply parent_alter. Qed.
Lemma children_setId i n d m : children (setId i n d) m = children d m.
Proof. by apply children_alter. Qed.
Lemma present_setId i n d m : is_Some (setId i n d !! m) ↔ is_Some (d !! m).
Proof. apply present_alter. Qed.
Lemma parent_removeAttribute a n d m : parent (removeAttribute a n d) m = parent d m.
Proof. by apply parent_alter. Qed.
Lemma children_removeAttribute a n d m : children (removeAttribute a n d) m = children d m.
Proof. by apply children_alter. Qed.
Lemma present_removeAttribute a n d m : is_Some (removeAttribute a n d !! m) ↔ is_Some (d !! m).
Proof. apply present_alter. Qed.
Lemma getAttribute_removeAttribute a n d m a' :
  getAttribute (removeAttribute a n d) m a' = if bool_decide (n = m ∧ a = a') then None else getAttribute d m a'.
Proof.
  unfold getAttribute, removeAttribute. rewrite lookup_alter. case_decide; [|by rewrite bool_decide_false by naive_solver].
  subst. destruct (d !! m); simpl; [|by case_bool_decide]. rewrite lookup_delete.
  case_decide; case_bool_decide; naive_solver.
Qed.

Lemma sel_id_alter f n d m i : (∀ e, elId (f e) = elId e) → sel_id i (alter f n d) m = sel_id i d m.
Proof.
  intros Hf. unfold sel_id. rewrite lookup_alter. case_decide; [|done]. subst.
  destruct (d !! m); simpl; [by rewrite Hf|done].
Qed.
Lemma sel_id_setId i n d : is_Some (d !! n) → sel_id i (setId i n d) n = true.
Proof. intros [e He]. unfold sel_id, setId. rewrite lookup_alter_eq, He. simpl. by apply bool_decide_eq_true. Qed.

(** Unlinking and linking a node. *)
Lemma hasClass_detach n d m c : hasClass (detach n d) m c = hasClass d m c.
Proof. unfold detach. case_match; [|done]. by rewrite !hasClass_alter. Qed.
Lemma getAttribute_detach n d m a : getAttribute (detach n d) m a = getAttribute d m a.
Proof. unfold detach. case_match; [|done]. by rewrite !getAttribute_alter. Qed.
Lemma sel_id_detach n d m i : sel_id i (detach n d) m = sel_id i d m.
Proof. unfold detach. case_match; [|done]. by rewrite !sel_id_alter. Qed.
Lemma present_detach n d m : is_Some (detach n d !! m) ↔ is_Some (d !! m).
Proof. unfold detach. case_match; [|done]. by rewrite !present_alter. Qed.
Lemma parent_relink p n d m :
  parent (alter (with_parent p) n d) m = if bool_decide (n = m ∧ is_Some (d !! m)) then p else parent d m.
Proof.
  unfold parent. rewrite lookup_alter. case_decide as H; [|by rewrite bool_decide_false by naive_solver].
  subst. destruct (d !! m); simpl; [by rewrite bool_decide_true by naive_solver|].
  rewrite bool_decide_false; [done|]. intros [_ [? [=]]].
Qed.
Lemma parent_detach n d m : parent (detach n d) m = if bool_decide (n = m) then None else parent d m.
Proof.
  unfold detach. destruct (parent d n) as [p|] eqn:Ep.
  - rewrite parent_relink, parent_alter by done. case_bool_decide as H1; case_bool_decide as H2; try naive_solver.
    subst. unfold parent in *. destruct (d !! m) eqn:Em; [|done].
    destruct H1. split; [done|]. apply present_alter. by eexists.
  - case_bool_decide; by subst.
Qed.

Lemma hasClass_append p n d m c : hasClass (append p n d) m c = hasClass d m c.
Proof. unfold append. rewrite !hasClass_alter by done. apply hasClass_detach. Qed.
Lemma getAttribute_append p n d m a : getAttribute (append p n d) m a = getAttribute d m a.
Proof. unfold append. rewrite !getAttribute_alter by done. apply getAttribute_detach. Qed.
Lemma sel_id_append p n d m i : sel_id i (append p n d) m = sel_id i d m.
Proof. unfold append. rewrite !sel_id_alter by done. apply sel_id_detach. Qed.
Lemma present_append p n d m : is_Some (append p n d !! m) ↔ is_Some (d !! m).
Proof. unfold append. by rewrite !present_alter, present_detach. Qed.
Lemma parent_append p n d m :
  is_Some (d !! n) → parent (append p n d) m = if bool_decide (n = m) then Some p else parent d m.
Proof.
  intros Hn. unfold append. rewrite parent_relink, parent_alter, parent_detach by done.
  case_bool_decide as H1; case_bool_decide as H2; try naive_solver.
  subst. destruct H1. split; [done|]. by rewrite present_alter, present_detach.
Qed.

(** ** Ancestors *)

(** Documents with the same nodes and the same parents. *)
Definition same_tree (d d' : dom) : Prop := size d' = size d ∧ ∀ m, parent d' m = parent d m.
#[global] Instance same_tree_refl : Reflexive same_tree.
Proof. done. Qed.
#[global] Instance same_tree_trans : Transitive same_tree.
Proof. intros d1 d2 d3 [H1 H2] [H3 H4]. split; [by rewrite H3|]. intros m. by rewrite H4. Qed.

Lemma size_alter_doc f (n : nid) (d : dom) : size (alter f n d) = size d.
Proof. rewrite <- !size_dom. by rewrite dom_alter_L. Qed.
Lemma same_tree_alter f n d : (∀ e, parentNode (f e) = parentNode e) → same_tree d (alter f n d).
Proof. intros Hf. split; [apply size_alter_doc|]. intros m. by apply parent_alter. Qed.

(** The ancestor with a given name. *)
Lemma closest_node_tree a d d' n :
  same_tree d d' → closest (λ _ m, bool_decide (m = a)) d' n = closest (λ _ m, bool_decide (m = a)) d n.
Proof.
  intros [Hs Hp]. unfold closest. rewrite Hs. generalize (S (size d)). intros f. revert n.
  induction f as [|f IH]; intros n; [done|]. cbn [closest_fuel]. rewrite Hp.
  case_match; [done|]. by destruct (parent d n).
Qed.

(** An ancestor is found with the fuel that is needed, and is still found when
    a node outside the path gets a parent. *)
Lemma closest_link a d d' n m :
  size d' = size d → (∀ k, k ≠ n → parent d' k = parent d k) → parent d n = None → n ≠ a →
  closest (λ _ m, bool_decide (m = a)) d m = Some a → closest (λ _ m, bool_decide (m = a)) d' m = Some a.
Proof.
  intros Hs Hp Hn Ha. unfold closest. rewrite Hs. generalize (S (size d)). intros f. revert m.
  induction f as [|f IH]; intros m; [done|]. cbn [closest_fuel]. case_bool_decide as Hm; [done|].
  destruct (decide (m = n)) as [->|Hne]; [by rewrite Hn|]. rewrite Hp by done.
  destruct (parent d m); [apply IH|done].
Qed.
Lemma closest_node a d n r : closest (λ _ m, bool_decide (m = a)) d n = Some r → r = a.
Proof.
  unfold closest. generalize (S (size d)). intros f. revert n. induction f as [|f IH]; intros n; [done|].
  cbn [closest_fuel]. case_bool_decide; [naive_solver|]. destruct (parent d n); [apply IH|done].
Qed.

(** Collections *)

Lemma each_present (f : nid → dom → dom) ns d m :
  (∀ n d, is_Some (f n d !! m) ↔ is_Some (d !! m)) →
  is_Some (each f ns d !! m) ↔ is_Some (d !! m).
Proof.
  intros Hf. unfold each. revert d; induction ns as [|n ns IH]; intros d; simpl; [done|].
  by rewrite IH, Hf.
Qed.

Lemma each_hasClass (f : nid → dom → dom) ns d m c :
  (∀ n d, n ∈ ns → hasClass (f n d) m c = hasClass d m c) →
  hasClass (each f ns d) m c = hasClass d m c.
Proof.
  unfold each. revert d; induction ns as [|n ns IH]; intros d Hf; simpl; [done|].
  rewrite IH by (intros; apply Hf; set_solver). apply Hf; set_solver.
Qed.

Lemma each_addClass c ns d m :
  m ∈ ns → is_Some (d !! m) → hasClass (each (addClass c) ns d) m c = true.
Proof.
  unfold each. revert d; induction ns as [|n ns IH]; intros d Hin Hp; simpl; [set_solver|].
  destruct (decide (m ∈ ns)).
  - apply IH; [done|by rewrite present_addClass].
  - assert (n = m) as -> by set_solver. fold (each (addClass c) ns (addClass c m d)).
    rewrite each_hasClass; [by apply hasClass_add_same|].
    intros. apply hasClass_add_other. left. set_solver.
Qed.

Lemma each_removeClass c ns d m :
  hasClass (each (removeClass c) ns d) m c = (negb (bool_decide (m ∈ ns)) && hasClass d m c).
Proof.
  unfold each. revert d; induction ns as [|n ns IH]; intros d; simpl.
  - done.
  - rewrite IH, hasClass_removeClass. destruct (hasClass d m c); rewrite ?andb_false_r, ?andb_true_r; [|done].
    destruct (decide (m ∈ ns)) as [H|H].
    + by rewrite (bool_decide_true (m ∈ ns)), (bool_decide_true (m ∈ n :: ns)) by set_solver.
    + rewrite (bool_decide_false (m ∈ ns)) by done. simpl. f_equal.
      apply bool_decide_ext. set_solver.
Qed.

End Dom.

#[export] Hint Rewrite Dom.hasClass_remove_same Dom.hasClass_setAttribute Dom.hasClass_css
  Dom.hasClass_removeAttribute Dom.getAttribute_addClass Dom.getAttribute_removeClass
  Dom.getAttribute_css Dom.getStyle_addClass Dom.getStyle_removeClass
  Dom.getStyle_setAttribute : dom.
#[export] Hint Rewrite Dom.hasClass_add_other Dom.hasClass_remove_other
  Dom.getAttribute_set_other Dom.getStyle_css_other using (by auto) : dom.
#[export] Hint Rewrite Dom.hasClass_setId Dom.hasClass_detach Dom.hasClass_append Dom.getAttribute_setId
  Dom.getAttribute_detach Dom.getAttribute_append Dom.present_setId Dom.present_removeAttribute
  Dom.present_detach Dom.present_append : dom.
#[export] Hint Rewrite Dom.present_addClass Dom.present_removeClass Dom.present_setAttribute
  Dom.present_css Dom.present_toggleClass : dom.
#[export] Hint Rewrite Dom.hasClass_add_same Dom.getAttribute_set_same Dom.getStyle_css_same
  using (autorewrite with dom; done) : dom.

(** Normalise a goal about an updated document. *)
Ltac dom_simpl := autorewrite with dom; simpl.
