(* ===== verification/DomClass.v ===== *)
(** * Documents up to one class

    Components that mark elements with a class change nothing else of the
    document.  Two documents are alike up to the class [c] if they are equal
    once [c] is removed from all elements; what does not ask for [c] is the
    same in both. *)

From S2P Require Import Prelude Dom.
Local Open Scope string_scope.
Local Open Scope list_scope.

Module DomClass.

Definition unclassed (c : string) (e : elem) : elem := Dom.with_classes (Dom.remove_from c) e.
Definition alike (c : string) (d d' : dom) : Prop := unclassed c <$> d = unclassed c <$> d'.

#[global] Instance alike_equivalence c : Equivalence (alike c).
Proof. split; unfold alike; [by intros d|by intros d d'|intros d1 d2 d3; congruence]. Qed.

(** A function on documents that does not depend on the class. *)
Abbreviation ignores c P := (Proper (alike c ==> eq ==> eq) P).

Section alike.
Context (c : string).

Lemma unclassed_alter f n d : (∀ e, unclassed c (f e) = unclassed c e) → alike c d (alter f n d).
Proof.
  intros Hf. apply map_eq. intros m. rewrite !lookup_fmap, lookup_alter. case_decide; [subst|done].
  destruct (d !! m); simpl; [by rewrite Hf|done].
Qed.
Lemma alike_addClass n d : alike c d (Dom.addClass c n d).
Proof.
  apply unclassed_alter. intros [t i cs a st p ch]. unfold unclassed, Dom.with_classes; simpl. f_equal.
  unfold Dom.add_to, Dom.remove_from. case_bool_decide; [done|]. rewrite filter_app, filter_cons_False by naive_solver.
  by rewrite app_nil_r.
Qed.
Lemma alike_removeClass n d : alike c d (Dom.removeClass c n d).
Proof.
  apply unclassed_alter. intros [t i cs a st p ch]. unfold unclassed, Dom.with_classes; simpl. f_equal.
  unfold Dom.remove_from. rewrite list_filter_filter. apply list_filter_iff. naive_solver.
Qed.
Lemma alike_each f ns d : (∀ n d, alike c d (f n d)) → alike c d (Dom.each f ns d).
Proof.
  intros Hf. unfold Dom.each. revert d; induction ns as [|n ns IH]; intros d; [done|]. simpl. etrans; [apply Hf|apply IH].
Qed.

Lemma alike_lookup d d' n : alike c d d' → unclassed c <$> d !! n = unclassed c <$> d' !! n.
Proof. intros H. rewrite <- !lookup_fmap. by rewrite H. Qed.

(** An observation of one element. *)
Lemma alike_elem {A} (f : elem → A) d d' n :
  (∀ e, f (unclassed c e) = f e) → alike c d d' → f <$> d !! n = f <$> d' !! n.
Proof.
  intros Hf H. pose proof (alike_lookup d d' n H) as E.
  destruct (d !! n), (d' !! n); simpl in *; try done. injection E as E1. intros. f_equal.
  rewrite <- (Hf e), <- (Hf e0). unfold unclassed, Dom.with_classes. congruence.
Qed.

#[global] Instance alike_parent : ignores c Dom.parent.
Proof.
  intros d d' H n _ <-. unfold Dom.parent. pose proof (alike_elem parentNode d d' n ltac:(done) H) as E.
  destruct (d !! n), (d' !! n); simpl in *; congruence.
Qed.
#[global] Instance alike_children : ignores c Dom.children.
Proof.
  intros d d' H n _ <-. unfold Dom.children. pose proof (alike_elem childNodes d d' n ltac:(done) H) as E.
  destruct (d !! n), (d' !! n); simpl in *; congruence.
Qed.
#[global] Instance alike_attribute : Proper (alike c ==> eq ==> eq ==> eq) Dom.getAttribute.
Proof.
  intros d d' H n _ <- a _ <-. unfold Dom.getAttribute. pose proof (alike_elem attributes d d' n ltac:(done) H) as E.
  destruct (d !! n), (d' !! n); simpl in *; congruence.
Qed.
#[global] Instance alike_size : Proper (alike c ==> eq) (size : dom → nat).
Proof. intros d d' H. rewrite <- (map_size_fmap (unclassed c) d), <- (map_size_fmap (unclassed c) d'). by rewrite H. Qed.
Lemma alike_present d d' n : alike c d d' → is_Some (d !! n) ↔ is_Some (d' !! n).
Proof.
  intros H. pose proof (alike_lookup d d' n H) as E.
  rewrite <- (fmap_is_Some (unclassed c) (d !! n)), <- (fmap_is_Some (unclassed c) (d' !! n)). by rewrite E.
Qed.

Lemma alike_class c' : c' ≠ c → ignores c (Dom.sel_class c').
Proof.
  intros Hc d d' H n _ <-. unfold Dom.sel_class, Dom.hasClass.
  assert (E : (λ e, bool_decide (c' ∈ classList e)) <$> d !! n = (λ e, bool_decide (c' ∈ classList e)) <$> d' !! n).
  { apply alike_elem; [|done]. intros e. apply bool_decide_ext. simpl. rewrite Dom.elem_of_remove_from. naive_solver. }
  destruct (d !! n), (d' !! n); simpl in *; congruence.
Qed.
#[global] Instance ignores_or P Q : ignores c P → ignores c Q → ignores c (Dom.sel_or P Q).
Proof. intros HP HQ d d' H n _ <-. unfold Dom.sel_or. by rewrite (HP d d' H n n eq_refl), (HQ d d' H n n eq_refl). Qed.

(** ** Walking through the tree *)

Lemma alike_closest P d d' n : ignores c P → alike c d d' → Dom.closest P d n = Dom.closest P d' n.
Proof.
  intros HP H. unfold Dom.closest. rewrite (alike_size d d' H). generalize (S (size d')). intros f. revert n.
  induction f as [|f IH]; intros n; [done|]. cbn [Dom.closest_fuel].
  rewrite (HP d d' H n n eq_refl), (alike_parent d d' H n n eq_refl). case_match; [done|]. by case_match.
Qed.
Lemma alike_descendants d d' n : alike c d d' → Dom.descendants d n = Dom.descendants d' n.
Proof.
  intros H. unfold Dom.descendants. rewrite (alike_size d d' H). generalize (size d'). intros f. revert n.
  induction f as [|f IH]; intros n; [done|]. cbn [Dom.descendants_fuel]. rewrite (alike_children d d' H n n eq_refl).
  f_equal. apply list_fmap_ext. intros _ k _. by rewrite IH.
Qed.
Lemma alike_filter P d d' (ns : list nid) :
  ignores c P → alike c d d' → filter (λ n, P d n = true) ns = filter (λ n, P d' n = true) ns.
Proof. intros HP H. apply list_filter_iff. intros n. by rewrite (HP d d' H n n eq_refl). Qed.
Lemma alike_find P d d' n : ignores c P → alike c d d' → Dom.find P d n = Dom.find P d' n.
Proof.
  intros HP H. unfold Dom.find. rewrite (alike_descendants d d') by done. apply list_filter_iff. intros m.
  by rewrite (HP d d' H m m eq_refl).
Qed.

(** ** Marking elements *)

Lemma each_add_iff ns d m :
  Dom.hasClass (Dom.each (Dom.addClass c) ns d) m c = true ↔
    (m ∈ ns ∧ is_Some (d !! m)) ∨ Dom.hasClass d m c = true.
Proof.
  unfold Dom.each. revert d; induction ns as [|n ns IH]; intros d; simpl; [set_solver|].
  rewrite IH, Dom.present_addClass, Dom.hasClass_addClass, orb_true_iff, bool_decide_eq_true.
  set_solver.
Qed.

End alike.
End DomClass.
