(* ===== verification/DomMarks.v ===== *)
(** * Documents up to some classes and attributes

    A component marks elements with a few classes and attributes of its own and
    leaves the rest of the document as it is.  Two documents are alike up to the
    classes [cs] and the attributes [ats] if they are equal once these are taken
    away; what does not ask for them is the same in both. *)

From S2P Require Import Prelude Dom.
Local Open Scope string_scope.
Local Open Scope list_scope.

Module DomMarks.

Section marks.
Context (cs ats : list string).

Definition bare (e : elem) : elem :=
  Dom.with_attrs (filter (λ kv, kv.1 ∉ ats)) (Dom.with_classes (filter (λ c, c ∉ cs)) e).
Definition alike (d d' : dom) : Prop := bare <$> d = bare <$> d'.
#[global] Instance marks_equivalence : Equivalence alike.
Proof. split; unfold alike; [by intros d|by intros d d'|intros d1 d2 d3; congruence]. Qed.

(** ** What keeps documents alike *)

Lemma marks_alter f n d : (∀ e, bare (f e) = bare e) → alike d (alter f n d).
Proof.
  intros Hf. apply map_eq. intros m. rewrite !lookup_fmap, lookup_alter. case_decide; [subst|done].
  destruct (d !! m); simpl; [by rewrite Hf|done].
Qed.
Lemma marks_add c n d : c ∈ cs → alike d (Dom.addClass c n d).
Proof.
  intros Hc. apply marks_alter. intros [t i k a st p ch]. unfold bare, Dom.with_classes; simpl. f_equal.
  unfold Dom.add_to. case_bool_decide; [done|]. rewrite filter_app, filter_cons_False by naive_solver. by rewrite app_nil_r.
Qed.
Lemma marks_remove c n d : c ∈ cs → alike d (Dom.removeClass c n d).
Proof.
  intros Hc. apply marks_alter. intros [t i k a st p ch]. unfold bare, Dom.with_classes, Dom.remove_from; simpl.
  rewrite list_filter_filter. do 2 f_equal. apply list_filter_iff. naive_solver.
Qed.
Lemma marks_toggle c n d : c ∈ cs → alike d (Dom.toggleClass c n d).
Proof. intros Hc. unfold Dom.toggleClass. case_match; [by apply marks_remove|by apply marks_add]. Qed.
Lemma marks_set a v n d : a ∈ ats → alike d (Dom.setAttribute a v n d).
Proof.
  intros Ha. apply marks_alter. intros [t i k at_ st p ch]. unfold bare, Dom.with_attrs, Dom.with_classes; simpl. f_equal.
  apply map_eq. intros b. rewrite !map_lookup_filter, lookup_insert. case_decide; [subst|done].
  destruct (at_ !! b); cbn; by rewrite !option_guard_False by naive_solver.
Qed.
Lemma marks_each_node f ns d : (∀ n d, alike d (f n d)) → alike d (Dom.each f ns d).
Proof.
  intros Hf. unfold Dom.each. revert d; induction ns as [|n ns IH]; intros d; [done|]. simpl. etrans; [apply Hf|apply IH].
Qed.

(** ** What alike documents share *)

Section shared.
Context (d d' : dom) (H : alike d d').

Lemma marks_elem {A} (f : elem → A) n : (∀ e, f (bare e) = f e) → f <$> d' !! n = f <$> d !! n.
Proof.
  intros Hf. assert (E : bare <$> d !! n = bare <$> d' !! n) by (rewrite <- !lookup_fmap; by rewrite H).
  destruct (d !! n) as [e|], (d' !! n) as [e'|]; simpl in *; try done. apply (inj Some) in E.
  f_equal. rewrite <- (Hf e), <- (Hf e'). by rewrite E.
Qed.
#[local] Ltac observe f n :=
  let E := fresh in pose proof (marks_elem f n ltac:(done)) as E;
  destruct (d !! n), (d' !! n); cbn in E; try done; injection E as E; cbv beta iota delta [mbind option_bind]; by rewrite E.
Lemma marks_parent n : Dom.parent d' n = Dom.parent d n.
Proof. unfold Dom.parent. observe parentNode n. Qed.
Lemma marks_children n : Dom.children d' n = Dom.children d n.
Proof. unfold Dom.children. observe childNodes n. Qed.
Lemma marks_tag t n : Dom.sel_tag t d' n = Dom.sel_tag t d n.
Proof. unfold Dom.sel_tag. observe tagName n. Qed.
Lemma marks_id i n : Dom.sel_id i d' n = Dom.sel_id i d n.
Proof. unfold Dom.sel_id. observe elId n. Qed.
Lemma marks_present n : is_Some (d' !! n) ↔ is_Some (d !! n).
Proof.
  rewrite <- (fmap_is_Some (λ _, ()) (d !! n)), <- (fmap_is_Some (λ _, ()) (d' !! n)).
  by rewrite (marks_elem (λ _, ()) n).
Qed.
Lemma marks_class c n : c ∉ cs → Dom.hasClass d' n c = Dom.hasClass d n c.
Proof.
  intros Hc. unfold Dom.hasClass.
  assert (E : (λ e, bool_decide (c ∈ classList e)) <$> d' !! n = (λ e, bool_decide (c ∈ classList e)) <$> d !! n).
  { apply marks_elem. intros e. apply bool_decide_ext. cbn. rewrite list_elem_of_filter. naive_solver. }
  destruct (d !! n), (d' !! n); simpl in *; congruence.
Qed.
Lemma marks_attribute a n : a ∉ ats → Dom.getAttribute d' n a = Dom.getAttribute d n a.
Proof.
  intros Ha. unfold Dom.getAttribute.
  assert (E : (λ e, attributes e !! a) <$> d' !! n = (λ e, attributes e !! a) <$> d !! n).
  { apply marks_elem. intros e. cbn. rewrite map_lookup_filter. destruct (attributes e !! a); [|done]. cbn.
    by rewrite option_guard_True. }
  destruct (d !! n), (d' !! n); simpl in *; congruence.
Qed.
Lemma marks_size : size d' = size d.
Proof. rewrite <- (map_size_fmap bare d), <- (map_size_fmap bare d'). by rewrite H. Qed.
Lemma marks_closest P n : (∀ m, P d' m = P d m) → Dom.closest P d' n = Dom.closest P d n.
Proof.
  intros HP. unfold Dom.closest. rewrite marks_size. generalize (S (size d)). intros f. revert n.
  induction f as [|f IH]; intros n; [done|]. cbn [Dom.closest_fuel]. rewrite HP, marks_parent.
  case_match; [done|]. by case_match.
Qed.
Lemma marks_descendants n : Dom.descendants d' n = Dom.descendants d n.
Proof.
  unfold Dom.descendants. rewrite marks_size. generalize (size d). intros f. revert n.
  induction f as [|f IH]; intros n; [done|]. cbn [Dom.descendants_fuel]. rewrite marks_children.
  f_equal. apply list_fmap_ext. intros i x _. by rewrite IH.
Qed.
Lemma marks_find P n : (∀ m, P d' m = P d m) → Dom.find P d' n = Dom.find P d n.
Proof. intros HP. unfold Dom.find. rewrite marks_descendants. apply list_filter_iff. intros m. by rewrite HP. Qed.

(** The nodes, in some order. *)
Lemma marks_keys : (map_to_list d').*1 ≡ₚ (map_to_list d).*1.
Proof.
  assert (E : ∀ d : dom, (map_to_list d).*1 ≡ₚ (map_to_list (bare <$> d)).*1).
  { intros x. by rewrite map_to_list_fmap, <- list_fmap_compose. }
  rewrite (E d), (E d'). by rewrite H.
Qed.
End shared.
End marks.
End DomMarks.
