(* ===== verification/HugoLearn.v ===== *)
(** * The page decorations of the tutorial theme, hugo-learn.js

    [getUrlParameter] parses the query string of an image address; the two
    passes over the images use it to decide whether an image opens in a
    lightbox and how it is sized.  The last block appends the link buttons to
    the headings and turns mermaid code blocks into diagrams.  The sticky call
    of lines 64 to 66 is the client of jquery.sticky.js (file Sticky). *)

From S2P Require Import Prelude JsString Dom.
Local Open Scope Z_scope.

Module HugoLearn.

Definition c_question : Z := 63.
Definition c_amp : Z := 38.
Definition c_eq : Z := 61.
Definition c_comma : Z := 44.

(** A plain object whose values are strings or [undefined].  Assigning a
    string to the property [__proto__] changes nothing. *)
Abbreviation params := (gmap jsstring (option jsstring)).

Definition set_property (k : jsstring) (v : option jsstring) (obj : params) : params :=
  if bool_decide (k = js "__proto__") then obj else <[k := v]> obj.

(** [obj[k]] for a name that [Object.prototype] does not define. *)
Definition get_property (k : jsstring) (obj : params) : option jsstring :=
  default None (obj !! k).

(** Lines 9 to 12: one [name=value] part. *)
Definition add_parameter (obj : params) (part : jsstring) : params :=
  let sParameterName := split_on c_eq part in
  match sParameterName with
  | [] => obj
  | name :: rest => set_property name (head rest) obj
  end.

Definition getUrlParameter (sPageURL : jsstring) : params :=
  match split_on c_question sPageURL with
  | [_; q] => foldl add_parameter ∅ (split_on c_amp q)
  | _ => ∅
  end.

(** Lines 20 to 30: the wrapper of an image, if any. [in_link] is
    [image.parent("a").length != 0]. *)
Definition wrap_image (src : jsstring) (in_link : bool) : option jsstring :=
  let f := get_property (js "featherlight") (getUrlParameter src) in
  if bool_decide (f = Some (js "false")) then None
  else if in_link then None
  else Some (js "<a href='" ++ src ++ js "' data-featherlight='image'></a>").

(** Lines 33 to 61: the width, the height and the [addClass] arguments. *)
Record image_style := ImageStyle {
  img_width : jsstring; img_height : jsstring; img_classes : list jsstring }.

Definition style_image (src : jsstring) : image_style :=
  let o := getUrlParameter src in
  let h := get_property (js "height") o in
  let w := get_property (js "width") o in
  let c := get_property (js "classes") o in
  ImageStyle (default (js "auto") w) (default (js "auto") h)
             (match c with Some c => split_on c_comma c | None => [] end).

(** Lines 72 to 80: the link button of a heading; [encodeURI] is the built-in. *)
Definition anchor_html (encodeURI : jsstring → jsstring) (origin pathname id : jsstring) : jsstring :=
  let url := encodeURI (origin ++ pathname) in
  let link := url ++ js "#" ++ id in
  js " <span class='anchor' data-clipboard-text='" ++ link ++ js "'>" ++
  js "<i class='fas fa-link fa-lg'></i>" ++ js "</span>".

(** Lines 82 to 89: the handlers of the link buttons. *)
Definition anchor_mouseleave (n : nid) (d : dom) : dom :=
  Dom.removeClass "tooltipped-w" n (Dom.removeClass "tooltipped-s" n
    (Dom.removeClass "tooltipped" n (Dom.removeAttribute "aria-label" n d))).

Definition anchor_copied (n : nid) (d : dom) : dom :=
  Dom.addClass "tooltipped-s" n (Dom.addClass "tooltipped" n
    (Dom.setAttribute "aria-label" "Link copied to clipboard!" n d)).

(** Lines 90 to 93: the replacement of a mermaid code block. *)
Definition mermaid_html (html : jsstring) : jsstring :=
  let content := replace_all (js "&amp;") (js "&") html in
  js "<div class=" ++ [c_quote] ++ js "mermaid" ++ [c_quote] ++ js " align=" ++ [c_quote] ++
  js "center" ++ [c_quote] ++ js ">" ++ content ++ js "</div>".

(** ** The query string *)

(** A query string as pairs, and its address. *)
Definition query_part (kv : jsstring * jsstring) : jsstring := kv.1 ++ c_eq :: kv.2.
Definition address (base : jsstring) (kvs : list (jsstring * jsstring)) : jsstring :=
  base ++ c_question :: join_with c_amp (query_part <$> kvs).

Definition separators : list Z := [c_question; c_amp; c_eq].
Definition clean (s : jsstring) : Prop := Forall (λ c, c ∉ separators) s.

#[global] Instance clean_dec s : Decision (clean s).
Proof. unfold clean. apply _. Defined.

Lemma clean_notin s c : clean s → c ∈ separators → c ∉ s.
Proof. intros Hs Hc Hin. unfold clean in Hs. rewrite Forall_forall in Hs. by apply (Hs c). Qed.

Definition clean_pair (kv : jsstring * jsstring) : Prop :=
  clean kv.1 ∧ clean kv.2 ∧ kv.1 ≠ js "__proto__".

Lemma query_part_clean kv c :
  clean_pair kv → c ∈ separators → c ≠ c_eq → c ∉ query_part kv.
Proof.
  intros (Hk & Hv & _) Hc Hne. unfold query_part.
  rewrite elem_of_app, elem_of_cons. pose proof (clean_notin _ _ Hk Hc).
  pose proof (clean_notin _ _ Hv Hc). tauto.
Qed.

Lemma add_parameter_part obj kv :
  clean_pair kv → add_parameter obj (query_part kv) = <[kv.1 := Some kv.2]> obj.
Proof.
  intros (Hk & Hv & Hp). unfold add_parameter, query_part.
  rewrite split_on_app by (apply clean_notin; [done|set_solver]).
  rewrite split_on_id by (apply clean_notin; [done|set_solver]). simpl.
  unfold set_property. by rewrite bool_decide_false.
Qed.

Lemma join_notin (c sep : Z) ws :
  c ≠ sep → Forall (λ w, c ∉ w) ws → c ∉ join_with sep ws.
Proof.
  intros Hc Hws. induction Hws as [|w ws Hw Hws IH]; [set_solver|].
  destruct ws as [|w' ws]; [done|].
  change (join_with sep (w :: w' :: ws)) with (w ++ sep :: join_with sep (w' :: ws)).
  rewrite elem_of_app, elem_of_cons. tauto.
Qed.

Lemma getUrlParameter_address base kvs :
  c_question ∉ base → kvs ≠ [] → Forall clean_pair kvs →
  getUrlParameter (address base kvs) =
    foldl (λ obj kv, <[kv.1 := Some kv.2]> obj) ∅ kvs.
Proof.
  intros Hb Hne Hkvs. unfold getUrlParameter, address.
  rewrite split_on_app by done.
  assert (Hparts : ∀ c, c ∈ separators → c ≠ c_eq → Forall (λ w, c ∉ w) (query_part <$> kvs)).
  { intros c Hc Hce. apply Forall_fmap. eapply Forall_impl; [exact Hkvs|].
    intros kv Hkv. by apply query_part_clean. }
  rewrite split_on_id by (apply join_notin; [done|apply Hparts; [set_solver|done]]).
  rewrite split_join; [|by destruct kvs|apply Hparts; [set_solver|done]].
  clear Hne Hparts. generalize (∅ : params) as obj.
  induction Hkvs as [|kv kvs Hkv Hkvs IH]; intros obj; [done|]. simpl.
  rewrite add_parameter_part by done. apply IH.
Qed.

Lemma foldl_insert_other (kvs : list (jsstring * jsstring)) (obj : params) k :
  k ∉ kvs.*1 → foldl (λ obj kv, <[kv.1 := Some kv.2]> obj) obj kvs !! k = obj !! k.
Proof.
  revert obj; induction kvs as [|kv kvs IH]; intros obj Hk; [done|]. simpl in *.
  rewrite not_elem_of_cons in Hk. destruct Hk as [Hne Hk].
  rewrite IH by done. by apply lookup_insert_ne.
Qed.

Lemma foldl_insert_last (kvs1 kvs2 : list (jsstring * jsstring)) (k v : jsstring) (obj : params) :
  k ∉ kvs2.*1 →
  foldl (λ obj kv, <[kv.1 := Some kv.2]> obj) obj (kvs1 ++ (k, v) :: kvs2) !! k = Some (Some v).
Proof.
  intros Hk. rewrite foldl_app. simpl. rewrite foldl_insert_other by done. apply lookup_insert_eq.
Qed.

(** Reading the query string that was written from a list of pairs gives
    each name the value of its last pair, and no other name a value. *)
Theorem getUrlParameter_roundtrip base (kvs1 : list (jsstring * jsstring)) (k v : jsstring)
    (kvs2 : list (jsstring * jsstring)) :
  c_question ∉ base → Forall clean_pair (kvs1 ++ (k, v) :: kvs2) → k ∉ kvs2.*1 →
  get_property k (getUrlParameter (address base (kvs1 ++ (k, v) :: kvs2))) = Some v ∧
  (∀ k', k' ∉ (kvs1 ++ (k, v) :: kvs2).*1 →
     getUrlParameter (address base (kvs1 ++ (k, v) :: kvs2)) !! k' = None).
Proof.
  intros Hb Hc Hk. rewrite getUrlParameter_address by (try done; by destruct kvs1).
  split.
  - unfold get_property. by rewrite foldl_insert_last.
  - intros k' Hk'. by rewrite foldl_insert_other.
Qed.

Lemma getUrlParameter_roundtrip_witness :
  get_property (js "width")
    (getUrlParameter (address (js "logo.png") [(js "width", js "10%"); (js "height", js "2em")])) =
  Some (js "10%").
Proof.
  apply (getUrlParameter_roundtrip (js "logo.png") [] (js "width") (js "10%") [(js "height", js "2em")]).
  - by_evaluation.
  - repeat constructor; by_evaluation.
  - by_evaluation.
Defined.

(** An address with no query string, or with more than one question mark,
    yields no parameter: the image is wrapped unless it is inside a link
    already, and both its dimensions are automatic. *)
Theorem no_query_defaults src in_link :
  length (split_on c_question src) ≠ 2%nat →
  getUrlParameter src = ∅ ∧
  style_image src = ImageStyle (js "auto") (js "auto") [] ∧
  (wrap_image src in_link = None ↔ in_link = true).
Proof.
  intros Hlen. assert (E : getUrlParameter src = ∅).
  { unfold getUrlParameter. by repeat case_match. }
  unfold style_image, wrap_image. rewrite E. split_and!; [done|done|].
  rewrite bool_decide_false by done. by destruct in_link.
Qed.

Lemma no_query_defaults_witness :
  style_image (js "a.png?x=1?y=2") = ImageStyle (js "auto") (js "auto") [].
Proof. apply (no_query_defaults (js "a.png?x=1?y=2") false). by_evaluation. Defined.

End HugoLearn.
