(* ===== verification/SearchPage.v ===== *)
(** * The search box of the tutorial theme, search.js

    [initLunr] loads the page index and builds a lunr index from it, [search]
    maps the references lunr answers to pages.  The lunr library, the regular
    expression that extracts the context of a hit and the autocomplete widget
    are not part of the sources read here: lunr's [search] and the context
    match are parameters. *)

From S2P Require Import Prelude JsString.

Module SearchPage.

(** Lines 3 to 5.  [indexOf] clamps a negative start to 0, as truncated
    subtraction does. *)
Definition endsWith (str suffix : jsstring) : bool :=
  bool_decide (is_Some (indexOf str suffix (length str - length suffix))).

Record page := Page { uri : jsstring; title : jsstring; tags : list jsstring; content : jsstring }.

#[global] Instance page_eq_dec : EqDecision page.
Proof. solve_decision. Defined.

(** The builder calls of lines 19 to 38: the reference field, the indexed
    fields with their boost, the stages taken out of the pipelines, and the
    documents. *)
Record lunr_spec := LunrSpec {
  l_ref : jsstring;
  l_fields : list (jsstring * nat);
  l_removed : list jsstring;
  l_search_removed : list jsstring;
  l_docs : list page }.

Definition build_index (pages : list page) : lunr_spec :=
  LunrSpec (js "uri") [(js "title", 15); (js "tags", 10); (js "content", 5)]
           [js "stemmer"] [js "stemmer"] pages.

(** The globals of line 1 with [baseurl], and the messages on the console. *)
Record state := State {
  lunrIndex : option lunr_spec;
  pagesIndex : option (list page);
  baseurl : jsstring;
  requested : list jsstring;      (* addresses given to [$.getJSON] *)
  errors : list jsstring }.

(** Lines 8 to 14: the synchronous part, up to the request. *)
Definition initLunr (st : state) : state :=
  let b := if endsWith (baseurl st) (js "/") then baseurl st else baseurl st ++ js "/" in
  State (lunrIndex st) (pagesIndex st) b (requested st ++ [b ++ js "index.json"]) (errors st).

(** Lines 15 to 43: the two continuations of the request. *)
Definition on_done (index : list page) (st : state) : state :=
  State (Some (build_index index)) (Some index) (baseurl st) (requested st) (errors st).
Definition on_fail (textStatus error : jsstring) (st : state) : state :=
  let err := textStatus ++ js ", " ++ error in
  State (lunrIndex st) (pagesIndex st) (baseurl st) (requested st)
        (errors st ++ [js "Error getting Hugo index file: " ++ err]).

(** Line 54: the query with its boosted, wildcard and fuzzy clauses. *)
Definition lunr_query (queryTerm : jsstring) : jsstring :=
  queryTerm ++ js "^100" ++ js " " ++ queryTerm ++ js "*^10" ++ js " " ++ js "*" ++ queryTerm ++
  js "^10" ++ js " " ++ queryTerm ++ js "~2^1".

Section search.
(** lunr: the references of the hits of a query, best first. *)
Context (lunr_search : lunr_spec → jsstring → list jsstring).

(** Lines 55 to 57: [filter(...)[0]], [None] is [undefined]. *)
Definition page_of (pages : list page) (ref : jsstring) : option page :=
  head (filter (λ p, uri p = ref) pages).

Definition search (st : state) (queryTerm : jsstring) : outcome (list (option page)) :=
  match lunrIndex st with
  | None => Throw TypeError
  | Some ix =>
      let hits := lunr_search ix (lunr_query queryTerm) in
      match pagesIndex st, hits with
      | None, _ :: _ => Throw TypeError
      | None, [] => Ret []
      | Some pages, _ => Ret (page_of pages <$> hits)
      end
  end.
End search.

(** Lines 72 to 90: the suggestion built for a hit. [context] is the result of
    the match of the item's content. *)
Record suggestion := Suggestion {
  s_class : jsstring; s_term : jsstring; s_title : jsstring; s_uri : jsstring;
  s_data_context : jsstring; s_text : jsstring; s_context_text : jsstring }.

Definition renderItem (match_context : jsstring → jsstring → option jsstring)
    (item : page) (term : jsstring) : suggestion :=
  let context := match_context (content item) term in
  Suggestion (js "autocomplete-suggestion") term (title item) (uri item)
             (default (js "null") context)
             ([187%Z; 32%Z] ++ title item)
             (default [] context).

(** Lines 92 to 94. *)
Definition onSelect (item : suggestion) : jsstring := s_uri item.

(** ** Properties *)

Lemma startsWith_length s p : startsWith s p = true → (length p ≤ length s)%nat.
Proof. rewrite startsWith_spec. intros [t ->]. rewrite length_app. lia. Qed.

(** The suffix test by [indexOf] agrees with the built-in
    [String.prototype.endsWith], also for suffixes longer than the string. *)
Theorem endsWith_builtin str suffix : endsWith str suffix = JsString.endsWith str suffix.
Proof.
  apply eq_iff_eq_true. unfold endsWith. rewrite bool_decide_eq_true, endsWith_spec.
  unfold indexOf. rewrite Nat.min_l by lia. set (k := (length str - length suffix)%nat). split.
  - intros [i Hi]. apply indexOf_aux_Some in Hi as [Hb Hs].
    rewrite drop_drop in Hs. pose proof (startsWith_length _ _ Hs) as Hl.
    rewrite length_drop in Hl, Hb. apply startsWith_spec in Hs as [t Ht].
    exists (take (k + (i - k)) str). rewrite <- (take_drop (k + (i - k)) str) at 1. f_equal.
    rewrite Ht. apply (f_equal length) in Ht. rewrite length_drop, length_app in Ht.
    destruct t; [apply app_nil_r|simpl in Ht; lia].
  - intros [t ->]. destruct (indexOf_aux _ _ _) eqn:E; [by eexists|exfalso].
    pose proof (indexOf_aux_None _ _ _ E (length t - k)) as Hn.
    unfold k in Hn. rewrite length_app, drop_drop in Hn.
    replace (_ + _)%nat with (length t) in Hn by lia. rewrite drop_app_length in Hn.
    enough (startsWith suffix suffix = true) by congruence.
    apply startsWith_spec. exists []. by rewrite app_nil_r.
Qed.

Lemma page_of_unique pages p :
  NoDup (uri <$> pages) → p ∈ pages → page_of pages (uri p) = Some p.
Proof.
  unfold page_of. induction pages as [|q pages IH]; intros Hnd Hin; [set_solver|].
  apply NoDup_cons in Hnd as [Hq Hnd]. rewrite filter_cons.
  apply elem_of_cons in Hin as [->|Hin]; [by rewrite decide_True|].
  rewrite decide_False; [by apply IH|]. intros E. apply Hq. rewrite E.
  by apply list_elem_of_fmap_2.
Qed.

Lemma page_of_spec pages ref p : page_of pages ref = Some p → p ∈ pages ∧ uri p = ref.
Proof.
  unfold page_of. destruct (filter _ pages) as [|q l] eqn:E; [done|]. intros [= ->].
  assert (H : p ∈ filter (λ p, uri p = ref) pages) by (rewrite E; set_solver).
  apply list_elem_of_filter in H. tauto.
Qed.

(** After the index has been loaded a search never throws, and when the
    pages have distinct addresses and lunr answers with references of indexed
    documents, the result is exactly the hit pages in lunr's order. *)
Theorem search_loaded lunr_search pages st q (hits : list page) :
  NoDup (uri <$> pages) → Forall (λ p, p ∈ pages) hits →
  lunr_search (build_index pages) (lunr_query q) = uri <$> hits →
  search lunr_search (on_done pages st) q = Ret (Some <$> hits).
Proof.
  intros Hnd Hhits Hl. unfold search; simpl. rewrite Hl. f_equal. rewrite <- list_fmap_compose.
  apply list_fmap_ext. intros i p Hp. simpl. apply page_of_unique; [done|].
  rewrite Forall_forall in Hhits. apply Hhits. by eapply list_elem_of_lookup_2.
Qed.

Definition example_pages : list page :=
  [Page (js "/a/") (js "A") [] (js "alpha"); Page (js "/b/") (js "B") [] (js "beta")].

Lemma search_loaded_witness :
  search (λ ix _, reverse (uri <$> l_docs ix)) (on_done example_pages (State None None [] [] []))
    (js "x") = Ret (Some <$> reverse example_pages).
Proof.
  apply (search_loaded (λ ix _, reverse (uri <$> l_docs ix)) example_pages).
  - by_evaluation.
  - by_evaluation.
  - reflexivity.
Defined.

End SearchPage.
