(* ===== verification/Highlight.v ===== *)
(** * Text highlighting of the tutorial theme, learn.js

    [jQuery.highlight], [jQuery.fn.highlight] and [jQuery.fn.unhighlight]
    (lines 424 to 496) on a tree of nodes.  The regular expression the code
    builds is compiled by [compile], which reads the fragment of the pattern
    grammar the code can produce.  Case-insensitive matching uses the
    Canonicalize table of the language, a parameter. *)

From S2P Require Import Prelude JsString.
Local Open Scope Z_scope.

Module Highlight.

(** [nodeType] 3, 1 and the others. *)
Inductive node :=
  | Text (data : jsstring)
  | Element (tag cls : jsstring) (kids : list node)
  | Other.

(** ** Patterns *)

Definition c_backslash : Z := 92.
Definition c_lpar : Z := 40.
Definition c_rpar : Z := 41.
Definition c_bar : Z := 124.

(** The class [-[\]{}()*+?.,\\^$|#\s] of line 481. *)
Definition special_list : list Z :=
  [45; 91; 93; 123; 125; 40; 41; 42; 43; 63; 46; 44; 92; 94; 36; 124; 35].
Definition special (c : Z) : bool := bool_decide (c ∈ special_list) || is_space c.

(** [word.replace(/[...]/g, "\\$&")] *)
Definition escape_word (w : jsstring) : jsstring :=
  w ≫= λ c, if special c then [c_backslash; c] else [c].

(** Lines 486 to 490: the pattern. *)
Definition make_pattern (words : list jsstring) (wordsOnly : bool) : jsstring :=
  let pattern := [c_lpar] ++ join_with c_bar words ++ [c_rpar] in
  if wordsOnly then js "\b" ++ pattern ++ js "\b" else pattern.

(** [new RegExp(pattern)] on the fragment: a group of alternatives, each a
    sequence of pattern characters and identity escapes, between optional word
    boundaries.  The syntax characters stand for nothing but themselves when
    escaped, and letters, digits and the underscore have no identity escape. *)
Definition syntax_char (c : Z) : bool :=
  bool_decide (c ∈ [94; 36; 92; 46; 42; 43; 63; 40; 41; 91; 93; 123; 125; 124]).
Definition word_char (c : Z) : bool :=
  is_digit c || ((65 <=? c) && (c <=? 90)) || ((97 <=? c) && (c <=? 122)) || (c =? 95).

Fixpoint parse_alts (s : jsstring) (cur : jsstring) (done : list jsstring) :
    option (list jsstring * jsstring) :=
  match s with
  | [] => None
  | c :: s' =>
      if c =? c_rpar then Some (done ++ [cur], s')
      else if c =? c_bar then parse_alts s' [] (done ++ [cur])
      else if c =? c_backslash then
        match s' with
        | x :: s'' => if word_char x then None else parse_alts s'' (cur ++ [x]) done
        | [] => None
        end
      else if syntax_char c then None
      else parse_alts s' (cur ++ [c]) done
  end.

Record regexp := RegExp { re_words : list jsstring; re_boundary : bool }.

Definition compile (pattern : jsstring) : option regexp :=
  let boundary := startsWith pattern (js "\b") in
  let s := if boundary then drop 2 pattern else pattern in
  match s with
  | c :: s' =>
      if c =? c_lpar then
        match parse_alts s' [] [] with
        | Some (ws, rest) =>
            if bool_decide (rest = if boundary then js "\b" else []) then Some (RegExp ws boundary)
            else None
        | None => None
        end
      else None
  | [] => None
  end.

Section matching.
(** Canonicalize: the identity without the flag [i]. *)
Context (canon : Z → Z).

Fixpoint match_word (w s : jsstring) : bool :=
  match w, s with
  | [], _ => true
  | a :: w', b :: s' => (canon a =? canon b) && match_word w' s'
  | _ :: _, [] => false
  end.

(** A boundary between the unit before and the unit at a position. *)
Definition is_boundary (prev next : option Z) : bool :=
  xorb (from_option word_char false prev) (from_option word_char false next).

(** The alternatives at one position, in order. *)
Fixpoint match_alts (boundary : bool) (prev : option Z) (ws : list jsstring) (s : jsstring) :
    option nat :=
  match ws with
  | [] => None
  | w :: ws' =>
      if match_word w s &&
         (negb boundary ||
          (is_boundary prev (head s) &&
           is_boundary (match w with [] => prev | _ => last (take (length w) s) end)
                       (s !! length w)))
      then Some (length w) else match_alts boundary prev ws' s
  end.

(** [s.match(re)]: the leftmost match and its length. *)
Fixpoint exec_from (re : regexp) (prev : option Z) (s : jsstring) (pos : nat) :
    option (nat * nat) :=
  match match_alts (re_boundary re) prev (re_words re) s with
  | Some len => Some (pos, len)
  | None => match s with
            | [] => None
            | c :: s' => exec_from re (Some c) s' (S pos)
            end
  end.
Definition exec (re : regexp) (s : jsstring) : option (nat * nat) := exec_from re None s 0.
End matching.

(** ** The walk over the tree, lines 425 to 446 *)

Definition upper_unit (c : Z) : Z := if (97 <=? c) && (c <=? 122) then c - 32 else c.
Definition upper (s : jsstring) : jsstring := upper_unit <$> s.

Definition contains (s p : jsstring) : bool := bool_decide (is_Some (indexOf s p 0)).

(** [/(script|style)/i.test(tagName)] *)
Definition skipped_tag (tag : jsstring) : bool :=
  contains (upper tag) (js "SCRIPT") || contains (upper tag) (js "STYLE").

Section highlight.
(** The first match in a text, and the element the matches are put in. *)
Context (re : jsstring → option (nat * nat)) (nodeName className : jsstring).

(** Lines 426 to 437: the nodes that take the place of a text node, and the
    number of added nodes the caller skips. *)
Definition highlight_text (data : jsstring) : list node * nat :=
  match re data with
  | Some (index, len) =>
      ([Text (take index data);
        Element (upper nodeName) className [Text (take len (drop index data))];
        Text (drop (index + len) data)], 1%nat)
  | None => ([Text data], 0%nat)
  end.

(** Lines 438 to 440. *)
Definition enters (tag cls : jsstring) : bool :=
  negb (skipped_tag tag) &&
  negb (bool_decide (tag = upper nodeName) && bool_decide (cls = className)).

(** Lines 441 to 443: the loop over [childNodes], which the calls change. *)
Fixpoint child_loop (visit : node → option (list node * nat)) (fuel i : nat) (kids : list node) :
    option (list node) :=
  match fuel with
  | O => None
  | S f =>
      match kids !! i with
      | None => Some kids
      | Some child =>
          match visit child with
          | None => None
          | Some (repl, skip) =>
              child_loop visit f (i + skip + 1) (take i kids ++ repl ++ drop (S i) kids)
          end
      end
  end.

Fixpoint highlight (fuel : nat) (nd : node) : option (list node * nat) :=
  match fuel with
  | O => None
  | S f =>
      match nd with
      | Text data => Some (highlight_text data)
      | Element tag cls kids =>
          if enters tag cls then
            match child_loop (highlight f) f 0 kids with
            | Some kids' => Some ([Element tag cls kids'], 0%nat)
            | None => None
            end
          else Some ([nd], 0%nat)
      | Other => Some ([nd], 0%nat)
      end
  end.
End highlight.

(** ** [jQuery.fn.highlight], lines 463 to 496 *)

Record settings := Settings {
  className : jsstring; element : jsstring; caseSensitive : bool; wordsOnly : bool }.

(** [jQuery.highlight] on every element of the collection.  [None] is a
    pattern outside the fragment or lack of fuel. *)
Definition highlight_words (i_canon : Z → Z) (st : settings) (words : list jsstring)
    (fuel : nat) (nodes : list node) : option (list node) :=
  let words := filter (λ w, w ≠ []) words in
  let words := escape_word <$> words in
  match words with
  | [] => Some nodes
  | _ =>
      match compile (make_pattern words (wordsOnly st)) with
      | None => None
      | Some re =>
          let canon := if caseSensitive st then id else i_canon in
          mjoin <$> mapM (λ nd, fst <$> highlight (exec canon re) (element st) (className st) fuel nd) nodes
      end
  end.

(** ** [jQuery.fn.unhighlight], lines 449 to 461 *)

(** The selector [element.className]. *)
Definition marked (element className : jsstring) (nd : node) : bool :=
  match nd with
  | Element tag cls _ => bool_decide (tag = upper element) && bool_decide (className ∈ split_on 32 cls)
  | _ => false
  end.

(** [Node.normalize]: adjacent texts are joined and empty texts dropped. *)
Fixpoint merge_texts (kids : list node) : list node :=
  match kids with
  | [] => []
  | Text s :: kids' =>
      match merge_texts kids' with
      | Text t :: rest => Text (s ++ t) :: rest
      | rest => if bool_decide (s = []) then rest else Text s :: rest
      end
  | nd :: kids' => nd :: merge_texts kids'
  end.

Fixpoint normalize (nd : node) : node :=
  match nd with
  | Element tag cls kids => Element tag cls (merge_texts (normalize <$> kids))
  | _ => nd
  end.

Section unhighlight.
Context (element className : jsstring).

(** A marked element gives way to its first child; the parents of marked
    elements are normalized.  [None]: [replaceChild(null, this)] throws. *)
Fixpoint unhighlight (nd : node) : option node :=
  match nd with
  | Element tag cls kids =>
      if marked element className nd then
        match kids with
        | first :: _ => unhighlight first
        | [] => None
        end
      else
        match (fix go ks := match ks with
               | [] => Some []
               | k :: ks' => match unhighlight k, go ks' with
                             | Some k', Some r => Some (k' :: r)
                             | _, _ => None
                             end
               end) kids with
        | Some kids' =>
            let nd' := Element tag cls kids' in
            Some (if existsb (marked element className) kids then normalize nd' else nd')
        | None => None
        end
  | _ => Some nd
  end.
End unhighlight.

(** ** Escaping is sound: the compiled expression has exactly the words *)

Lemma not_special c :
  special c = false → syntax_char c = false ∧ c ≠ c_rpar ∧ c ≠ c_bar ∧ c ≠ c_backslash.
Proof.
  unfold special. intros [H _]%orb_false_iff. apply bool_decide_eq_false in H.
  assert (Hs : ∀ x, x ∈ special_list → c ≠ x) by (intros x Hx ->; done).
  split; [|split_and!; apply Hs; by_evaluation].
  unfold syntax_char. apply bool_decide_eq_false. intros Hin. apply H.
  revert Hin. rewrite !elem_of_cons, elem_of_nil. unfold special_list.
  rewrite !elem_of_cons, elem_of_nil. tauto.
Qed.

Lemma special_not_word c : special c = true → word_char c = false.
Proof.
  intros [H|H]%orb_true_iff.
  - apply bool_decide_eq_true in H.
    assert (Ha : Forall (λ c, word_char c = false) special_list) by by_evaluation.
    rewrite Forall_forall in Ha. by apply Ha.
  - apply orb_true_iff in H as [H|H].
    + apply bool_decide_eq_true in H.
      assert (Ha : Forall (λ c, word_char c = false)
        [9; 10; 11; 12; 13; 32; 160; 5760; 8232; 8233; 8239; 8287; 12288; 65279]) by by_evaluation.
      rewrite Forall_forall in Ha. by apply Ha.
    + apply andb_true_iff in H as [H _]. apply Z.leb_le in H. unfold word_char, is_digit.
      rewrite (proj2 (Z.leb_gt c 57)), (proj2 (Z.leb_gt c 90)), (proj2 (Z.leb_gt c 122)),
        (proj2 (Z.eqb_neq c 95)), !andb_false_r by lia. done.
Qed.

Lemma parse_escaped w rest cur ws :
  parse_alts (escape_word w ++ rest) cur ws = parse_alts rest (cur ++ w) ws.
Proof.
  revert cur; induction w as [|c w IH]; intros cur; csimpl; [by rewrite app_nil_r|].
  rewrite (cons_middle c cur w). rewrite app_assoc, <- IH.
  destruct (special c) eqn:E; simpl.
  - by rewrite special_not_word.
  - destruct (not_special c E) as (-> & Hr & Hb & Hs).
    by rewrite (proj2 (Z.eqb_neq c c_rpar)), (proj2 (Z.eqb_neq c c_bar)),
      (proj2 (Z.eqb_neq c c_backslash)).
Qed.

Lemma parse_words w ws rest cur0 :
  parse_alts (join_with c_bar (escape_word <$> w :: ws) ++ c_rpar :: rest) [] cur0 =
    Some (cur0 ++ w :: ws, rest).
Proof.
  revert w cur0; induction ws as [|w' ws IH]; intros w cur0.
  - change (join_with c_bar (escape_word <$> [w])) with (escape_word w).
    by rewrite parse_escaped.
  - change (join_with c_bar (escape_word <$> w :: w' :: ws))
      with (escape_word w ++ c_bar :: join_with c_bar (escape_word <$> w' :: ws)).
    rewrite <- app_assoc, parse_escaped. simpl app at 1. simpl parse_alts at 1.
    specialize (IH w' (cur0 ++ [w])). rewrite <- app_assoc in IH. exact IH.
Qed.

Lemma compile_make_pattern w ws b :
  compile (make_pattern (escape_word <$> w :: ws) b) = Some (RegExp (w :: ws) b).
Proof.
  unfold compile, make_pattern. destruct b.
  - replace (startsWith _ (js "\b")) with true
      by (symmetry; apply startsWith_spec; by eexists).
    change (drop 2 (js "\b" ++ ?s)) with s. cbn [app]. rewrite Z.eqb_refl, <- app_assoc. cbn [app].
    rewrite parse_words. by rewrite bool_decide_true.
  - replace (startsWith _ (js "\b")) with false.
    + cbn [app]. rewrite Z.eqb_refl. rewrite parse_words. by rewrite bool_decide_true.
    + symmetry. apply not_true_is_false. rewrite startsWith_spec. by intros [t [=]].
Qed.

(** ** Matches lie inside the text and are not empty *)

Definition matcher_ok (re : jsstring → option (nat * nat)) : Prop :=
  ∀ s i l, re s = Some (i, l) → (0 < l)%nat ∧ (i + l ≤ length s)%nat.

Lemma match_word_length canon w s : match_word canon w s = true → (length w ≤ length s)%nat.
Proof.
  revert s; induction w as [|a w IH]; intros [|b s]; simpl; try done; [lia..|].
  intros [_ H]%andb_true_iff. specialize (IH _ H). lia.
Qed.

Lemma match_alts_spec canon b prev ws s l :
  match_alts canon b prev ws s = Some l →
  ∃ w, w ∈ ws ∧ length w = l ∧ match_word canon w s = true.
Proof.
  induction ws as [|w ws IH]; simpl; [done|]. destruct (_ && _) eqn:E.
  - intros [= <-]. apply andb_true_iff in E as [E _]. exists w. set_solver.
  - intros H. destruct (IH H) as (w' & ? & ? & ?). exists w'. set_solver.
Qed.

Lemma exec_from_spec canon re prev s pos i l :
  Forall (λ w, w ≠ []) (re_words re) → exec_from canon re prev s pos = Some (i, l) →
  (0 < l)%nat ∧ (pos ≤ i)%nat ∧ (i + l ≤ pos + length s)%nat.
Proof.
  intros Hne. revert prev pos; induction s as [|c s IH]; intros prev pos; simpl;
    destruct (match_alts _ _ _ _ _) as [l'|] eqn:E.
  2: done.
  3: { intros H. apply IH in H. lia. }
  all: intros [= <- <-]; apply match_alts_spec in E as (w & Hw & <- & Hm);
    apply match_word_length in Hm; simpl in Hm; rewrite Forall_forall in Hne; specialize (Hne w Hw);
    destruct w; simpl in *; [done|lia].
Qed.

Lemma exec_ok canon ws b :
  Forall (λ w, w ≠ []) ws → matcher_ok (exec canon (RegExp ws b)).
Proof. intros Hne s i l H. apply exec_from_spec in H; [|done]. lia. Qed.

(** ** A reference walk by structural recursion *)

Section reference.
Context (re : jsstring → option (nat * nat)) (nodeName className : jsstring).
Context (Hre : matcher_ok re).

Fixpoint ref_text (fuel : nat) (data : jsstring) : list node :=
  match fuel with
  | O => [Text data]
  | S f =>
      match re data with
      | Some (i, l) =>
          Text (take i data) ::
          Element (upper nodeName) className [Text (take l (drop i data))] ::
          ref_text f (drop (i + l) data)
      | None => [Text data]
      end
  end.

Fixpoint ref_node (nd : node) : list node :=
  match nd with
  | Text data => ref_text (length data) data
  | Element tag cls kids =>
      [Element tag cls (if enters nodeName className tag cls then mjoin (ref_node <$> kids) else kids)]
  | Other => [Other]
  end.

(** How much there is to visit below a node. *)
Fixpoint weight (nd : node) : nat :=
  match nd with
  | Text data => S (length data)
  | Element _ _ kids => S (S (sum_list (weight <$> kids)))
  | Other => 1
  end.

Lemma ref_text_fuel f data :
  (length data ≤ f)%nat → ref_text f data = ref_text (length data) data.
Proof.
  revert data; induction f as [f IH] using lt_wf_ind; intros data Hf.
  destruct f as [|f]; [by replace (length data) with 0%nat by lia|].
  destruct (length data) as [|n] eqn:Hlen; simpl.
  - destruct (re data) as [[i l]|] eqn:E; [|done]. apply Hre in E. lia.
  - destruct (re data) as [[i l]|] eqn:E; [|done]. apply Hre in E.
    assert (length (drop (i + l) data) ≤ n)%nat by (rewrite length_drop; lia).
    rewrite (IH f), (IH n) by lia. done.
Qed.

Lemma weight_pos nd : (0 < weight nd)%nat.
Proof. destruct nd; simpl; lia. Qed.

Lemma ref_node_match data i l :
  re data = Some (i, l) →
  ref_node (Text data) =
    [Text (take i data); Element (upper nodeName) className [Text (take l (drop i data))]] ++
    ref_node (Text (drop (i + l) data)).
Proof.
  intros E. pose proof (Hre _ _ _ E). cbn [ref_node].
  destruct (length data) as [|n] eqn:Hlen; [lia|]. cbn [ref_text]. rewrite E. cbn [app].
  rewrite (ref_text_fuel n); [done|]. rewrite length_drop. lia.
Qed.

(** The loop, seen as moving nodes from [todo] to [visited]. *)
Lemma child_loop_ref f lf visited todo :
  (∀ nd, (weight nd ≤ f)%nat → (∀ data, nd ≠ Text data) →
     ∃ nd', ref_node nd = [nd'] ∧ highlight re nodeName className f nd = Some ([nd'], 0%nat)) →
  (0 < f)%nat → Forall (λ nd, weight nd ≤ f)%nat todo →
  (sum_list (weight <$> todo) < lf)%nat →
  child_loop (highlight re nodeName className f) lf (length visited) (visited ++ todo) =
    Some (visited ++ mjoin (ref_node <$> todo)).
Proof.
  intros IHf Hf. revert visited todo; induction lf as [lf IH] using lt_wf_ind.
  intros visited todo Hw Hlf. destruct lf as [|lf]; [lia|].
  destruct todo as [|child rest]; cbn [child_loop].
  { rewrite app_nil_r, lookup_ge_None_2 by lia. by rewrite app_nil_r. }
  inversion Hw as [|?? Hwc Hws]; subst. csimpl in Hlf. pose proof (weight_pos child).
  rewrite lookup_app_exact, take_app_length, drop_app_ge by lia.
  replace (S (length visited) - length visited)%nat with 1%nat by lia. cbn [drop]. rewrite ?drop_0.
  (* one more node visited *)
  assert (Hnext : ∀ nd', ref_node child = [nd'] →
    child_loop (highlight re nodeName className f) lf (length visited + 0 + 1)
      (visited ++ [nd'] ++ rest) = Some (visited ++ mjoin (ref_node <$> child :: rest))).
  { intros nd' E. rewrite mjoin_fmap_cons, E, !app_assoc.
    replace (length visited + 0 + 1)%nat with (length (visited ++ [nd'])) by (rewrite length_app; simpl; lia).
    apply IH; [lia|done|lia]. }
  destruct child as [data|tag cls kids|].
  - assert (Ht : highlight re nodeName className f (Text data) =
                 Some (highlight_text re nodeName className data)) by (by destruct f; [lia|]).
    rewrite Ht. unfold highlight_text. destruct (re data) as [[i l]|] eqn:E.
    + pose proof (Hre _ _ _ E). set (m := Element _ _ _).
      replace (visited ++ [Text (take i data); m; Text (drop (i + l) data)] ++ rest)
        with ((visited ++ [Text (take i data); m]) ++ Text (drop (i + l) data) :: rest)
        by (by rewrite <- app_assoc).
      replace (length visited + 1 + 1)%nat with (length (visited ++ [Text (take i data); m]))
        by (rewrite length_app; simpl; lia).
      rewrite IH; [| lia | | csimpl in *; rewrite length_drop; lia].
      * by rewrite !mjoin_fmap_cons, (ref_node_match data i l), <- app_assoc.
      * constructor; [simpl in *; rewrite length_drop; lia|done].
    + apply Hnext. cbn [ref_node]. destruct (length data); cbn [ref_text]; [done|by rewrite E].
  - destruct (IHf (Element tag cls kids)) as (nd' & E & ->); [done..|]. by apply Hnext.
  - destruct (IHf Other) as (nd' & E & ->); [done..|]. by apply Hnext.
Qed.

Lemma Forall_sum_le ns (n : nat) :
  (sum_list (weight <$> ns) ≤ n)%nat → Forall (λ nd, weight nd ≤ n)%nat ns.
Proof.
  induction ns as [|nd ns IH]; intros H; csimpl in H; [done|].
  constructor; [lia|]. apply IH. lia.
Qed.

(** Enough fuel makes the walk total, and it computes the reference. *)
Lemma highlight_ref f nd :
  (weight nd ≤ f)%nat → (∀ data, nd ≠ Text data) →
  ∃ nd', ref_node nd = [nd'] ∧ highlight re nodeName className f nd = Some ([nd'], 0%nat).
Proof.
  revert nd; induction f as [|f IH]; intros nd Hw Hnt; [pose proof (weight_pos nd); lia|].
  destruct nd as [data|tag cls kids|]; [by destruct (Hnt data)| |by eexists].
  simpl in Hw. cbn [highlight ref_node]. destruct (enters _ _ tag cls); [|by eexists].
  pose proof (child_loop_ref f f [] kids IH ltac:(lia) (Forall_sum_le kids f ltac:(lia)) ltac:(lia)) as E.
  cbn [length app] in E. rewrite E. by eexists.
Qed.
End reference.

(** ** The text is kept *)

Fixpoint text_of (nd : node) : jsstring :=
  match nd with
  | Text data => data
  | Element _ _ kids => mjoin (text_of <$> kids)
  | Other => []
  end.
Definition texts_of (nds : list node) : jsstring := mjoin (text_of <$> nds).

(** Induction over a tree and its children. *)
Lemma node_nested_ind (P : node → Prop) :
  (∀ data, P (Text data)) → (∀ tag cls kids, Forall P kids → P (Element tag cls kids)) → P Other →
  ∀ nd, P nd.
Proof.
  intros HT HE HO. fix IH 1. intros [data|tag cls kids|]; [apply HT| |apply HO].
  apply HE. induction kids as [|k kids IHk]; constructor; [apply IH|exact IHk].
Qed.

Lemma texts_of_app a b : texts_of (a ++ b) = texts_of a ++ texts_of b.
Proof. unfold texts_of. by rewrite fmap_app, join_app. Qed.

Lemma ref_text_texts re nodeName className f data :
  texts_of (ref_text re nodeName className f data) = data.
Proof.
  revert data; induction f as [|f IH]; intros data; simpl; [apply app_nil_r|].
  destruct (re data) as [[i l]|]; [|apply app_nil_r].
  unfold texts_of in *. rewrite !mjoin_fmap_cons, IH. cbn [text_of]. csimpl.
  rewrite app_nil_r, app_assoc, take_take_drop, take_drop. done.
Qed.

Lemma ref_node_texts re nodeName className nd :
  texts_of (ref_node re nodeName className nd) = text_of nd.
Proof.
  induction nd as [data|tag cls kids IH|] using node_nested_ind; [apply ref_text_texts| |done].
  unfold texts_of. csimpl. rewrite app_nil_r. destruct (enters _ _ _ _); [|done].
  induction IH as [|k kids Hk _ IH]; [done|].
  rewrite mjoin_fmap_cons. fold (texts_of (ref_node re nodeName className k ++
    mjoin (ref_node re nodeName className <$> kids))).
  rewrite texts_of_app, Hk, mjoin_fmap_cons. f_equal. exact IH.
Qed.

(** ** Normalization *)

Lemma merge_texts_app a b : merge_texts (a ++ b) = merge_texts (merge_texts a ++ b).
Proof.
  induction a as [|nd a IH]; [done|].
  destruct nd as [s|tag cls kids|]; cbn [app merge_texts]; rewrite IH; [|done..].
  destruct (merge_texts a) as [|[t| |] rest]; cbn [app merge_texts].
  - destruct s; cbn; by destruct (merge_texts b) as [|[] ?].
  - destruct (merge_texts (rest ++ b)) as [|[u| |] r]; cbn [app];
      rewrite ?app_assoc; [|done|..].
    all: destruct t; simpl; rewrite ?app_nil_r; [done|]; by destruct s.
  - by destruct s.
  - by destruct s.
Qed.

Lemma merge_texts_idem l : merge_texts (merge_texts l) = merge_texts l.
Proof. symmetry. pose proof (merge_texts_app l []) as H. by rewrite !app_nil_r in H. Qed.

Lemma merge_texts_cong a a' b b' :
  merge_texts a = merge_texts a' → merge_texts b = merge_texts b' →
  merge_texts (a ++ b) = merge_texts (a' ++ b').
Proof.
  intros Ha Hb. rewrite (merge_texts_app a), (merge_texts_app a'), Ha. clear Ha.
  induction (merge_texts a') as [|nd l IH]; [done|]. cbn [app merge_texts]. by rewrite IH.
Qed.

(** A merged list has nodes of the list and texts only. *)
Lemma merge_texts_elem (f : node → node) l :
  (∀ s, f (Text s) = Text s) → Forall (λ nd, f nd = nd) l → f <$> merge_texts l = merge_texts l.
Proof.
  intros Hf. induction 1 as [|nd l Hnd _ IH]; [done|].
  destruct nd; cbn [merge_texts]; [|csimpl; by rewrite Hnd, IH..].
  destruct (merge_texts l) as [|[t| |] rest]; csimpl in *; simplify_eq; rewrite ?Hf;
    try case_bool_decide; csimpl; rewrite ?Hf; congruence.
Qed.

Lemma normalize_idem nd : normalize (normalize nd) = normalize nd.
Proof.
  induction nd as [data|tag cls kids IH|] using node_nested_ind; [done| |done].
  simpl. f_equal. rewrite merge_texts_elem; [apply merge_texts_idem|done|].
  apply Forall_fmap. eapply Forall_impl; [exact IH|done].
Qed.

(** Two lists of siblings that normalize to the same list. *)
Definition same_siblings (l l' : list node) : Prop :=
  merge_texts (normalize <$> l) = merge_texts (normalize <$> l').

Lemma same_siblings_app a a' b b' :
  same_siblings a a' → same_siblings b b' → same_siblings (a ++ b) (a' ++ b').
Proof. unfold same_siblings. rewrite !fmap_app. apply merge_texts_cong. Qed.

Lemma same_siblings_element tag cls kids kids' :
  same_siblings kids kids' →
  normalize (Element tag cls kids) = normalize (Element tag cls kids').
Proof. unfold same_siblings. simpl. by intros ->. Qed.

(** ** Unhighlighting undoes highlighting *)

Section roundtrip.
Context (re : jsstring → option (nat * nat)) (nodeName className : jsstring).
Context (Hre : matcher_ok re) (Hcls : 32 ∉ className).

Local Abbreviation is_marked := (marked nodeName className).
Local Abbreviation unhl := (unhighlight nodeName className).
Local Abbreviation hl := (ref_node re nodeName className).

Fixpoint unmarked (nd : node) : bool :=
  negb (is_marked nd) &&
  match nd with
  | Element _ _ kids => forallb unmarked kids
  | _ => true
  end.

Lemma unhighlight_element tag cls kids :
  is_marked (Element tag cls kids) = false →
  unhl (Element tag cls kids) =
    (λ kids', let nd' := Element tag cls kids' in
              if existsb is_marked kids then normalize nd' else nd') <$> mapM unhl kids.
Proof.
  intros E. cbn [unhighlight]. rewrite E.
  match goal with |- match ?g kids with _ => _ end = _ =>
    assert (Hgo : ∀ ks, g ks = mapM unhl ks)
      by (induction ks as [|k ks IH]; [done|]; cbn [mapM]; rewrite IH;
          by destruct (unhl k), (mapM unhl ks)) end.
  rewrite Hgo. by destruct (mapM unhl kids).
Qed.

Lemma new_mark_marked data :
  is_marked (Element (upper nodeName) className [Text data]) = true.
Proof.
  simpl. rewrite split_on_id by done. rewrite !bool_decide_true; [done|set_solver|done].
Qed.

Lemma unhighlight_mark data :
  unhl (Element (upper nodeName) className [Text data]) = Some (Text data).
Proof. cbn [unhighlight]. by rewrite new_mark_marked. Qed.

Lemma unhighlight_unmarked nd : unmarked nd = true → unhl nd = Some nd.
Proof.
  induction nd as [data|tag cls kids IH|] using node_nested_ind; [done| |done].
  cbn [unmarked]. rewrite andb_true_iff, negb_true_iff. intros [Hm Hk].
  rewrite unhighlight_element by done.
  rewrite forallb_forall in Hk. setoid_rewrite <- list_elem_of_In in Hk.
  assert (E : mapM unhl kids = Some kids).
  { apply mapM_Some. rewrite Forall_forall in IH.
    apply Forall2_same_length_lookup_2; [done|]. intros i x y Hx Hy.
    assert (x = y) as <- by congruence.
    assert (x ∈ kids) by (by eapply list_elem_of_lookup_2). by apply IH, Hk. }
  rewrite E. simpl. replace (existsb is_marked kids) with false; [done|].
  symmetry. apply not_true_is_false. intros (k & Hin & Hk')%existsb_exists.
  apply list_elem_of_In, Hk in Hin. destruct k; cbn [unmarked] in Hin; by rewrite Hk' in Hin.
Qed.

Lemma same_siblings_texts a b :
  same_siblings [Text a; Text b] [Text (a ++ b)].
Proof. unfold same_siblings. cbn. by destruct a, b; rewrite ?app_nil_r. Qed.

Lemma unhighlight_ref_text f data :
  ∃ l, mapM unhl (ref_text re nodeName className f data) = Some l ∧
       same_siblings l [Text data].
Proof.
  revert data; induction f as [|f IH]; intros data; [by eexists|].
  cbn [ref_text]. destruct (re data) as [[i n]|]; [|by eexists].
  destruct (IH (drop (i + n) data)) as (l & Hl & Hs).
  exists (Text (take i data) :: Text (take n (drop i data)) :: l). split.
  - cbn [mapM]. rewrite unhighlight_mark, Hl. done.
  - change (?a :: ?b :: l) with ([a; b] ++ l).
    etransitivity; [apply same_siblings_app; [apply same_siblings_texts|exact Hs]|].
    etransitivity; [apply same_siblings_texts|].
    by rewrite take_take_drop, take_drop.
Qed.

Lemma unhighlight_hl nd :
  unmarked nd = true → ∃ l, mapM unhl (hl nd) = Some l ∧ same_siblings l [nd].
Proof.
  induction nd as [data|tag cls kids IH|] using node_nested_ind;
    [intros _; apply unhighlight_ref_text| |by eexists].
  intros Hun. pose proof (unhighlight_unmarked _ Hun) as Hid.
  cbn [unmarked] in Hun. apply andb_true_iff in Hun as [Hm Hk]. apply negb_true_iff in Hm.
  cbn [ref_node]. destruct (enters _ _ _ _); [|cbn [mapM]; rewrite Hid; by eexists].
  assert (Hkids : ∃ l, mapM unhl (mjoin (hl <$> kids)) = Some l ∧ same_siblings l kids).
  { clear Hid Hm. induction IH as [|k kids Hk0 _ IHk]; [by eexists|].
    cbn [forallb] in Hk. apply andb_true_iff in Hk as [Hk1 Hk2].
    destruct (Hk0 Hk1) as (l1 & E1 & S1), (IHk Hk2) as (l2 & E2 & S2).
    exists (l1 ++ l2). split; [|change (k :: kids) with ([k] ++ kids); by apply same_siblings_app].
    rewrite mjoin_fmap_cons. by apply mapM_app_Some. }
  destruct Hkids as (l & El & Sl). cbn [mapM].
  rewrite unhighlight_element by done. rewrite El.
  eexists; split; [reflexivity|]. unfold same_siblings. cbn [fmap list_fmap].
  pose proof (same_siblings_element tag cls l kids Sl) as E.
  destruct (existsb _ _); rewrite ?normalize_idem; by rewrite E.
Qed.
End roundtrip.

(** ** Theorems *)

Lemma highlight_words_single canon st words nd :
  filter (λ w, w ≠ []) words ≠ [] →
  highlight_words canon st words (weight nd) [nd] =
    (λ r, r.1 ++ []) <$>
      highlight (exec (if caseSensitive st then id else canon)
                   (RegExp (filter (λ w, w ≠ []) words) (wordsOnly st)))
                (element st) (className st) (weight nd) nd.
Proof.
  intros Hne. unfold highlight_words. destruct (filter _ words) as [|w ws] eqn:E; [done|].
  change (escape_word <$> w :: ws) with (escape_word w :: (escape_word <$> ws)) at 1. cbn iota.
  rewrite compile_make_pattern. cbn [mapM]. by destruct (highlight _ _ _ _ nd) as [[]|].
Qed.

(** Escaping the words makes the pattern a plain alternative of them:
    compiling it never fails and gives back exactly the words, whatever
    characters they contain. *)
Theorem escape_compile words b :
  words ≠ [] → compile (make_pattern (escape_word <$> words) b) = Some (RegExp words b).
Proof. intros Hne. destruct words as [|w ws]; [done|]. apply compile_make_pattern. Qed.

Lemma escape_compile_witness :
  compile (make_pattern (escape_word <$> [js "C++ (|x"; js "a.b"]) true) =
    Some (RegExp [js "C++ (|x"; js "a.b"] true).
Proof. by apply (escape_compile [js "C++ (|x"; js "a.b"] true). Defined.

(** C22. Highlighting an element terminates for all words, and the element it
    leaves has the same text as before. *)
Theorem highlight_total_text canon st words tag cls kids :
  filter (λ w, w ≠ []) words ≠ [] →
  ∃ nd', highlight_words canon st words (weight (Element tag cls kids)) [Element tag cls kids] = Some [nd'] ∧
         text_of nd' = text_of (Element tag cls kids).
Proof.
  intros Hne. rewrite highlight_words_single by done.
  set (re := exec _ _).
  assert (Hre : matcher_ok re).
  { apply exec_ok. apply Forall_forall. intros w Hw. by apply list_elem_of_filter in Hw as [? _]. }
  destruct (highlight_ref re (element st) (className st) Hre _ (Element tag cls kids)
              (Nat.le_refl _) ltac:(done)) as (nd' & E & ->).
  exists nd'. split; [done|].
  pose proof (ref_node_texts re (element st) (className st) (Element tag cls kids)) as Ht.
  rewrite E in Ht. unfold texts_of in Ht. csimpl in Ht. by rewrite app_nil_r in Ht.
Qed.

Definition example_tree : node :=
  Element (js "DIV") [] [Text (js "foo bar FOO"); Element (js "SCRIPT") [] [Text (js "foo")]].
Definition example_settings : settings := Settings (js "highlight") (js "mark") false false.

Lemma highlight_total_text_witness :
  ∃ nd', highlight_words upper_unit example_settings [[]; js "foo"] 20 [example_tree] = Some [nd'] ∧
         text_of nd' = text_of example_tree.
Proof. apply (highlight_total_text upper_unit example_settings [[]; js "foo"]). by_evaluation. Defined.

(** C21. Highlighting and unhighlighting an element without marks gives back
    the element up to the splitting of its text nodes: both normalize to the
    same tree, and no call throws. *)
Theorem unhighlight_highlight canon st words tag cls kids :
  filter (λ w, w ≠ []) words ≠ [] → 32 ∉ className st →
  unmarked (element st) (className st) (Element tag cls kids) = true →
  ∃ nd1 nd2,
    highlight_words canon st words (weight (Element tag cls kids)) [Element tag cls kids] = Some [nd1] ∧
    unhighlight (element st) (className st) nd1 = Some nd2 ∧
    normalize nd2 = normalize (Element tag cls kids).
Proof.
  intros Hne Hcls Hun. rewrite highlight_words_single by done.
  set (re := exec _ _).
  assert (Hre : matcher_ok re).
  { apply exec_ok. apply Forall_forall. intros w Hw. by apply list_elem_of_filter in Hw as [? _]. }
  destruct (highlight_ref re (element st) (className st) Hre _ (Element tag cls kids)
              (Nat.le_refl _) ltac:(done)) as (nd1 & E & ->).
  destruct (unhighlight_hl re (element st) (className st) Hre Hcls _ Hun) as (l & El & Sl).
  rewrite E in El. cbn [mapM] in El. destruct (unhighlight _ _ nd1) as [nd2|] eqn:E2; [|done].
  injection El as <-. exists nd1, nd2. split_and!; [done|done|].
  unfold same_siblings in Sl. cbn [fmap list_fmap] in Sl.
  destruct (normalize nd2); cbn in Sl |- *; try case_bool_decide; congruence.
Qed.

Lemma unhighlight_highlight_witness :
  ∃ nd1 nd2,
    highlight_words upper_unit example_settings [js "foo"] 20 [example_tree] = Some [nd1] ∧
    unhighlight (js "mark") (js "highlight") nd1 = Some nd2 ∧ normalize nd2 = normalize example_tree.
Proof.
  apply (unhighlight_highlight upper_unit example_settings [js "foo"]); by_evaluation || reflexivity.
Defined.

End Highlight.
