(* ===== verification/Learn.v ===== *)
(** * The page behaviour of the tutorial theme, learn.js

    One module per group of functions: the measurements and messages of the
    top of the file, the persistent tab groups, the debounced resize handler,
    the sidebar and search box toggles, the search input, the copy buttons,
    the keyboard navigation, the anchor scrolling and the visited pages.
    Highlighting is in file Highlight. *)

From S2P Require Import Prelude JsString JsNum Dom.
Local Open Scope Z_scope.

Module Misc.

(** Lines 2 to 26: the widths are what layout answers for the probe element
    before and after [overflow: scroll], and the outer client width. *)
Definition getScrollBarWidth (w1 w2 outerClientWidth : Z) : Z :=
  let w2 := if w1 =? w2 then outerClientWidth else w2 in
  w1 - w2.

(** Lines 28 to 31: the height given to the scrollable part of the menu. *)
Definition setMenuHeight (sidebarInnerHeight headerHeight : Z) : Z :=
  sidebarInnerHeight - headerHeight - 40.

(** [/pat/i.test(s)] for a literal of ASCII letters. *)
Definition lower_unit (c : Z) : Z := if (65 <=? c) && (c <=? 90) then c + 32 else c.
Definition test_i (pat s : jsstring) : bool :=
  bool_decide (is_Some (indexOf (lower_unit <$> s) (lower_unit <$> pat) 0)).

(** Lines 33 to 48; unit 8984 is the command key sign. *)
Definition fallbackMessage (userAgent action : jsstring) : jsstring :=
  let actionKey := if bool_decide (action = js "cut") then js "X" else js "C" in
  if test_i (js "iPhone") userAgent || test_i (js "iPad") userAgent then js "No support :("
  else if test_i (js "Mac") userAgent then
    js "Press " ++ [8984] ++ js "-" ++ actionKey ++ js " to " ++ action
  else js "Press Ctrl-" ++ actionKey ++ js " to " ++ action.

(** Lines 279 to 296: [e.which == '37'] and [e.which == '39']. *)
Inductive nav_click := ClickPrev | ClickNext.

Definition input_keydown_stops (which : Z) : bool := (which =? 37) || (which =? 39).

Definition document_keydown (which : Z) : list nav_click :=
  (if which =? 37 then [ClickPrev] else []) ++ (if which =? 39 then [ClickNext] else []).

(** A key press bubbles to the document unless an input stops it. *)
Definition keydown (in_input : bool) (which : Z) : list nav_click :=
  if in_input && input_keydown_stops which then [] else document_keydown which.

End Misc.

(** ** Tab groups, lines 50 to 99 *)

Module Tabs.

(** A tab button or panel: its data attributes and the class "active". *)
Record tab := Tab { tabGroup : string; tabItem : string; tabActive : bool }.

#[global] Instance tab_eq_dec : EqDecision tab.
Proof. solve_decision. Defined.

(** [tabSelections], an object with string values in insertion order. *)
Abbreviation selections := (list (string * string)).

Fixpoint assign (g t : string) (sel : selections) : selections :=
  match sel with
  | [] => [(g, t)]
  | (g', t') :: sel' =>
      if bool_decide (g = g') then (g, t) :: sel' else (g', t') :: assign g t sel'
  end.

Fixpoint lookup_sel (g : string) (sel : selections) : option string :=
  match sel with
  | [] => None
  | (g', t') :: sel' => if bool_decide (g = g') then Some t' else lookup_sel g sel'
  end.

(** The page: the tabs, the scroll position and [localStorage]: [None] when
    the browser has none, [Some None] when the key is not set.  The stored
    JSON text is represented by the object it denotes. *)
Record page := Page {
  tabs : list tab; scrollY : Z; localStorage : option (option selections) }.

(** Lines 64 and 65: all items of the group lose the class, then the target
    items get it. *)
Definition activate (g t : string) (tb : tab) : tab :=
  if bool_decide (tabGroup tb = g)
  then Tab (tabGroup tb) (tabItem tb) (bool_decide (tabItem tb = t))
  else tb.

Section switching.
(** The document position of the clicked button for given tab states. *)
Context (top : list tab → Z).

Definition switchTab (isButtonEvent : bool) (g t : string) (p : page) : page :=
  let yposButton := top (tabs p) - scrollY p in
  let tabs' := activate g t <$> tabs p in
  if isButtonEvent then
    let yposButtonDiff := (top tabs' - scrollY p) - yposButton in
    let storage := match localStorage p with
                   | Some s => Some (Some (assign g t (default [] s)))
                   | None => None
                   end in
    Page tabs' (scrollY p + yposButtonDiff) storage
  else Page tabs' (scrollY p) (localStorage p).

Definition restoreTabSelections (p : page) : page :=
  match localStorage p with
  | Some s => foldl (λ p gt, switchTab false gt.1 gt.2 p) p (default [] s)
  | None => p
  end.
End switching.

Lemma lookup_assign g t sel g' :
  lookup_sel g' (assign g t sel) = if bool_decide (g' = g) then Some t else lookup_sel g' sel.
Proof.
  induction sel as [|[h u] sel IH]; simpl; [by repeat case_bool_decide|].
  repeat case_bool_decide; simplify_eq; simpl; repeat case_bool_decide; simplify_eq; done.
Qed.

Lemma assign_keys g t sel : NoDup sel.*1 → NoDup (assign g t sel).*1.
Proof.
  induction sel as [|[h u] sel IH]; intros Hnd; simpl.
  - apply NoDup_singleton.
  - case_bool_decide; csimpl in *; subst; [done|].
    apply NoDup_cons in Hnd as [Hh Hnd]. apply NoDup_cons. split; [|by apply IH].
    intros Hin. apply Hh. clear -Hin H. induction sel as [|[k v] sel IH]; simpl in *.
    + apply list_elem_of_singleton in Hin. congruence.
    + case_bool_decide; csimpl in *; set_solver.
Qed.

(** A run of clicks. *)
Definition clicks (top : list tab → Z) (gts : list (string * string)) (p : page) : page :=
  foldl (λ p gt, switchTab top true gt.1 gt.2 p) p gts.

(** The item chosen last in a group. *)
Fixpoint last_choice (g : string) (gts : list (string * string)) : option string :=
  match gts with
  | [] => None
  | (g', t) :: gts' =>
      match last_choice g gts' with
      | Some t' => Some t'
      | None => if bool_decide (g = g') then Some t else None
      end
  end.

Lemma clicks_storage top gts p sel g :
  localStorage p = Some sel →
  ∃ sel', localStorage (clicks top gts p) = Some sel' ∧
    lookup_sel g (default [] sel') =
      match last_choice g gts with Some t => Some t | None => lookup_sel g (default [] sel) end ∧
    (NoDup (default [] sel).*1 → NoDup (default [] sel').*1).
Proof.
  revert p sel; induction gts as [|[g' t] gts IH]; intros p sel Hp; simpl; [by eexists|].
  destruct (IH (switchTab top true g' t p) (Some (assign g' t (default [] sel)))) as (sel' & E & Hl & Hn).
  { simpl. by rewrite Hp. }
  exists sel'. split_and!; [done| |intros; by apply Hn, assign_keys].
  rewrite Hl. simpl. destruct (last_choice g gts); [done|].
  rewrite lookup_assign. by case_bool_decide.
Qed.

(** The effect of restoring on one tab: the stored item decides. *)
Definition restored (sel : selections) (tb : tab) : tab :=
  match lookup_sel (tabGroup tb) sel with
  | Some t => Tab (tabGroup tb) (tabItem tb) (bool_decide (tabItem tb = t))
  | None => tb
  end.

Lemma lookup_sel_None g sel : g ∉ sel.*1 → lookup_sel g sel = None.
Proof. induction sel as [|[h u] sel IH]; csimpl; [done|]. intros H. case_bool_decide; set_solver. Qed.

Lemma restore_foldl top sel p :
  NoDup sel.*1 →
  tabs (foldl (λ p gt, switchTab top false gt.1 gt.2 p) p sel) = restored sel <$> tabs p.
Proof.
  revert p; induction sel as [|[g t] sel IH]; intros p Hnd; csimpl in *.
  - symmetry. apply list_fmap_id.
  - apply NoDup_cons in Hnd as [Hg Hnd]. rewrite IH by done. simpl.
    rewrite <- list_fmap_compose. apply list_fmap_ext. intros i tb _. simpl.
    unfold restored, activate. simpl. case_bool_decide as E; simpl.
    + rewrite E, lookup_sel_None by done. done.
    + done.
Qed.

(** Clicking a tab leaves exactly the items of that name active in its
    group, does not touch the other groups, and keeps the clicked button at
    its place in the viewport. *)
Theorem switchTab_click top g t p tb :
  (∃ tb0, tb0 ∈ tabs p ∧ activate g t tb0 = tb) →
  tb ∈ tabs (switchTab top true g t p) ∧
  (tabGroup tb = g → tabActive tb = bool_decide (tabItem tb = t)) ∧
  (tabGroup tb ≠ g → tb ∈ tabs p) ∧
  top (tabs (switchTab top true g t p)) - scrollY (switchTab top true g t p) =
    top (tabs p) - scrollY p.
Proof.
  intros (tb0 & Hin & <-). simpl. split_and!.
  - by apply list_elem_of_fmap_2.
  - unfold activate. case_bool_decide; simpl; congruence.
  - unfold activate. case_bool_decide; simpl; [done|done].
  - lia.
Qed.

Definition example_tabs : list tab :=
  [Tab "os" "linux" true; Tab "os" "mac" false; Tab "lang" "go" true].

Lemma switchTab_click_witness :
  Tab "os" "mac" true ∈ tabs (switchTab (λ _, 7) true "os" "mac" (Page example_tabs 3 None)).
Proof.
  apply (switchTab_click (λ _, 7) "os" "mac" (Page example_tabs 3 None) (Tab "os" "mac" true)).
  exists (Tab "os" "mac" false). split; [by_evaluation|reflexivity].
Defined.

(** C23. After any sequence of clicks on one page, restoring the selections on
    a page with the same storage makes exactly the last chosen item of every
    clicked group active, whatever was active there before. *)
Theorem restore_last_choice top gts p fresh g t tb :
  localStorage p = Some None → last_choice g gts = Some t →
  localStorage fresh = localStorage (clicks top gts p) →
  tb ∈ tabs (restoreTabSelections top fresh) → tabGroup tb = g →
  tabActive tb = bool_decide (tabItem tb = t).
Proof.
  intros Hp Hlast Hst Hin Hg.
  destruct (clicks_storage top gts p None g Hp) as (sel & E & Hl & Hn).
  unfold restoreTabSelections in Hin. rewrite Hst, E in Hin. rewrite restore_foldl in Hin by (apply Hn, NoDup_nil_2).
  apply list_elem_of_fmap in Hin as (tb0 & -> & _). rewrite Hlast in Hl. simpl in *.
  unfold restored in *. destruct (lookup_sel (tabGroup tb0) (default [] sel)) as [t'|] eqn:El;
    simpl in *; subst g; rewrite El in Hl; by simplify_eq.
Qed.

Lemma restore_last_choice_witness :
  tabActive (Tab "os" "linux" false) = bool_decide ("linux" = "mac")%string.
Proof.
  apply (restore_last_choice (λ _, 0) [("os", "linux"); ("lang", "c"); ("os", "mac")]%string
           (Page example_tabs 0 (Some None))
           (Page example_tabs 0 (Some (Some [("os", "mac"); ("lang", "c")]%string))) "os" "mac").
  - reflexivity.
  - reflexivity.
  - reflexivity.
  - by_evaluation.
  - reflexivity.
Defined.

End Tabs.

(** ** The debounced resize handler, lines 108 to 133 *)

Module Debounce.

Section debounce.
(** The arguments of a call ([this] and [arguments]). *)
Context {A : Type} (execAsap : bool).

(** The closure variable [timeout], the timers of the browser with the
    arguments their [delayed] closures hold, the next timer identifier, and
    the calls of [func] so far. *)
Record state := State {
  timeout : option nat; timers : gmap nat A; next_timer : nat; executed : list A }.

Definition initial : state := State None ∅ 1 [].

(** Line 113: one call of the debounced function.  Timer identifiers are
    positive, so that the test [if (timeout)] is the test for null. *)
Definition debounced (args : A) (st : state) : state :=
  let st1 :=
    match timeout st with
    | Some id => State (timeout st) (delete id (timers st)) (next_timer st) (executed st)
    | None =>
        if execAsap then State (timeout st) (timers st) (next_timer st) (executed st ++ [args])
        else st
    end in
  State (Some (next_timer st1)) (<[next_timer st1 := args]> (timers st1))
        (S (next_timer st1)) (executed st1).

(** Line 116: a timer fires and its [delayed] runs. *)
Definition fire (id : nat) (st : state) : state :=
  match timers st !! id with
  | Some args =>
      State None (delete id (timers st)) (next_timer st)
            (if execAsap then executed st else executed st ++ [args])
  | None => st
  end.

Inductive event := Call (args : A) | Fire (id : nat).

Definition step (st : state) (e : event) : state :=
  match e with Call args => debounced args st | Fire id => fire id st end.
Definition run (st : state) (es : list event) : state := foldl step st es.

(** The only timer is the one in [timeout]. *)
Definition inv (st : state) : Prop :=
  match timeout st with
  | Some id => (∃ args, timers st = {[id := args]}) ∧ (id < next_timer st)%nat
  | None => timers st = ∅
  end ∧ (0 < next_timer st)%nat.

Lemma inv_initial : inv initial.
Proof. split; [done|simpl; lia]. Qed.

Lemma inv_step st e : inv st → inv (step st e).
Proof.
  intros [Ht Hn]. destruct e as [args|id]; simpl.
  - unfold debounced. destruct (timeout st) as [id|].
    + destruct Ht as [[a Ht] Hid]. split; simpl; [|lia]. split; [|lia].
      exists args. rewrite Ht, delete_singleton_eq. apply insert_empty.
    + rewrite Ht. destruct execAsap; (split; simpl; [|lia]); (split; [|lia]);
        exists args; rewrite ?Ht; apply insert_empty.
  - unfold fire. destruct (timers st !! id) as [a|] eqn:E; [|done].
    split; simpl; [|done]. destruct (timeout st) as [id'|].
    + destruct Ht as [[a' Ht] _]. rewrite Ht in *. apply lookup_singleton_Some in E as [-> _].
      apply delete_singleton_eq.
    + rewrite Ht in E. done.
Qed.

Lemma inv_run es st : inv st → inv (run st es).
Proof. revert st; induction es as [|e es IH]; intros st H; simpl; [done|]. by apply IH, inv_step. Qed.

(** The arguments of the last call of a burst. *)
Fixpoint last_args (args : A) (calls : list A) : A :=
  match calls with [] => args | a :: calls' => last_args a calls' end.

Lemma executed_debounced args st :
  executed (debounced args st) = executed st ++
    (if execAsap then match timeout st with None => [args] | Some _ => [] end else []).
Proof. unfold debounced. destruct (timeout st), execAsap; simpl; by rewrite ?app_nil_r. Qed.

(** A burst of calls: the timer keeps the last arguments. *)
Lemma burst args calls st :
  inv st →
  let st' := run st (Call <$> args :: calls) in
  ∃ id, timeout st' = Some id ∧ timers st' !! id = Some (last_args args calls) ∧
    executed st' = executed st ++
      (if execAsap then match timeout st with None => [args] | Some _ => [] end else []).
Proof.
  revert args st; induction calls as [|a calls IH]; intros args st Hinv; cbn zeta.
  - simpl. eexists; split; [done|]. split; [apply lookup_insert_eq|]. apply executed_debounced.
  - destruct (IH a (debounced args st) (inv_step st (Call args) Hinv)) as (id & Ht & Hl & He).
    change (run st (Call <$> args :: a :: calls)) with (run (debounced args st) (Call <$> a :: calls)).
    exists id. split; [exact Ht|]. split.
    + exact Hl.
    + rewrite He, executed_debounced. simpl. by destruct execAsap; rewrite app_nil_r.
Qed.
End debounce.

Arguments state : clear implicits.
Arguments event : clear implicits.

(** In every reachable state at most one timer is pending, and it is the
    one the closure remembers: no call can be delayed twice. *)
Theorem debounce_one_timer {A} (execAsap : bool) (es : list (event A)) :
  let st := run execAsap initial es in
  match timeout st with
  | Some id => ∃ args, timers st = {[id := args]}
  | None => timers st = ∅
  end.
Proof.
  simpl. pose proof (inv_run execAsap es initial inv_initial) as [H _].
  destruct (timeout _); naive_solver.
Qed.

(** A burst of calls on an idle handler, followed by the timer, runs the
    function exactly once: with the arguments of the last call by default,
    and with those of the first call in the immediate mode; afterwards the
    handler is idle again. *)
Theorem debounce_burst {A} (execAsap : bool) (st : state A) args calls id :
  inv st → timeout st = None →
  timeout (run execAsap st (Call <$> args :: calls)) = Some id →
  let st' := run execAsap st ((Call <$> args :: calls) ++ [Fire id]) in
  executed st' = executed st ++ [if execAsap then args else last_args args calls] ∧
  timeout st' = None ∧ timers st' = ∅.
Proof.
  intros Hinv Hidle Hid. destruct (burst execAsap args calls st Hinv) as (id' & Ht & Hl & He).
  pose proof (inv_run execAsap (Call <$> args :: calls) st Hinv) as [Hi _].
  rewrite Ht in Hid, Hi. injection Hid as <-. destruct Hi as [[a Ha] _].
  unfold run in *. rewrite foldl_app. cbn [foldl step]. unfold fire. rewrite Hl. cbn [executed timeout timers].
  rewrite He, Hidle. split_and!.
  - destruct execAsap; [done|]. by rewrite app_nil_r.
  - done.
  - rewrite Ha. apply delete_singleton_eq.
Qed.

Lemma debounce_burst_witness :
  executed (run false initial [Call 10; Call 20; Call 30; Fire 3]) = [30].
Proof.
  apply (debounce_burst false (initial : state Z) 10 [20; 30] 3); [apply inv_initial|reflexivity..].
Defined.

End Debounce.

(** ** Sidebar and search box toggles, lines 145 to 180 *)

Module Sidebar.

Inductive status := Open | Closed.

#[global] Instance status_eq_dec : EqDecision status.
Proof. solve_decision. Defined.

Record state := State { body : list string; sidebarStatus : status; searchStatus : status }.

Definition toggle (c : string) (cs : list string) : list string :=
  if bool_decide (c ∈ cs) then Dom.remove_from c cs else Dom.add_to c cs.

Definition status_of (c : string) (cs : list string) : status :=
  if bool_decide (c ∈ cs) then Closed else Open.

(** Lines 149 to 161: the handlers of the overlay and of the menu button are
    the same. *)
Definition sidebar_click (st : state) : state :=
  let b := toggle "sidebar-hidden" (body st) in
  State b (status_of "sidebar-hidden" b) (searchStatus st).

(** Lines 167 to 180. *)
Definition search_click (st : state) : state :=
  if bool_decide (sidebarStatus st = Closed) then
    let st := sidebar_click st in
    State (Dom.remove_from "searchbox-hidden" (body st)) (sidebarStatus st) Open
  else
    let b := toggle "searchbox-hidden" (body st) in
    State b (sidebarStatus st) (status_of "searchbox-hidden" b).

Inductive event := SidebarClick | SearchClick.
Definition step (st : state) (e : event) : state :=
  match e with SidebarClick => sidebar_click st | SearchClick => search_click st end.

Definition inv (st : state) : Prop :=
  sidebarStatus st = status_of "sidebar-hidden" (body st) ∧
  searchStatus st = status_of "searchbox-hidden" (body st).

Lemma elem_of_toggle c cs x :
  x ∈ toggle c cs ↔ (x = c ∧ c ∉ cs) ∨ (x ≠ c ∧ x ∈ cs).
Proof.
  unfold toggle. case_bool_decide; [rewrite Dom.elem_of_remove_from|rewrite Dom.elem_of_add_to];
    destruct (decide (x = c)); naive_solver.
Qed.

Lemma status_of_other c c' cs : c ≠ c' → status_of c' (toggle c cs) = status_of c' cs.
Proof.
  intros Hne. unfold status_of. erewrite bool_decide_ext; [done|].
  rewrite elem_of_toggle. naive_solver.
Qed.

Lemma sidebar_click_inv st : inv st → inv (sidebar_click st).
Proof. intros [H1 H2]. split; [done|]. simpl. by rewrite status_of_other. Qed.

Lemma search_click_inv st : inv st → inv (search_click st).
Proof.
  intros Hinv. unfold search_click. case_bool_decide as E.
  - destruct (sidebar_click_inv _ Hinv) as [H1 _]. split; simpl in *; unfold status_of.
    + erewrite bool_decide_ext; [done|]. rewrite Dom.elem_of_remove_from. naive_solver.
    + rewrite bool_decide_false; [done|]. rewrite Dom.elem_of_remove_from. naive_solver.
  - destruct Hinv as [H1 _]. split; [|done]. simpl. by rewrite status_of_other.
Qed.

(** Along any sequence of clicks the two status variables agree with the
    classes on the body, and a click on the search button while the sidebar
    is closed opens both the sidebar and the search box. *)
Theorem sidebar_status_consistent st es :
  inv st →
  let st' := foldl step st es in
  inv st' ∧
  (sidebarStatus st' = Closed →
   sidebarStatus (search_click st') = Open ∧ searchStatus (search_click st') = Open ∧
   ("searchbox-hidden" ∉ body (search_click st'))%string).
Proof.
  intros Hinv. cbn zeta.
  assert (H' : inv (foldl step st es)).
  { revert st Hinv; induction es as [|[] es IH]; intros st Hinv; simpl; [done| |];
      apply IH; [by apply sidebar_click_inv|by apply search_click_inv]. }
  split; [done|]. intros Hc. unfold search_click. rewrite bool_decide_true by done. simpl.
  split_and!; [|done|rewrite Dom.elem_of_remove_from; naive_solver].
  destruct H' as [H1 _]. rewrite Hc in H1. unfold status_of in *.
  rewrite bool_decide_false; [done|]. rewrite elem_of_toggle.
  case_bool_decide; [naive_solver|done].
Qed.

Lemma sidebar_status_consistent_witness :
  inv (foldl step (State [] Open Open) [SidebarClick; SearchClick; SearchClick]).
Proof.
  apply (sidebar_status_consistent (State [] Open Open) [SidebarClick; SearchClick; SearchClick]).
  by split.
Defined.

End Sidebar.

(** ** The search input, lines 182 to 227 and 405 to 415 *)

Module SearchInput.

(** [marks] is the text the page is highlighted with; [clear_handlers] counts
    the click handlers bound to the clear button. *)
Record state := State {
  session : gmap string jsstring;
  input_val : jsstring;
  searched : bool;              (* class "searched" on ul.topics *)
  marks : option jsstring;
  clear_handlers : nat }.

(** Lines 183 to 206: the input handler for the current value. *)
Definition on_input (st : state) : state :=
  let value := input_val st in
  match value with
  | [] => State (delete "search-value"%string (session st)) value false None (clear_handlers st)
  | _ => State (<["search-value"%string := value]> (session st)) value (searched st) (Some value)
               (S (clear_handlers st))
  end.

(** Typing a value. *)
Definition type (v : jsstring) (st : state) : state :=
  on_input (State (session st) v (searched st) (marks st) (clear_handlers st)).

(** Lines 202 to 204: one clear handler. *)
Definition clear_handler (st : state) : state :=
  let st := type [] st in
  State (delete "search-input"%string (session st)) (input_val st) (searched st) None
        (clear_handlers st).

(** A click on the clear button runs every handler that was bound. *)
Definition clear_click (st : state) : state := Nat.iter (clear_handlers st) clear_handler st.

(** Lines 214 to 226 on a fresh page: the stored value is typed again.  [found]
    is what line 219 finds: the position of the first element that contains the
    value, if there is one, or the exception that jQuery throws for a value that
    makes no selector of [:contains(value)], such as [f)].  The second component
    is the vertical scroll, or the exception. *)
Definition restore_search (found : outcome (option Z)) (st : state) : state * outcome (option Z) :=
  match session st !! "search-value"%string with
  | Some (c :: s) =>
      (type (c :: s) st,
       match found with
       | Ret (Some scrolledY) => Ret (if scrolledY =? 0 then None else Some (scrolledY - 125))
       | Ret None => Ret None
       | Throw e => Throw e
       end)
  | _ => (st, Ret None)
  end.

(** Line 414: highlighting the stored value when the window has loaded. *)
Definition load_highlight (st : state) : state :=
  match session st !! "search-value"%string with
  | Some (c :: s) => State (session st) (input_val st) (searched st) (Some (c :: s)) (clear_handlers st)
  | _ => st
  end.

Definition fresh_page (session : gmap string jsstring) : state := State session [] false None 0.

Lemma clear_handler_fix st : input_val st = [] → marks st = None →
  session st !! "search-value"%string = None → session st !! "search-input"%string = None →
  session (clear_handler st) = session st ∧ input_val (clear_handler st) = [] ∧
  marks (clear_handler st) = None.
Proof.
  intros. unfold clear_handler, type, on_input. simpl. split; [|done].
  rewrite !delete_id; try done. by rewrite lookup_delete_ne.
Qed.

Lemma clear_once st :
  let st' := clear_handler st in
  input_val st' = [] ∧ marks st' = None ∧ session st' !! "search-value"%string = None ∧
  session st' !! "search-input"%string = None.
Proof.
  simpl. split_and!; [done..| |].
  - rewrite lookup_delete_ne by done. apply lookup_delete_eq.
  - apply lookup_delete_eq.
Qed.

Lemma clear_many n st :
  let st' := Nat.iter (S n) clear_handler st in
  input_val st' = [] ∧ marks st' = None ∧ session st' !! "search-value"%string = None ∧
  session st' !! "search-input"%string = None.
Proof.
  induction n as [|n IH]; [apply clear_once|]. apply clear_once.
Qed.

(** A value typed into the search box survives a reload: the fresh page
    shows and highlights it again; after a click on the clear button it is
    gone from the page and from the storage. *)
Theorem search_value_persists st c s found :
  let v := c :: s in
  let typed := type v st in
  let reloaded := (restore_search found (fresh_page (session typed))).1 in
  input_val reloaded = v ∧ marks reloaded = Some v ∧ session reloaded = session typed ∧
  let cleared := clear_click typed in
  marks cleared = None ∧ input_val cleared = [] ∧
  restore_search found (fresh_page (session cleared)) = (fresh_page (session cleared), Ret None).
Proof.
  cbn zeta. unfold restore_search. cbn [fresh_page session].
  assert (Hv : session (type (c :: s) st) !! "search-value"%string = Some (c :: s))
    by (apply lookup_insert_eq).
  rewrite Hv. split_and!; [done|done| | | |].
  - cbn. by rewrite insert_insert_eq.
  - apply (clear_many (clear_handlers st)).
  - apply (clear_many (clear_handlers st)).
  - destruct (clear_many (clear_handlers st) (type (c :: s) st)) as (_ & _ & H & _).
    unfold clear_click. change (clear_handlers (type (c :: s) st)) with (S (clear_handlers st)).
    cbn [fresh_page session]. by rewrite H.
Qed.

(** The clear handler is bound again by every input: after [n] non-empty
    values the button carries [n] more handlers, and one click runs them all. *)
Theorem clear_handlers_accumulate st (vs : list jsstring) :
  clear_handlers (foldl (λ st v, type v st) st vs) =
    (clear_handlers st + length (filter (λ v, v ≠ []) vs))%nat.
Proof.
  revert st; induction vs as [|v vs IH]; intros st; [simpl; lia|].
  simpl foldl. rewrite IH, filter_cons. destruct v as [|c v].
  - rewrite decide_False by naive_solver. done.
  - rewrite decide_True by done. simpl. lia.
Qed.

End SearchInput.

(** ** Copy buttons, lines 230 to 267 *)

Module Clipboard.

Definition is_line_terminator (c : Z) : bool :=
  (c =? 10) || (c =? 13) || (c =? 8232) || (c =? 8233).

(** [text.replace(/^\$\s/gm, '')]; [bol]: the position is at a line start. *)
Fixpoint strip_prompts (bol : bool) (s : jsstring) : jsstring :=
  match s with
  | [] => []
  | a :: t =>
      match t with
      | c :: s' =>
          if bol && (a =? 36) && is_space c then strip_prompts (is_line_terminator c) s'
          else a :: strip_prompts (is_line_terminator a) t
      | [] => [a]
      end
  end.

(** Line 238: the text a button copies. *)
Definition copy_text (code : jsstring) : jsstring := strip_prompts true code.

(** Lines 231 to 266 over the code elements: which get a button, and how many
    times the clipboard library is set up. *)
Fixpoint add_buttons (clipInit : bool) (codes : list jsstring) : list bool * nat :=
  match codes with
  | [] => ([], 0%nat)
  | text :: codes' =>
      if (5 <? Z.of_nat (length text)) then
        let '(bs, n) := add_buttons true codes' in
        (true :: bs, ((if clipInit then 0 else 1) + n)%nat)
      else
        let '(bs, n) := add_buttons clipInit codes' in (false :: bs, n)
  end.

(** Lines 245 to 257 and 263 to 265: the handlers. *)
Definition tooltip_class (inPre : bool) : string := if inPre then "tooltipped-w" else "tooltipped-s".
Definition show_tooltip (label : string) (inPre : bool) (trigger : nid) (d : dom) : dom :=
  Dom.addClass (tooltip_class inPre) trigger
    (Dom.addClass "tooltipped" trigger (Dom.setAttribute "aria-label" label trigger d)).
Definition on_success (inPre : bool) : nid → dom → dom := show_tooltip "Copied to clipboard!" inPre.
(** [msg] is [fallbackMessage(e.action)]; the copy that the user then makes by
    hand shows the success text. *)
Definition on_error (msg : string) (inPre : bool) : nid → dom → dom := show_tooltip msg inPre.
Definition on_copy_after_error (inPre : bool) : nid → dom → dom := on_success inPre.
Definition on_mouseleave (n : nid) (d : dom) : dom :=
  Dom.removeClass "tooltipped-w" n (Dom.removeClass "tooltipped-s" n
    (Dom.removeClass "tooltipped" n (Dom.removeAttribute "aria-label" n d))).

Definition prompt_line (l : jsstring) : jsstring := js "$ " ++ l.

(** A command line: no line terminator, and no prompt of its own. *)
Definition command (l : jsstring) : Prop :=
  Forall (λ c, is_line_terminator c = false) l ∧ match l with 36 :: _ => False | _ => True end.

Lemma strip_line bol l rest :
  Forall (λ c, is_line_terminator c = false) l →
  (bol = true → match l with 36 :: _ => False | _ => True end) →
  strip_prompts bol (l ++ 10 :: rest) = l ++ 10 :: strip_prompts true rest.
Proof.
  revert bol; induction l as [|a l IH]; intros bol Hl Hb.
  - simpl. destruct rest; [done|]. by rewrite andb_false_r.
  - inversion Hl as [|?? Ha Hl']; subst.
    assert (Hcons : strip_prompts bol ((a :: l) ++ 10 :: rest) =
              a :: strip_prompts (is_line_terminator a) (l ++ 10 :: rest)).
    { simpl. destruct (l ++ 10 :: rest) as [|c t] eqn:E; [by destruct l|].
      destruct bol; [|done]. destruct (Z.eqb_spec a 36) as [->|]; [by destruct (Hb eq_refl)|done]. }
    rewrite Hcons, Ha, IH by done. done.
Qed.

Lemma strip_last bol l :
  Forall (λ c, is_line_terminator c = false) l →
  (bol = true → match l with 36 :: _ => False | _ => True end) →
  strip_prompts bol l = l.
Proof.
  revert bol; induction l as [|a l IH]; intros bol Hl Hb; [done|].
  inversion Hl as [|?? Ha Hl']; subst. destruct l as [|c l]; [done|].
  change (strip_prompts bol (a :: c :: l)) with
    (if bol && (a =? 36) && is_space c then strip_prompts (is_line_terminator c) l
     else a :: strip_prompts (is_line_terminator a) (c :: l)).
  destruct (bol && (a =? 36)) eqn:E.
  - apply andb_true_iff in E as [-> E]. apply Z.eqb_eq in E as ->. by destruct (Hb eq_refl).
  - simpl andb. cbn iota. f_equal. by rewrite Ha, IH.
Qed.

(** Copying a block of shell lines drops the prompt of every line and
    nothing else. *)
Theorem copy_strips_prompts ls :
  Forall command ls →
  copy_text (join_with 10 (prompt_line <$> ls)) = join_with 10 ls.
Proof.
  unfold copy_text. induction 1 as [|l ls [Hl Hb] Hls IH]; [done|].
  destruct ls as [|l' ls].
  - change (join_with 10 (prompt_line <$> [l])) with (36 :: 32 :: l).
    change (strip_prompts true (36 :: 32 :: l)) with (strip_prompts false l). by apply strip_last.
  - change (join_with 10 (prompt_line <$> l :: l' :: ls))
      with (36 :: 32 :: l ++ 10 :: join_with 10 (prompt_line <$> l' :: ls)).
    change (strip_prompts true (36 :: 32 :: ?s)) with (strip_prompts false s).
    rewrite strip_line by done. by rewrite IH.
Qed.

Lemma copy_strips_prompts_witness :
  copy_text (js "$ make" ++ 10 :: js "$ ls a$ b") = js "make" ++ 10 :: js "ls a$ b".
Proof.
  apply (copy_strips_prompts [js "make"; js "ls a$ b"]).
  repeat constructor.
Defined.

Lemma add_buttons_spec clipInit codes :
  (add_buttons clipInit codes).1 = (λ t, bool_decide (5 < length t)%nat) <$> codes ∧
  (add_buttons clipInit codes).2 =
    if clipInit then 0%nat else if existsb (λ t, bool_decide (5 < length t)%nat) codes then 1%nat else 0%nat.
Proof.
  revert clipInit; induction codes as [|t codes IH]; intros clipInit; [by destruct clipInit|].
  simpl. destruct (IH true) as [I1 I2], (IH clipInit) as [I3 I4].
  destruct (Z.ltb_spec 5 (Z.of_nat (length t))).
  - rewrite bool_decide_true by lia. destruct (add_buttons true codes) as [bs n]; simpl in *.
    subst. split; [done|]. destruct clipInit; simpl; lia.
  - rewrite bool_decide_false by lia. destruct (add_buttons clipInit codes) as [bs n]; simpl in *.
    by subst.
Qed.

(** Exactly the code elements with more than five characters get a copy
    button, and the clipboard library is set up once if there is one. *)
Theorem copy_buttons codes :
  (add_buttons false codes).1 = (λ t, bool_decide (5 < length t)%nat) <$> codes ∧
  (add_buttons false codes).2 =
    if existsb (λ t, bool_decide (5 < length t)%nat) codes then 1%nat else 0%nat.
Proof. apply (add_buttons_spec false). Qed.

End Clipboard.

(** ** Anchor scrolling, lines 327 to 401 *)

Module Anchors.

Definition OFFSET_HEIGHT_PX : Z := 50.

(** Lines 331 and 360: [/^#[^ ]+$/.test(href)]; a missing attribute is tested
    as the text "null". *)
Definition anchor_test (href : option jsstring) : bool :=
  match default (js "null") href with
  | 35 :: (_ :: _) as t => bool_decide (32 ∉ t)
  | _ => false
  end.

Definition getFixedOffset : Z := OFFSET_HEIGHT_PX.

(** The scroll animations started and the history entries pushed. *)
Record effects := Effects { animated : list Z; pushed : list jsstring }.

Section scrolling.
(** [document.getElementById] with [offset().top], the history support, and
    the path of the page. *)
Context (offset_of : jsstring → option Z) (HISTORY_SUPPORT : bool) (pathname : jsstring).

(** Lines 357 to 377. *)
Definition scrollIfAnchor (href : option jsstring) (pushToHistory : bool) (e : effects) :
    bool * effects :=
  if negb (anchor_test href) then (false, e)
  else
    let h := default [] href in
    match offset_of (drop 1 h) with
    | Some top =>
        (true, Effects (animated e ++ [top - getFixedOffset])
                       (if HISTORY_SUPPORT && pushToHistory then pushed e ++ [pathname ++ h] else pushed e))
    | None => (false, e)
    end.

(** Lines 382 to 386: the result is whether the event's default is
    prevented; [has_event] is false for the call of [init]. *)
Definition scrollToCurrent (hash : jsstring) (has_event : bool) (e : effects) : bool * effects :=
  let '(r, e') := scrollIfAnchor (Some hash) false e in (r && has_event, e').

(** Lines 391 to 397. *)
Definition delegateAnchors (href : option jsstring) (e : effects) : bool * effects :=
  scrollIfAnchor href true e.

Lemma scrollIfAnchor_effects href push e r e' :
  scrollIfAnchor href push e = (r, e') →
  (r = false ∧ e' = e) ∨
  (∃ h top, r = true ∧ href = Some h ∧ offset_of (drop 1 h) = Some top ∧
     animated e' = animated e ++ [top - 50] ∧
     pushed e' = pushed e ++ (if HISTORY_SUPPORT && push then [pathname ++ h] else [])).
Proof.
  unfold scrollIfAnchor. destruct (anchor_test href) eqn:Ht; simpl; [|naive_solver].
  destruct href as [h|]; [|done]. simpl. destruct (offset_of (drop 1 h)) as [top|] eqn:E; [|naive_solver].
  intros [= <- <-]. right. exists h, top. simpl.
  split_and!; try done. destruct (_ && _); [done|by rewrite app_nil_r].
Qed.

Lemma scrollIfAnchor_taken href push e :
  (scrollIfAnchor href push e).1 = true ↔
    anchor_test href = true ∧ is_Some (offset_of (drop 1 (default [] href))).
Proof.
  unfold scrollIfAnchor. destruct (anchor_test href); simpl; [|naive_solver].
  destruct (offset_of _); simpl; [naive_solver|]. split; [done|]. by intros [_ [? ?]].
Qed.

(** A click is taken over exactly when its target's address is an anchor
    of an existing element; it then scrolls to 50 pixels above the element
    and, where history is supported, pushes that anchor once; otherwise
    nothing happens.  Hash changes never touch the history. *)
Theorem anchor_click href e hash ev :
  let '(taken, e') := delegateAnchors href e in
  (taken = true ↔ anchor_test href = true ∧ is_Some (offset_of (drop 1 (default [] href)))) ∧
  (taken = false → e' = e) ∧
  (taken = true → ∃ h top, href = Some h ∧ offset_of (drop 1 h) = Some top ∧
     animated e' = animated e ++ [top - 50] ∧
     pushed e' = pushed e ++ (if HISTORY_SUPPORT then [pathname ++ h] else [])) ∧
  pushed (scrollToCurrent hash ev e).2 = pushed e.
Proof.
  destruct (delegateAnchors href e) as [taken e'] eqn:E.
  pose proof (scrollIfAnchor_taken href true e) as Ht. unfold delegateAnchors in E. rewrite E in Ht.
  split; [exact Ht|]. apply scrollIfAnchor_effects in E. rewrite andb_true_r in E.
  split_and!; [naive_solver|naive_solver|]. unfold scrollToCurrent.
  destruct (scrollIfAnchor (Some hash) false e) as [r e2] eqn:E2. cbn [snd].
  apply scrollIfAnchor_effects in E2 as [[_ ->]|(h & top & _ & _ & _ & _ & ->)]; [done|].
  by rewrite andb_false_r, app_nil_r.
Qed.
End scrolling.

End Anchors.

(** ** Visited pages, lines 405 to 412 *)

Module Visited.

(** [sessionStorage.getItem(url) == 1]: the stored text is compared as a
    number. *)
Definition is_one (v : jsstring) : bool :=
  deq (toNumber v) double_one.

Definition on_load (url : string) (session : gmap string jsstring) (nav : list string) :
    gmap string jsstring * list (string * bool) :=
  let session := <[url := js "1"]> session in
  (session, (λ id, (id, match session !! id with Some v => is_one v | None => false end)) <$> nav).

(** A browsing session: pages loaded one after the other. *)
Definition browse (urls : list string) (session : gmap string jsstring) : gmap string jsstring :=
  foldl (λ s u, (on_load u s []).1) session urls.

Lemma browse_lookup urls session id :
  browse urls session !! id = if bool_decide (id ∈ urls) then Some (js "1") else session !! id.
Proof.
  unfold browse. revert session; induction urls as [|u urls IH]; intros session; [done|].
  cbn [foldl on_load fst]. rewrite IH, lookup_insert, (bool_decide_ext _ _ (elem_of_cons urls id u)).
  generalize (Some (js "1")). intros one. clear IH.
  repeat case_bool_decide; try case_decide; subst; first [tauto|naive_solver].
Qed.

(** In a session that starts with empty storage, the navigation entries
    marked as visited on the page loaded last are exactly the pages loaded
    before it and the page itself. *)
Theorem visited_exact urls url nav id b :
  (id, b) ∈ (on_load url (browse urls ∅) nav).2 → b = bool_decide (id ∈ urls ++ [url]).
Proof.
  intros Hnav. apply list_elem_of_fmap in Hnav as (id' & [= <- ->] & _).
  rewrite lookup_insert. case_decide as Hu.
  - subst. rewrite bool_decide_true by set_solver. vm_compute. reflexivity.
  - rewrite browse_lookup, lookup_empty. case_bool_decide as Hin.
    + rewrite bool_decide_true by set_solver. vm_compute. reflexivity.
    + rewrite bool_decide_false by set_solver. done.
Qed.

Lemma visited_exact_witness :
  ("/b/"%string, true) ∈ (on_load "/c/" (browse ["/a/"; "/b/"]%string ∅) ["/b/"; "/d/"]%string).2 ∧
  true = bool_decide ("/b/"%string ∈ ["/a/"; "/b/"]%string ++ ["/c/"]%string).
Proof.
  assert (H : ("/b/"%string, true) ∈
    (on_load "/c/" (browse ["/a/"; "/b/"]%string ∅) ["/b/"; "/d/"]%string).2) by by_evaluation.
  split; [exact H|]. exact (visited_exact ["/a/"; "/b/"]%string "/c/" ["/b/"; "/d/"]%string "/b/" true H).
Defined.

End Visited.
