(* ===== verification/LearnSession.v ===== *)
(** * A visit to the tutorial, learn.js

    The pages of the tutorial share the session storage: every page notes that
    it has been seen, the search box keeps its text there, and both are read
    again by the next page.  The user goes from page to page by links and arrow
    keys, types into the search box, clears it, and clears the history.  The
    pages together keep to a simple machine, which knows the pages seen, the text
    searched for, and whether the page listens to the arrow keys: it does not if
    it was loaded with a text of which jQuery cannot make a selector.  The last
    part is about the icons of the menu. *)

From S2P Require Import Prelude JsString JsNum Dom Learn.
Local Open Scope Z_scope.

Module LearnSession.
Import SearchInput.

(** The site: the targets of the links to the neighbours of a page, the
    identifiers in its menu, and what the page finds with the selector
    [:contains(text)] for a search text: a place to scroll to or nothing, or an
    exception if the selector is malformed. *)
Class Site := {
  links : string → Misc.nav_click → list string;
  menu : string → list string;
  found : string → jsstring → outcome (option Z)
}.

Record page := Page {
  url : string;
  box : state;                    (* the storage and the search box *)
  visited : list (string * bool); (* the entries of the menu, with their mark *)
  keys : bool                     (* the handlers for the arrow keys are bound *)
}.

Section session.
Context `{W : Site}.

(** Lines 134 to 296 and 405 to 414: a page is loaded.  An exception of line 219
    ends the handler of the ready event, before the handlers of lines 270 to 296
    are bound; the handler of the load event runs all the same. *)
Definition load (u : string) (s : gmap string jsstring) : page :=
  let '(st, scroll) := restore_search (found u (default [] (s !! "search-value"%string))) (fresh_page s) in
  let '(s, marked) := Visited.on_load u (session st) (menu u) in
  Page u (load_highlight (State s (input_val st) (searched st) (marks st) (clear_handlers st))) marked
    match scroll with Ret _ => true | Throw _ => false end.

Lemma url_load u s : url (load u s) = u.
Proof. unfold load. by destruct (restore_search _ _) as [st scroll]. Qed.

(** Lines 162 to 166. *)
Definition clear_history (p : page) : page := load (url p) ∅.

(** Lines 270 to 277: a click on the links to a neighbour; the last address
    that is set is the one that is opened. *)
Definition follow (c : Misc.nav_click) (p : page) : page :=
  match last (links (url p) c) with
  | Some u => load u (session (box p))
  | None => p
  end.
(** Lines 279 to 296. *)
Definition press (in_input : bool) (which : Z) (p : page) : page :=
  if keys p then foldl (λ p c, follow c p) p (Misc.keydown in_input which) else p.

Definition on_box (f : state → state) (p : page) : page := Page (url p) (f (box p)) (visited p) (keys p).

Inductive action :=
  | Open (u : string)
  | Press (in_input : bool) (which : Z)
  | Type_ (v : jsstring)
  | ClickClear
  | ClearHistory.
Definition act (p : page) (a : action) : page :=
  match a with
  | Open u => load u (session (box p))
  | Press i w => press i w p
  | Type_ v => on_box (type v) p
  | ClickClear => on_box clear_click p
  | ClearHistory => clear_history p
  end.

(** ** The machine the pages keep to *)

Record spec := Spec { here : string; seen : list string; text : jsstring; listens : bool }.
(** Without a text there is nothing to find. *)
Definition readable (u : string) (t : jsstring) : bool :=
  match t, found u t with [], _ => true | _, Ret _ => true | _, Throw _ => false end.
Definition goto (u : string) (x : spec) : spec := Spec u (seen x ++ [u]) (text x) (readable u (text x)).
Definition neighbour (in_input : bool) (which : Z) (u : string) : option string :=
  if in_input then None
  else if which =? 37 then last (links u Misc.ClickPrev)
  else if which =? 39 then last (links u Misc.ClickNext)
  else None.
Definition spec_act (x : spec) (a : action) : spec :=
  match a with
  | Open u => goto u x
  | Press i w =>
      if listens x then match neighbour i w (here x) with Some u => goto u x | None => x end else x
  | Type_ v => Spec (here x) (seen x) v (listens x)
  | ClickClear => Spec (here x) (seen x) [] (listens x)
  | ClearHistory => Spec (here x) [here x] [] true
  end.

(** Names that the search box uses in the storage. *)
Definition reserved (k : string) : Prop := k = "search-value"%string ∨ k = "search-input"%string.
Definition stored (t : jsstring) : option jsstring := match t with [] => None | _ => Some t end.

Record refines (x : spec) (p : page) : Prop := {
  r_url : url p = here x;
  r_seen : ∀ id, ¬ reserved id →
    session (box p) !! id = if bool_decide (id ∈ seen x) then Some (js "1") else None;
  r_text : session (box p) !! "search-value"%string = stored (text x);
  r_input : input_val (box p) = text x;
  r_marks : marks (box p) = stored (text x);
  r_clear : text x ≠ [] → (0 < clear_handlers (box p))%nat;
  r_menu : ∀ id b, (id, b) ∈ visited p → ¬ reserved id → b = bool_decide (id ∈ seen x);
  r_keys : keys p = listens x
}.
(** What the storage holds. *)
Definition holds (vs : list string) (t : jsstring) (s : gmap string jsstring) : Prop :=
  (∀ id, ¬ reserved id → s !! id = if bool_decide (id ∈ vs) then Some (js "1") else None) ∧
  s !! "search-value"%string = stored t.

Lemma holds_empty : holds [] [] ∅.
Proof. split; [intros id _; rewrite lookup_empty; by rewrite bool_decide_false by set_solver|done]. Qed.
Lemma holds_visit u vs t s : ¬ reserved u → holds vs t s → holds (vs ++ [u]) t (<[u := js "1"]> s).
Proof.
  intros Hu [Hs Ht]. split.
  - intros id Hid. rewrite lookup_insert, (Hs id Hid). generalize (js "1"). intros one.
    case_decide; repeat case_bool_decide; set_solver.
  - rewrite lookup_insert_ne; [done|]. intros ->. apply Hu. by left.
Qed.
Lemma holds_type v vs t st : holds vs t (session st) → holds vs v (session (type v st)).
Proof.
  intros [Hs Ht]. unfold type, on_input. cbn [input_val session]. destruct v as [|c v]; cbn [session]; split.
  - intros id Hid. rewrite lookup_delete_ne; [by apply Hs|]. intros <-. apply Hid. by left.
  - apply lookup_delete_eq.
  - intros id Hid. rewrite lookup_insert_ne; [by apply Hs|]. intros <-. apply Hid. by left.
  - apply lookup_insert_eq.
Qed.

Lemma load_marks u vs t s id b :
  ¬ reserved u → holds vs t s → (id, b) ∈ (Visited.on_load u s (menu u)).2 → ¬ reserved id →
  b = bool_decide (id ∈ vs ++ [u]).
Proof.
  intros Hu Hs Hin Hid. destruct (holds_visit u vs t s Hu Hs) as [H1 _]. unfold Visited.on_load in Hin. cbv zeta in Hin. cbn [snd] in Hin.
  apply list_elem_of_fmap in Hin as (id' & E & _). apply pair_eq in E as [<- ->].
  rewrite (H1 id Hid).
  case_bool_decide; [vm_compute; reflexivity|done].
Qed.

(** A page that is loaded shows what the storage holds. *)
Lemma load_refines u vs t s :
  ¬ reserved u → holds vs t s → refines (Spec u (vs ++ [u]) t (readable u t)) (load u s).
Proof.
  intros Hu Hs. unfold load, restore_search. cbn [session fresh_page]. rewrite (proj2 Hs).
  destruct t as [|c t]; cbn [stored].
  - cbn [session fresh_page Visited.on_load]. destruct (holds_visit u vs [] s Hu Hs) as [H1 H2].
    unfold load_highlight. cbn [session]. rewrite H2. split; try done.
    intros id b. cbn [visited seen]. by apply (load_marks u vs []).
  - set (st := type (c :: t) (fresh_page s)).
    assert (Hst : holds vs (c :: t) (session st)) by (by eapply holds_type).
    pose proof (holds_visit u vs (c :: t) _ Hu Hst) as [H1 H2].
    cbn [Visited.on_load]. unfold load_highlight. cbn [session]. rewrite H2. split; try done.
    + intros _. cbn. lia.
    + intros id b. cbn [visited seen]. by apply (load_marks u vs (c :: t)).
    + cbn [keys listens default from_option]. unfold readable. unfold id. by destruct (found u (c :: t)) as [[]|].
Qed.
Lemma refines_holds x p : refines x p → holds (seen x) (text x) (session (box p)).
Proof. intros []. by split. Qed.

Lemma clear_many_holds n vs t st : holds vs t (session st) → holds vs [] (session (Nat.iter (S n) clear_handler st)).
Proof.
  assert (Hstep : ∀ t st, holds vs t (session st) → holds vs [] (session (clear_handler st))).
  { intros t' st' Hh. unfold clear_handler. cbn zeta. destruct (holds_type [] vs t' st' Hh) as [H1 H2]. split; cbn [session].
    - intros id Hid. rewrite lookup_delete_ne; [by apply H1|]. intros <-. apply Hid. by right.
    - by rewrite lookup_delete_ne. }
  intros Hh. induction n as [|n IH]; [by eapply Hstep|]. exact (Hstep [] _ IH).
Qed.

Lemma clear_click_refines x p : refines x p → refines (spec_act x ClickClear) (on_box clear_click p).
Proof.
  intros Hr. pose proof Hr as [Hu Hs Ht Hi Hm Hc Hv Hk]. unfold clear_click, on_box.
  destruct (clear_handlers (box p)) as [|n] eqn:En.
  - assert (Hx : text x = []) by (destruct (text x); [done|]; exfalso; specialize (Hc ltac:(done)); lia).
    rewrite Hx in Ht, Hi, Hm. by split.
  - destruct (clear_many n (box p)) as (H1 & H2 & H3 & _).
    destruct (clear_many_holds n _ _ _ (refines_holds x p Hr)) as [H4 _]. by split.
Qed.
Lemma type_refines v x p : refines x p → refines (spec_act x (Type_ v)) (on_box (type v) p).
Proof.
  intros Hr. destruct (holds_type v _ _ _ (refines_holds x p Hr)) as [H1 H2]. pose proof Hr as [Hu _ _ _ _ _ Hv Hk].
  split; try done; destruct v; try done. intros _. cbn. lia.
Qed.

Lemma follow_refines c x p :
  (∀ u, u ∈ links (url p) c → ¬ reserved u) → refines x p →
  refines (match last (links (here x) c) with Some u => goto u x | None => x end) (follow c p).
Proof.
  intros Hl Hr. pose proof Hr as [Hu _ _ _ _ _ Hv Hk]. unfold follow. rewrite <- Hu.
  destruct (last (links (url p) c)) as [u|] eqn:E; [|done].
  apply load_refines; [|by apply refines_holds]. apply Hl. by apply last_Some_elem_of.
Qed.

(** Addresses begin with a slash and can be put into the selector of line 411. *)
Fixpoint quotable (u : string) : bool :=
  match u with
  | EmptyString => true
  | String c u => bool_decide (Ascii.nat_of_ascii c ∉ [34; 92; 10; 12; 13; 0]%nat) && quotable u
  end.
Definition address (u : string) : bool := String.prefix "/" u && quotable u.
Lemma address_free u : address u = true → ¬ reserved u.
Proof. by intros H [-> | ->]. Qed.
Definition proper (a : action) : Prop := match a with Open u => address u = true | _ => True end.
Hypothesis addresses : ∀ u c v, v ∈ links u c → address v = true.

Lemma act_refines x p a : address (url p) = true → proper a → refines x p → refines (spec_act x a) (act p a).
Proof.
  intros Hu Ha Hr. pose proof (r_url _ _ Hr) as He. destruct a as [u|i w|v| |]; cbn [act].
  - apply load_refines; [by apply address_free|by apply refines_holds].
  - unfold press. cbn [spec_act]. rewrite (r_keys _ _ Hr). destruct (listens x); [|done]. unfold Misc.keydown, Misc.input_keydown_stops, Misc.document_keydown, neighbour.
    destruct i, (w =? 37) eqn:E1, (w =? 39) eqn:E2; cbn [andb orb app foldl]; try done; try lia.
    all: apply follow_refines; [intros v Hv; by eapply address_free, addresses|done].
  - by apply type_refines.
  - by apply clear_click_refines.
  - unfold clear_history. rewrite He. apply (load_refines _ [] []); [rewrite <- He; by apply address_free|apply holds_empty].
Qed.
Lemma act_url p a : address (url p) = true → proper a → address (url (act p a)) = true.
Proof.
  intros Hu Ha. destruct a as [u|i w|v| |]; cbn [act]; unfold clear_history; rewrite ?url_load; try done. unfold press. destruct (keys p); [|done]. generalize (Misc.keydown i w). intros cs.
  revert p Hu. induction cs as [|c cs IH]; intros p Hu; [done|]. cbn [foldl]. apply IH. unfold follow.
  destruct (last _) as [u|] eqn:E; [|done]. rewrite url_load. apply (addresses (url p) c). by apply last_Some_elem_of.
Qed.

(** C24. However the user goes through the tutorial, types, clears the search box and
    clears the history, every page keeps to the machine, on a site whose addresses
    begin with a slash and have no quotes, backslashes or control characters in
    them: its menu marks exactly the pages seen since the history was last
    cleared, the search box shows, and the text is highlighted with, what was
    last searched for on any page, and the arrow keys lead to the neighbours of
    the page unless the page was loaded while a text was stored of which jQuery
    makes no selector. *)
Theorem session_refines u l :
  address u = true → Forall proper l →
  refines (foldl spec_act (Spec u [u] [] true) l) (foldl act (load u ∅) l).
Proof.
  intros Hu Hl. assert (Hr : refines (Spec u [u] [] true) (load u ∅))
    by (apply (load_refines u [] []); [by apply address_free|apply holds_empty]).
  assert (Hp : address (url (load u ∅)) = true) by by rewrite url_load. revert Hr Hp. generalize (load u ∅) (Spec u [u] [] true).
  induction Hl as [|a l Ha Hl IH]; intros p x Hr Hp; [done|]. cbn [foldl].
  apply IH; [by apply act_refines|by apply act_url].
Qed.
End session.

(** ** Three pages in a row *)

Definition chain (u : string) (c : Misc.nav_click) : list string :=
  match c with
  | Misc.ClickPrev => if bool_decide (u = "/b/"%string) then ["/a/"%string] else if bool_decide (u = "/c/"%string) then ["/b/"%string] else []
  | Misc.ClickNext => if bool_decide (u = "/a/"%string) then ["/b/"%string] else if bool_decide (u = "/b/"%string) then ["/c/"%string] else []
  end.
(** Texts with a parenthesis make no selector. *)
Definition three_pages : Site := {|
  links := chain;
  menu := λ _, ["/a/"; "/b/"; "/c/"]%string;
  found := λ _ t, if bool_decide (Forall (λ c, c ∉ js "()") t) then Ret None else Throw SyntaxError
|}.
Definition walk : list action :=
  [Type_ (js "1"); Press false 39; Press false 39; Press false 37; Type_ (js "f)"); Press false 39; Press false 37].

Lemma session_refines_witness :
  refines (Spec "/c/" ["/a/"; "/b/"; "/c/"; "/b/"; "/c/"] (js "f)") false)
    (foldl (act (W:=three_pages)) (load (W:=three_pages) "/a/" ∅) walk).
Proof.
  apply (session_refines (W:=three_pages)) with (u := "/a/"%string) (l := walk).
  - intros u c v Hv. unfold links, three_pages, chain in Hv.
    destruct c; repeat case_bool_decide; apply list_elem_of_In in Hv; cbn in Hv; naive_solver.
  - reflexivity.
  - by repeat constructor.
Defined.

End LearnSession.

(** ** The icons of the menu, lines 139 to 143 *)

Module MenuIcons.
Local Open Scope string_scope.

Record state := State { doc : dom; hidden : gset nid }.

(** [$(icon).parent().parent().children('ul')] *)
Definition submenus (d : dom) (icon : nid) : list nid :=
  match Dom.parent d icon ≫= Dom.parent d with
  | Some entry => filter (λ n, Dom.sel_tag "ul" d n = true) (Dom.children d entry)
  | None => []
  end.
(** [toggle()] *)
Definition toggle (n : nid) (h : gset nid) : gset nid := if bool_decide (n ∈ h) then h ∖ {[n]} else {[n]} ∪ h.
Definition on_click (icon : nid) (st : state) : state :=
  State (Dom.toggleClass "fa-angle-right" icon (Dom.toggleClass "fa-angle-down" icon (doc st)))
    (foldl (λ h n, toggle n h) (hidden st) (submenus (doc st) icon)).

(** The icon points down over open submenus, and to the right over closed
    ones. *)
Definition agrees (st : state) (icon : nid) : Prop := ∃ down : bool,
  Dom.hasClass (doc st) icon "fa-angle-down" = down ∧ Dom.hasClass (doc st) icon "fa-angle-right" = negb down ∧
  ∀ n, n ∈ submenus (doc st) icon → (n ∈ hidden st ↔ down = false).

Lemma toggle_elem n m h : m ∈ toggle n h ↔ if bool_decide (m = n) then m ∉ h else m ∈ h.
Proof. unfold toggle. repeat case_bool_decide; set_solver. Qed.
Lemma toggle_all ns h m : NoDup ns →
  m ∈ foldl (λ h n, toggle n h) h ns ↔ if bool_decide (m ∈ ns) then m ∉ h else m ∈ h.
Proof.
  intros Hn. revert h. induction Hn as [|n ns Hn Hns IH]; intros h; cbn [foldl]; [by rewrite bool_decide_false by set_solver|].
  rewrite IH. pose proof (toggle_elem n m h). repeat case_bool_decide; set_solver.
Qed.

Lemma submenus_toggle c n d icon : submenus (Dom.toggleClass c n d) icon = submenus d icon.
Proof.
  assert (Hp : ∀ m, Dom.parent (Dom.toggleClass c n d) m = Dom.parent d m).
  { intros m. unfold Dom.toggleClass. case_match; [apply Dom.parent_removeClass|apply Dom.parent_addClass]. }
  assert (Hc : ∀ m, Dom.children (Dom.toggleClass c n d) m = Dom.children d m).
  { intros m. unfold Dom.toggleClass. case_match; [apply Dom.children_removeClass|apply Dom.children_addClass]. }
  assert (Ht : ∀ m, Dom.sel_tag "ul" (Dom.toggleClass c n d) m = Dom.sel_tag "ul" d m).
  { intros m. unfold Dom.sel_tag, Dom.toggleClass, Dom.removeClass, Dom.addClass.
    destruct (Dom.hasClass d n c); rewrite lookup_alter; case_decide; subst; by destruct (d !! m). }
  unfold submenus. rewrite Hp. destruct (Dom.parent d icon) as [q|]; [|done]. simpl. rewrite Hp.
  destruct (Dom.parent d q) as [r|]; [|done]. rewrite Hc. apply list_filter_iff. intros m. by rewrite Ht.
Qed.

(** A menu: icons in the document, each with submenus of its own. *)
Record menu (icons : list nid) (d : dom) : Prop := {
  m_icons : ∀ i, i ∈ icons → is_Some (d !! i);
  m_once : ∀ i, i ∈ icons → NoDup (submenus d i);
  m_own : ∀ i j n, i ∈ icons → j ∈ icons → n ∈ submenus d i → n ∈ submenus d j → i = j
}.
Lemma menu_click icons i st : menu icons (doc st) → menu icons (doc (on_click i st)).
Proof.
  intros [H1 H2 H3]. split; cbn [doc on_click].
  - intros j Hj. rewrite !Dom.present_toggleClass. by apply H1.
  - intros j Hj. rewrite !submenus_toggle. by apply H2.
  - intros j k n Hj Hk. rewrite !submenus_toggle. by apply H3.
Qed.
Lemma click_agrees icons i j st :
  menu icons (doc st) → i ∈ icons → j ∈ icons → agrees st j → agrees (on_click i st) j.
Proof.
  intros [H1 H2 H3] Hi Hj (down & Hd & Hr & Hs). unfold agrees. cbn [doc hidden on_click].
  setoid_rewrite submenus_toggle. setoid_rewrite submenus_toggle. setoid_rewrite toggle_all; [|by apply H2].
  destruct (decide (i = j)) as [->|Hne].
  - exists (negb down). rewrite Dom.hasClass_toggle_other, Dom.hasClass_toggle_same by (done || (by right) || by apply H1).
    rewrite Dom.hasClass_toggle_same by (rewrite Dom.present_toggleClass; by apply H1).
    rewrite Dom.hasClass_toggle_other by (by right). rewrite Hd, Hr. split; [done|]. split; [done|].
    intros n Hn. rewrite bool_decide_true by done. rewrite (Hs n Hn). by destruct down.
  - exists down. rewrite !Dom.hasClass_toggle_other by (by left). split; [done|]. split; [done|].
    intros n Hn. rewrite bool_decide_false; [by apply Hs|]. intros Hin. by eapply Hne, H3.
Qed.

(** Whatever icons are clicked, every icon shows whether its submenus are open. *)
Lemma icons_agree icons st clicks :
  menu icons (doc st) → (∀ i, i ∈ clicks → i ∈ icons) → (∀ i, i ∈ icons → agrees st i) →
  ∀ i, i ∈ icons → agrees (foldl (λ st i, on_click i st) st clicks) i.
Proof.
  revert st. induction clicks as [|c cs IH]; intros st Hm Hc Ha; [done|]. cbn [foldl].
  apply IH; [by apply menu_click|intros i Hi; apply Hc; by right|].
  intros i Hi. eapply click_agrees; [done|apply Hc; by left|done|by apply Ha].
Qed.

End MenuIcons.
