(* ===== verification/LearnPage.v ===== *)
(** * The tutorial theme: links and the table of contents

    What learn.js does to a page when it is loaded, lines 298 to 320: the links
    of the top bar and of the text are marked, and the table of contents fades in
    and out. *)

From S2P Require Import Prelude JsString Dom DomClass.
Local Open Scope string_scope.
Local Open Scope list_scope.

(** ** Lines 298 and 299 *)

Module Links.
Import DomClass.

(** [:has(img)] *)
Definition has_image : Dom.selector := λ d n, existsb (λ m, Dom.sel_tag "img" d m) (Dom.descendants d n).
Definition link (inside : string) : Dom.selector :=
  Dom.sel_desc (Dom.sel_id inside)
    (Dom.sel_and (Dom.sel_tag "a") (Dom.sel_and (Dom.sel_not has_image) (Dom.sel_not (Dom.sel_class "btn")))).
(** [:not(a[rel="footnote"])] *)
Definition footnote : Dom.selector := Dom.sel_and (Dom.sel_tag "a") (Dom.sel_attr "rel" "footnote").
Definition TOP_LINKS : Dom.selector := link "top-bar".
Definition BODY_LINKS : Dom.selector := Dom.sel_and (link "body-inner") (Dom.sel_not footnote).

Section page.
Context (nodes : list nid).      (* in document order *)

Definition mark_links (d : dom) : dom :=
  let d := Dom.each (Dom.addClass "highlight") (Dom.query nodes TOP_LINKS d) d in
  Dom.each (Dom.addClass "highlight") (Dom.query nodes BODY_LINKS d) d.

Lemma ignores_tag c t : ignores c (Dom.sel_tag t).
Proof.
  intros d d' H n _ <-. unfold Dom.sel_tag.
  pose proof (alike_elem c tagName d d' n ltac:(done) H) as E. destruct (d !! n), (d' !! n); try done. by injection E as ->.
Qed.
Lemma ignores_id c i : ignores c (Dom.sel_id i).
Proof.
  intros d d' H n _ <-. unfold Dom.sel_id.
  pose proof (alike_elem c elId d d' n ltac:(done) H) as E. destruct (d !! n), (d' !! n); try done. by injection E as ->.
Qed.
Lemma ignores_link i : ignores "highlight" (link i).
Proof.
  intros d d' H n _ <-. unfold link, Dom.sel_desc, Dom.sel_and, Dom.sel_not, has_image.
  rewrite (ignores_tag _ "a" d d' H n n eq_refl), (alike_class "highlight" "btn" ltac:(done) d d' H n n eq_refl).
  rewrite (alike_descendants _ d d' n H), (alike_parent _ d d' H n n eq_refl). do 2 f_equal.
  - do 2 f_equal. induction (Dom.descendants d' n) as [|m l IH]; [done|]. cbn. by rewrite IH, (ignores_tag _ "img" d d' H m m eq_refl).
  - destruct (Dom.parent d' n); [|done]. by rewrite (alike_closest _ _ d d' _ (ignores_id _ i) H).
Qed.
Lemma ignores_body : ignores "highlight" BODY_LINKS.
Proof.
  intros d d' H n _ <-. unfold BODY_LINKS, Dom.sel_and, Dom.sel_not, footnote, Dom.sel_and, Dom.sel_attr.
  by rewrite (ignores_link _ d d' H n n eq_refl), (ignores_tag _ "a" d d' H n n eq_refl), (alike_attribute _ d d' H n n eq_refl _ _ eq_refl).
Qed.

(** When a page has been loaded exactly the links of the top bar and of the text
    that are no buttons, hold no picture and, in the text, are no footnotes, are
    marked beside those that were before. *)
Theorem links_marked d n :
  n ∈ nodes →
  Dom.hasClass (mark_links d) n "highlight" = Dom.hasClass d n "highlight" || TOP_LINKS d n || BODY_LINKS d n.
Proof.
  intros Hn. unfold mark_links. set (d1 := Dom.each _ _ d).
  assert (Hq : ∀ P e m, m ∈ Dom.query nodes P e ↔ P e m = true ∧ m ∈ nodes).
  { intros P e m. unfold Dom.query. by rewrite list_elem_of_filter, Is_true_true. }
  assert (Hal : alike "highlight" d d1) by (apply alike_each; intros; apply alike_addClass).
  assert (Hp : ∀ P e, (∀ x, P e x = true → Dom.sel_tag "a" e x = true) → P e n = true → is_Some (e !! n)).
  { intros P e HP Hx%HP. unfold Dom.sel_tag in Hx. destruct (e !! n); [by eexists|done]. }
  assert (Hta : ∀ i e x, link i e x = true → Dom.sel_tag "a" e x = true).
  { intros i e x. unfold link, Dom.sel_desc, Dom.sel_and. rewrite !andb_true_iff. tauto. }
  apply eq_iff_eq_true. rewrite each_add_iff, Hq, !orb_true_iff. unfold d1 at 3. rewrite each_add_iff, Hq.
  rewrite <- (ignores_body d d1 Hal n n eq_refl).
  pose proof (Hp TOP_LINKS d (Hta "top-bar" d)) as H1.
  assert (H2 : BODY_LINKS d n = true → is_Some (d1 !! n)).
  { rewrite (ignores_body d d1 Hal n n eq_refl). apply Hp. intros x [Hx _]%andb_true_iff. by eapply Hta. }
  tauto.
Qed.
End page.

Lemma links_marked_witness :
  let d : dom := {[ 1%nat := Elem "div" "body-inner" [] ∅ ∅ None [2%nat; 3%nat];
                    2%nat := Elem "a" "" [] ∅ ∅ (Some 1%nat) [];
                    3%nat := Elem "a" "" [] {[ "rel" := "footnote" ]} ∅ (Some 1%nat) [] ]} in
  Dom.hasClass (mark_links [1; 2; 3]%nat d) 2 "highlight" = true ∧ Dom.hasClass (mark_links [1; 2; 3]%nat d) 3 "highlight" = false.
Proof.
  intros d. split.
  - rewrite (links_marked [1; 2; 3]%nat d 2) by by_evaluation. vm_compute. reflexivity.
  - rewrite (links_marked [1; 2; 3]%nat d 3) by by_evaluation. vm_compute. reflexivity.
Defined.

End Links.

(** ** Lines 301 to 320 *)

Module Toc.

Inductive part := TocMenu | Progress.
Inductive event := Enter (x : part) | Leave (x : part) | Click (x : part).

(** Which events have a listener: entering and leaving by the mouse, or touching. *)
Definition listens (touchsupport : bool) (e : event) : bool :=
  match e with Enter _ | Leave _ => negb touchsupport | Click _ => touchsupport end.
(** [stop(true, false, true).fadeToggle(100)]: the fading turns round, wherever it
    stands; [hidden] is where it leads. *)
Definition fadeToggle (hidden : bool) : bool := negb hidden.
Definition hear (touchsupport : bool) (hidden : bool) (e : event) : bool :=
  if listens touchsupport e then fadeToggle hidden else hidden.
Definition run (touchsupport : bool) : bool → list event → bool := foldl (hear touchsupport).

(** A mouse that comes and goes, possibly from the menu to the table and back. *)
Fixpoint visits (ps : list part) : list event := match ps with [] => [] | x :: ps' => Enter x :: Leave x :: visits ps' end.

(** With a mouse the table of contents is visible while the mouse is over the menu
    or the table, and hidden again after any number of visits; a touch of either
    turns it round. *)
Theorem toc_follows ps x :
  run false true (visits ps) = true ∧ run false true (visits ps ++ [Enter x]) = false ∧
  run true true (Click <$> ps) = Nat.even (length ps).
Proof.
  assert (H : run false true (visits ps) = true) by (induction ps as [|p ps IH]; [done|exact IH]).
  split; [done|]. split.
  - unfold run in *. by rewrite foldl_app, H.
  - assert (Hc : ∀ h, run true h (Click <$> ps) = xorb h (negb (Nat.even (length ps)))).
    { clear H. unfold run. induction ps as [|p ps IH]; intros h; [by destruct h|]. cbn [fmap list_fmap foldl length]. rewrite IH.
      rewrite Nat.even_succ, <- Nat.negb_even. unfold hear, fadeToggle. cbn. destruct h, (Nat.even (length ps)); done. }
    rewrite Hc. by destruct (Nat.even (length ps)).
Qed.

End Toc.

(** ** Lines 208 to 212: the test for text without regard to case *)

Module Contains.
Section contains.
Context (toUpperCase : jsstring → jsstring).

Definition contains (text arg : jsstring) : bool :=
  bool_decide (is_Some (indexOf (toUpperCase text) (toUpperCase arg) 0)).

(** The test finds a text exactly if it occurs in the other one, both in capital
    letters. *)
Theorem contains_occurs text arg :
  contains text arg = true ↔ ∃ l r, toUpperCase text = (l ++ toUpperCase arg ++ r)%list.
Proof.
  unfold contains, indexOf. rewrite bool_decide_eq_true, Nat.min_0_l, drop_0. generalize (toUpperCase text), (toUpperCase arg). intros t a.
  split.
  - intros [i Hi]. apply indexOf_aux_Some in Hi as [_ Hs]. rewrite Nat.sub_0_r in Hs.
    unfold startsWith in Hs. apply bool_decide_eq_true in Hs. exists (take i t), (drop (length a) (drop i t)).
    by rewrite <- Hs at 1; rewrite !take_drop.
  - intros (l & r & ->). destruct (indexOf_aux a (l ++ a ++ r) 0) eqn:E; [by eexists|exfalso].
    pose proof (indexOf_aux_None _ _ _ E (length l)) as Hn. rewrite drop_app_length in Hn. unfold startsWith in Hn.
    rewrite take_app_length in Hn. by rewrite bool_decide_true in Hn.
Qed.
End contains.
End Contains.
