(* ===== verification/Speedometer.v ===== *)
(** * The speedometer gauge, speedometer.js

    [addSpeedometer] builds a gauge beside a hidden input element: a style
    sheet, the indicator marks on the dial, the needle, the text in the
    centre; [changePosition] moves the needle and lights the marks when the
    input changes.  [Math.sin] and [Math.cos] are parameters, since the
    language leaves their results to the implementation. *)

From S2P Require Import Prelude JsString JsNum.
Local Open Scope Z_scope.

Module Speedometer.

(** ** Preferences *)

Abbreviation properties := (gmap string jsval).

(** Lines 8 to 31. *)
Definition defaultProperty : properties :=
  list_to_map [
    ("maxVal", num 180); ("divFact", num 10); ("dangerLevel", num 120);
    ("initDeg", num (-45)); ("maxDeg", num 270); ("edgeRadius", num 150);
    ("speedNobeH", num 4); ("speedoNobeW", num 95); ("speedoNobeL", num 13);
    ("indicatorRadius", num 125); ("indicatorNumbRadius", num 90);
    ("speedPositionTxtWH", num 80); ("nobW", num 20); ("nobH", num 4);
    ("numbW", num 30); ("numbH", num 16); ("midNobW", num 10); ("midNobH", num 3);
    ("noOfSmallDiv", num 2); ("eventListenerType", VStr (js "change"));
    ("multiplier", num 1); ("gagueLabel", VStr (js "km/h"))
  ]%string.

(** Lines 32 and 33: the caller's properties overwrite the defaults. *)
Definition set_preferences (userPref : list (string * jsval)) (p : properties) : properties :=
  foldl (λ p '(prop, v), <[prop := v]> p) p userPref.

Definition get (p : properties) (prop : string) : jsval := default VUndef (p !! prop).

(** Lines 35 to 42. *)
Definition noOfDev (p : properties) : jsval := js_div (get p "maxVal") (get p "divFact").
Definition divDeg (p : properties) : jsval := js_div (get p "maxDeg") (noOfDev p).
Definition speedoWH (p : properties) : jsval := js_mul (get p "edgeRadius") (num 2).
Definition speedNobeTop (p : properties) : jsval :=
  js_sub (get p "edgeRadius") (js_div (get p "speedNobeH") (num 2)).
Definition speedNobeAngle (p : properties) : jsval := get p "initDeg".
Definition speedPositionTxtTL (p : properties) : jsval :=
  js_sub (get p "edgeRadius") (js_div (get p "speedPositionTxtWH") (num 2)).

(** ** The style sheet, lines 47 to 87 *)

Definition px (name : string) (v : jsval) : jsstring := js name ++ toStr v ++ js "px;".
Definition rotate (name : string) (v : jsval) : jsstring :=
  js name ++ js "rotate(" ++ toStr v ++ js "deg)".
Definition rule (parentElemId : jsstring) (sel : string) (body : jsstring) : jsstring :=
  js "#" ++ parentElemId ++ js sel ++ js "{" ++ body ++ js "}".

Definition setCssProperty (p : properties) (parentElemId : jsstring) : jsstring :=
  js "<style>" ++
  rule parentElemId " .envelope" (px "width  :" (speedoWH p) ++ px "height :" (speedoWH p)) ++
  rule parentElemId " .speedNobe"
    (px "height            :" (get p "speedNobeH") ++
     px "top               :" (speedNobeTop p) ++
     rotate "transform         :" (speedNobeAngle p) ++ js ";" ++
     rotate "-webkit-transform :" (speedNobeAngle p) ++ js ";" ++
     rotate "-moz-transform    :" (speedNobeAngle p) ++ js ";" ++
     rotate "-o-transform      :" (speedNobeAngle p) ++ js ";") ++
  rule parentElemId " .speedPosition"
    (px "width  :" (get p "speedPositionTxtWH") ++ px "height :" (get p "speedPositionTxtWH") ++
     px "top  :" (speedPositionTxtTL p) ++ px "left :" (speedPositionTxtTL p)) ++
  rule parentElemId " .speedNobe div"
    (px "width  :" (get p "speedoNobeW") ++ px "left :" (get p "speedoNobeL")) ++
  rule parentElemId " .nob" (px "width  :" (get p "nobW") ++ px "height :" (get p "nobH")) ++
  rule parentElemId " .numb" (px "width  :" (get p "numbW") ++ px "height :" (get p "numbH")) ++
  rule parentElemId " .midNob"
    (px "width  :" (get p "midNobW") ++ px "height :" (get p "midNobH")) ++
  js "</style>".

(** ** The marks of the dial, lines 95 to 140 *)

(** A generated [div]: its class attribute, style attribute and text. *)
Record mark := Mark { m_class : jsstring; m_style : option jsstring; m_text : jsstring }.

Definition quoted (s : jsstring) : jsstring := c_quote :: s ++ [c_quote].
Definition html_of (m : mark) : jsstring :=
  js "<div class=" ++ quoted (m_class m) ++
  match m_style m with Some s => js " style=" ++ quoted s | None => [] end ++
  js ">" ++ m_text m ++ js "</div>".

Section dial.
Context (sin cos : double → double) (p : properties).

Definition rad (curDig : jsval) : double := dmul (toNumber (js "0.01746")) (toNum curDig).

(** [['transform...', ...].join(";")] *)
Definition tempDegInd (curDig : jsval) : jsstring :=
  rotate "transform         :" curDig ++ js ";" ++ rotate "-webkit-transform :" curDig ++
  js ";" ++ rotate "-o-transform      :" curDig ++ js ";" ++ rotate "-moz-transform    :" curDig.

Definition position (left top : jsval) : jsstring := px "left:" left ++ px "top:" top.

(** One turn of the loop, lines 97 to 133; [i] is the loop counter. *)
Definition indicator (i : nat) : list mark :=
  let iv := num (Z.of_nat i) in
  let curDig := js_add (get p "initDeg") (js_mul iv (divDeg p)) in
  let curIndVal := js_mul iv (get p "divFact") in
  let dangCls := if js_le (get p "dangerLevel") curIndVal then js "danger" else [] in
  let linesPosY := js_mul (get p "indicatorRadius") (VNum (cos (rad curDig))) in
  let linesPosX := js_mul (get p "indicatorRadius") (VNum (sin (rad curDig))) in
  let numbPosY := js_mul (get p "indicatorNumbRadius") (VNum (cos (rad curDig))) in
  let numbPosX := js_mul (get p "indicatorNumbRadius") (VNum (sin (rad curDig))) in
  let from_edge v d := js_sub (js_sub (get p "edgeRadius") v) d in
  if deq (toNum (js_mod iv (get p "noOfSmallDiv"))) (double_of_Z 0) then
    let left := from_edge linesPosX (num 2) in
    let top := from_edge linesPosY (num 10) in
    let nleft := from_edge numbPosX (js_div (get p "numbW") (num 2)) in
    let ntop := from_edge numbPosY (js_div (get p "numbH") (num 2)) in
    [Mark (js "nob " ++ dangCls) (Some (position top left ++ tempDegInd curDig)) [];
     Mark (js "numb " ++ dangCls) (Some (position ntop nleft)) (toStr curIndVal)]
  else
    let left := from_edge linesPosX (js_div (get p "midNobH") (num 2)) in
    let top := from_edge linesPosY (js_div (get p "midNobW") (num 2)) in
    [Mark (js "nob " ++ dangCls ++ js " midNob") (Some (position top left ++ tempDegInd curDig)) [];
     Mark (js "numb") None []].

(** The loop [for (i = 0; i <= noOfDev; i++)]: [None] when the fuel ends
    before the loop does, which it never does when [noOfDev] is infinite. *)
Fixpoint createIndicators_loop (fuel i : nat) (tempDiv : list mark) : option (list mark) :=
  match fuel with
  | O => None
  | S f => if js_le (num (Z.of_nat i)) (noOfDev p)
           then createIndicators_loop f (S i) (tempDiv ++ indicator i)
           else Some tempDiv
  end.

Definition createIndicators (fuel : nat) : option (list mark) := createIndicators_loop fuel 0 [].
End dial.

(** ** The gauge on the page *)

(** The classes a class attribute denotes. *)
Definition classes_of (s : jsstring) : list jsstring := filter (λ w, w ≠ []) (split_on 32 s).

(** The envelope holds the class lists of the marks in document order. *)
Record gauge := Gauge {
  g_style : jsstring;
  g_envelope : list (list jsstring);
  g_needle : option jsstring;
  g_centre : jsstring
}.

(** Lines 88 to 94 and 172. *)
Definition creatHtmlsElecments (sin cos : double → double) (p : properties) (fuel : nat)
    (id : jsstring) : option gauge :=
  let parentElemId := js "speedometerWraper-" ++ id in
  let style := setCssProperty p parentElemId in
  marks ← createIndicators sin cos p fuel;
  Some (Gauge style ((λ m, classes_of (m_class m)) <$> marks) None []).

Definition addSpeedometer (sin cos : double → double) (userPref : list (string * jsval))
    (fuel : nat) (id : jsstring) : option gauge :=
  creatHtmlsElecments sin cos (set_preferences userPref defaultProperty) fuel id.

(** ** Reacting to a new value, lines 141 to 171 *)

(** Lines 143 to 149. *)
Definition clamp_speed (p : properties) (val : jsval) : jsval :=
  let speed := if js_lt (get p "maxVal") val then get p "maxVal" else val in
  if js_lt speed (num 0) || is_nan (toNum speed) then num 0 else speed.

Definition has (c : string) (cs : list jsstring) : bool := bool_decide (js c ∈ cs).
Definition bright : jsstring := js "bright".

Definition add_bright (cs : list jsstring) : list jsstring :=
  if bool_decide (bright ∈ cs) then cs else cs ++ [bright].
Definition drop_bright (cs : list jsstring) : list jsstring := filter (λ c, c ≠ bright) cs.

(** [find(".envelope .c").eq(i).addClass("bright")]: nothing when there is no
    such mark. *)
Fixpoint eq_addBright (c : string) (i : nat) (env : list (list jsstring)) : list (list jsstring) :=
  match env with
  | [] => []
  | cs :: env' =>
      if has c cs then
        match i with
        | O => add_bright cs :: env'
        | S i' => cs :: eq_addBright c i' env'
        end
      else cs :: eq_addBright c i env'
  end.

(** Lines 165 and 166. *)
Definition light (i : nat) (env : list (list jsstring)) : list (list jsstring) :=
  eq_addBright "numb" i (eq_addBright "nob" i env).

(** Lines 163 to 170. *)
Fixpoint light_loop (p : properties) (speed : jsval) (fuel i : nat) (env : list (list jsstring)) :
    option (list (list jsstring)) :=
  match fuel with
  | O => None
  | S f =>
      if js_le (num (Z.of_nat i)) (noOfDev p) then
        if js_le (js_mul (num (Z.of_nat i)) (get p "divFact")) speed
        then light_loop p speed f (S i) (light i env)
        else Some env
      else Some env
  end.

Definition changePosition (p : properties) (fuel : nat) (val : jsval) (g : gauge) : option gauge :=
  let speed := clamp_speed p val in
  let speedInDeg :=
    js_add (js_mul (js_div (get p "maxDeg") (get p "maxVal")) speed) (get p "initDeg") in
  let needle := rotate "" speedInDeg in
  let centerVal := js_mul speed (get p "multiplier") in
  let centre := toStr centerVal ++ js "<br />" ++ toStr (get p "gagueLabel") in
  let env := (λ cs, if has "nob" cs || has "numb" cs then drop_bright cs else cs) <$> g_envelope g in
  env ← light_loop p speed fuel 0 env;
  Some (Gauge (g_style g) env (Some needle) centre).

(** ** The clamped reading *)

Lemma toNum_num z : toNum (num z) = double_of_Z z.
Proof. done. Qed.

(** The reading the gauge uses is a number between 0 and [maxVal],
    whatever the input holds (a number beyond the scale, a negative one, text
    that is not a number): for every numeric [maxVal] that is not negative. *)
Theorem clamp_speed_range p m val :
  get p "maxVal" = VNum m → dle (double_of_Z 0) m = true →
  dle (double_of_Z 0) (toNum (clamp_speed p val)) = true ∧
  dle (toNum (clamp_speed p val)) m = true.
Proof.
  intros Hm H0. unfold clamp_speed. rewrite Hm.
  destruct (dle_not_nan _ _ H0) as [Hz Hn].
  assert (Hmm : dle m m = true).
  { destruct (SFcompare_total m m Hn Hn) as [c Hc]. rewrite dle_spec. exists c. split; [done|].
    intros ->. pose proof (SFcompare_opp m m) as Ho. by rewrite Hc in Ho. }
  assert (Hlt : ∀ d, js_lt (VNum d) (num 0) = dlt d (double_of_Z 0)) by done.
  destruct (js_lt (VNum m) val) eqn:E; cbv beta zeta.
  - rewrite Hlt, (dlt_dle m) by done. cbn [toNum]. by rewrite H0, Hn.
  - assert (E' : dlt m (toNum val) = false) by (destruct val; exact E).
    assert (Hv : js_lt val (num 0) = dlt (toNum val) (double_of_Z 0)) by (by destruct val).
    rewrite Hv. destruct (is_nan (toNum val)) eqn:En.
    + rewrite orb_true_r. done.
    + rewrite (dlt_dle (toNum val)), orb_false_r by done.
      rewrite (dlt_dle m), negb_false_iff in E' by done.
      destruct (dle (double_of_Z 0) (toNum val)) eqn:E2; simpl; done.
Qed.

Lemma clamp_speed_range_witness :
  get defaultProperty "maxVal" = num 180 ∧
  dle (toNum (clamp_speed defaultProperty (VStr (js "1e9")))) (double_of_Z 180) = true.
Proof.
  split; [reflexivity|].
  apply (clamp_speed_range defaultProperty (double_of_Z 180) (VStr (js "1e9")));
    vm_compute; reflexivity.
Defined.

(** ** The lit marks of the default gauge *)

(** The marks of a gauge with the default preferences: 19 divisions, every
    second one with a number, the last seven in the danger zone. *)
Definition dial_classes (i : nat) : list (list jsstring) :=
  let danger := if (12 <=? i)%nat then [js "danger"] else [] in
  if Nat.even i then [js "nob" :: danger; js "numb" :: danger]
  else [js "nob" :: danger ++ [js "midNob"]; [js "numb"]].
Definition default_dial : list (list jsstring) := mjoin (dial_classes <$> seq 0 19).

Lemma default_dial_created sin cos fuel id :
  (20 ≤ fuel)%nat →
  g_envelope <$> addSpeedometer sin cos [] fuel id = Some default_dial.
Proof.
  intros Hf. replace fuel with (20 + (fuel - 20))%nat by lia. generalize (fuel - 20)%nat. intros f.
  vm_compute. reflexivity.
Qed.

(** The loop lights a prefix of the marks. *)
Definition lit (p : properties) (speed : jsval) (i : nat) : bool :=
  js_le (num (Z.of_nat i)) (noOfDev p) &&
  js_le (js_mul (num (Z.of_nat i)) (get p "divFact")) speed.

Lemma light_loop_prefix p speed k fuel i env :
  (∀ j, (i ≤ j < i + k)%nat → lit p speed j = true) → lit p speed (i + k) = false →
  (k < fuel)%nat →
  light_loop p speed fuel i env = Some (foldl (λ env j, light j env) env (seq i k)).
Proof.
  revert fuel i env; induction k as [|k IH]; intros fuel i env Ht Hf Hlt;
    (destruct fuel as [|fuel]; [lia|]); cbn [light_loop seq foldl].
  - rewrite Nat.add_0_r in Hf. apply andb_false_iff in Hf.
    destruct (js_le (num (Z.of_nat i)) (noOfDev p)); destruct Hf as [Hf|Hf]; rewrite ?Hf; done.
  - pose proof (Ht i ltac:(lia)) as [H1 H2]%andb_true_iff. rewrite H1, H2.
    apply IH; [|by rewrite Nat.add_succ_comm|lia]. intros j Hj. apply Ht. lia.
Qed.

(** On the default scale the lit marks are downward closed and end before the
    twentieth. *)
Lemma lit_default_step speed j :
  (S j < 19)%nat →
  lit defaultProperty speed (S j) = true → lit defaultProperty speed j = true.
Proof.
  unfold lit. intros Hj [_ H2]%andb_true_iff.
  assert (Hl : ∀ s, js_le (js_mul (num (Z.of_nat s)) (get defaultProperty "divFact")) speed =
            dle (dmul (double_of_Z (Z.of_nat s)) (double_of_Z 10)) (toNum speed)) by (by destruct speed).
  rewrite Hl in *.
  assert (dle (dmul (double_of_Z (Z.of_nat j)) (double_of_Z 10))
           (dmul (double_of_Z (Z.of_nat (S j))) (double_of_Z 10)) = true
          ∧ js_le (num (Z.of_nat j)) (noOfDev defaultProperty) = true) as [Hs Hn].
  { clear - Hj. do 18 (destruct j as [|j]; [vm_compute; done|]). lia. }
  rewrite Hn. simpl. eapply dle_trans; eassumption.
Qed.

Lemma lit_default_down speed i j :
  (j ≤ i < 19)%nat → lit defaultProperty speed i = true → lit defaultProperty speed j = true.
Proof.
  revert j; induction i as [|i IH]; intros j Hj H; [by replace j with O by lia|].
  destruct (decide (j = S i)) as [->|]; [done|].
  apply IH; [lia|]. by apply lit_default_step; [lia|].
Qed.

Lemma lit_default_prefix speed n :
  (n ≤ 19)%nat → ∃ k, (k ≤ n)%nat ∧ ∀ j, (j < n)%nat → lit defaultProperty speed j = (j <? k)%nat.
Proof.
  induction n as [|n IH]; intros Hn; [exists O; split; intros; lia|].
  destruct IH as (k & Hk & Hj); [lia|].
  destruct (lit defaultProperty speed n) eqn:E.
  - exists (S n). split; [done|]. intros j Hlt. rewrite (proj2 (Nat.ltb_lt _ _)) by lia.
    eapply lit_default_down; [|exact E]. lia.
  - exists k. split; [lia|]. intros j Hlt. destruct (decide (j = n)) as [->|]; [|apply Hj; lia].
    by rewrite E, (proj2 (Nat.ltb_ge _ _)) by lia.
Qed.

(** The marks without their lighting do not change. *)
Lemma drop_add_bright cs : drop_bright (add_bright cs) = drop_bright cs.
Proof.
  unfold add_bright, drop_bright. case_bool_decide; [done|].
  rewrite filter_app. rewrite (filter_cons_False _ bright []) by auto. apply app_nil_r.
Qed.

Lemma drop_eq_addBright c i env :
  drop_bright <$> eq_addBright c i env = drop_bright <$> env.
Proof.
  revert i; induction env as [|cs env IH]; intros i; [done|].
  cbn [eq_addBright]. destruct (has c cs); [destruct i|]; rewrite !fmap_cons, ?IH, ?drop_add_bright; done.
Qed.

Lemma drop_lights env js :
  drop_bright <$> foldl (λ env j, light j env) env js = drop_bright <$> env.
Proof.
  revert env; induction js as [|j js IH]; intros env; [done|]. cbn [foldl]. rewrite IH.
  unfold light. by rewrite !drop_eq_addBright.
Qed.

Lemma has_drop_bright c cs : js c ≠ bright → has c (drop_bright cs) = has c cs.
Proof. intros Hc. unfold has, drop_bright. apply bool_decide_ext. rewrite list_elem_of_filter. naive_solver. Qed.

(** Darkening a dial that is the default one up to its lighting. *)
Lemma darken_dial env :
  drop_bright <$> env = default_dial →
  (λ cs, if has "nob" cs || has "numb" cs then drop_bright cs else cs) <$> env = default_dial.
Proof.
  intros He. rewrite <- He. apply list_fmap_ext. intros i cs Hi.
  assert (Hd : default_dial !! i = Some (drop_bright cs)) by (by rewrite <- He, list_lookup_fmap, Hi).
  assert (Hall : Forall (λ cs, has "nob" cs || has "numb" cs = true) default_dial) by by_evaluation.
  rewrite Forall_lookup in Hall. specialize (Hall _ _ Hd).
  rewrite !has_drop_bright in Hall by by_evaluation. by rewrite Hall.
Qed.

(** Is the [i]-th mark of kind [c] lit? *)
Definition bright_at (c : string) (i : nat) (env : list (list jsstring)) : bool :=
  match filter (λ cs, has c cs) env !! i with
  | Some cs => bool_decide (bright ∈ cs)
  | None => false
  end.

Definition light_first (k : nat) (env : list (list jsstring)) : list (list jsstring) :=
  foldl (λ env j, light j env) env (seq 0 k).

Lemma bright_prefix k i :
  (k ≤ 19)%nat → (i < 19)%nat →
  bright_at "nob" i (light_first k default_dial) = (i <? k)%nat ∧
  bright_at "numb" i (light_first k default_dial) = (i <? k)%nat.
Proof.
  intros Hk Hi.
  assert (H : Forall (λ k, Forall (λ i,
    bright_at "nob" i (light_first k default_dial) = (i <? k)%nat ∧
    bright_at "numb" i (light_first k default_dial) = (i <? k)%nat) (seq 0 19)) (seq 0 20))
    by by_evaluation.
  rewrite Forall_forall in H. specialize (H k ltac:(apply elem_of_seq; lia)).
  rewrite Forall_forall in H. exact (H i ltac:(apply elem_of_seq; lia)).
Qed.

(** ** Every reading *)

Lemma changePosition_default fuel val g :
  (20 ≤ fuel)%nat → drop_bright <$> g_envelope g = default_dial →
  ∃ g', changePosition defaultProperty fuel val g = Some g' ∧
    drop_bright <$> g_envelope g' = default_dial ∧
    ∀ i, (i < 19)%nat →
      bright_at "nob" i (g_envelope g') = lit defaultProperty (clamp_speed defaultProperty val) i ∧
      bright_at "numb" i (g_envelope g') = lit defaultProperty (clamp_speed defaultProperty val) i.
Proof.
  intros Hf Hg. unfold changePosition. rewrite darken_dial by done.
  set (speed := clamp_speed defaultProperty val).
  destruct (lit_default_prefix speed 19 ltac:(lia)) as (k & Hk & Hl).
  assert (H19 : lit defaultProperty speed 19 = false) by (unfold lit; apply andb_false_intro1; by vm_compute).
  assert (Hkf : lit defaultProperty speed k = false).
  { destruct (decide (k = 19%nat)) as [->|]; [done|]. rewrite Hl by lia. apply Nat.ltb_irrefl. }
  rewrite (light_loop_prefix _ _ k); [|intros j Hj; rewrite Hl by lia; apply Nat.ltb_lt; lia|done|lia].
  fold (light_first k default_dial).
  eexists. split; [reflexivity|]. cbn [g_envelope]. split; [unfold light_first; rewrite drop_lights; by_evaluation|].
  intros i Hi. rewrite (Hl i Hi). by apply bright_prefix.
Qed.

Definition feed (p : properties) (fuel : nat) (vals : list jsval) (g : gauge) : option gauge :=
  foldl (λ og v, g ← og; changePosition p fuel v g) (Some g) vals.

Lemma feed_default vals fuel g :
  (20 ≤ fuel)%nat → drop_bright <$> g_envelope g = default_dial →
  ∃ g', feed defaultProperty fuel vals g = Some g' ∧ drop_bright <$> g_envelope g' = default_dial.
Proof.
  intros Hf. revert g; induction vals as [|v vals IH]; intros g Hd; [by exists g|].
  destruct (changePosition_default fuel v g Hf Hd) as (g1 & Hc & Hd1 & _).
  destruct (IH g1 Hd1) as (g2 & Hf2 & Hd2). exists g2. split; [|done].
  unfold feed in *. cbn [foldl mbind option_bind]. by rewrite Hc.
Qed.

(** What a fresh gauge shows after some readings depends on the last one. *)
Lemma feed_last sin cos id vals val :
  ∃ g g', addSpeedometer sin cos [] 20 id = Some g ∧
    feed defaultProperty 20 (vals ++ [val]) g = Some g' ∧
    ∀ i, (i < 19)%nat →
      bright_at "nob" i (g_envelope g') =
        js_le (js_mul (num (Z.of_nat i)) (num 10)) (clamp_speed defaultProperty val) ∧
      bright_at "numb" i (g_envelope g') = bright_at "nob" i (g_envelope g').
Proof.
  pose proof (default_dial_created sin cos 20 id ltac:(lia)) as Hg.
  destruct (addSpeedometer sin cos [] 20 id) as [g|]; [|done]. injection Hg as Hg.
  assert (Hd : drop_bright <$> g_envelope g = default_dial) by (rewrite Hg; by_evaluation).
  clear Hg. exists g. unfold feed. rewrite foldl_app. cbn [foldl].
  destruct (feed_default vals 20 g ltac:(lia) Hd) as (g1 & Hf1 & Hd1). unfold feed in Hf1. rewrite Hf1.
  destruct (changePosition_default 20 val g1 ltac:(lia) Hd1) as (g2 & Hc & _ & Hl).
  exists g2. split_and!; [done|done|]. intros i Hi. destruct (Hl i Hi) as [-> ->]. split; [|done].
  unfold lit. replace (js_le (num (Z.of_nat i)) (noOfDev defaultProperty)) with true; [done|].
  clear - Hi. do 19 (destruct i as [|i]; [by vm_compute|]). lia.
Qed.

End Speedometer.
