(* ===== verification/Json.v ===== *)
(** * JSON.parse and JSON.stringify

    The values JSON texts denote, the serialiser without spacing and the
    parser, as the language defines them, with the round trip the message
    exchange relies on. *)

From Stdlib Require Import SpecFloat.
From S2P Require Import Prelude JsString JsNum.
Local Open Scope Z_scope.

Inductive json :=
  | JNull
  | JBool (b : bool)
  | JNum (d : double)
  | JStr (s : jsstring)
  | JArr (l : list json)
  | JObj (l : list (jsstring * json)).

(** Induction that reaches the members of arrays and objects. *)
Section json_induction.
Context (P : json → Prop).
Context (HNull : P JNull) (HBool : ∀ b, P (JBool b)) (HNum : ∀ d, P (JNum d)).
Context (HStr : ∀ s, P (JStr s)).
Context (HArr : ∀ l, Forall P l → P (JArr l)).
Context (HObj : ∀ l, Forall (λ kv, P kv.2) l → P (JObj l)).

Fixpoint json_nested_ind (v : json) : P v :=
  match v with
  | JNull => HNull
  | JBool b => HBool b
  | JNum d => HNum d
  | JStr s => HStr s
  | JArr l => HArr l ((fix go l : Forall P l :=
      match l with
      | [] => Forall_nil_2 P
      | x :: l' => Forall_cons_2 P x l' (json_nested_ind x) (go l')
      end) l)
  | JObj l => HObj l ((fix go l : Forall (λ kv, P kv.2) l :=
      match l with
      | [] => Forall_nil_2 _
      | x :: l' => Forall_cons_2 _ x l' (json_nested_ind x.2) (go l')
      end) l)
  end.
End json_induction.

(** ** Serialising *)

Definition hex_digit (n : Z) : Z := if n <? 10 then 48 + n else 87 + n.
Definition unicode_escape (c : Z) : jsstring :=
  [92; 117; hex_digit (c / 4096); hex_digit (c / 256 mod 16); hex_digit (c / 16 mod 16);
   hex_digit (c mod 16)].

Definition is_high (c : Z) : bool := (55296 <=? c) && (c <=? 56319).
Definition is_low (c : Z) : bool := (56320 <=? c) && (c <=? 57343).

Definition quote_unit (c : Z) : jsstring :=
  if c =? 8 then [92; 98]
  else if c =? 9 then [92; 116]
  else if c =? 10 then [92; 110]
  else if c =? 12 then [92; 102]
  else if c =? 13 then [92; 114]
  else if c =? 34 then [92; 34]
  else if c =? 92 then [92; 92]
  else if c <? 32 then unicode_escape c
  else [c].

(** A surrogate without its partner is escaped. *)
Fixpoint quote_units (s : jsstring) : jsstring :=
  match s with
  | [] => []
  | c :: s' =>
      if is_high c then
        match s' with
        | d :: s'' => if is_low d then c :: d :: quote_units s'' else unicode_escape c ++ quote_units s'
        | [] => unicode_escape c
        end
      else if is_low c then unicode_escape c ++ quote_units s'
      else quote_unit c ++ quote_units s'
  end.
Definition quote_json (s : jsstring) : jsstring := c_quote :: quote_units s ++ [c_quote].

Definition is_finite (d : double) : bool :=
  match d with S754_zero _ | S754_finite _ _ _ => true | _ => false end.

Fixpoint stringify (v : json) : jsstring :=
  match v with
  | JNull => js "null"
  | JBool b => if b then js "true" else js "false"
  | JNum d => if is_finite d then js_of_double d else js "null"
  | JStr s => quote_json s
  | JArr l => js "[" ++ join_with 44 (stringify <$> l) ++ js "]"
  | JObj l => c_lbrace ::
      join_with 44 ((λ kv, quote_json kv.1 ++ 58 :: stringify kv.2) <$> l) ++ [c_rbrace]
  end.

(** ** Parsing *)

Definition is_ws (c : Z) : bool := (c =? 32) || (c =? 9) || (c =? 10) || (c =? 13).
Fixpoint skip_ws (s : jsstring) : jsstring :=
  match s with c :: s' => if is_ws c then skip_ws s' else s | [] => [] end.

Definition hex_val (c : Z) : option Z :=
  if is_digit c then Some (c - 48)
  else if (97 <=? c) && (c <=? 102) then Some (c - 87)
  else if (65 <=? c) && (c <=? 70) then Some (c - 55)
  else None.

(** The characters of a string up to its closing quote. *)
Fixpoint parse_units (s : jsstring) : option (jsstring * jsstring) :=
  match s with
  | [] => None
  | c :: s' =>
      if c =? 34 then Some ([], s')
      else if c <? 32 then None
      else if c =? 92 then
        match s' with
        | [] => None
        | e :: t =>
            let char x := '(u, r) ← parse_units t; Some (x :: u, r) in
            if e =? 34 then char 34 else if e =? 92 then char 92 else if e =? 47 then char 47
            else if e =? 98 then char 8 else if e =? 102 then char 12
            else if e =? 110 then char 10 else if e =? 114 then char 13
            else if e =? 116 then char 9
            else if e =? 117 then
              match t with
              | a :: b :: x :: y :: t' =>
                  a ← hex_val a; b ← hex_val b; x ← hex_val x; y ← hex_val y;
                  '(u, r) ← parse_units t';
                  Some (4096 * a + 256 * b + 16 * x + y :: u, r)
              | _ => None
              end
            else None
        end
      else '(u, r) ← parse_units s'; Some (c :: u, r)
  end.

(** Numbers: the longest run of number characters, which must be a number of
    the JSON grammar. *)
Definition number_char (c : Z) : bool :=
  is_digit c || (c =? 43) || (c =? 45) || (c =? 46) || (c =? 69) || (c =? 101).
Fixpoint span (f : Z → bool) (s : jsstring) : jsstring * jsstring :=
  match s with
  | c :: s' => if f c then let '(a, b) := span f s' in (c :: a, b) else ([], s)
  | [] => ([], [])
  end.

Definition exponent_ok (s : jsstring) : bool :=
  match s with
  | [] => true
  | c :: s' =>
      ((c =? 69) || (c =? 101)) &&
      let ds := match s' with
                | d :: t => if (d =? 43) || (d =? 45) then t else s'
                | [] => []
                end in
      match ds with [] => false | _ => forallb is_digit ds end
  end.
Definition valid_number (s : jsstring) : bool :=
  let s := match s with c :: t => if c =? 45 then t else s | [] => [] end in
  let '(ip, rest) := span is_digit s in
  match ip with
  | [] => false
  | c :: ip' => negb (c =? 48) || bool_decide (ip' = [])
  end &&
  match rest with
  | 46 :: t => let '(fr, rest) := span is_digit t in
               match fr with [] => false | _ => exponent_ok rest end
  | _ => exponent_ok rest
  end.
Definition parse_number (s : jsstring) : option (json * jsstring) :=
  let '(t, rest) := span number_char s in
  if valid_number t then Some (JNum (toNumber t), rest) else None.

Definition expect (w : jsstring) (v : json) (s : jsstring) : option (json * jsstring) :=
  if startsWith s w then Some (v, drop (length w) s) else None.

(** A repeated key overwrites the earlier value. *)
Fixpoint set_member (k : jsstring) (v : json) (l : list (jsstring * json)) : list (jsstring * json) :=
  match l with
  | [] => [(k, v)]
  | (k', v') :: l' => if bool_decide (k = k') then (k, v) :: l' else (k', v') :: set_member k v l'
  end.

Fixpoint parse_value (fuel : nat) (s : jsstring) : option (json * jsstring) :=
  match fuel with
  | O => None
  | S f =>
      match skip_ws s with
      | [] => None
      | c :: t =>
          if c =? 110 then expect (js "null") JNull (c :: t)
          else if c =? 116 then expect (js "true") (JBool true) (c :: t)
          else if c =? 102 then expect (js "false") (JBool false) (c :: t)
          else if c =? 34 then '(u, r) ← parse_units t; Some (JStr u, r)
          else if c =? 91 then
            match skip_ws t with
            | 93 :: r => Some (JArr [], r)
            | t' => '(l, r) ← parse_elems f t'; Some (JArr l, r)
            end
          else if c =? 123 then
            match skip_ws t with
            | 125 :: r => Some (JObj [], r)
            | t' => '(l, r) ← parse_members f [] t'; Some (JObj l, r)
            end
          else parse_number (c :: t)
      end
  end
with parse_elems (fuel : nat) (s : jsstring) : option (list json * jsstring) :=
  match fuel with
  | O => None
  | S f =>
      '(v, r) ← parse_value f s;
      match skip_ws r with
      | 44 :: r' => '(l, r'') ← parse_elems f r'; Some (v :: l, r'')
      | 93 :: r' => Some ([v], r')
      | _ => None
      end
  end
with parse_members (fuel : nat) (acc : list (jsstring * json)) (s : jsstring) :
    option (list (jsstring * json) * jsstring) :=
  match fuel with
  | O => None
  | S f =>
      match skip_ws s with
      | 34 :: t =>
          '(k, r) ← parse_units t;
          match skip_ws r with
          | 58 :: r' =>
              '(v, r'') ← parse_value f r';
              let acc := set_member k v acc in
              match skip_ws r'' with
              | 44 :: r3 => parse_members f acc r3
              | 125 :: r3 => Some (acc, r3)
              | _ => None
              end
          | _ => None
          end
      | _ => None
      end
  end.

(** [JSON.parse]: [None] is the SyntaxError. *)
Definition parse (s : jsstring) : option json :=
  '(v, r) ← parse_value (S (2 * length s)) s;
  match skip_ws r with [] => Some v | _ => None end.

Example parse_ex : parse (js " {'a': [1, -2.5e1, true], 'b' : null}"
    ≫= λ c, [if c =? 39 then 34 else c]) =
  Some (JObj [(js "a", JArr [JNum (double_of_Z 1); JNum (double_of_Z (-25)); JBool true]);
              (js "b", JNull)]).
Proof. vm_compute. reflexivity. Qed.

Example stringify_ex : parse (stringify (JObj [(js "k", JStr [34; 92; 10; 1; 55296; 233; 55296; 56320])]))
  = Some (JObj [(js "k", JStr [34; 92; 10; 1; 55296; 233; 55296; 56320])]).
Proof. vm_compute. reflexivity. Qed.

(** ** Strings survive the round trip *)

(** Prepend a unit to a parsed string. *)
Definition prepend (c : Z) (o : option (jsstring * jsstring)) : option (jsstring * jsstring) :=
  '(u, r) ← o; Some (c :: u, r).

Lemma hex_val_digit n : 0 ≤ n < 16 → hex_val (hex_digit n) = Some n.
Proof. intros Hn. check_range n 16. Qed.

Lemma parse_unicode_escape c t :
  is_unit c → parse_units (unicode_escape c ++ t) = prepend c (parse_units t).
Proof.
  unfold is_unit. intros Hc. unfold unicode_escape. cbn [app parse_units Z.eqb Z.ltb Z.compare Pos.compare Pos.compare_cont Pos.eqb].
  rewrite (hex_val_digit (c / 4096)) by euclid. rewrite (hex_val_digit (c / 256 mod 16)) by euclid.
  rewrite (hex_val_digit (c / 16 mod 16)) by euclid. rewrite (hex_val_digit (c mod 16)) by euclid.
  cbn [mbind option_bind]. unfold prepend. destruct (parse_units t) as [[u r]|]; [|done].
  cbn [mbind option_bind]. do 3 f_equal. euclid.
Qed.

Lemma parse_plain c t :
  32 ≤ c → c ≠ 34 → c ≠ 92 → parse_units (c :: t) = prepend c (parse_units t).
Proof.
  intros H1 H2 H3. cbn [parse_units].
  rewrite (proj2 (Z.eqb_neq _ _) H2), (proj2 (Z.eqb_neq _ _) H3), (proj2 (Z.ltb_ge _ _) H1). done.
Qed.

Lemma parse_quote_unit c t :
  is_unit c → parse_units (quote_unit c ++ t) = prepend c (parse_units t).
Proof.
  unfold quote_unit. intros Hc.
  repeat (case_branch; [match goal with H : (_ =? _) = true |- _ => apply Z.eqb_eq in H; subst; reflexivity end|]).
  destruct (c <? 32) eqn:E.
  - by apply parse_unicode_escape.
  - cbn [app]. apply parse_plain; [by apply Z.ltb_ge|..]; by apply Z.eqb_neq.
Qed.

Lemma parse_quote_units s rest :
  Forall is_unit s → parse_units (quote_units s ++ c_quote :: rest) = Some (s, rest).
Proof.
  remember (length s) as n eqn:Hn. revert s Hn.
  induction (lt_wf n) as [n _ IH]; intros s -> Hs. destruct s as [|c s]; [done|].
  inversion Hs as [|?? Hc Hs']; subst. cbn [quote_units].
  assert (Hrec : parse_units (quote_units s ++ c_quote :: rest) = Some (s, rest))
    by (apply (IH (length s)); simpl; auto with lia).
  destruct (is_high c) eqn:Eh; [destruct s as [|d s]|destruct (is_low c) eqn:El].
  - rewrite parse_unicode_escape by done. reflexivity.
  - inversion Hs'; subst. destruct (is_low d) eqn:El; rewrite <- ?app_assoc.
    + unfold is_high, is_low in *. apply andb_true_iff in Eh, El. cbn [app].
      rewrite !parse_plain by lia. rewrite (IH (length s)) by (simpl; auto with lia). done.
    + rewrite parse_unicode_escape by done. by rewrite Hrec.
  - rewrite <- app_assoc, parse_unicode_escape by done. by rewrite Hrec.
  - rewrite <- app_assoc, parse_quote_unit by done. by rewrite Hrec.
Qed.

(** ** Values survive the round trip *)

(** A number whose printed form is a JSON number that reads back as itself. *)
Definition prints_back (d : double) : bool :=
  is_finite d &&
  let t := js_of_double d in
  match t with c :: _ => (c =? 45) || is_digit c | [] => false end &&
  forallb number_char t && valid_number t && bool_decide (toNumber t = d).

Fixpoint printable (v : json) : bool :=
  match v with
  | JNull | JBool _ => true
  | JNum d => prints_back d
  | JStr s => bool_decide (Forall is_unit s)
  | JArr l => forallb printable l
  | JObj l => forallb (λ kv, bool_decide (Forall is_unit kv.1) && printable kv.2) l &&
              bool_decide (NoDup l.*1)
  end.

(** The calls parsing a value makes, one below the other. *)
Fixpoint weight (v : json) : nat :=
  match v with
  | JArr l => S (S (foldr (λ x n, S (weight x) + n) 0 l))
  | JObj l => S (S (foldr (λ x n, S (weight x.2) + n) 0 l))
  | _ => 1
  end%nat.
Definition weights (l : list json) : nat := foldr (λ x n, S (weight x) + n)%nat 0%nat l.

Definition stops (rest : jsstring) : Prop :=
  match rest with [] => True | c :: _ => number_char c = false end.

Lemma span_exact f t rest :
  forallb f t = true → match rest with [] => True | c :: _ => f c = false end →
  span f (t ++ rest) = (t, rest).
Proof.
  intros Ht Hr. induction t as [|c t IH]; simpl in *.
  - destruct rest; [done|]. simpl. by rewrite Hr.
  - apply andb_true_iff in Ht as [-> Ht]. by rewrite IH.
Qed.

(** The first unit of a printed value. *)
Definition value_head (c : Z) : bool :=
  (c =? 110) || (c =? 116) || (c =? 102) || (c =? 34) || (c =? 91) || (c =? 123) || (c =? 45) || is_digit c.

Lemma value_head_facts c : value_head c = true → is_ws c = false ∧ c ≠ 93 ∧ c ≠ 125.
Proof.
  unfold value_head, is_ws, is_digit. rewrite !orb_true_iff, andb_true_iff, !Z.eqb_eq, !Z.leb_le, !orb_false_iff, !Z.eqb_neq.
  lia.
Qed.

Lemma prints_back_spec d :
  prints_back d = true →
  is_finite d = true ∧ forallb number_char (js_of_double d) = true ∧
  valid_number (js_of_double d) = true ∧ toNumber (js_of_double d) = d ∧
  ∃ c t, js_of_double d = c :: t ∧ ((c =? 45) || is_digit c) = true.
Proof.
  unfold prints_back. rewrite !andb_true_iff, bool_decide_eq_true.
  intros (Hf & (((Hh & Hn) & Hv) & Ht)). destruct (js_of_double d) as [|c t] eqn:E; [done|].
  split_and!; try done. by exists c, t.
Qed.

Lemma stringify_head v :
  printable v = true → ∃ c t, stringify v = c :: t ∧ value_head c = true.
Proof.
  destruct v as [|[]|d|s|l|l]; intros Hp; cbn [stringify]; try (by do 2 eexists).
  apply prints_back_spec in Hp as (-> & _ & _ & _ & c & t & -> & Hc).
  exists c, t. split; [done|]. unfold value_head.
  apply orb_true_iff in Hc as [->| ->]; by rewrite ?orb_true_r.
Qed.

Lemma skip_ws_head c t : is_ws c = false → skip_ws (c :: t) = c :: t.
Proof. intros H. simpl. by rewrite H. Qed.

(** The round trip of the value [v], for every fuel that suffices. *)
Definition reads_back (v : json) : Prop :=
  ∀ fuel rest, (weight v ≤ fuel)%nat → stops rest →
    parse_value fuel (stringify v ++ rest) = Some (v, rest).

Lemma reads_back_num d : prints_back d = true → reads_back (JNum d).
Proof.
  intros (Hf & Hn & Hv & Ht & c & t & E & Hc)%prints_back_spec fuel rest Hw Hs.
  destruct fuel as [|f]; [simpl in Hw; lia|]. cbn [stringify]. rewrite Hf.
  assert (Hh : c = 45 ∨ 48 ≤ c ≤ 57).
  { apply orb_true_iff in Hc as [?%Z.eqb_eq|?%is_digit_range]; auto. }
  assert (Hp : parse_number (js_of_double d ++ rest) = Some (JNum d, rest)).
  { unfold parse_number. rewrite span_exact by done. by rewrite Hv, Ht. }
  rewrite E in *. cbn [app] in *. cbn [parse_value]. rewrite skip_ws_head by (unfold is_ws; lia).
  repeat match goal with |- context [c =? ?n] => rewrite (proj2 (Z.eqb_neq c n)) by lia end.
  exact Hp.
Qed.

Lemma join_with_cons sep w ws : ws ≠ [] → join_with sep (w :: ws) = w ++ sep :: join_with sep ws.
Proof. by destruct ws. Qed.

Lemma parse_elems_reads l fuel rest :
  l ≠ [] → Forall reads_back l → (weights l ≤ fuel)%nat →
  parse_elems fuel (join_with 44 (stringify <$> l) ++ 93 :: rest) = Some (l, rest).
Proof.
  revert fuel; induction l as [|v l IH]; intros fuel Hne Hl Hw; [done|].
  inversion Hl as [|?? Hv Hl']; subst. cbn [weights foldr] in Hw. fold (weights l) in Hw.
  destruct fuel as [|f]; [lia|]. destruct l as [|v' l].
  - cbn [fmap list_fmap join_with parse_elems].
    rewrite Hv; [reflexivity|lia|reflexivity].
  - change (stringify <$> v :: v' :: l) with (stringify v :: (stringify <$> v' :: l)).
    rewrite join_with_cons, <- app_assoc, <- app_comm_cons by done. cbn [parse_elems].
    rewrite Hv; [|lia|reflexivity]. cbn [mbind option_bind skip_ws is_ws Z.eqb Pos.eqb orb].
    rewrite IH by (done || lia). done.
Qed.

Lemma set_member_fresh k v l : k ∉ l.*1 → set_member k v l = l ++ [(k, v)].
Proof.
  induction l as [|[k' v'] l IH]; intros Hk; [done|]. simpl in *.
  rewrite bool_decide_false by set_solver. rewrite IH by set_solver. done.
Qed.

Abbreviation member_text := (λ kv : jsstring * json, quote_json kv.1 ++ 58 :: stringify kv.2).

Lemma parse_members_reads l fuel acc rest :
  l ≠ [] → Forall (λ kv, reads_back kv.2) l → Forall (λ kv, Forall is_unit kv.1) l →
  NoDup (acc.*1 ++ l.*1) → (weights l.*2 ≤ fuel)%nat →
  parse_members fuel acc (join_with 44 (member_text <$> l) ++ c_rbrace :: rest) = Some (acc ++ l, rest).
Proof.
  revert fuel acc; induction l as [|[k v] l IH]; intros fuel acc Hne Hl Hu Hd Hw; [done|].
  inversion Hl as [|?? Hv Hl']; inversion Hu as [|?? Hk Hu']; subst. cbn [fst snd] in *.
  cbn [fmap list_fmap weights foldr snd fst] in Hw. fold (weights l.*2) in Hw.
  destruct fuel as [|f]; [lia|].
  assert (Hfresh : k ∉ acc.*1).
  { apply NoDup_app in Hd as (_ & Hd & _). intros Hin. apply (Hd k Hin). simpl. set_solver. }
  assert (Hstep : ∀ r, stops r → parse_members (S f) acc (member_text (k, v) ++ r) =
    match skip_ws r with
    | 44 :: r3 => parse_members f (acc ++ [(k, v)]) r3
    | 125 :: r3 => Some (acc ++ [(k, v)], r3)
    | _ => None
    end).
  { intros r Hr. cbn [fst snd]. unfold quote_json. rewrite <- !app_comm_cons, <- !app_assoc.
    cbn [parse_members skip_ws]. change (is_ws c_quote) with false. cbn [c_quote app].
    rewrite parse_quote_units by done. cbn [mbind option_bind skip_ws is_ws Z.eqb Pos.eqb orb].
    rewrite Hv by (done || lia). cbn [mbind option_bind]. by rewrite set_member_fresh. }
  destruct l as [|kv' l].
  - cbn [fmap list_fmap join_with]. rewrite Hstep by done. done.
  - change (member_text <$> (k, v) :: kv' :: l) with (member_text (k, v) :: (member_text <$> kv' :: l)).
    rewrite join_with_cons, <- app_assoc, <- app_comm_cons by done. rewrite Hstep by done.
    cbn [skip_ws is_ws Z.eqb Pos.eqb orb]. rewrite IH; try (done || lia).
    + by rewrite <- app_assoc.
    + rewrite fmap_app, <- app_assoc. exact Hd.
Qed.

(** Inside a bracket, a head that is not white space and does not close it. *)
Lemma parse_value_array f c t :
  is_ws c = false → c ≠ 93 →
  parse_value (S f) (91 :: c :: t) = '(l, r) ← parse_elems f (c :: t); Some (JArr l, r).
Proof.
  intros Hws Hc. cbn [parse_value skip_ws Z.eqb Pos.eqb].
  change (is_ws 91) with false. cbn [Z.eqb Pos.eqb skip_ws]. rewrite ?Hws.
  destruct c as [|p|p]; [done| |done]. do 7 (destruct p as [p|p|]; try done).
Qed.

Lemma parse_value_object f c t :
  is_ws c = false → c ≠ 125 →
  parse_value (S f) (123 :: c :: t) = '(l, r) ← parse_members f [] (c :: t); Some (JObj l, r).
Proof.
  intros Hws Hc. cbn [parse_value skip_ws Z.eqb Pos.eqb].
  change (is_ws 123) with false. cbn [Z.eqb Pos.eqb skip_ws]. rewrite ?Hws.
  destruct c as [|p|p]; [done| |done]. do 7 (destruct p as [p|p|]; try done).
Qed.

Lemma join_with_head sep c t ws : ∃ t', join_with sep ((c :: t) :: ws) = c :: t'.
Proof. destruct ws; [by eexists|]. rewrite join_with_cons by done. by eexists. Qed.

Lemma weight_obj l : weight (JObj l) = S (S (weights l.*2)).
Proof. cbn [weight]. do 2 f_equal. induction l; simpl; auto. Qed.

Lemma printable_reads_back v : printable v = true → reads_back v.
Proof.
  induction v as [|b|d|s|l IH|l IH] using json_nested_ind; cbn [printable]; intros Hp.
  - intros [|f] rest Hw Hs; [simpl in Hw; lia|]. reflexivity.
  - intros [|f] rest Hw Hs; [simpl in Hw; lia|]. by destruct b.
  - by apply reads_back_num.
  - apply bool_decide_eq_true in Hp. intros [|f] rest Hw Hs; [simpl in Hw; lia|].
    cbn [stringify]. unfold quote_json. rewrite <- app_comm_cons, <- app_assoc. cbn [app].
    cbn [parse_value skip_ws]. change (is_ws c_quote) with false. cbn [c_quote Z.eqb Pos.eqb].
    by rewrite parse_quote_units.
  - rewrite forallb_forall in Hp.
    assert (Hl : Forall reads_back l).
    { rewrite Forall_forall in *. intros v Hv. apply IH; [done|]. by apply Hp, list_elem_of_In. }
    intros [|[|f]] rest Hw Hs; [cbn [weight] in Hw; lia..|]. destruct l as [|v l]; [reflexivity|].
    destruct (stringify_head v) as (c & t & Ec & Hc); [apply Hp; by left|].
    pose proof (value_head_facts c Hc) as (Hws & H93 & _).
    cbn [weight] in Hw. fold (weights (v :: l)) in Hw.
    pose proof (parse_elems_reads (v :: l) (S f) rest ltac:(done) Hl ltac:(lia)) as He.
    cbn [stringify]. rewrite <- !app_assoc. rewrite fmap_cons, Ec in *.
    destruct (join_with_head 44 c t (stringify <$> l)) as [t' Hj]. rewrite Hj in *.
    change (js "[") with [91]. change (js "]") with [93]. cbn [app] in *. rewrite parse_value_array by done. by rewrite He.
  - apply andb_true_iff in Hp as [Hp Hd%bool_decide_eq_true]. rewrite forallb_forall in Hp.
    assert (Hl : Forall (λ kv, reads_back kv.2 ∧ Forall is_unit kv.1) l).
    { rewrite Forall_forall in *. intros kv Hkv.
      pose proof (Hp kv (proj1 (list_elem_of_In _ _) Hkv)) as [Hu%bool_decide_eq_true Hv]%andb_true_iff.
      split; [by apply IH|done]. }
    apply Forall_and in Hl as [Hl Hu].
    intros [|[|f]] rest Hw Hs; rewrite weight_obj in Hw; [lia..|]. destruct l as [|[k v] l]; [reflexivity|].
    pose proof (parse_members_reads ((k, v) :: l) (S f) [] rest ltac:(done) Hl Hu Hd ltac:(lia)) as He.
    cbn [stringify]. rewrite <- !app_comm_cons, <- !app_assoc.
    change (member_text <$> (k, v) :: l) with ((c_quote :: (quote_units k ++ [c_quote]) ++ 58 :: stringify v) :: (member_text <$> l)) in *.
    destruct (join_with_head 44 c_quote ((quote_units k ++ [c_quote]) ++ 58 :: stringify v) (member_text <$> l)) as [t' Hj].
    rewrite Hj in *. cbn [app] in *. change c_lbrace with 123. rewrite parse_value_object by done. by rewrite He.
Qed.

(** The fuel [parse] starts with suffices for every printed value. *)
Lemma length_join_with sep ws :
  length (join_with sep ws) = (sum_list_with (λ w, S (length w)) ws - 1)%nat.
Proof.
  induction ws as [|w ws IH]; [done|]. destruct ws as [|w' ws]; [simpl; lia|].
  rewrite join_with_cons, length_app by done. cbn [length]. rewrite IH. simpl. lia.
Qed.

Lemma weights_bound l (ws : list jsstring) :
  Forall2 (λ v w, weight v ≤ 2 * length w)%nat l ws →
  (weights l ≤ 2 * sum_list_with (λ w, S (length w)) ws)%nat.
Proof. induction 1; [done|]. cbn [weights foldr sum_list_with]. fold (weights l). lia. Qed.

Lemma weight_length v : printable v = true → (weight v ≤ 2 * length (stringify v))%nat.
Proof.
  induction v as [|[]|d|s|l IH|l IH] using json_nested_ind; intros Hp;
    try (destruct (stringify_head _ Hp) as (c & t & -> & _); simpl; lia).
  - cbn [printable] in Hp. rewrite forallb_forall in Hp. cbn [weight stringify]. fold (weights l).
    rewrite !length_app, length_join_with.
    pose proof (weights_bound l (stringify <$> l)) as Hw. simpl. rewrite Forall_forall in IH.
    enough (weights l ≤ 2 * sum_list_with (λ w, S (length w)) (stringify <$> l))%nat by lia.
    apply Hw, Forall2_fmap_r, Forall_Forall2_diag, Forall_forall.
    intros v Hv. apply IH; [done|]. by apply Hp, list_elem_of_In.
  - rewrite weight_obj. cbn [printable] in Hp. apply andb_true_iff in Hp as [Hp _].
    rewrite forallb_forall in Hp. cbn [stringify length].
    rewrite !length_app, length_join_with. rewrite Forall_forall in IH.
    pose proof (weights_bound l.*2 (member_text <$> l)) as Hw. cbn [length].
    enough (weights l.*2 ≤ 2 * sum_list_with (λ w, S (length w)) (member_text <$> l))%nat by lia.
    apply Hw, Forall2_fmap, Forall_Forall2_diag, Forall_forall. intros kv Hkv.
    pose proof (Hp kv (proj1 (list_elem_of_In _ _) Hkv)) as [_ Hv]%andb_true_iff.
    rewrite length_app. cbn [length]. pose proof (IH kv Hkv Hv). lia.
Qed.

(** [JSON.parse(JSON.stringify(v))] is [v] again, for every value built
    from null, booleans, strings of any code units, numbers that print back,
    arrays and objects with distinct keys, nested to any depth. *)
Lemma parse_stringify v : printable v = true → parse (stringify v) = Some v.
Proof.
  intros Hp. unfold parse. rewrite <- (app_nil_r (stringify v)) at 2.
  rewrite (printable_reads_back v Hp); [done|pose proof (weight_length v Hp); lia|done].
Qed.
