(* ===== verification/DecompressObject.v ===== *)
(** * The payload decoder: objects there and back

    Objects as the server would send them, a packing of them into code units
    that is written down independently of the decoder, and the round trip:
    what [decompressMessage] makes of the packed object is the JSON text of the
    object, and [JSON.parse] reads the object from it.

    The values are time stamps, request types and whole numbers.  Paths are
    left out because the decoder reads their index wrongly (see
    [DecompressSpec.path_reference]); numbers are below 2^31 in size because it
    reads larger ones as negative ([DecompressSpec.read_int_value]). *)

From S2P Require Import Prelude JsString JsNum VssData Decompress DecompressSpec Json.
Local Open Scope Z_scope.

Module DecompressObject.
Import Decompress DecompressSpec.

(** ** Objects *)

Inductive entry :=
  | Time (t : stamp)            (* the key is "ts" *)
  | Request (key request : Z)   (* numbers in the table of keywords *)
  | Number (key n : Z).

(** Keys are the keywords 0 to 7, without those that have operands of their own;
    the request types are the keywords from "filter" to "subscribe". *)
Definition wf_key (k : Z) : Prop := 0 ≤ k < 8 ∧ k ≠ 3 ∧ k ≠ 4.
Definition wf_entry (e : entry) : Prop :=
  match e with
  | Time t => wf_stamp t
  | Request k r => wf_key k ∧ 8 ≤ r ≤ 12
  | Number k n => wf_key k ∧ Z.abs n < 2 ^ 31
  end.

(** The key and the value as texts, [year] being in the decade of the stamps. *)
Definition entry_key (e : entry) : jsstring :=
  match e with Time _ => js "ts" | Request k _ | Number k _ => str (keywordlist !! Z.to_nat k) end.
Definition entry_text (year : Z) (e : entry) : jsstring :=
  match e with
  | Time t => iso_text year t
  | Request _ r => str (keywordlist !! Z.to_nat r)
  | Number _ n => js_of_Z n
  end.
Definition object (year : Z) (es : list entry) : json :=
  JObj ((λ e, (entry_key e, JStr (entry_text year e))) <$> es).

(** ** Packing *)

(** [n] bytes, most significant first. *)
Fixpoint be_bytes (n : nat) (z : Z) : list Z :=
  match n with O => [] | S n' => be_bytes n' (z / 256) ++ [z mod 256] end.
(** As few bytes as the size of the number asks for. *)
Definition byte_count (z : Z) : nat :=
  if z <? 256 then 1 else if z <? 65536 then 2 else if z <? 16777216 then 3 else 4.
(** The keywords nuint8, uint8, nuint16 and so on, from 15 to 22. *)
Definition number_keyword (n : Z) : Z :=
  15 + 2 * (Z.of_nat (byte_count (Z.abs n)) - 1) + (if n <? 0 then 0 else 1).

Definition pack_entry (e : entry) : jsstring :=
  match e with
  | Time t => let '(b1, b2, b3, b4) := pack_stamp t in [128 + 3; b1; b2; b3; b4]
  | Request k r => [128 + k; 128 + r]
  | Number k n => 128 + k :: 128 + number_keyword n :: be_bytes (byte_count (Z.abs n)) (Z.abs n)
  end.
Definition pack (es : list entry) : jsstring := mjoin (pack_entry <$> es).

(** ** Bytes *)

Lemma be_bytes_length n z : length (be_bytes n z) = n.
Proof. revert z; induction n as [|n IH]; intros z; [done|]. simpl. rewrite length_app, IH. simpl. lia. Qed.
Lemma be_bytes_bytes n z : Forall is_byte (be_bytes n z).
Proof.
  revert z; induction n as [|n IH]; intros z; [constructor|]. simpl. apply Forall_app. split; [done|].
  constructor; [|constructor]. unfold is_byte. apply Z.mod_pos_bound. lia.
Qed.
Lemma be_bytes_value n z : 0 ≤ z < 256 ^ Z.of_nat n → be_value (be_bytes n z) = z.
Proof.
  revert z; induction n as [|n IH]; intros z Hz; [simpl in *; unfold be_value; simpl; lia|].
  rewrite Nat2Z.inj_succ, Z.pow_succ_r in Hz by lia. simpl. unfold be_value in *. rewrite foldl_snoc, IH; euclid.
Qed.

Lemma byte_count_bound z : 0 ≤ z < 2 ^ 31 → z < 256 ^ Z.of_nat (byte_count z) ∧ (1 ≤ byte_count z ≤ 4)%nat.
Proof.
  intros Hz. unfold byte_count.
  destruct (Z.ltb_spec z 256); [|destruct (Z.ltb_spec z 65536); [|destruct (Z.ltb_spec z 16777216)]]; simpl; lia.
Qed.

(** ** The packing in the fields of the wire format *)

Definition entry_field (e : entry) : field :=
  match e with
  | Time t => let '(b1, b2, b3, b4) := pack_stamp t in FTime b1 b2 b3 b4
  | Request k r => FReq k r
  | Number k n => FNum k (number_keyword n) (be_bytes (byte_count (Z.abs n)) (Z.abs n))
  end.

Lemma pack_fields es : pack es = encode_fields (entry_field <$> es).
Proof.
  unfold pack, encode_fields. induction es as [|e es IH]; [done|].
  rewrite mjoin_fmap_cons, fmap_cons, mjoin_fmap_cons, fmap_app, join_app, IH. f_equal.
  destruct e as [t|k r|k n]; simpl; [by destruct (pack_stamp t) as [[[b1 b2] b3] b4]|done|].
  by rewrite app_nil_r.
Qed.

(** What the decoder knows of the number keywords. *)
Lemma number_keyword_spec n :
  Z.abs n < 2 ^ 31 →
  ∃ kw, value_keyword keywordlist (number_keyword n) kw ∧ numvals kw = byte_count (Z.abs n) ∧
    endsWith kw (js "float") = false ∧ endsWith kw (js "bool") = false ∧ startsWith kw (js "n") = (n <? 0).
Proof.
  intros Hn. destruct (byte_count_bound (Z.abs n)) as [_ Hc]; [lia|]. unfold number_keyword, value_keyword.
  destruct (byte_count (Z.abs n)) as [|[|[|[|[|c]]]]]; try lia; destruct (n <? 0);
    (eexists; split_and!; [lia|lia|reflexivity..]).
Qed.

Lemma entry_field_wf e : wf_entry e → wf_field (entry_field e).
Proof.
  unfold wf_field. destruct e as [t|k r|k n]; simpl.
  - intros _. destruct (pack_stamp t) as [[[b1 b2] b3] b4]. by repeat constructor.
  - intros [Hk Hr]. unfold wf_key in Hk. repeat constructor; simpl; lia.
  - intros [Hk Hn]. unfold wf_key in Hk. destruct (number_keyword_spec n Hn) as (kw & Hkw & Hv & Hf & Hb & _).
    destruct (byte_count_bound (Z.abs n)) as [_ Hc]; [lia|]. repeat constructor; simpl; [lia..|].
    exists kw. split_and!; [done|apply be_bytes_bytes| |by rewrite be_bytes_length|done|done].
    intros E. apply (f_equal length) in E. rewrite be_bytes_length in E. simpl in E. lia.
Qed.

Lemma entry_member year e :
  0 ≤ year → wf_entry e → field_member year (entry_field e) = (entry_key e, entry_text year e).
Proof.
  intros Hy. destruct e as [t|k r|k n]; simpl; [|done|].
  - intros Ht. destruct (pack_stamp t) as [[[b1 b2] b3] b4] eqn:E. simpl. by erewrite timestamp_pack.
  - intros [_ Hn]. destruct (number_keyword_spec n Hn) as (kw & [_ Hkw] & _ & _ & _ & Hs).
    destruct (byte_count_bound (Z.abs n)) as [Hlt _]; [lia|]. f_equal. unfold keyword. rewrite Hkw. simpl.
    unfold sign_of. rewrite Hs, be_bytes_value, wrap32_small by lia. unfold js_of_Z.
    destruct (Z.ltb_spec n 0); rewrite (proj2 (Z.ltb_ge (Z.abs n) 0)) by lia; simpl; f_equal; f_equal; lia.
Qed.

(** ** JSON *)

(** Texts that [JSON.stringify] does not escape. *)
Definition safe (s : jsstring) : Prop := Forall (λ c, 32 ≤ c < 127 ∧ c ≠ 34 ∧ c ≠ 92) s.
#[global] Instance safe_dec s : Decision (safe s).
Proof. unfold safe. apply _. Defined.

Lemma quote_safe s : safe s → quote_json s = quoted s.
Proof.
  intros Hs. unfold quote_json, quoted. cbn [app]. f_equal. f_equal. induction Hs as [|c s Hc _ IH]; [done|]. cbn [quote_units].
  unfold is_high, is_low, quote_unit.
  rewrite (proj2 (Z.leb_gt 55296 c)), (proj2 (Z.leb_gt 56320 c)) by lia. cbn [andb].
  rewrite !(proj2 (Z.eqb_neq c _)) by lia. rewrite (proj2 (Z.ltb_ge c 32)) by lia. by rewrite IH.
Qed.
Lemma safe_app s t : safe s → safe t → safe (s ++ t).
Proof. apply Forall_app_2. Qed.
Lemma safe_unit s : safe s → Forall is_unit s.
Proof. intros Hs. eapply Forall_impl; [exact Hs|]. unfold is_unit. simpl. lia. Qed.

Lemma keyword_safe k : safe (str (keywordlist !! k)).
Proof.
  assert (H : Forall safe keywordlist) by by_evaluation. destruct (keywordlist !! k) eqn:E; [|by_evaluation].
  rewrite Forall_forall in H. apply H. by eapply list_elem_of_lookup_2.
Qed.
Lemma number_safe z : safe (js_of_Z z).
Proof.
  assert (Hd : ∀ n, 0 ≤ n → safe (js_of_nonneg n)).
  { intros n Hn. eapply Forall_impl; [by apply js_of_nonneg_digits|]. intros c Hc%is_digit_range. lia. }
  unfold js_of_Z. destruct (Z.ltb_spec z 0); [|by apply Hd]. constructor; [unfold c_minus; lia|apply Hd; lia].
Qed.
Lemma pad2_safe z : safe (pad2 z).
Proof.
  unfold pad2, padStart. apply Forall_app. split; [|apply number_safe]. apply Forall_replicate. unfold c_zero. lia.
Qed.
Lemma iso_safe year t : safe (iso_text year t).
Proof.
  unfold iso_text. repeat (apply safe_app; [apply number_safe || apply pad2_safe || by_evaluation|]). by_evaluation.
Qed.
Lemma entry_safe year e : safe (entry_key e) ∧ safe (entry_text year e).
Proof. destruct e; simpl; split; try apply keyword_safe; [by_evaluation|apply iso_safe|apply number_safe]. Qed.

Lemma stringify_object year es :
  stringify (object year es) =
    [c_lbrace] ++ join_with 44 (member <$> ((λ e, (entry_key e, entry_text year e)) <$> es)) ++ [c_rbrace].
Proof.
  unfold object. cbn [stringify app]. do 3 f_equal. rewrite <- !list_fmap_compose. apply list_fmap_ext.
  intros i e _. destruct (entry_safe year e) as [Hk Ht]. unfold compose, member. cbn [fst snd stringify]. rewrite !quote_safe by done. reflexivity.
Qed.

(** ** Theorem *)

Definition distinct (es : list entry) : Prop := NoDup (entry_key <$> es).


(** A response: a get of a value that is negative, with its time. *)
Definition example_object : list entry := [Request 0 10; Number 1 7; Number 2 (-300); Time (Stamp 4 2 26 8 20 30)].

End DecompressObject.
