(* ===== verification/W3cClient.v ===== *)
(** * The demo clients: w3c-client.js, ws-w3c.js and rest-w3c.js

    A page holds a client object, two log lists and the hidden input the
    speedometer listens to.  The WebSocket client parses the messages it
    receives, logs them and forwards the values of known signals to the
    gauge; the REST client does the same with the answers to its requests.
    jQuery's [val] setter, the property lookup of plain objects and the
    states of a socket are modelled as the platform defines them. *)

From S2P Require Import Prelude JsString JsNum Json Speedometer.
Local Open Scope Z_scope.

Module W3cClient.

(** ** The page *)

(** Ready states of a [WebSocket]. *)
Inductive sock := CONNECTING | OPEN | CLOSED.

(** What the value of a property of [available_signals] is: the selector the
    program stored, or a member inherited from [Object.prototype]. *)
Inductive target := Selector (s : string) | Inherited (name : string).

Inductive console_entry :=
  | LogText (s : jsstring)
  | LogValue (v : json)
  | LogError (s : jsstring).

Record ajax := Ajax { a_type : string; a_url : jsstring; a_data : option jsstring }.

Record page := Page {
  debug : bool;
  available_signals : list (string * string);
  this_socket : option sock;
  global_socket : option sock;
  frames : list jsstring;
  requests : list ajax;
  console : list console_entry;
  logs : gmap string (list jsstring);
  inputs : gmap string jsstring;
  changes : list (string * jsstring);
  foreign : list string
}.

Definition handler := jsM page.

(** Field updates. *)
Definition set_socket (s : option sock) (p : page) : page :=
  Page (debug p) (available_signals p) s (global_socket p) (frames p) (requests p) (console p)
    (logs p) (inputs p) (changes p) (foreign p).
Definition set_debug (b : bool) (p : page) : page :=
  Page b (available_signals p) (this_socket p) (global_socket p) (frames p) (requests p) (console p)
    (logs p) (inputs p) (changes p) (foreign p).
Definition add_frame (m : jsstring) (p : page) : page :=
  Page (debug p) (available_signals p) (this_socket p) (global_socket p) (frames p ++ [m])
    (requests p) (console p) (logs p) (inputs p) (changes p) (foreign p).
Definition add_request (a : ajax) (p : page) : page :=
  Page (debug p) (available_signals p) (this_socket p) (global_socket p) (frames p)
    (requests p ++ [a]) (console p) (logs p) (inputs p) (changes p) (foreign p).
Definition add_console (c : console_entry) (p : page) : page :=
  Page (debug p) (available_signals p) (this_socket p) (global_socket p) (frames p) (requests p)
    (console p ++ [c]) (logs p) (inputs p) (changes p) (foreign p).
Definition add_log_item (id : string) (t : jsstring) (p : page) : page :=
  Page (debug p) (available_signals p) (this_socket p) (global_socket p) (frames p) (requests p)
    (console p) (alter (λ l, l ++ [t]) id (logs p)) (inputs p) (changes p) (foreign p).
Definition set_input (id : string) (t : jsstring) (p : page) : page :=
  Page (debug p) (available_signals p) (this_socket p) (global_socket p) (frames p) (requests p)
    (console p) (logs p) (alter (λ _, t) id (inputs p)) (changes p) (foreign p).
Definition add_change (c : string * jsstring) (p : page) : page :=
  Page (debug p) (available_signals p) (this_socket p) (global_socket p) (frames p) (requests p)
    (console p) (logs p) (inputs p) (changes p ++ [c]) (foreign p).
Definition add_foreign (n : string) (p : page) : page :=
  Page (debug p) (available_signals p) (this_socket p) (global_socket p) (frames p) (requests p)
    (console p) (logs p) (inputs p) (changes p) (foreign p ++ [n]).

(** ** Values *)

(** [String(v)]; [None] is the TypeError for an object whose own [toString]
    hides the inherited one (a JSON value is never callable). *)
Fixpoint String_of (v : json) : option jsstring :=
  match v with
  | JNull => Some (js "null")
  | JBool b => Some (if b then js "true" else js "false")
  | JNum d => Some (js_of_double d)
  | JStr s => Some s
  | JArr l =>
      (fix go (l : list json) : option jsstring :=
         match l with
         | [] => Some []
         | x :: l' =>
             s ← match x with JNull => Some [] | _ => String_of x end;
             t ← go l';
             Some (match l' with [] => s | _ => s ++ js "," ++ t end)
         end) l
  | JObj l => if existsb (λ kv, bool_decide (kv.1 = js "toString")) l then None
              else Some (js "[object Object]")
  end.

(** [v.k] for the members the handlers read; reading a property of null throws. *)
Definition member (v : json) (k : string) : outcome (option json) :=
  match v with
  | JNull => Throw TypeError
  | JObj l => Ret (snd <$> List.find (λ kv, bool_decide (kv.1 = js k)) l)
  | _ => Ret None
  end.

Definition lift {A} (o : outcome A) : handler A := λ p, (p, o).
Definition to_string (v : option json) : handler jsstring :=
  match v with
  | None => mret (js "undefined")
  | Some v => match String_of v with Some s => mret s | None => mthrow TypeError end
  end.

(** [available_signals[key]], where [key in available_signals]. *)
Definition signal (own : list (string * string)) (key : jsstring) : option target :=
  match List.find (λ kv : string * string, bool_decide (js kv.1 = key)) own with
  | Some kv => Some (Selector kv.2)
  | None => Inherited <$> List.find (λ n, bool_decide (js n = key)) object_prototype
  end.

Definition is_action (a : option json) (s : string) : bool :=
  match a with Some (JStr t) => bool_decide (t = js s) | _ => false end.

(** ** w3c-client.js *)

(** Lines 2 to 4: [self] is the global object. *)
Definition W3CClient_constructor (dbg : bool) : handler () := mupdate (set_debug dbg).

(** Lines 6 to 20: the cases of the switch do nothing. *)
Definition handleRequest (request : json) : handler () :=
  _ ← lift (member request "action");
  dbg ← mget debug;
  mguard dbg (mupdate (add_console (LogValue request))).

(** ** Shared by the two clients *)

(** [$(id).val(value)]: null and undefined become the empty string. *)
Definition val_text (v : option json) : handler jsstring :=
  match v with
  | None | Some JNull => mret []
  | Some v => to_string (Some v)
  end.

(** rest-w3c.js lines 80 to 83 and ws-w3c.js lines 78 to 81. *)
Definition updateSpeedometerValue (id : target) (value : option json) : handler () :=
  match id with
  | Inherited n => mupdate (add_foreign n)
  | Selector sel =>
      t ← val_text value;
      _ ← mupdate (set_input sel t);
      ins ← mget inputs;
      match ins !! sel with
      | Some cur => mupdate (add_change (sel, cur))
      | None => mret ()
      end
  end.

(** The list item of [addLog]: a missing list is null. *)
Definition append_log (text : jsstring) (log_id : string) : handler () :=
  ls ← mget logs;
  match ls !! log_id with
  | Some _ => mupdate (add_log_item log_id text)
  | None => mthrow TypeError
  end.

(** [if (request.path in available_signals) ...] *)
Definition forward (request : json) : handler () :=
  path ← lift (member request "path");
  key ← to_string path;
  own ← mget available_signals;
  match signal own key with
  | Some t =>
      value ← lift (member request "value");
      updateSpeedometerValue t value
  | None => mret ()
  end.

(** The switch on [request.action]. *)
Definition dispatch (request : json) : handler () :=
  action ← lift (member request "action");
  if is_action action "get" then forward request
  else if is_action action "subscription" then forward request
  else mret ().

(** ** ws-w3c.js *)

Module Ws.

(** Lines 11 to 16. *)
Definition setup : handler () := mupdate (set_socket (Some CONNECTING)).

(** Lines 18 to 20. *)
Definition websocket_onclose : handler () :=
  mupdate (add_console (LogError (js "Socket closed"))).

(** Lines 65 to 75. *)
Definition addLog (value : jsstring) (log_id : string) : handler () :=
  _ ← mupdate (add_console (LogText value));
  append_log value log_id.

(** Lines 21 to 40. *)
Definition websocket_onmessage (data : jsstring) : handler () :=
  match parse data with
  | None => mthrow SyntaxError
  | Some request =>
      _ ← handleRequest request;
      _ ← addLog data "ws-receive-log-list";
      dispatch request
  end.

(** [s.send(msg)] *)
Definition send (s : sock) (msg : jsstring) : handler () :=
  match s with
  | CONNECTING => mthrow (ErrorMsg "InvalidStateError")
  | OPEN => mupdate (add_frame msg)
  | CLOSED => mret ()
  end.
Definition send_this (msg : jsstring) : handler () :=
  s ← mget this_socket;
  match s with Some s => send s msg | None => mthrow TypeError end.
(** [socket.send(msg)]: the free variable [socket] is the global one. *)
Definition send_global (msg : jsstring) : handler () :=
  s ← mget global_socket;
  match s with Some s => send s msg | None => mthrow ReferenceError end.

Definition request_text (members : list (string * json)) : jsstring :=
  stringify (JObj (prod_map js id <$> members)).
Definition requestId : string * json := ("requestId"%string, JNum (double_of_Z 234)).

(** Lines 42 to 47. *)
Definition requestGet (path : jsstring) : handler () :=
  let msg := request_text [("action", JStr (js "get")); ("path", JStr path); requestId]%string in
  _ ← send_this msg;
  addLog msg "ws-send-log-list".

(** Lines 49 to 52. *)
Definition requestSet (path : jsstring) (value : json) : handler () :=
  send_global (request_text [("action", JStr (js "set")); ("path", JStr path);
                             ("value", value); requestId]%string).

(** Lines 54 to 59. *)
Definition subscribe (path : jsstring) : handler () :=
  let msg := request_text [("action", JStr (js "subscribe")); ("path", JStr path); requestId]%string in
  _ ← send_global msg;
  addLog msg "ws-send-log-list".

(** Lines 61 to 64. *)
Definition unsubscribe (subscriptionid : json) : handler () :=
  send_global (request_text [("action", JStr (js "unsubscribe"));
                             ("subscriptionid", subscriptionid); requestId]%string).

End Ws.

(** ** rest-w3c.js *)

Module Rest.

Definition base_url : jsstring := js "http://localhost:8888/".

(** Lines 70 to 78. *)
Definition addLog (value : option json) (log_id : string) : handler () :=
  t ← to_string value;
  append_log t log_id.

(** Lines 14 to 26 and 28 to 40: the error callback logs. *)
Definition send_get_request (request : jsstring) : handler () :=
  mupdate (add_request (Ajax "GET" (base_url ++ request) None)).
Definition send_post_request (request : jsstring) (value : json) : handler () :=
  mupdate (add_request (Ajax "POST" (base_url ++ request) (Some (js "123")))).
Definition request_error : handler () := mupdate (add_console (LogText (js "error"))).

(** Lines 42 to 58: [request] is the answer's body, parsed when it is JSON. *)
Definition message_success (request : json) : handler () :=
  _ ← handleRequest request;
  _ ← addLog (Some request) "rest-receive-log-list";
  dispatch request.

(** Lines 60 to 68. *)
Definition requestGet (path : jsstring) : handler () :=
  _ ← addLog (Some (JStr path)) "rest-send-log-list";
  send_get_request path.
Definition requestSet (path : jsstring) (value : json) : handler () :=
  v ← to_string (Some value);
  _ ← addLog (Some (JStr (path ++ js ", data: " ++ v))) "rest-send-log-list";
  send_post_request path value.

End Rest.

(** ** The messages of the server *)

(** A data message: action, path and value, as the server prints them. *)
Definition data_message (action path value : jsstring) : json :=
  JObj [(js "action", JStr action); (js "path", JStr path); (js "value", JStr value)].

Lemma data_message_printable action path value :
  Forall is_unit action → Forall is_unit path → Forall is_unit value →
  printable (data_message action path value) = true.
Proof.
  intros Ha Hp Hv. unfold data_message. cbn [printable forallb fst snd].
  rewrite !(bool_decide_true _ Ha), !(bool_decide_true _ Hp), !(bool_decide_true _ Hv). by_evaluation.
Qed.

(** The page ws-home.html: the elements the handlers look up are there, and
    only the gauge's input has changed. *)
Definition ws_selector : string := "#ws-speedometer".
Record ready (p : page) : Prop := {
  ready_signals : available_signals p = [("Speed"%string, ws_selector)];
  ready_log : is_Some (logs p !! "ws-receive-log-list"%string);
  ready_input : is_Some (inputs p !! ws_selector);
  ready_changes : Forall (λ c, c.1 = ws_selector) (changes p)
}.

Lemma signal_selector key t :
  signal [("Speed"%string, ws_selector)] key = Some t → t = Selector ws_selector ∨ ∃ n, t = Inherited n.
Proof.
  unfold signal. destruct (List.find (λ kv : string * string, _) _) as [kv|] eqn:E.
  - apply List.find_some in E as [[<-|[]] _]. naive_solver.
  - destruct (List.find (λ n : string, _) _); naive_solver.
Qed.

Lemma ready_add_console c p : ready p → ready (add_console c p).
Proof. by intros []. Qed.
Lemma ready_add_foreign n p : ready p → ready (add_foreign n p).
Proof. by intros []. Qed.
Lemma ready_add_log_item i t p : ready p → ready (add_log_item i t p).
Proof.
  intros [H1 H2 H3 H4]. split; [done| |done..]. simpl. rewrite lookup_alter.
  case_decide; [subst; by apply fmap_is_Some|done].
Qed.

Lemma keeps_lift {A} I (o : outcome A) : keeps I (lift o).
Proof. by intros p H. Qed.

Lemma keeps_to_string I v : keeps I (to_string v).
Proof. unfold to_string. repeat case_match; auto with js. Qed.

Lemma ready_update_gauge t v :
  t = Selector ws_selector ∨ (∃ n, t = Inherited n) → keeps ready (updateSpeedometerValue t v).
Proof.
  intros [->|[n ->]]; unfold updateSpeedometerValue; [|auto using ready_add_foreign with js].
  apply keeps_bind.
  { unfold val_text. repeat case_match; auto using keeps_to_string with js. }
  intros t p [H1 H2 [x Hx] H4]. unfold mbind, jsM_bind, mupdate, mget; simpl.
  rewrite lookup_alter_eq, Hx. simpl.
  split; simpl; [done|done|rewrite lookup_alter_eq, Hx; by eexists|by apply Forall_app_2; auto].
Qed.

Lemma ready_dispatch v : keeps ready (dispatch v).
Proof.
  assert (Hf : keeps ready (forward v)).
  { unfold forward. apply keeps_bind; [apply keeps_lift|intros path].
    apply keeps_bind; [apply keeps_to_string|intros key].
    intros p Hp. unfold mbind, jsM_bind, mget.
    rewrite (ready_signals p Hp). destruct (signal _ key) as [t|] eqn:E; [|done].
    unfold lift. destruct (member v "value") as [value|]; [|done].
    apply ready_update_gauge; [by apply (signal_selector key)|done]. }
  unfold dispatch. apply keeps_bind; [apply keeps_lift|intros a]. repeat case_match; auto with js.
Qed.

Lemma ready_onmessage data : keeps ready (Ws.websocket_onmessage data).
Proof.
  unfold Ws.websocket_onmessage. case_match; [|apply keeps_throw].
  apply keeps_bind; [|intros _; apply keeps_bind; [|intros _; apply ready_dispatch]].
  - unfold handleRequest. apply keeps_bind; [apply keeps_lift|].
    auto 8 using ready_add_console with js.
  - unfold Ws.addLog, append_log. apply keeps_bind; [auto using ready_add_console with js|].
    intros _. apply keeps_bind; [apply keeps_get|]. intros ls.
    case_match; auto using ready_add_log_item with js.
Qed.

(** Messages arrive one after the other; a handler that throws does not stop
    the next one. *)
Definition receive_all (datas : list jsstring) (p : page) : page :=
  foldl (λ p data, (Ws.websocket_onmessage data p).1) p datas.

Lemma ready_receive_all datas p : ready p → ready (receive_all datas p).
Proof.
  unfold receive_all. revert p; induction datas as [|data datas IH]; intros p Hp; simpl; [done|].
  by apply IH, ready_onmessage.
Qed.

(** Handling a data message on a ready page. *)
Definition known_action (action : jsstring) : bool :=
  bool_decide (action = js "get") || bool_decide (action = js "subscription").

Lemma signal_lookup path :
  path ∉ (js <$> object_prototype) →
  signal [("Speed"%string, ws_selector)] path =
    if bool_decide (path = js "Speed") then Some (Selector ws_selector) else None.
Proof.
  intros Hp. unfold signal. cbn [List.find fst snd]. rewrite (bool_decide_ext _ (path = js "Speed")) by naive_solver.
  case_bool_decide; [done|].
  destruct (List.find (λ n : string, _) object_prototype) as [n|] eqn:E; [|done].
  apply List.find_some in E as [Hin Hn%bool_decide_eq_true]. destruct Hp. apply list_elem_of_fmap.
  exists n. split; [done|]. by apply list_elem_of_In.
Qed.

Lemma dispatch_data action path value p :
  ready p → path ∉ (js <$> object_prototype) →
  dispatch (data_message action path value) p =
    (if known_action action && bool_decide (path = js "Speed")
     then add_change (ws_selector, value) (set_input ws_selector value p) else p, Ret ()).
Proof.
  intros Hr Hp.
  assert (Hf : forward (data_message action path value) p =
    (if bool_decide (path = js "Speed")
     then add_change (ws_selector, value) (set_input ws_selector value p) else p, Ret ())).
  { unfold forward, mbind, jsM_bind, mget, lift.
    change (member (data_message action path value) "path") with (Ret (Some (JStr path))).
    cbv beta iota. change (to_string (Some (JStr path)) p) with (p, @Ret jsstring path). cbv beta iota.
    rewrite (ready_signals p Hr), signal_lookup by done. case_bool_decide; [|done].
    change (member (data_message action path value) "value") with (Ret (Some (JStr value))).
    destruct (ready_input p Hr) as [x Hx]. unfold updateSpeedometerValue, mbind, jsM_bind, mupdate, mget.
    simpl. by rewrite lookup_alter_eq, Hx. }
  unfold dispatch, mbind, jsM_bind, lift.
  change (member (data_message action path value) "action") with (Ret (Some (JStr action))).
  unfold is_action, known_action.
  repeat case_bool_decide; rewrite ?Hf; simpl; done.
Qed.

Lemma onmessage_data action path value p :
  Forall is_unit action → Forall is_unit path → Forall is_unit value → ready p →
  path ∉ (js <$> object_prototype) →
  let data := stringify (data_message action path value) in
  (Ws.websocket_onmessage data p).2 = Ret () ∧
  logs (Ws.websocket_onmessage data p).1 =
    alter (λ l, l ++ [data]) "ws-receive-log-list"%string (logs p) ∧
  changes (Ws.websocket_onmessage data p).1 =
    changes p ++ if known_action action && bool_decide (path = js "Speed") then [(ws_selector, value)] else [].
Proof.
  intros Ha Hp Hv Hr Hpath data.
  set (p1 := if debug p then add_console (LogValue (data_message action path value)) p else p).
  set (p2 := add_log_item "ws-receive-log-list" data (add_console (LogText data) p1)).
  assert (Hr1 : ready p1) by (unfold p1; destruct (debug p); [by apply ready_add_console|done]).
  assert (Hr2 : ready p2) by (by apply ready_add_log_item, ready_add_console).
  assert (E : Ws.websocket_onmessage data p = dispatch (data_message action path value) p2).
  { unfold Ws.websocket_onmessage, data. rewrite parse_stringify by (by apply data_message_printable).
    fold data. unfold handleRequest, mbind, jsM_bind, mget, lift.
    change (member (data_message action path value) "action") with (Ret (Some (JStr action))).
    unfold mguard, Ws.addLog, append_log, mbind, jsM_bind, mupdate, mget, p2, p1.
    destruct (ready_log _ Hr1) as [l Hl]. unfold p1 in Hl. destruct (debug p); simpl in *; by rewrite Hl. }
  rewrite E, dispatch_data by done. cbn [fst snd].
  assert (Hlog : logs p2 = alter (λ l, l ++ [data]) "ws-receive-log-list"%string (logs p) ∧
                 changes p2 = changes p) by (unfold p2, p1; by destruct (debug p)).
  destruct Hlog as [Hl Hc]. destruct (known_action action && _); cbn [logs changes add_change set_input]; rewrite ?Hl, ?Hc, ?app_nil_r; split_and!; done.
Qed.

(** The readings the gauge has been given. *)
Definition readings (p : page) : list jsval := (λ c, VStr c.2) <$> changes p.

(** C18. From the socket to the dial: whatever texts the socket has delivered
    before (valid messages, other actions, texts that are no JSON at all), a
    "get" or "subscription" message for the path "Speed" with value [v] leaves
    the gauge, fed with the changes of its input, with exactly the marks lit
    whose scale value is at most the clamped [v]. *)
Theorem ws_gauge sin cos id datas action v p :
  ready p → known_action action = true → Forall is_unit v →
  let p1 := receive_all datas p in
  let p2 := (Ws.websocket_onmessage (stringify (data_message action (js "Speed") v)) p1).1 in
  ∃ g g', Speedometer.addSpeedometer sin cos [] 20 id = Some g ∧
    Speedometer.feed Speedometer.defaultProperty 20 (readings p2) g = Some g' ∧
    ∀ i, (i < 19)%nat →
      Speedometer.bright_at "nob" i (Speedometer.g_envelope g') =
        js_le (js_mul (num (Z.of_nat i)) (num 10))
          (Speedometer.clamp_speed Speedometer.defaultProperty (VStr v)).
Proof.
  intros Hp Ha Hv p1 p2.
  assert (Hu : Forall is_unit action).
  { apply orb_true_iff in Ha as [->%bool_decide_eq_true| ->%bool_decide_eq_true]; by_evaluation. }
  destruct (onmessage_data action (js "Speed") v p1 Hu) as (_ & _ & Hc);
    [by_evaluation|done|by apply ready_receive_all|by_evaluation|].
  fold p2 in Hc. rewrite Ha in Hc. simpl in Hc.
  assert (E : readings p2 = readings p1 ++ [VStr v]) by (unfold readings; rewrite Hc, fmap_app; done).
  rewrite E. destruct (Speedometer.feed_last sin cos id (readings p1) (VStr v)) as (g & g' & H1 & H2 & H3).
  exists g, g'. split_and!; [done|done|]. intros i Hi. apply (H3 i Hi).
Qed.

(** The page as it is loaded, with the gauge's hidden input. *)
Definition ws_page : page :=
  Page false [("Speed"%string, ws_selector)] (Some OPEN) None [] [] []
    {[ "ws-receive-log-list"%string := []; "ws-send-log-list"%string := [] ]}
    {[ ws_selector := [] ]} [] [].

Lemma ws_page_ready : ready ws_page.
Proof. split; [reflexivity|by eexists|by eexists|constructor]. Qed.

Lemma ws_gauge_witness :
  ∃ g g', Speedometer.addSpeedometer id id [] 20 [] = Some g ∧
    Speedometer.feed Speedometer.defaultProperty 20
      (readings (Ws.websocket_onmessage (stringify (data_message (js "get") (js "Speed") (js "57.5")))
        (receive_all [js "not json"] ws_page)).1) g = Some g' ∧
    ∀ i, (i < 19)%nat →
      Speedometer.bright_at "nob" i (Speedometer.g_envelope g') =
        js_le (js_mul (num (Z.of_nat i)) (num 10))
          (Speedometer.clamp_speed Speedometer.defaultProperty (VStr (js "57.5"))).
Proof.
  apply (ws_gauge id id [] [js "not json"] (js "get") (js "57.5") ws_page ws_page_ready);
    [vm_compute; reflexivity|by_evaluation].
Defined.

(** ** The requests of the WebSocket client *)

Definition get_request (path : jsstring) : json :=
  JObj [(js "action", JStr (js "get")); (js "path", JStr path); (js "requestId", JNum (double_of_Z 234))].

(** On an open socket [requestGet] sends one frame and logs it, and the
    frame is a JSON text that reads back as the request with the given path,
    whatever characters the path has. *)
Theorem requestGet_frame path p l :
  Forall is_unit path → this_socket p = Some OPEN → logs p !! "ws-send-log-list"%string = Some l →
  ∃ msg, (Ws.requestGet path p).2 = Ret () ∧
    frames (Ws.requestGet path p).1 = frames p ++ [msg] ∧
    logs (Ws.requestGet path p).1 !! "ws-send-log-list"%string = Some (l ++ [msg]) ∧
    parse msg = Some (get_request path).
Proof.
  intros Hu Hs Hl. exists (stringify (get_request path)).
  unfold Ws.requestGet, Ws.send_this, Ws.addLog, append_log, Ws.send, mbind, jsM_bind, mupdate, mget.
  rewrite Hs. cbn [logs add_frame add_console]. rewrite Hl. cbn [fst snd frames logs add_log_item add_frame add_console].
  split_and!; [done|done|by rewrite lookup_alter_eq, Hl|].
  apply parse_stringify. unfold get_request. cbn [printable forallb fst snd].
  rewrite (bool_decide_true _ Hu). by_evaluation.
Qed.

Lemma requestGet_frame_witness :
  ∃ msg, (Ws.requestGet (js "Vehicle.Speed") ws_page).2 = Ret () ∧
    frames (Ws.requestGet (js "Vehicle.Speed") ws_page).1 = frames ws_page ++ [msg] ∧
    logs (Ws.requestGet (js "Vehicle.Speed") ws_page).1 !! "ws-send-log-list"%string = Some ([] ++ [msg]) ∧
    parse msg = Some (get_request (js "Vehicle.Speed")).
Proof. apply requestGet_frame; [by_evaluation|reflexivity|reflexivity]. Defined.

(** On the demo page, where no global variable [socket] exists, the other
    three requests of the WebSocket client throw a ReferenceError and change
    nothing: neither a set, a subscribe nor an unsubscribe request is ever
    sent, although the client's own socket is open. *)
Theorem unsent_requests path value p :
  global_socket p = None →
  Ws.requestSet path value p = (p, Throw ReferenceError) ∧
  Ws.subscribe path p = (p, Throw ReferenceError) ∧
  Ws.unsubscribe value p = (p, Throw ReferenceError).
Proof.
  intros Hg. unfold Ws.requestSet, Ws.subscribe, Ws.unsubscribe, Ws.send_global, mbind, jsM_bind, mget.
  by rewrite Hg.
Qed.

Lemma unsent_requests_witness :
  this_socket ws_page = Some OPEN ∧
  Ws.requestSet (js "Speed") JNull ws_page = (ws_page, Throw ReferenceError) ∧
  Ws.subscribe (js "Speed") ws_page = (ws_page, Throw ReferenceError) ∧
  Ws.unsubscribe JNull ws_page = (ws_page, Throw ReferenceError).
Proof. split; [reflexivity|]. by apply unsent_requests. Defined.

(** ** The requests of the REST client *)

(** The REST client logs the value it is asked to set, but the POST
    request it sends carries the text 123 whatever that value is. *)
Theorem rest_set_body path value v p l :
  String_of value = Some v → logs p !! "rest-send-log-list"%string = Some l →
  let p' := (Rest.requestSet path value p).1 in
  requests p' = requests p ++ [Ajax "POST" (Rest.base_url ++ path) (Some (js "123"))] ∧
  logs p' !! "rest-send-log-list"%string = Some (l ++ [path ++ js ", data: " ++ v]).
Proof.
  intros Hv Hl p'. unfold p', Rest.requestSet, Rest.addLog, append_log, to_string.
  rewrite Hv. unfold mbind, jsM_bind, mret, jsM_ret, mget, mupdate. cbn [String_of]. rewrite Hl.
  cbn [fst snd]. split; [done|]. cbn [logs add_log_item add_request Rest.send_post_request].
  unfold Rest.send_post_request, mupdate. cbn [fst logs add_request add_log_item].
  by rewrite lookup_alter_eq, Hl.
Qed.

Definition rest_page : page :=
  Page false [("Speed", "#rest-speedometer")]%string None None [] [] []
    {[ "rest-receive-log-list"%string := []; "rest-send-log-list"%string := [] ]}
    {[ "#rest-speedometer"%string := [] ]} [] [].

Lemma rest_set_body_witness :
  requests (Rest.requestSet (js "IsOpen") (JNum (double_of_Z 3)) rest_page).1 =
    requests rest_page ++ [Ajax "POST" (Rest.base_url ++ js "IsOpen") (Some (js "123"))] ∧
  logs (Rest.requestSet (js "IsOpen") (JNum (double_of_Z 3)) rest_page).1 !! "rest-send-log-list"%string =
    Some ([] ++ [js "IsOpen" ++ js ", data: " ++ js "3"]).
Proof. apply rest_set_body; [vm_compute; reflexivity|reflexivity]. Defined.

End W3cClient.
