(* ===== verification/ClientPages.v ===== *)
(** * The client pages: wsclient.html, httpclient.html, agtclient.html and
    atclient.html

    Each page is a few input boxes, an output area and a script.  The scripts
    are handlers on the variables of the page; sockets and requests are objects
    of the browser, which reports what becomes of them in later steps.

    Output is written with [innerHTML +=]: the area is read as markup, extended,
    and parsed again.  What comes back for a text is the parameter [html]; HTML
    leaves texts without special characters as they are ([Markup]). *)

From S2P Require Import Prelude JsString.
Local Open Scope Z_scope.
Local Open Scope list_scope.

(** Units that a parser of HTML may change: NUL, carriage return, [&], [<], [>]
    and the no-break space. *)
Definition special (c : Z) : bool := bool_decide (c ∈ [0; 13; 38; 60; 62; 160]).
Definition plain (s : jsstring) : Prop := Forall (λ c, special c = false) s.

Class Markup := {
  html : jsstring → jsstring;
  html_plain : ∀ s, plain s → html s = s
}.
Definition no_markup : Markup := {| html := id; html_plain := λ _ _, eq_refl |}.

Lemma plain_app s t : plain s → plain t → plain (s ++ t).
Proof. intros. by apply Forall_app. Qed.

(** Lines, each with its line feed. *)
Definition text_of (lines : list jsstring) : jsstring := mjoin ((λ l, l ++ [10]) <$> lines).
Definition is_line (l : jsstring) : Prop := plain l ∧ 10 ∉ l.

Lemma text_of_snoc ls l : text_of (ls ++ [l]) = text_of ls ++ l ++ [10].
Proof. unfold text_of. rewrite fmap_app, join_app. simpl. by rewrite app_nil_r. Qed.
Lemma text_of_plain ls : Forall is_line ls → plain (text_of ls).
Proof.
  induction 1 as [|l ls [Hl _] _ IH]; [constructor|]. unfold text_of. cbn. apply plain_app; [|exact IH].
  apply plain_app; [done|]. by repeat constructor.
Qed.
(** The lines can be read off the text. *)
Lemma split_text ls : Forall is_line ls → split_on 10 (text_of ls) = ls ++ [[]].
Proof.
  induction 1 as [|l ls [_ Hl] _ IH]; [done|].
  change (text_of (l :: ls)) with ((l ++ [10]) ++ text_of ls). rewrite <- app_assoc. cbn [app].
  rewrite split_on_app by done. by rewrite IH.
Qed.

Lemma filter_on {A} (P Q : A → Prop) `{∀ x, Decision (P x), ∀ x, Decision (Q x)} (l : list A) :
  (∀ x, x ∈ l → P x ↔ Q x) → filter P l = filter Q l.
Proof.
  induction l as [|x l IH]; intros Hl; [done|]. rewrite !filter_cons, IH by (intros y Hy; apply Hl; by right).
  destruct (Hl x ltac:(by left)). repeat case_decide; tauto.
Qed.

(** ** Transcripts *)

Section transcript.
Context `{M : Markup}.

Definition server : jsstring := js "Server: ".
(** What a reader takes from an output area. *)
Definition server_lines (o : jsstring) : list jsstring :=
  drop 8 <$> filter (λ l, startsWith l server = true) (split_on 10 o).

(** The area holds whole lines, and those of the server are the texts [r]. *)
Definition shows (o : jsstring) (r : list jsstring) : Prop := ∃ ls,
  o = text_of ls ∧ Forall is_line ls ∧ drop 8 <$> filter (λ l, startsWith l server = true) ls = r.

Lemma shows_line l o r :
  is_line l → shows o r → shows (html (o ++ l ++ [10])) (r ++ if startsWith l server then [drop 8 l] else []).
Proof.
  intros Hl (ls & -> & Hls & Hr). exists (ls ++ [l]).
  assert (Hall : Forall is_line (ls ++ [l])) by (apply Forall_app; auto).
  rewrite <- text_of_snoc, html_plain by (by apply text_of_plain). split; [done|]. split; [done|].
  rewrite filter_app, fmap_app, Hr, filter_cons. f_equal.
  destruct (startsWith l server); [by rewrite decide_True|by rewrite decide_False].
Qed.
Lemma is_line_js s : forallb (λ c, negb (special c) && negb (c =? 10)) (js s) = true → is_line (js s).
Proof.
  intros H. rewrite forallb_forall in H. split.
  - apply Forall_forall. intros c Hc%list_elem_of_In. specialize (H c Hc). by destruct (special c).
  - intros Hc%list_elem_of_In. specialize (H 10 Hc). by rewrite andb_false_r in H.
Qed.
(** A fixed line, and a text of the server. *)
Lemma shows_fixed s o r :
  forallb (λ c, negb (special c) && negb (c =? 10)) (js s) = true → startsWith (js s) server = false →
  shows o r → shows (html (o ++ js s ++ [10])) r.
Proof.
  intros Hs Hn Ho. pose proof (shows_line (js s) o r (is_line_js s Hs) Ho) as H. by rewrite Hn, app_nil_r in H.
Qed.
Lemma shows_server data o r : is_line data → shows o r → shows (html (o ++ server ++ data ++ [10])) (r ++ [data]).
Proof.
  intros [H3 H4] Ho. destruct (is_line_js "Server: " eq_refl) as [H1 H2].
  rewrite (app_assoc server). apply (shows_line (server ++ data)); [|done]. split; [by apply plain_app|set_solver].
Qed.
Lemma shows_read o r : shows o r → server_lines o = r.
Proof.
  intros (ls & -> & Hls & Hr). unfold server_lines. rewrite split_text, filter_app, fmap_app, Hr by done.
  by rewrite app_nil_r.
Qed.
Lemma shows_nothing : shows [] [].
Proof. by exists []. Qed.
End transcript.

(** ** wsclient.html *)

Module WsClient.

Inductive sock := CONNECTING | OPEN | CLOSED.
#[export] Instance sock_eq_dec : EqDecision sock.
Proof. solve_decision. Defined.
Record socket := Socket { s_url : jsstring; s_state : sock; s_sent : list jsstring }.

(** Lines 29 to 34, with the boxes and the output area; [current] is the
    variable [socket]. *)
Record page := Page {
  hostIP : jsstring;
  sessionOpen : bool;
  current : option nat;
  sockets : list socket;
  host_box : jsstring;
  input : jsstring;
  output : jsstring
}.
Definition unknown : jsstring := js "Host unknown".
Definition initial : page := Page unknown false None [] [] [] [].

Definition set_host (v : jsstring) (p : page) : page :=
  Page v (sessionOpen p) (current p) (sockets p) (host_box p) (input p) (output p).
Definition set_input (v : jsstring) (p : page) : page :=
  Page (hostIP p) (sessionOpen p) (current p) (sockets p) (host_box p) v (output p).
Definition set_box (v : jsstring) (p : page) : page :=
  Page (hostIP p) (sessionOpen p) (current p) (sockets p) v (input p) (output p).
Definition set_sockets (l : list socket) (p : page) : page :=
  Page (hostIP p) (sessionOpen p) (current p) l (host_box p) (input p) (output p).
Definition set_current (i : nat) (p : page) : page :=
  Page (hostIP p) true (Some i) (sockets p) (host_box p) (input p) (output p).
Definition set_output (o : jsstring) (p : page) : page :=
  Page (hostIP p) (sessionOpen p) (current p) (sockets p) (host_box p) (input p) o.

Section pages.
Context `{M : Markup} (valid_url : jsstring → bool).

Abbreviation handler := (jsM page).

Definition print (s : jsstring) : handler () := mupdate (λ p, set_output (html (output p ++ s)) p).

(** [socket.send(text)] *)
Definition socket_send (i : nat) (text : jsstring) : handler () :=
  s ← mget (λ p, sockets p !! i);
  match s with
  | None => mthrow TypeError
  | Some s =>
      match s_state s with
      | CONNECTING => mthrow (ErrorMsg "InvalidStateError")
      | OPEN => mupdate (λ p, set_sockets (<[i := Socket (s_url s) OPEN (s_sent s ++ [text])]> (sockets p)) p)
      | CLOSED => mret ()
      end
  end.

(** Lines 37 to 47. *)
Definition send : handler () :=
  host ← mget hostIP;
  if bool_decide (host = unknown) then
    _ ← print (js "Host unknown. Please specify." ++ [10]);
    mupdate (set_input [])
  else
    open ← mget sessionOpen;
    if (open : bool) then
      s ← mget current;
      text ← mget input;
      _ ← match s with Some i => socket_send i text | None => mthrow TypeError end;
      mupdate (set_input [])
    else mret ().

(** Lines 53 to 65. *)
Definition setHostIP : handler () :=
  _ ← mupdate (λ p, set_host (host_box p) p);
  host ← mget hostIP;
  let url := js "ws://" ++ host ++ js ":8080" in
  if valid_url url then
    _ ← mupdate (λ p, set_sockets (sockets p ++ [Socket url CONNECTING []]) p);
    mupdate (λ p, set_current (pred (length (sockets p))) p)
  else mthrow (ErrorMsg "SyntaxError").

(** Lines 57 to 63: what a socket reports. *)
Definition onopen : handler () := print (js "Status: Connected" ++ [10]).
Definition onmessage (data : jsstring) : handler () := print (server ++ data ++ [10]).

(** What the user and the network do. *)
Inductive step :=
  | TypeHost (v : jsstring) | ClickHost | TypeInput (v : jsstring) | ClickSend
  | Opened (i : nat) | Message (i : nat) (data : jsstring) | Closed (i : nat).

Definition set_state (i : nat) (st : sock) : handler () :=
  mupdate (λ p, set_sockets (alter (λ s, Socket (s_url s) st (s_sent s)) i (sockets p)) p).
Definition state_of (p : page) (i : nat) : option sock := s_state <$> sockets p !! i.
(** A message comes only from an open socket, and a socket opens once. *)
Definition act (x : step) : handler () :=
  match x with
  | TypeHost v => mupdate (set_box v)
  | ClickHost => setHostIP
  | TypeInput v => mupdate (set_input v)
  | ClickSend => send
  | Opened i =>
      st ← mget (λ p, state_of p i);
      mguard (bool_decide (st = Some CONNECTING)) (set_state i OPEN ;; onopen)
  | Message i data =>
      st ← mget (λ p, state_of p i);
      mguard (bool_decide (st = Some OPEN)) (onmessage data)
  | Closed i => set_state i CLOSED
  end.

(** The texts of the server, in the order in which they arrived. *)
Definition arrived (p : page) (x : step) : list jsstring :=
  match x with
  | Message i data => if bool_decide (state_of p i = Some OPEN) then [data] else []
  | _ => []
  end.
Fixpoint run (p : page) (received : list jsstring) (xs : list step) : page * list jsstring :=
  match xs with
  | [] => (p, received)
  | x :: xs => run (act x p).1 (received ++ arrived p x) xs
  end.

(** ** The transcript *)

Lemma socket_send_output i t p : output (socket_send i t p).1 = output p.
Proof. unfold socket_send, mbind, jsM_bind, mget. cbn. destruct (sockets p !! i) as [s|]; [|done]. by destruct (s_state s). Qed.
Lemma setHostIP_output p : output (setHostIP p).1 = output p.
Proof. unfold setHostIP, mbind, jsM_bind, mget, mupdate. cbn. by case_match. Qed.

(** Texts of the server that are single lines without special characters. *)
Definition clean (x : step) : Prop := match x with Message _ data => is_line data | _ => True end.
Lemma act_shows x p r : clean x → shows (output p) r → shows (output (act x p).1) (r ++ arrived p x).
Proof.
  intros Hx Hs. destruct x as [v| |v| |i|i data|i]; cbn [act arrived]; rewrite ?app_nil_r; try done.
  - by rewrite setHostIP_output.
  - unfold send, mbind at 1, jsM_bind at 1, mget at 1. case_bool_decide.
    + by apply (shows_fixed "Host unknown. Please specify.").
    + unfold mbind, jsM_bind, mget. destruct (sessionOpen p); [|done].
      destruct (current p) as [i|]; [|done]. pose proof (socket_send_output i (input p) p) as E.
      destruct (socket_send i (input p) p) as [p' [[]|]]; cbn [fst mupdate set_input output] in *; by rewrite E.
  - unfold mbind at 1, jsM_bind at 1, mget at 1. case_bool_decide; cbn [mguard]; [|done].
    by apply (shows_fixed "Status: Connected").
  - unfold mbind at 1, jsM_bind at 1, mget at 1. case_bool_decide; cbn [mguard]; [|by rewrite app_nil_r].
    by apply (shows_server data).
Qed.

(** C20. Whatever the user does and however often the page is connected, the output
    area shows every text of the server once, in the order of arrival, as long as
    the texts are single lines without characters that HTML treats specially. *)
Theorem ws_transcript xs :
  Forall clean xs →
  let '(p, received) := run initial [] xs in server_lines (output p) = received.
Proof.
  intros Hxs. assert (H : ∀ p r, shows (output p) r → shows (output (run p r xs).1) (run p r xs).2).
  { induction Hxs as [|x xs Hx Hxs IH]; intros p r Hs; [done|]. cbn [run]. by apply IH, act_shows. }
  specialize (H initial [] shows_nothing). destruct (run initial [] xs) as [p r]. by apply shows_read.
Qed.

(** ** Sending *)

(** The variable [socket] is set before the session counts as open. *)
Definition linked (p : page) : Prop :=
  sessionOpen p = true → ∃ i s, current p = Some i ∧ sockets p !! i = Some s.

Lemma linked_same p p' :
  sessionOpen p' = sessionOpen p → current p' = current p →
  (∀ i, is_Some (sockets p !! i) → is_Some (sockets p' !! i)) → linked p → linked p'.
Proof.
  intros H1 H2 H3 Hl. unfold linked. rewrite H1, H2. intros (i & s & Hi & Hs)%Hl.
  destruct (H3 i ltac:(by eexists)) as [s' Hs']. by exists i, s'.
Qed.
Lemma linked_print s p : linked p → linked (print s p).1.
Proof. by apply linked_same. Qed.
Lemma linked_state i st p : linked p → linked (set_state i st p).1.
Proof. apply linked_same; [done..|]. intros j Hj. cbn. rewrite list_lookup_alter. case_decide; subst; by rewrite ?fmap_is_Some. Qed.
Lemma linked_socket_send i t p : linked p → linked (socket_send i t p).1.
Proof.
  unfold socket_send, mbind, jsM_bind, mget. cbn. destruct (sockets p !! i) as [s|]; [|done].
  destruct (s_state s); [done| |done]. apply linked_same; [done..|]. intros j Hj. cbn.
  apply lookup_lt_is_Some. rewrite length_insert. by apply lookup_lt_is_Some.
Qed.
Lemma linked_send p : linked p → linked (send p).1.
Proof.
  intros Hl. unfold send, mbind, jsM_bind, mget. cbn. case_bool_decide; [by apply (linked_same p)|].
  destruct (sessionOpen p); [|done]. destruct (current p) as [i|]; [|done].
  pose proof (linked_socket_send i (input p) p Hl). by destruct (socket_send i (input p) p) as [p' [[]|]].
Qed.
Lemma linked_host p : linked p → linked (setHostIP p).1.
Proof.
  intros Hl. unfold setHostIP, mbind, jsM_bind, mget, mupdate. cbn. case_match; [|done]. intros _. cbn.
  rewrite length_app. cbn. replace (pred (length (sockets p) + 1)) with (length (sockets p)) by lia.
  eexists _, _. split; [done|]. by apply list_lookup_middle.
Qed.
Lemma act_linked x p : linked p → linked (act x p).1.
Proof.
  intros Hl. destruct x as [v| |v| |i|i data|i]; cbn [act]; auto using linked_host, linked_send, linked_state.
  all: unfold mbind at 1, jsM_bind at 1, mget at 1; case_bool_decide; cbn [mguard]; [|done].
  - apply (linked_same (set_state i OPEN p).1); [done..|]. by apply linked_state.
  - by apply linked_print.
Qed.
Lemma run_linked xs p r : linked p → linked (run p r xs).1.
Proof. revert p r. induction xs as [|x xs IH]; intros p r Hl; [done|]. cbn [run]. by apply IH, act_linked. Qed.

(** What a click on Send comes to, on every page that can be reached: without a
    host the text is thrown away with a message; without a session nothing
    happens; while the socket connects the call throws and the text stays; on an
    open socket the text is sent and the box emptied; on a closed socket the box
    is emptied although nothing is sent. *)
Theorem send_outcome xs :
  let p := (run initial [] xs).1 in
  let '(p', r) := send p in
  if bool_decide (hostIP p = unknown) then r = Ret () ∧ input p' = [] ∧ sockets p' = sockets p
  else if sessionOpen p then ∃ i s, current p = Some i ∧ sockets p !! i = Some s ∧
    match s_state s with
    | CONNECTING => r = Throw (ErrorMsg "InvalidStateError") ∧ p' = p
    | OPEN => r = Ret () ∧ input p' = [] ∧
        sockets p' = <[i := Socket (s_url s) OPEN (s_sent s ++ [input p])]> (sockets p)
    | CLOSED => r = Ret () ∧ input p' = [] ∧ sockets p' = sockets p
    end
  else r = Ret () ∧ p' = p.
Proof.
  intros p. assert (Hl : linked p) by (by apply run_linked). clearbody p.
  unfold send, mbind, jsM_bind, mget. cbn. case_bool_decide; [done|]. destruct (sessionOpen p) eqn:Eo; [|done].
  destruct (Hl Eo) as (i & s & Hi & Hs). rewrite Hi. unfold socket_send, mbind, jsM_bind, mget. cbn. rewrite Hs.
  destruct (s_state s) eqn:Es; exists i, s; by rewrite Es.
Qed.

End pages.

(** Two hosts one after the other: the first one goes on talking. *)
Definition two_hosts : list step :=
  [TypeHost (js "10.0.0.1"); ClickHost; Opened 0; TypeHost (js "10.0.0.2"); ClickHost; Opened 1;
   Message 1 (js "b"); Message 0 (js "a"); TypeInput (js "{}"); ClickSend].
Lemma ws_transcript_witness :
  let '(p, received) := run (M:=no_markup) (λ _, true) initial [] two_hosts in
  server_lines (output p) = received ∧ received = [js "b"; js "a"].
Proof.
  pose proof (ws_transcript (M:=no_markup) (λ _, true) two_hosts) as H.
  assert (Hc : Forall clean two_hosts).
  { repeat constructor; try (by apply is_line_js). all: vm_compute; intros Hin; by repeat (apply elem_of_cons in Hin as [Hin|Hin]; [discriminate|]); apply elem_of_nil in Hin. }
  specialize (H Hc). destruct (run (M:=no_markup) (λ _, true) initial [] two_hosts) as [p r] eqn:E. split; [exact H|].
  apply (f_equal snd) in E. vm_compute in E. symmetry. exact E.
Defined.

End WsClient.

(** ** httpclient.html *)

Module HttpClient.

Inductive method := GET | POST.
#[export] Instance method_eq_dec : EqDecision method.
Proof. solve_decision. Defined.

(** A request object that has been opened. *)
Record request := Request {
  r_method : method;
  r_url : jsstring;
  r_auth : option jsstring;      (* the header Authorization *)
  r_body : option jsstring;      (* [None] is null *)
  r_sent : bool
}.
#[export] Instance request_eq_dec : EqDecision request.
Proof. solve_decision. Defined.

(** Lines 39 to 47, with the boxes and the output areas. *)
Record page := Page {
  hostIP : jsstring;
  host_box : jsstring;
  post_path : jsstring;
  post_value : jsstring;
  get_path : jsstring;
  token : jsstring;
  insertToken : bool;
  post_output : jsstring;
  get_output : jsstring;
  requests : list request
}.
Definition unknown : jsstring := js "Host unknown".
Definition initial : page := Page unknown [] [] [] [] [] false [] [] [].

Definition set_host (v : jsstring) (p : page) : page :=
  Page v (host_box p) (post_path p) (post_value p) (get_path p) (token p) (insertToken p) (post_output p) (get_output p) (requests p).
Definition set_boxes (h pp pv gp t : jsstring) (b : bool) (p : page) : page :=
  Page (hostIP p) h pp pv gp t b (post_output p) (get_output p) (requests p).
Definition set_output (m : method) (o : jsstring) (p : page) : page :=
  Page (hostIP p) (host_box p) (post_path p) (post_value p) (get_path p) (token p) (insertToken p)
    (if bool_decide (m = POST) then o else post_output p) (if bool_decide (m = GET) then o else get_output p) (requests p).
Definition set_requests (l : list request) (p : page) : page :=
  Page (hostIP p) (host_box p) (post_path p) (post_value p) (get_path p) (token p) (insertToken p) (post_output p) (get_output p) l.
Definition output (m : method) (p : page) : jsstring := match m with POST => post_output p | GET => get_output p end.

Section pages.
Context `{M : Markup} (valid_url valid_header : jsstring → bool).
Abbreviation handler := (jsM page).

Definition print (m : method) (s : jsstring) : handler () := mupdate (λ p, set_output m (html (output m p ++ s)) p).

(** Lines 56 to 62 and 83 to 89. *)
Definition onreadystatechange (m : method) (readyState status : Z) (responseText : jsstring) : handler () :=
  if (readyState =? 4) && (status =? 200) then print m (server ++ responseText ++ [10])
  else print m (js "Server: readyState=" ++ js_of_Z readyState ++ js ", status=" ++ js_of_Z status ++ [10]).

(** [xhttp.open(m, url, true)], which reports the state 1 at once. *)
Definition open (m : method) (url : jsstring) : handler () :=
  if valid_url url then
    _ ← mupdate (λ p, set_requests (requests p ++ [Request m url None None false]) p);
    onreadystatechange m 1 0 []
  else mthrow (ErrorMsg "SyntaxError").
(** The object that was opened last. *)
Definition on_last (f : request → request) : handler () :=
  mupdate (λ p, set_requests (alter f (pred (length (requests p))) (requests p)) p).
Definition setRequestHeader (v : jsstring) : handler () :=
  if valid_header v then on_last (λ r, Request (r_method r) (r_url r) (Some v) (r_body r) (r_sent r))
  else mthrow (ErrorMsg "SyntaxError").
Definition xhr_send (body : option jsstring) : handler () :=
  on_last (λ r, Request (r_method r) (r_url r) (r_auth r) body true).

Definition address (host path : jsstring) : jsstring := js "http://" ++ host ++ js ":8888/" ++ path.
Definition refuse (m : method) : handler () := print m (js "Host unknown. Please specify.").

(** Lines 50 to 71; line 66 names a variable of the other function. *)
Definition sendPost : handler () :=
  host ← mget hostIP;
  if bool_decide (host = unknown) then refuse POST
  else
    params ← mget post_value;
    path ← mget post_path;
    _ ← open POST (address host path);
    ticked ← mget insertToken;
    if (ticked : bool) then mthrow ReferenceError
    else
      _ ← xhr_send (Some params);
      mupdate (λ p, set_boxes (host_box p) [] [] (get_path p) (token p) (insertToken p) p).

(** Lines 77 to 96. *)
Definition sendGet : handler () :=
  host ← mget hostIP;
  if bool_decide (host = unknown) then refuse GET
  else
    path ← mget get_path;
    _ ← open GET (address host path);
    ticked ← mget insertToken;
    t ← mget token;
    _ ← mguard ticked (setRequestHeader t);
    _ ← xhr_send None;
    mupdate (λ p, set_boxes (host_box p) (post_path p) (post_value p) [] (token p) (insertToken p) p).

(** Lines 102 to 104. *)
Definition setHostIP : handler () := mupdate (λ p, set_host (host_box p) p).

Inductive step :=
  | Fill (h pp pv gp t : jsstring) (ticked : bool)
  | ClickHost | ClickPost | ClickGet
  | Report (i : nat) (readyState status : Z) (responseText : jsstring).
Definition act (x : step) : handler () :=
  match x with
  | Fill h pp pv gp t b => mupdate (set_boxes h pp pv gp t b)
  | ClickHost => setHostIP
  | ClickPost => sendPost
  | ClickGet => sendGet
  | Report i rs st text =>
      r ← mget (λ p, requests p !! i);
      match r with Some r => onreadystatechange (r_method r) rs st text | None => mret () end
  end.
Definition run (p : page) (xs : list step) : page := foldl (λ p x, (act x p).1) p xs.

(** ** What is sent *)

Definition sent (p : page) : list request := filter (λ r, r_sent r = true) (requests p).
(** What the boxes ask for when a button is clicked. *)
Definition asked (p : page) (x : step) : list request :=
  let auth := if insertToken p then Some (token p) else None in
  let ask (r : request) := if bool_decide (hostIP p = unknown) || negb (valid_url (r_url r)) then [] else [r] in
  match x with
  | ClickPost => ask (Request POST (address (hostIP p) (post_path p)) auth (Some (post_value p)) true)
  | ClickGet => ask (Request GET (address (hostIP p) (get_path p)) auth None true)
  | _ => []
  end.
Fixpoint asked_all (p : page) (xs : list step) : list request :=
  match xs with [] => [] | x :: xs => asked p x ++ asked_all (act x p).1 xs end.

Definition post_with_token (r : request) : bool := bool_decide (r_method r = POST ∧ r_auth r ≠ None).
Definition bad_token (r : request) : bool := match r_auth r with Some t => negb (valid_header t) | None => false end.

Lemma sent_snoc l r : filter (λ r, r_sent r = true) (l ++ [r]) =
  filter (λ r, r_sent r = true) l ++ if r_sent r then [r] else [].
Proof. rewrite filter_app. f_equal. rewrite filter_cons. by destruct (r_sent r). Qed.
Lemma requests_print m s p : requests (print m s p).1 = requests p.
Proof. done. Qed.
Lemma ready_requests m rs st t p :
  ∃ o, onreadystatechange m rs st t p = (set_output m o p, Ret ()).
Proof. unfold onreadystatechange. case_match; by eexists. Qed.
Lemma alter_last (f : request → request) l r : alter f (pred (length (l ++ [r]))) (l ++ [r]) = l ++ [f r].
Proof.
  rewrite length_app. cbn [length]. replace (pred (length l + 1)) with (length l + 0)%nat by lia. by rewrite alter_app_r.
Qed.

(** Opening a request object. *)
Lemma open_run m url p : valid_url url = true →
  ∃ o, open m url p = (set_output m o (set_requests (requests p ++ [Request m url None None false]) p), Ret ()).
Proof. intros Hv. unfold open. rewrite Hv. apply ready_requests. Qed.

(** What the two buttons send. *)
Lemma post_sends p :
  sent (sendPost p).1 = sent p ++ filter (λ r, post_with_token r = false) (asked p ClickPost).
Proof.
  unfold sendPost, asked, mbind, jsM_bind, mget. cbn [r_url]. case_bool_decide as Hh; cbn [orb]; [by rewrite app_nil_r|].
  destruct (valid_url (address (hostIP p) (post_path p))) eqn:Hv; cbn [negb].
  - destruct (open_run POST _ p Hv) as (o & ->). cbn [insertToken set_output set_requests].
    destruct (insertToken p).
    + unfold mthrow, sent. cbn [fst requests set_output set_requests]. rewrite sent_snoc. cbn. done.
    + unfold xhr_send, on_last, mupdate, sent. cbn [fst requests set_output set_requests set_boxes].
      rewrite alter_last, sent_snoc. done.
  - unfold open. rewrite Hv. by rewrite app_nil_r.
Qed.
Lemma get_sends p :
  sent (sendGet p).1 = sent p ++ filter (λ r, bad_token r = false) (asked p ClickGet).
Proof.
  unfold sendGet, asked, mbind, jsM_bind, mget. cbn [r_url]. case_bool_decide as Hh; cbn [orb]; [by rewrite app_nil_r|].
  destruct (valid_url (address (hostIP p) (get_path p))) eqn:Hv; cbn [negb].
  - destruct (open_run GET _ p Hv) as (o & ->). cbn [insertToken set_output set_requests token].
    rewrite filter_cons. unfold bad_token. cbn [r_auth].
    destruct (insertToken p); cbn [mguard].
    + unfold setRequestHeader. destruct (valid_header (token p)); cbn [negb].
      * unfold xhr_send, on_last, mupdate, sent. cbn [fst requests set_output set_requests set_boxes].
        rewrite !alter_last, sent_snoc. done.
      * unfold mthrow, sent. cbn [fst requests set_output set_requests]. by rewrite sent_snoc.
    + unfold xhr_send, on_last, mupdate, mret, jsM_ret, sent. cbn [fst requests set_output set_requests set_boxes].
      rewrite alter_last, sent_snoc. done.
  - unfold open. rewrite Hv. by rewrite app_nil_r.
Qed.
Lemma asked_kind p x r : r ∈ asked p x →
  (x = ClickPost ∧ r_method r = POST) ∨ (x = ClickGet ∧ r_method r = GET).
Proof. destruct x; cbn; try case_match; set_solver. Qed.

(** Requests that do not reach the server. *)
Definition lost (r : request) : bool :=
  post_with_token r || (bool_decide (r_method r = GET) && bad_token r).

Lemma act_sends p x : sent (act x p).1 = sent p ++ filter (λ r, lost r = false) (asked p x).
Proof.
  destruct x as [h pp pv gp t b| | | |i rs st text]; cbn [act].
  - by rewrite app_nil_r.
  - by rewrite app_nil_r.
  - rewrite post_sends. f_equal. apply filter_on. intros r Hr. destruct (asked_kind _ _ _ Hr) as [[_ Hm]|[? _]]; [|done].
    unfold lost. rewrite Hm. cbn. by rewrite orb_false_r.
  - rewrite get_sends. f_equal. apply filter_on. intros r Hr. destruct (asked_kind _ _ _ Hr) as [[? _]|[_ Hm]]; [done|].
    unfold lost, post_with_token. rewrite Hm. cbn. by rewrite bool_decide_false by naive_solver.
  - rewrite app_nil_r. unfold mbind, jsM_bind, mget. destruct (requests p !! i) as [r|]; [|done].
    by destruct (ready_requests (r_method r) rs st text p) as [o ->].
Qed.

(** C19. The server gets exactly the requests that the boxes asked for at a click on
    POST or GET with a known host and a valid address, in this order, except that
    a POST for which a token is to be inserted is never sent, nor is a GET whose
    token the browser refuses as a header. *)
Theorem http_requests xs : sent (run initial xs) = filter (λ r, lost r = false) (asked_all initial xs).
Proof.
  assert (H : ∀ p, sent (run p xs) = sent p ++ filter (λ r, lost r = false) (asked_all p xs)).
  { induction xs as [|x xs IH]; intros p; [by rewrite app_nil_r|]. cbn [run foldl asked_all]. fold (run (act x p).1 xs).
    by rewrite IH, act_sends, filter_app, app_assoc. }
  apply (H initial).
Qed.

(** A POST with a token fails on every page with a known host and a valid
    address: the call throws, the request that was opened is not sent, and the
    boxes keep their contents. *)
Theorem post_with_token_fails p :
  hostIP p ≠ unknown → valid_url (address (hostIP p) (post_path p)) = true → insertToken p = true →
  let '(p', r) := sendPost p in
  r = Throw ReferenceError ∧ sent p' = sent p ∧ post_path p' = post_path p ∧ post_value p' = post_value p ∧
  ∃ o, p' = set_output POST o (set_requests (requests p ++ [Request POST (address (hostIP p) (post_path p)) None None false]) p).
Proof.
  intros Hh Hv Ht. pose proof (post_sends p) as Hs. unfold sendPost, mbind, jsM_bind, mget in *.
  rewrite bool_decide_false in * by done. destruct (open_run POST _ p Hv) as (o & Eo). rewrite Eo in *.
  cbn [insertToken set_output set_requests] in *. rewrite Ht in *. cbn [mthrow fst] in *.
  split; [done|]. split; [|by eauto]. unfold sent. cbn [requests set_output set_requests]. rewrite sent_snoc. by rewrite app_nil_r.
Qed.

End pages.

(** Set the host, read with a token, try to write with it, write without. *)
Definition visit : list step :=
  [ClickPost; Fill (js "car") [] [] (js "Vehicle/Speed") (js "t1") true; ClickHost; ClickGet;
   Fill (js "car") (js "Vehicle/Cabin") (js "{}") [] (js "t1") true; ClickPost; Report 0 4 200 (js "9");
   Fill (js "car") (js "Vehicle/Cabin") (js "{}") [] (js "t1") false; ClickPost].
Example http_visit :
  sent (run (M:=no_markup) (λ _, true) (λ _, true) initial visit) =
    [Request GET (js "http://car:8888/Vehicle/Speed") (Some (js "t1")) None true;
     Request POST (js "http://car:8888/Vehicle/Cabin") None (Some (js "{}")) true].
Proof.
  vm_compute. reflexivity.
Qed.
Definition writing : page :=
  Page (js "car") (js "car") (js "Vehicle/Cabin") (js "{}") [] (js "t1") true [] [] [].
Lemma post_with_token_fails_witness :
  let '(p', r) := sendPost (M:=no_markup) (λ _, true) writing in
  r = Throw ReferenceError ∧ sent p' = [] ∧ post_value p' = js "{}".
Proof.
  pose proof (post_with_token_fails (M:=no_markup) (λ _, true) writing ltac:(done) eq_refl eq_refl) as H.
  destruct (sendPost (M:=no_markup) (λ _, true) writing) as [p' r]. destruct H as (-> & -> & _ & -> & _). done.
Defined.

End HttpClient.

(** ** agtclient.html and atclient.html

    The clients of the two servers of tokens differ in the port. *)

Module TokenClient.

(** Lines 30 to 34, with the boxes. *)
Record page := Page {
  hostIP : jsstring;
  host_box : jsstring;
  post_path : jsstring;
  post_value : jsstring;
  output : jsstring;
  console : list jsstring;
  requests : list (jsstring * jsstring)     (* address and body *)
}.
Definition initial : page := Page (js "localhost") [] [] [] [] [] [].

Section pages.
Context `{M : Markup} (port : string) (valid_url : jsstring → bool).
Abbreviation handler := (jsM page).

Definition address (host path : jsstring) : jsstring := js "http://" ++ host ++ js ":" ++ js port ++ js "/" ++ path.

Definition log (s : jsstring) : handler () :=
  mupdate (λ p, Page (hostIP p) (host_box p) (post_path p) (post_value p) (output p) (console p ++ [s]) (requests p)).
(** Lines 39 to 43; the state 1 that opening reports prints nothing. *)
Definition onreadystatechange (readyState status : Z) (responseText : jsstring) : handler () :=
  mguard ((readyState =? 4) && (status =? 201))
    (mupdate (λ p, Page (hostIP p) (host_box p) (post_path p) (post_value p)
       (html (output p ++ server ++ responseText ++ [10])) (console p) (requests p))).
(** Lines 37 to 52. *)
Definition sendPost : handler () :=
  params ← mget post_value;
  _ ← log (js "params: " ++ params);
  path ← mget post_path;
  _ ← log (js "postpath: " ++ path);
  host ← mget hostIP;
  if valid_url (address host path) then
    _ ← onreadystatechange 1 0 [];
    mupdate (λ p, Page (hostIP p) (host_box p) [] [] (output p) (console p) (requests p ++ [(address host path, params)]))
  else mthrow (ErrorMsg "SyntaxError").
(** Lines 58 to 60. *)
Definition setHostIP : handler () :=
  mupdate (λ p, Page (host_box p) (host_box p) (post_path p) (post_value p) (output p) (console p) (requests p)).

Inductive step :=
  | Fill (h pp pv : jsstring) | ClickHost | ClickPost
  | Report (i : nat) (readyState status : Z) (responseText : jsstring).
Definition act (x : step) : handler () :=
  match x with
  | Fill h pp pv => mupdate (λ p, Page (hostIP p) h pp pv (output p) (console p) (requests p))
  | ClickHost => setHostIP
  | ClickPost => sendPost
  | Report i rs st text => onreadystatechange rs st text
  end.
Definition run (p : page) (xs : list step) : page := foldl (λ p x, (act x p).1) p xs.

(** The tokens that a server has granted, and the requests that were made. *)
Definition granted (x : step) : list jsstring :=
  match x with Report _ rs st text => if (rs =? 4) && (st =? 201) then [text] else [] | _ => [] end.
Definition clean (x : step) : Prop := match x with Report _ _ _ text => is_line text | _ => True end.
Definition asked (p : page) (x : step) : list (jsstring * jsstring) :=
  match x with
  | ClickPost => let a := address (hostIP p) (post_path p) in if valid_url a then [(a, post_value p)] else []
  | _ => []
  end.
Fixpoint asked_all (p : page) (xs : list step) : list (jsstring * jsstring) :=
  match xs with [] => [] | x :: xs => asked p x ++ asked_all (act x p).1 xs end.

Lemma act_steps x p r :
  clean x → shows (output p) r →
  shows (output (act x p).1) (r ++ granted x) ∧ requests (act x p).1 = requests p ++ asked p x.
Proof.
  intros Hx Hs. destruct x as [h pp pv| | |i rs st text]; cbn [act granted asked]; rewrite ?app_nil_r; try done.
  - unfold sendPost, log, onreadystatechange, mbind, jsM_bind, mget, mupdate. cbn [hostIP post_path post_value].
    destruct (valid_url _); cbn; rewrite ?app_nil_r; done.
  - unfold onreadystatechange. destruct ((rs =? 4) && (st =? 201)); cbn [mguard]; rewrite ?app_nil_r; [|done].
    split; [|done]. by apply shows_server.
Qed.

(** The clients of the token servers send exactly one request for each click,
    to the server of their port on the chosen host, and show exactly the tokens
    that were granted, in the order of the answers. *)
Theorem tokens_shown xs :
  Forall clean xs →
  let p := run initial xs in
  server_lines (output p) = mjoin (granted <$> xs) ∧ requests p = asked_all initial xs.
Proof.
  intros Hxs. assert (H : ∀ p r, shows (output p) r →
    shows (output (run p xs)) (r ++ mjoin (granted <$> xs)) ∧ requests (run p xs) = requests p ++ asked_all p xs).
  { induction Hxs as [|x xs Hx Hxs IH]; intros p r Hs; [by rewrite !app_nil_r|].
    destruct (act_steps x p r Hx Hs) as [H1 H2]. destruct (IH _ _ H1) as [H3 H4]. cbn [run foldl asked_all].
    fold (run (act x p).1 xs). split; [|by rewrite H4, H2, app_assoc]. rewrite <- app_assoc in H3. exact H3. }
  destruct (H initial [] shows_nothing) as [H1 H2]. split; [by apply shows_read|exact H2].
Qed.
End pages.

(** The ports of the two pages, line 48 of each. *)
Definition agt_port : string := "7500".
Definition at_port : string := "8600".

Definition grant : list step :=
  [Fill (js "car") (js "agts") (js "{}"); ClickHost; ClickPost; Report 0 2 201 []; Report 0 4 201 (js "token")].
Lemma tokens_shown_witness :
  let p := run (M:=no_markup) agt_port (λ _, true) initial grant in
  server_lines (output p) = [js "token"] ∧ requests p = [(js "http://car:7500/agts", js "{}")].
Proof.
  apply (tokens_shown (M:=no_markup) agt_port (λ _, true) grant). repeat constructor; try by apply (is_line_js "token").
  all: vm_compute; intros Hin; by apply elem_of_nil in Hin.
Defined.

End TokenClient.
