(* ===== verification/Sticky.v ===== *)
(** * The sticky header plugin, jquery.sticky.js

    The plugin keeps the list [sticked] of the elements it manages; every
    scroll event decides for each of them whether it sticks to the top of the
    window, is pushed up by the bottom of the page or flows normally.  Lengths
    are whole pixels.  The browser's layout is a parameter: the measurements
    the code asks for are functions of the document. *)

From stdpp Require Import pretty.
From S2P Require Import Prelude Dom.
Local Open Scope Z_scope.

(** What the code asks the browser. *)
Class Layout := {
  scrollTop_of : dom → Z;
  documentHeight_of : dom → Z;
  windowHeight_of : dom → Z;
  offsetTop : dom → nid → Z;
  outerHeight : dom → nid → Z;
  outerWidth : dom → nid → Z;
  innerWidth : dom → nid → Z;
  width : dom → nid → Z;
  widthOf : dom → string → option Z;       (* [$(sel).width()], undefined for no match *)
  floatOf : dom → nid → string
}.

Module Sticky.

Definition px (z : Z) : string := pretty z +:+ "px".

(** ** Options and state *)

Record sticky := MkSticky {
  stickyElement : nid;
  stickyWrapper : nid;
  topSpacing : Z;
  bottomSpacing : Z;
  className : string;
  wrapperClassName : string;
  center : bool;
  getWidthFrom : string;
  widthFromWrapper : bool;
  responsiveWidth : bool;
  zIndex : string;
  currentTop : option Z
}.

#[global] Instance sticky_eq_dec : EqDecision sticky.
Proof. solve_decision. Defined.

(** Lines 28 to 38. *)
Definition defaults : sticky :=
  MkSticky 0 0 0 0 "is-sticky" "sticky-wrapper" false "" true false "inherit" None.

Definition set_currentTop (t : option Z) (s : sticky) : sticky :=
  MkSticky (stickyElement s) (stickyWrapper s) (topSpacing s) (bottomSpacing s) (className s)
    (wrapperClassName s) (center s) (getWidthFrom s) (widthFromWrapper s) (responsiveWidth s)
    (zIndex s) t.
Definition bind_nodes (el wr : nid) (s : sticky) : sticky :=
  MkSticky el wr (topSpacing s) (bottomSpacing s) (className s) (wrapperClassName s) (center s)
    (getWidthFrom s) (widthFromWrapper s) (responsiveWidth s) (zIndex s) None.

Inductive event := sticky_start | sticky_end | sticky_update | bottom_reached | bottom_unreached.

#[global] Instance event_eq_dec : EqDecision event.
Proof. solve_decision. Defined.

Record world := World {
  doc : dom;
  sticked : list sticky;
  windowHeight : Z;
  triggered : list (nid * event);
  observed : list nid
}.

Section plugin.
Context `{L : Layout}.

Definition parent_update (f : nid → dom → dom) (n : nid) (d : dom) : dom :=
  match Dom.parent d n with Some p => f p d | None => d end.

(** ** Scrolling *)

(** Lines 72 to 78. *)
Definition new_top (s : sticky) (height documentHeight scrollTop extra : Z) : Z :=
  let newTop := documentHeight - height - topSpacing s - bottomSpacing s - scrollTop - extra in
  if newTop <? 0 then newTop + topSpacing s else topSpacing s.

(** Lines 80 to 89.  The variable [newWidth] is one of the whole function: where
    nothing is assigned to it, it still has the value of the element before,
    [old]. *)
Definition new_width (old : option Z) (s : sticky) (d : dom) : Z :=
  let newWidth :=
    if negb (bool_decide (getWidthFrom s = ""%string)) then
      let padding := innerWidth d (stickyElement s) - width d (stickyElement s) in
      match widthOf d (getWidthFrom s) with
      | Some w => if w - padding =? 0 then None else Some (w - padding)
      | None => None
      end
    else if widthFromWrapper s then Some (width d (stickyWrapper s))
    else old in
  match newWidth with Some w => w | None => width d (stickyElement s) end.

(** Lines 98 to 111: the events of a change of position. *)
Definition position_events (s : sticky) (newTop : Z) : list event :=
  match currentTop s with None => [sticky_start] | Some _ => [sticky_update] end ++
  if match currentTop s with
     | Some t => (t =? topSpacing s) && (newTop <? t)
     | None => newTop <? topSpacing s
     end then [bottom_reached]
  else if match currentTop s with
          | Some t => (newTop =? topSpacing s) && (t <? newTop)
          | None => false
          end then [bottom_unreached]
  else [].

(** Lines 116 to 132, for a wrapper that is in the document. *)
Definition at_container_end (s : sticky) (d : dom) : bool :=
  match Dom.parent d (stickyWrapper s) with
  | Some c =>
      (offsetTop d c + outerHeight d c <=? offsetTop d (stickyElement s) + outerHeight d (stickyElement s))
      && (offsetTop d (stickyElement s) <=? topSpacing s)
  | None => false
  end.
Definition place (s : sticky) (newTop : Z) (d : dom) : dom :=
  let el := stickyElement s in
  if at_container_end s d then
    Dom.css "z-index" "" el (Dom.css "bottom" "0px" el (Dom.css "top" "" el (Dom.css "position" "absolute" el d)))
  else
    Dom.css "z-index" (zIndex s) el
      (Dom.css "bottom" "" el (Dom.css "top" (px newTop) el (Dom.css "position" "fixed" el d))).

(** Lines 50 to 133: one element, with the value [old] of [newWidth]; the answer is
    its new record, the document, the events and the new value of [newWidth]. *)
Definition scroll_one (scrollTop documentHeight extra : Z) (old : option Z) (s : sticky) (d : dom) :
    sticky * dom * list event * option Z :=
  let el := stickyElement s in
  let elementTop := offsetTop d (stickyWrapper s) in
  let etse := elementTop - topSpacing s - extra in
  let d := Dom.css "height" (px (outerHeight d el)) (stickyWrapper s) d in
  if scrollTop <=? etse then
    match currentTop s with
    | Some _ =>
        let d := Dom.css "z-index" "" el (Dom.css "top" "" el (Dom.css "position" "" el (Dom.css "width" "" el d))) in
        let d := parent_update (Dom.removeClass (className s)) el d in
        (set_currentTop None s, d, [sticky_end], old)
    | None => (s, d, [], old)
    end
  else
    let newTop := new_top s (outerHeight d el) documentHeight scrollTop extra in
    let '(s', d, ev, old') :=
      if bool_decide (currentTop s ≠ Some newTop) then
        let newWidth := new_width old s d in
        let d' := Dom.css "z-index" (zIndex s) el (Dom.css "top" (px newTop) el
                    (Dom.css "position" "fixed" el (Dom.css "width" (px newWidth) el d))) in
        let d' := parent_update (Dom.addClass (className s)) el d' in
        (set_currentTop (Some newTop) s, d', position_events s newTop, Some newWidth)
      else (s, d, [], old) in
    (s', place s newTop d, ev, old').

(** Lines 49 to 134: the elements in order. *)
Fixpoint scroll_all (scrollTop documentHeight extra : Z) (old : option Z) (ss : list sticky) (d : dom) :
    list sticky * dom * list (nid * event) :=
  match ss with
  | [] => ([], d, [])
  | s :: ss' =>
      let '(s', d1, ev, old') := scroll_one scrollTop documentHeight extra old s d in
      let '(ss'', d2, evs) := scroll_all scrollTop documentHeight extra old' ss' d1 in
      (s' :: ss'', d2, (pair (stickyElement s) <$> ev) ++ evs)
  end.

Definition scroller (w : world) : world :=
  let scrollTop := scrollTop_of (doc w) in
  let documentHeight := documentHeight_of (doc w) in
  let dwh := documentHeight - windowHeight w in
  let extra := if dwh <? scrollTop then dwh - scrollTop else 0 in
  let '(ss, d, evs) := scroll_all scrollTop documentHeight extra None (sticked w) (doc w) in
  World d ss (windowHeight w) (triggered w ++ evs) (observed w).

(** ** Resizing, lines 136 to 153 *)

Definition resize_one (s : sticky) (d : dom) : dom :=
  let newWidth :=
    if negb (bool_decide (getWidthFrom s = ""%string)) then
      if responsiveWidth s then widthOf d (getWidthFrom s) else None
    else if widthFromWrapper s then Some (width d (stickyWrapper s))
    else None in
  match newWidth with
  | Some w => Dom.css "width" (px w) (stickyElement s) d
  | None => d
  end.
Definition resizer (w : world) : world :=
  World (foldl (λ d s, resize_one s d) (doc w) (sticked w)) (sticked w)
    (windowHeight_of (doc w)) (triggered w) (observed w).

(** ** Wrapping and unwrapping *)

(** Put [w] in the place of [n], with [n] as its only child. *)
Definition wrap_in (n w : nid) (id cls : string) (d : dom) : dom :=
  let p := Dom.parent d n in
  let d := match p with
           | Some q => alter (Dom.with_children (fmap (λ m, if decide (m = n) then w else m))) q d
           | None => d
           end in
  <[w := Elem "div" id [cls] ∅ ∅ p [n]]> (alter (Dom.with_parent (Some w)) n d).

(** [unwrap]: the parent is replaced by its children. *)
Definition unwrap (n : nid) (d : dom) : dom :=
  match Dom.parent d n with
  | None => d
  | Some w =>
      if Dom.sel_tag "body" d w then d
      else
        let p := Dom.parent d w in
        let cs := Dom.children d w in
        let d := match p with
                 | Some q => alter (Dom.with_children (λ l, l ≫= λ m, if decide (m = w) then cs else [m])) q d
                 | None => d
                 end in
        delete w (Dom.each (λ c, alter (Dom.with_parent p) c) cs d)
  end.

(** Lines 193 to 199. *)
Definition setWrapperHeight (el : nid) (d : dom) : dom :=
  parent_update (Dom.css "height" (px (outerHeight d el))) el d.

(** Lines 201 to 226: the element is observed; a mutation that adds or removes
    nodes below it calls [setWrapperHeight]. *)
Definition setupChangeListeners (el : nid) (w : world) : world :=
  World (doc w) (sticked w) (windowHeight w) (triggered w) (observed w ++ [el]).
Definition on_mutation (el : nid) (addedNodes removedNodes : list nid) (w : world) : world :=
  if negb (bool_decide (addedNodes = [])) || negb (bool_decide (removedNodes = [])) then
    World (setWrapperHeight el (doc w)) (sticked w) (windowHeight w) (triggered w) (observed w)
  else w.

(** Lines 160 to 170; [o] is the defaults extended with the caller's options. *)
Definition wrapperId (d : dom) (el : nid) : string :=
  match d !! el with
  | Some e => if bool_decide (elId e = ""%string) then wrapperClassName defaults
              else elId e +:+ "-" +:+ wrapperClassName defaults
  | None => wrapperClassName defaults
  end.
Definition ensure_wrapped (o : sticky) (el : nid) (d : dom) : dom :=
  let wid := wrapperId d el in
  match Dom.parent d el with
  | Some p => if Dom.sel_id wid d p then d else wrap_in el (Dom.new_node d) wid (wrapperClassName o) d
  | None => wrap_in el (Dom.new_node d) wid (wrapperClassName o) d
  end.

(** Lines 174 to 180. *)
Definition init_style (o : sticky) (el : nid) (d : dom) : dom :=
  let d := if center o then
             parent_update (λ p d, Dom.css "margin-right" "auto" p
               (Dom.css "margin-left" "auto" p (Dom.css "width" (px (outerWidth d el)) p d))) el d
           else d in
  if bool_decide (floatOf d el = "right"%string) then
    parent_update (Dom.css "float" "right") el (Dom.css "float" "none" el d)
  else d.

(** Lines 156 to 190. *)
Definition init_one (o : sticky) (el : nid) (w : world) : world :=
  let d := ensure_wrapped o el (doc w) in
  let wr := default O (Dom.parent d el) in
  let d := init_style o el d in
  let w := World d (sticked w ++ [bind_nodes el wr o]) (windowHeight w) (triggered w) (observed w) in
  let w := World (setWrapperHeight el (doc w)) (sticked w) (windowHeight w) (triggered w) (observed w) in
  setupChangeListeners el w.
Definition init (o : sticky) (els : list nid) (w : world) : world := foldl (λ w el, init_one o el w) w els.

(** Lines 228 to 253. *)
Definition unstick_one (el : nid) (w : world) : world :=
  let rest := filter (λ s, stickyElement s ≠ el) (sticked w) in
  if bool_decide (length rest < length (sticked w))%nat then
    let d := unwrap el (doc w) in
    let d := Dom.css "z-index" "" el (Dom.css "float" "" el (Dom.css "top" "" el
               (Dom.css "position" "" el (Dom.css "width" "" el d)))) in
    World d rest (windowHeight w) (triggered w) (observed w)
  else w.
Definition unstick (els : list nid) (w : world) : world := foldl (λ w el, unstick_one el w) w els.

(** Lines 266 to 284: the first argument names a method, is an object or is
    missing; inherited members are found like methods. *)
Inductive argument := Name (s : string) | Options | Missing.
Inductive plugin_call := Call (method : string) | CallError (msg : string).
Definition methods : list string :=
  ["init"; "setWrapperHeight"; "setupChangeListeners"; "update"; "unstick"]%string.
(** [fallback] is "init" for [$.fn.sticky] and "unstick" for [$.fn.unstick]. *)
Definition plugin (fallback : string) (m : argument) : plugin_call :=
  match m with
  | Name s =>
      if bool_decide (s ∈ methods ++ object_prototype) then Call s
      else if bool_decide (s = ""%string) then Call fallback
      else CallError ("Method " +:+ s +:+ " does not exist on jQuery.sticky")
  | Options | Missing => Call fallback
  end.

(** ** The states of a sticky element

    An element flows with the page, sticks at its top spacing, or is pushed
    above it by the bottom of the page. *)

Inductive mode := Free | Stuck | Pushed (t : Z).

Definition mode_at (s : sticky) (t : Z) : mode := if t =? topSpacing s then Stuck else Pushed t.
Definition mode_of (s : sticky) : mode :=
  match currentTop s with None => Free | Some t => mode_at s t end.

(** The mode the geometry asks for. *)
Definition target (s : sticky) (wrapperTop height documentHeight scrollTop extra : Z) : mode :=
  if scrollTop <=? wrapperTop - topSpacing s - extra then Free
  else mode_at s (new_top s height documentHeight scrollTop extra).

(** The events between two modes. *)
Definition spec_events (a b : mode) : list event :=
  match a, b with
  | Free, Free | Stuck, Stuck => []
  | Free, Stuck => [sticky_start]
  | Free, Pushed _ => [sticky_start; bottom_reached]
  | _, Free => [sticky_end]
  | Stuck, Pushed _ => [sticky_update; bottom_reached]
  | Pushed _, Stuck => [sticky_update; bottom_unreached]
  | Pushed t, Pushed t' => if t =? t' then [] else [sticky_update]
  end.

Definition top_ok (s : sticky) : Prop :=
  match currentTop s with Some t => t ≤ topSpacing s | None => True end.

Lemma new_top_le s h dh st ex : new_top s h dh st ex ≤ topSpacing s.
Proof. unfold new_top. case_branch; lia. Qed.

Lemma position_events_spec s newTop :
  top_ok s → newTop ≤ topSpacing s → currentTop s ≠ Some newTop →
  position_events s newTop = spec_events (mode_of s) (mode_at s newTop).
Proof.
  unfold top_ok, position_events, mode_of, mode_at. intros Ht Hn Hne.
  destruct (currentTop s) as [t|] eqn:E; simpl.
  - assert (t ≠ newTop) by congruence.
    destruct (Z.eqb_spec t (topSpacing s)), (Z.eqb_spec newTop (topSpacing s)),
      (Z.ltb_spec newTop t), (Z.ltb_spec t newTop); simpl; try lia; try done;
      by rewrite (proj2 (Z.eqb_neq t newTop)).
  - destruct (Z.eqb_spec newTop (topSpacing s)), (Z.ltb_spec newTop (topSpacing s)); try lia; done.
Qed.

(** Scrolling one element refines the three-state machine: its new mode is
    the one the geometry asks for, and the events it triggers are exactly
    those of the change of mode, so start and end, bottom reached and
    unreached are reported once and in order. *)
Lemma scroll_one_refines st dh ex old s d s' d' ev old' :
  top_ok s → scroll_one st dh ex old s d = (s', d', ev, old') →
  mode_of s' = target s (offsetTop d (stickyWrapper s))
    (outerHeight (Dom.css "height" (px (outerHeight d (stickyElement s))) (stickyWrapper s) d)
      (stickyElement s)) dh st ex ∧
  ev = spec_events (mode_of s) (mode_of s') ∧ top_ok s'.
Proof.
  intros Ht. unfold scroll_one, target.
  set (h := outerHeight (Dom.css _ _ _ _) _). set (nt := new_top s h dh st ex).
  destruct (st <=? _) eqn:E1.
  - destruct (currentTop s) as [t|] eqn:Ec; intros [= <- <- <- <-].
    + unfold mode_of; simpl. rewrite Ec. split_and!; [done| |done]. unfold mode_at. by case_branch.
    + unfold mode_of; rewrite Ec. split_and!; [done..|]. exact Ht.
  - pose proof (new_top_le s h dh st ex) as Hle. fold nt in Hle. case_bool_decide as Hc.
    + intros [= <- <- <- <-]. change (mode_of (set_currentTop (Some nt) s)) with (mode_at s nt). split_and!; [done| |exact Hle].
      by apply position_events_spec.
    + intros [= <- <- <- <-].
      unfold mode_of. rewrite Hc. split_and!; [done| |exact Ht].
      unfold mode_at. case_branch; simpl; [done|]. by rewrite Z.eqb_refl.
Qed.

(** ** The class of the wrapper *)

Definition is_stuck (s : sticky) : bool := bool_decide (is_Some (currentTop s)).

Lemma parent_place s t d m : Dom.parent (place s t d) m = Dom.parent d m.
Proof. unfold place. case_match; by rewrite !Dom.parent_css. Qed.

Lemma hasClass_place s t d m c : Dom.hasClass (place s t d) m c = Dom.hasClass d m c.
Proof. unfold place. case_match; by rewrite !Dom.hasClass_css. Qed.

(** The wrapper of an element carries the sticky class exactly while the
    element is stuck: a scroll event that finds them in agreement leaves them
    in agreement, and it moves no node. *)
Theorem sticky_class_consistent st dh ex old s d s' d' ev old' p :
  scroll_one st dh ex old s d = (s', d', ev, old') →
  Dom.parent d (stickyElement s) = Some p → is_Some (d !! p) →
  Dom.hasClass d p (className s) = is_stuck s →
  Dom.hasClass d' p (className s') = is_stuck s' ∧ ∀ m, Dom.parent d' m = Dom.parent d m.
Proof.
  intros E Hp Hpres Hc. unfold scroll_one in E.
  assert (Hup : ∀ f (d0 : dom), (∀ m, Dom.parent d0 m = Dom.parent d m) →
    parent_update f (stickyElement s) d0 = f p d0).
  { intros f d0 Hd. unfold parent_update. by rewrite Hd, Hp. }
  destruct (st <=? _).
  - destruct (currentTop s) as [t|] eqn:Ec; simplify_eq.
    + rewrite Hup by (intros; by rewrite !Dom.parent_css).
      split; [apply Dom.hasClass_remove_same|]. intros m.
      by rewrite Dom.parent_removeClass, !Dom.parent_css.
    + split; [by rewrite Dom.hasClass_css|]. intros m. apply Dom.parent_css.
  - case_bool_decide; simplify_eq; rewrite hasClass_place; simpl.
    + rewrite Hup by (intros; by rewrite !Dom.parent_css). split.
      * apply Dom.hasClass_add_same. by rewrite !Dom.present_css.
      * intros m. by rewrite parent_place, Dom.parent_addClass, !Dom.parent_css.
    + split; [by rewrite Dom.hasClass_css|]. intros m. by rewrite parent_place, Dom.parent_css.
Qed.

(** ** All elements *)

Definition events_of (n : nid) (evs : list (nid * event)) : list event :=
  snd <$> filter (λ e, e.1 = n) evs.

Lemma events_of_app n l1 l2 : events_of n (l1 ++ l2) = events_of n l1 ++ events_of n l2.
Proof. unfold events_of. by rewrite filter_app, fmap_app. Qed.
Lemma events_of_same n evs : events_of n (pair n <$> evs) = evs.
Proof.
  unfold events_of. induction evs as [|e evs IH]; [done|].
  cbn [fmap list_fmap]. rewrite filter_cons_True by done. simpl. by f_equal.
Qed.
Lemma events_of_other n m evs : n ≠ m → events_of n (pair m <$> evs) = [].
Proof.
  intros Hne. unfold events_of. induction evs as [|e evs IH]; [done|].
  cbn [fmap list_fmap]. rewrite filter_cons_False by done. exact IH.
Qed.

(** One scroll event, for one element: the element keeps its identity and
    reports its change of mode. *)
Definition moved (evs : list (nid * event)) (s s' : sticky) : Prop :=
  stickyElement s' = stickyElement s ∧ top_ok s' ∧
  events_of (stickyElement s) evs = spec_events (mode_of s) (mode_of s').

Lemma scroll_one_element st dh ex old s d s' d' ev old' :
  scroll_one st dh ex old s d = (s', d', ev, old') → stickyElement s' = stickyElement s.
Proof.
  unfold scroll_one. destruct (st <=? _); [destruct (currentTop s)|case_bool_decide];
    intros; simplify_eq; done.
Qed.

Lemma scroll_all_moved st dh ex old ss d ss' d' evs :
  Forall top_ok ss → NoDup (stickyElement <$> ss) →
  scroll_all st dh ex old ss d = (ss', d', evs) →
  Forall2 (moved evs) ss ss' ∧ ∀ n, n ∉ stickyElement <$> ss → events_of n evs = [].
Proof.
  revert old d ss' d' evs; induction ss as [|s ss IH]; intros old d ss' d' evs Ht Hd E.
  { simplify_eq/=. split; [constructor|done]. }
  cbn [scroll_all] in E. destruct (scroll_one st dh ex old s d) as [[[s1 d1] ev] old'] eqn:E1.
  destruct (scroll_all st dh ex old' ss d1) as [[ss1 d2] evs1] eqn:E2. simplify_eq.
  inversion Ht as [|?? Hs Ht']; subst. rewrite fmap_cons, NoDup_cons in Hd. destruct Hd as [Hn Hd].
  destruct (IH _ _ _ _ _ Ht' Hd E2) as [Hm Ho].
  pose proof (scroll_one_refines _ _ _ _ _ _ _ _ _ _ Hs E1) as (_ & Hev & Hok).
  split.
  - constructor.
    + split_and!; [by eapply scroll_one_element|done|].
      by rewrite events_of_app, events_of_same, Ho, app_nil_r.
    + rewrite Forall2_lookup in *. intros i. specialize (Hm i).
      destruct (ss !! i) as [x|] eqn:Ex; inversion Hm as [? y Hxy|]; subst; constructor.
      destruct Hxy as (He & Hk & Hx). split_and!; [done..|].
      rewrite events_of_app, events_of_other, Hx; [done|].
      intros Heq. apply Hn. rewrite <- Heq. apply list_elem_of_fmap. exists x.
      split; [done|]. by eapply list_elem_of_lookup_2.
  - intros n Hin. rewrite fmap_cons, not_elem_of_cons in Hin. destruct Hin as [H1 H2].
    by rewrite events_of_app, events_of_other, Ho.
Qed.

(** The stickies of a world are distinct elements with sane positions. *)
Definition world_ok (w : world) : Prop :=
  Forall top_ok (sticked w) ∧ NoDup (stickyElement <$> sticked w).

Lemma scroller_moved w :
  world_ok w →
  ∃ evs, triggered (scroller w) = triggered w ++ evs ∧
    Forall2 (moved evs) (sticked w) (sticked (scroller w)).
Proof.
  intros [Ht Hd]. unfold scroller.
  destruct (scroll_all _ _ _ _ _ _) as [[ss d] evs] eqn:E. exists evs. split; [done|].
  by apply scroll_all_moved in E as [Hm _].
Qed.

Lemma moved_world_ok evs w w' :
  Forall2 (moved evs) (sticked w) (sticked w') → world_ok w → world_ok w'.
Proof.
  intros Hm [Ht Hd]. split.
  - clear Hd. induction Hm as [|s s' ss ss' Hss Hm IH]; [constructor|].
    inversion Ht; subst. constructor; [apply Hss|by apply IH].
  - replace (stickyElement <$> sticked w') with (stickyElement <$> sticked w); [done|].
    clear -Hm. induction Hm as [|s s' ss ss' Hss Hm IH]; [done|].
    rewrite !fmap_cons, IH. f_equal. symmetry. apply Hss.
Qed.

(** C9. A scroll event refines a three-state machine per element (free, stuck,
    pushed up by the bottom of the page): each of the elements reports, in
    order, exactly the events of its own change of mode, and keeps the
    invariant of its position. *)
Theorem scroller_refines w :
  world_ok w →
  world_ok (scroller w) ∧
  ∃ evs, triggered (scroller w) = triggered w ++ evs ∧
    Forall2 (moved evs) (sticked w) (sticked (scroller w)).
Proof.
  intros Hw. destruct (scroller_moved w Hw) as (evs & He & Hm).
  split; [by eapply moved_world_ok|]. by exists evs.
Qed.

End plugin.

(** ** The history of an element *)

(** Events read by an automaton: start and end alternate, the others happen
    only in between. *)
Fixpoint history (stuck : bool) (evs : list event) : option bool :=
  match evs with
  | [] => Some stuck
  | sticky_start :: evs' => if stuck then None else history true evs'
  | sticky_end :: evs' => if stuck then history false evs' else None
  | _ :: evs' => if stuck then history stuck evs' else None
  end.

Lemma history_app b evs1 evs2 :
  history b (evs1 ++ evs2) = b' ← history b evs1; history b' evs2.
Proof.
  revert b; induction evs1 as [|e evs1 IH]; intros b; [done|].
  destruct e, b; simpl; auto.
Qed.

Lemma history_spec_events s s' :
  history (is_stuck s) (spec_events (mode_of s) (mode_of s')) = Some (is_stuck s').
Proof.
  unfold is_stuck, mode_of, mode_at, spec_events.
  destruct (currentTop s), (currentTop s'); repeat case_branch; reflexivity.
Qed.

(** Scroll events, each at its own layout. *)
Definition scrolls (Ls : list Layout) (w : world) : world := foldl (λ w L, scroller (L:=L) w) w Ls.

(** C10. From the moment the elements are registered, whatever the sequence of
    scroll positions and page sizes, the events of every element alternate
    between start and end, the bottom events fall in between, and the element
    is stuck exactly when the last of the two was a start. *)
Theorem sticky_history Ls w :
  world_ok w → triggered w = [] → Forall (λ s, currentTop s = None) (sticked w) →
  Forall (λ s, history false (events_of (stickyElement s) (triggered (scrolls Ls w))) = Some (is_stuck s))
    (sticked (scrolls Ls w)).
Proof.
  intros Hw Ht Hn.
  assert (H : Forall (λ s, history false (events_of (stickyElement s) (triggered w)) = Some (is_stuck s)) (sticked w)).
  { eapply Forall_impl; [exact Hn|]. intros s Hs. rewrite Ht. unfold is_stuck. by rewrite Hs. }
  clear Ht Hn. unfold scrolls. revert w Hw H; induction Ls as [|L Ls IH]; intros w Hw H; [done|].
  cbn [foldl]. destruct (scroller_moved w Hw) as (evs & He & Hm). apply IH.
  - by eapply moved_world_ok.
  - rewrite He. clear He IH. induction Hm as [|s s' ss ss' Hss Hm IHm]; [constructor|].
    inversion H as [|?? Hs Hrest]; subst. destruct Hss as (Hel & _ & Hev).
    constructor; [|by apply IHm]. rewrite Hel, events_of_app, history_app, Hs, Hev. simpl.
    apply history_spec_events.
Qed.

(** A page of 1000 pixels in a window of 500, scrolled to [st]. *)
Definition layout_at (st : Z) : Layout :=
  Build_Layout (λ _, st) (λ _, 1000) (λ _, 500) (λ _ _, 100) (λ _ _, 50) (λ _ _, 300) (λ _ _, 300)
    (λ _ _, 300) (λ _ _, None) (λ _ _, "none"%string).
Definition header_world : world :=
  World {[ 1%nat := Elem "div" "w" [] ∅ ∅ None [2%nat]; 2%nat := Elem "div" "" [] ∅ ∅ (Some 1%nat) [] ]}
    [bind_nodes 2 1 defaults] 500 [] [].

Lemma sticky_history_witness :
  Forall (λ s, history false (events_of (stickyElement s)
      (triggered (scrolls (layout_at <$> [0; 200; 960; 0]) header_world))) = Some (is_stuck s))
    (sticked (scrolls (layout_at <$> [0; 200; 960; 0]) header_world)).
Proof.
  apply sticky_history; [split; [repeat constructor|by_evaluation]|reflexivity|repeat constructor].
Defined.

Lemma scroller_refines_witness :
  let w := header_world in
  let L := layout_at 960 in
  world_ok (scroller w) ∧
  ∃ evs, triggered (scroller w) = triggered w ++ evs ∧ Forall2 (moved evs) (sticked w) (sticked (scroller w)).
Proof.
  apply (scroller_refines (L:=layout_at 960) header_world). split; [repeat constructor|by_evaluation].
Defined.

Lemma sticky_class_consistent_witness :
  let w := header_world in
  let r := scroll_one (L:=layout_at 200) 200 1000 0 None (bind_nodes 2 1 defaults) (doc w) in
  Dom.hasClass r.1.1.2 1 "is-sticky" = is_stuck r.1.1.1 ∧ ∀ m, Dom.parent r.1.1.2 m = Dom.parent (doc w) m.
Proof.
  intros w r.
  apply (sticky_class_consistent (L:=layout_at 200) 200 1000 0 None (bind_nodes 2 1 defaults) (doc w) r.1.1.1 r.1.1.2 r.1.2 r.2 1%nat);
    [vm_compute; reflexivity|vm_compute; reflexivity|by eexists|vm_compute; reflexivity].
Defined.

(** ** Registering and releasing an element *)

(** What a document is apart from its inline styles and attributes. *)
Definition shape (e : elem) : string * string * list string * option nid * list nid :=
  (tagName e, elId e, classList e, parentNode e, childNodes e).
Definition same_tree (d1 d2 : dom) : Prop := shape <$> d1 = shape <$> d2.

#[global] Instance same_tree_equivalence : Equivalence same_tree.
Proof. unfold same_tree. split; [by intros ?|by intros ??|intros ???; congruence]. Qed.

Lemma same_tree_lookup d1 d2 m :
  same_tree d1 d2 → shape <$> (d1 !! m) = shape <$> (d2 !! m).
Proof. intros H. by rewrite <- !lookup_fmap, H. Qed.

Lemma same_shape_alter f1 f2 n d1 d2 :
  (∀ e1 e2, shape e1 = shape e2 → shape (f1 e1) = shape (f2 e2)) →
  same_tree d1 d2 → same_tree (alter f1 n d1) (alter f2 n d2).
Proof.
  intros Hf Hd. apply map_eq. intros m. rewrite !lookup_fmap, !lookup_alter.
  pose proof (same_tree_lookup _ _ m Hd) as Hm. case_decide; [subst|done].
  destruct (d1 !! m) as [e1|], (d2 !! m) as [e2|]; try done. cbn in *. f_equal. apply Hf. by apply (inj Some) in Hm.
Qed.

Lemma same_tree_css p v n d : same_tree (Dom.css p v n d) d.
Proof.
  unfold Dom.css. rewrite <- (alter_id id d n) at 2 by done.
  apply same_shape_alter; [intros e1 e2 H; exact H|reflexivity].
Qed.

#[global] Instance parent_proper : Proper (same_tree ==> eq ==> eq) Dom.parent.
Proof.
  intros d1 d2 Hd m ? <-. apply (same_tree_lookup _ _ m) in Hd. unfold Dom.parent.
  destruct (d1 !! m), (d2 !! m); simplify_eq/=; done.
Qed.
#[global] Instance children_proper : Proper (same_tree ==> eq ==> eq) Dom.children.
Proof.
  intros d1 d2 Hd m ? <-. apply (same_tree_lookup _ _ m) in Hd. unfold Dom.children.
  destruct (d1 !! m), (d2 !! m); simplify_eq/=; done.
Qed.
#[global] Instance sel_tag_proper t : Proper (same_tree ==> eq ==> eq) (Dom.sel_tag t).
Proof.
  intros d1 d2 Hd m ? <-. apply (same_tree_lookup _ _ m) in Hd. unfold Dom.sel_tag.
  destruct (d1 !! m) as [e1|], (d2 !! m) as [e2|]; simplify_eq/=; try done.
  destruct e1, e2; unfold shape in *; simpl in *. by simplify_eq.
Qed.
#[global] Instance delete_proper n : Proper (same_tree ==> same_tree) (delete n).
Proof. intros d1 d2 Hd. unfold same_tree. by rewrite !fmap_delete, Hd. Qed.

#[global] Instance unwrap_proper n : Proper (same_tree ==> same_tree) (unwrap n).
Proof.
  intros d1 d2 Hd. unfold unwrap. rewrite (parent_proper _ _ Hd n n eq_refl).
  destruct (Dom.parent d2 n) as [w|]; [|done].
  rewrite (sel_tag_proper "body" _ _ Hd w w eq_refl). destruct (Dom.sel_tag _ _ _); [done|].
  rewrite (parent_proper _ _ Hd w w eq_refl), (children_proper _ _ Hd w w eq_refl).
  apply delete_proper. generalize (Dom.children d2 w). intros cs. generalize (Dom.parent d2 w). intros p.
  assert (Hstart : same_tree
    match p with Some q => alter (Dom.with_children (λ l, l ≫= λ m, if decide (m = w) then cs else [m])) q d1
               | None => d1 end
    match p with Some q => alter (Dom.with_children (λ l, l ≫= λ m, if decide (m = w) then cs else [m])) q d2
               | None => d2 end).
  { destruct p; [|done]. apply same_shape_alter; [|done]. intros [] []; unfold shape; simpl. by intros [= -> -> -> -> ->]. }
  unfold Dom.each. generalize cs at 2 4. intros cs'. revert Hstart.
  generalize (match p with Some q => alter (Dom.with_children (λ l, l ≫= λ m, if decide (m = w) then cs else [m])) q d1 | None => d1 end).
  generalize (match p with Some q => alter (Dom.with_children (λ l, l ≫= λ m, if decide (m = w) then cs else [m])) q d2 | None => d2 end).
  induction cs' as [|c cs' IH]; intros b2 b1 Hb; [done|]. cbn [foldl]. apply IH.
  apply same_shape_alter; [|done]. intros [] []; unfold shape; simpl. by intros [= -> -> -> _ ->].
Qed.

Lemma bind_fmap_swap (n w : nid) (l : list nid) :
  w ∉ l →
  ((λ m, if decide (m = n) then w else m) <$> l) ≫= (λ m, if decide (m = w) then [n] else [m]) = l.
Proof.
  induction l as [|m l IH]; intros Hw; [done|]. rewrite not_elem_of_cons in Hw. destruct Hw as [Hm Hl].
  rewrite fmap_cons, bind_cons, IH by done. repeat case_decide; subst; done.
Qed.

(** Unwrapping undoes wrapping. *)
Lemma unwrap_wrap_in n w id cls d e :
  d !! n = Some e → d !! w = None → parentNode e ≠ Some n →
  (∀ q, parentNode e = Some q → w ∉ Dom.children d q) →
  unwrap n (wrap_in n w id cls d) = d.
Proof.
  intros Hn Hw Hself Hfresh. assert (Hnw : n ≠ w) by congruence.
  assert (Hpar : Dom.parent d n = parentNode e) by (unfold Dom.parent; by rewrite Hn).
  unfold wrap_in. rewrite Hpar.
  set (d0 := match parentNode e with Some q => _ | None => d end).
  set (d1 := <[w := _]> _).
  assert (H0 : d0 !! n = Some e).
  { unfold d0. destruct (parentNode e) as [q|]; [|done]. rewrite lookup_alter_ne by congruence. done. }
  assert (H1 : d1 !! n = Some (Dom.with_parent (Some w) e)).
  { unfold d1. rewrite lookup_insert_ne, lookup_alter_eq, H0 by done. done. }
  assert (H2 : d1 !! w = Some (Elem "div" id [cls] ∅ ∅ (parentNode e) [n])) by apply lookup_insert_eq.
  unfold unwrap, Dom.parent, Dom.children, Dom.sel_tag. rewrite H1. simpl. rewrite H2. simpl.
  apply map_eq. intros m. destruct (decide (m = w)) as [->|Hm]; [by rewrite lookup_delete_eq|].
  rewrite lookup_delete_ne by done.
  assert (Hd1 : ∀ k, k ≠ n → k ≠ w → d1 !! k = d0 !! k).
  { intros k Hkn Hkw. unfold d1. by rewrite lookup_insert_ne, lookup_alter_ne. }
  destruct (decide (m = n)) as [->|Hmn].
  - rewrite lookup_alter_eq. assert (Hp : ∀ q f, parentNode e = Some q → alter f q d1 !! n = d1 !! n).
    { intros q f Hq. apply lookup_alter_ne. congruence. }
    destruct (parentNode e) as [q|] eqn:Eq; [rewrite Hp by done|]; rewrite H1, Hn; simpl; f_equal;
      destruct e; simpl in *; by subst.
  - rewrite lookup_alter_ne by done. unfold d0 in Hd1. destruct (parentNode e) as [q|] eqn:Eq; [|by apply Hd1].
    rewrite lookup_alter. case_decide; [subst q|rewrite Hd1, lookup_alter_ne by done; done].
    rewrite Hd1, lookup_alter_eq by done. specialize (Hfresh m eq_refl). unfold Dom.children in Hfresh.
    destruct (d !! m) as [[]|]; [|done]. simpl in *. f_equal.
    unfold Dom.with_children; simpl. f_equal. by apply bind_fmap_swap.
Qed.

Section release.
Context `{L : Layout}.

Lemma same_tree_parent_update f n d :
  (∀ p d, same_tree (f p d) d) → same_tree (parent_update f n d) d.
Proof. intros Hf. unfold parent_update. destruct (Dom.parent d n); [apply Hf|done]. Qed.

Lemma same_tree_init_style o el d : same_tree (init_style o el d) d.
Proof.
  unfold init_style. set (d1 := if center o then _ else d).
  assert (H1 : same_tree d1 d).
  { unfold d1. destruct (center o); [|done]. apply same_tree_parent_update. intros p d'.
    by rewrite !same_tree_css. }
  case_bool_decide; [|done]. rewrite same_tree_parent_update by (intros; apply same_tree_css).
  by rewrite same_tree_css.
Qed.

(** C31. Releasing an element with [unstick] after registering it with [init]
    gives the document back its tree (parents, children in order, identifiers
    and classes) and the plugin its list of elements; the wrapper is gone. *)
Theorem init_unstick o el w e :
  doc w !! el = Some e → parentNode e ≠ Some el →
  (∀ q c, parentNode e = Some q → c ∈ Dom.children (doc w) q → is_Some (doc w !! c)) →
  (∀ q, parentNode e = Some q → Dom.sel_id (wrapperId (doc w) el) (doc w) q = false) →
  el ∉ stickyElement <$> sticked w →
  let w' := unstick_one el (init_one o el w) in
  same_tree (doc w') (doc w) ∧ sticked w' = sticked w.
Proof.
  intros He Hself Hch Hid Hnew w'.
  set (wid := wrapperId (doc w) el). set (d1 := wrap_in el (Dom.new_node (doc w)) wid (wrapperClassName o) (doc w)).
  assert (Hw : ensure_wrapped o el (doc w) = d1).
  { unfold ensure_wrapped, Dom.parent. rewrite He. simpl.
    destruct (parentNode e) as [q|]; [|done]. by rewrite Hid. }
  assert (Hun : unwrap el d1 = doc w).
  { apply (unwrap_wrap_in _ _ _ _ _ e); [done|apply Dom.new_node_fresh|done|].
    intros q Hq Hin. destruct (Hch q _ Hq Hin) as [x Hx]. by rewrite Dom.new_node_fresh in Hx. }
  assert (Hrest : filter (λ s, stickyElement s ≠ el) (sticked (init_one o el w)) = sticked w).
  { unfold init_one, setupChangeListeners. cbn [sticked]. rewrite filter_app.
    rewrite filter_cons_False by (intros Hne; by apply Hne). cbn [filter list_filter]. rewrite app_nil_r.
    apply filter_all. intros s Hs Heq. apply Hnew. apply list_elem_of_fmap. eauto. }
  unfold w', unstick_one. rewrite Hrest.
  rewrite bool_decide_true by (unfold init_one, setupChangeListeners; cbn [sticked]; rewrite length_app; simpl; lia).
  cbn [doc sticked]. split; [|done]. rewrite !same_tree_css.
  transitivity (unwrap el d1); [|by rewrite Hun].
  apply unwrap_proper. unfold init_one, setupChangeListeners. cbn [doc].
  unfold setWrapperHeight. rewrite same_tree_parent_update by (intros; apply same_tree_css).
  rewrite same_tree_init_style. by rewrite Hw.
Qed.

End release.

Lemma init_unstick_witness :
  let w := World {[ 1%nat := Elem "div" "" [] ∅ ∅ None [2%nat; 3%nat];
                    2%nat := Elem "div" "header" [] ∅ ∅ (Some 1%nat) [];
                    3%nat := Elem "p" "" [] ∅ ∅ (Some 1%nat) [] ]} [] 500 [] [] in
  let L := layout_at 0 in
  same_tree (doc (unstick_one 2 (init_one defaults 2 w))) (doc w) ∧
  sticked (unstick_one 2 (init_one defaults 2 w)) = sticked w.
Proof.
  intros w L. apply (init_unstick (L:=layout_at 0) defaults 2 w (Elem "div" "header" [] ∅ ∅ (Some 1%nat) []));
    [reflexivity|done| | |by_evaluation].
  - intros q c [= <-] Hc. change (Dom.children (doc w) 1) with [2%nat; 3%nat] in Hc.
    repeat (apply elem_of_cons in Hc as [->|Hc]; [by eexists|]). by apply elem_of_nil in Hc.
  - intros q [= <-]. reflexivity.
Defined.


End Sticky.
