(* ===== verification/Bs.v ===== *)
(** * Bootstrap: pages, events and the Util module of bootstrap.js

    A page is the document, the log of triggered events, the callbacks that
    wait for an event ([one]) and the component objects stored on elements
    ([data]).  The selector engine, the listeners of the rest of the page
    (which may prevent the default action of an event) and the browser's
    transition support are the interface [Browser]. *)

From S2P Require Import Prelude Dom.
Local Open Scope string_scope.
Local Open Scope list_scope.

Class Browser := {
  query : dom → string → option (list nid);   (* [$(document).find(s)]; [None]: it throws *)
  all_nodes : dom → list nid;                 (* in document order *)
  escapeSelector : string → string;
  prevents : dom → nid → string → bool;       (* a listener calls [preventDefault] *)
  supportsTransitionEnd : bool
}.

(** ** Events and pages *)

Inductive evarg := ANum (z : Z) | AStr (s : string) | ANode (n : option nid).
Record ev := Ev { ev_target : nid; ev_type : string; ev_args : list (string * evarg) }.

#[export] Instance evarg_eq_dec : EqDecision evarg.
Proof. solve_decision. Defined.
#[export] Instance ev_eq_dec : EqDecision ev.
Proof. solve_decision. Defined.

Section page.
Context {D K : Type}.

Record bpage := BPage {
  pdoc : dom;
  plog : list ev;
  pwait : list (nid * string * K);
  pdata : gmap nid D;
  pfresh : nat                               (* identifiers of new objects *)
}.

Definition on_doc (f : dom → dom) (p : bpage) : bpage := BPage (f (pdoc p)) (plog p) (pwait p) (pdata p) (pfresh p).
Definition add_log (e : ev) (p : bpage) : bpage := BPage (pdoc p) (plog p ++ [e]) (pwait p) (pdata p) (pfresh p).
Definition add_wait (n : nid) (e : string) (k : K) (p : bpage) : bpage :=
  BPage (pdoc p) (plog p) (pwait p ++ [(n, e, k)]) (pdata p) (pfresh p).
Definition drop_wait (n : nid) (e : string) (p : bpage) : bpage :=
  BPage (pdoc p) (plog p) (filter (λ w, ¬ (w.1.1 = n ∧ w.1.2 = e)) (pwait p)) (pdata p) (pfresh p).
Definition set_data (n : nid) (x : D) (p : bpage) : bpage :=
  BPage (pdoc p) (plog p) (pwait p) (<[n := x]> (pdata p)) (pfresh p).
Definition drop_data (n : nid) (p : bpage) : bpage :=
  BPage (pdoc p) (plog p) (pwait p) (delete n (pdata p)) (pfresh p).

(** The callbacks that wait for event [e] on [n]. *)
Definition waiting (n : nid) (e : string) (p : bpage) : list K :=
  snd <$> filter (λ w, w.1.1 = n ∧ w.1.2 = e) (pwait p).
End page.
Arguments bpage : clear implicits.

Abbreviation bsM D K := (jsM (bpage D K)).

Definition TRANSITION_END : string := "bsTransitionEnd".

Section ops.
Context `{B : Browser} {D K : Type}.

Definition doc_op (f : dom → dom) : bsM D K () := mupdate (on_doc f).
(** On a possibly empty selection. *)
Definition doc_opt (f : nid → dom → dom) (n : option nid) : bsM D K () :=
  match n with Some n => doc_op (f n) | None => mret () end.

(** [$(el).trigger(e)]: answers [isDefaultPrevented()]. *)
Definition trigger (e : string) (args : list (string * evarg)) (n : nid) : bsM D K bool :=
  prevented ← mget (λ p, prevents (pdoc p) n e);
  _ ← mupdate (add_log (Ev n e args));
  mret prevented.
Definition trigger_opt (e : string) (args : list (string * evarg)) (n : option nid) : bsM D K bool :=
  match n with Some n => trigger e args n | None => mret false end.

(** [$(el).one(e, k)] *)
Definition one (n : nid) (e : string) (k : K) : bsM D K () := mupdate (add_wait n e k).

(** The event [e] happens on [n]: its waiting callbacks run once. *)
Definition fire (resume : K → bsM D K ()) (n : nid) (e : string) : bsM D K () :=
  ks ← mget (waiting n e);
  _ ← mupdate (drop_wait n e);
  meach resume ks.
End ops.

(** A browser whose selectors are identifiers and where nobody prevents
    anything. *)
Definition plain_browser : Browser := {|
  query := λ d s, Some (if String.prefix "#" s
    then filter (λ n, Dom.sel_id (String.substring 1 (String.length s) s) d n = true) (map_to_list d).*1
    else []);
  all_nodes := λ d, (map_to_list d).*1;
  escapeSelector := λ s, "\" +:+ s;
  prevents := λ _ _ _, false;
  supportsTransitionEnd := true
|}.

(** ** Pages in a state *)

(** The document, the waiting callbacks and what is known of the objects. *)
Definition page_at {D K} (d : dom) (w : list (nid * string * K)) (R : gmap nid D → Prop) (p : bpage D K) : Prop :=
  pdoc p = d ∧ pwait p = w ∧ R (pdata p).

Lemma triple_pure {S A} (P : S → Prop) (φ : Prop) (m : jsM S A) Q :
  (φ → triple P m Q) → triple (λ s, P s ∧ φ) m Q.
Proof. intros H s [Hs Hφ]. by apply H. Qed.

Section page_at.
Context `{B : Browser} {D K : Type}.
Implicit Types (d : dom) (w : list (nid * string * K)) (R : gmap nid D → Prop).

Lemma page_get {A} (f : dom → A) d w R : triple (page_at d w R) (mget (λ p, f (pdoc p))) (λ r s, page_at d w R s ∧ r = f d).
Proof. intros s Hs. exists (f (pdoc s)), s. split; [done|]. split; [done|]. by destruct Hs as [-> _]. Qed.
Lemma page_get_seq {A A'} (f : dom → A) (k : A → bsM D K A') d w R Q :
  triple (page_at d w R) (k (f d)) Q → triple (page_at d w R) (x ← mget (λ p, f (pdoc p)); k x) Q.
Proof. intros Hk. eapply triple_bind; [apply page_get|]. intros r. apply triple_pure. by intros ->. Qed.
Lemma page_doc f d w R : triple (page_at d w R) (doc_op f) (λ _, page_at (f d) w R).
Proof. apply triple_update. intros s (<- & Hw & Hc). done. Qed.
Lemma page_one n e k d w R : triple (page_at d w R) (one n e k) (λ _, page_at d (w ++ [(n, e, k)]) R).
Proof. apply triple_update. intros s (Hd & <- & Hc). done. Qed.

Lemma page_trigger_value e args n d w R :
  triple (page_at d w R) (trigger e args n) (λ r s, page_at d w R s ∧ r = prevents d n e).
Proof. intros s (<- & Hw & Hc). by eexists _, _. Qed.
Lemma page_trigger_bind {A} e args n (k : bool → bsM D K A) d w R Q :
  triple (page_at d w R) (k (prevents d n e)) Q → triple (page_at d w R) (x ← trigger e args n; k x) Q.
Proof. intros Hk. eapply triple_bind; [apply page_trigger_value|]. intros r. apply triple_pure. by intros ->. Qed.
Lemma page_trigger_opt_bind {A} e args n (k : bool → bsM D K A) d w R Q :
  triple (page_at d w R) (k (match n with Some n => prevents d n e | None => false end)) Q →
  triple (page_at d w R) (x ← trigger_opt e args n; k x) Q.
Proof. destruct n; [apply page_trigger_bind|done]. Qed.

(** Where nobody prevents anything. *)
Hypothesis calm : ∀ d n e, prevents d n e = false.
Lemma page_trigger e args n d w R : triple (page_at d w R) (trigger e args n) (λ r s, page_at d w R s ∧ r = false).
Proof. eapply triple_conseq; [apply page_trigger_value|done|]. intros r s. by rewrite calm. Qed.
Lemma page_trigger_seq {A} e args n (k : bool → bsM D K A) d w R Q :
  triple (page_at d w R) (k false) Q → triple (page_at d w R) (x ← trigger e args n; k x) Q.
Proof. intros Hk. apply page_trigger_bind. by rewrite calm. Qed.
End page_at.

(** Evaluate a handler. *)
Ltac run :=
  repeat progress (unfold doc_op, doc_opt, trigger, trigger_opt, one, fire, mbind, jsM_bind, mget,
    mupdate, mret, jsM_ret, mguard, mthrow, on_doc, add_log, add_wait, drop_wait, set_data, drop_data;
    cbn [fst snd pdoc plog pwait pdata pfresh meach head option_bind orb andb negb] ).

Lemma waiting_drop {D K} n e (p : bpage D K) : waiting n e (drop_wait n e p) = [].
Proof.
  unfold waiting, drop_wait; simpl. rewrite list_filter_filter.
  induction (pwait p) as [|w l IH]; [done|]. rewrite filter_cons. case_decide; [naive_solver|done].
Qed.

Lemma waiting_add {D K} n e k (p : bpage D K) n' e' :
  waiting n' e' (add_wait n e k p) =
    waiting n' e' p ++ if bool_decide (n = n' ∧ e = e') then [k] else [].
Proof.
  unfold waiting, add_wait; simpl. rewrite filter_app, fmap_app. f_equal.
  rewrite filter_cons. case_decide; case_bool_decide; naive_solver.
Qed.

Lemma fire_none {D K} (resume : K → bsM D K ()) n e p :
  waiting n e p = [] → (fire resume n e p).1 = drop_wait n e p.
Proof. intros H. unfold fire, mbind, jsM_bind, mget, mupdate. by rewrite H. Qed.

Lemma fire_single {D K} (resume : K → bsM D K ()) n e k p :
  waiting n e p = [k] → (fire resume n e p).1 = (resume k (drop_wait n e p)).1.
Proof.
  intros H. unfold fire, mbind, jsM_bind, mget, mupdate. rewrite H. cbn [meach].
  unfold mbind, jsM_bind. by destruct (resume k (drop_wait n e p)) as [q [[]|]].
Qed.

(** ** Util, lines 71 to 190 *)

Module Util.
Section util.
Context `{B : Browser}.

Definition substr1 (s : string) : string := String.substring 1 (String.length s - 1) s.

(** Lines 123 to 128, with jQuery 3. *)
Definition escapeId (selector : string) : string := substr1 (escapeSelector selector).

(** Lines 147 to 151: the target as it is written in the document. *)
Definition written (d : dom) (element : nid) : string :=
  let selector := default "" (Dom.getAttribute d element "data-target") in
  if bool_decide (selector = "") || bool_decide (selector = "#")
  then default "" (Dom.getAttribute d element "href") else selector.
(** Lines 146 to 164; [None] is null. *)
Definition getSelectorFromElement (d : dom) (element : nid) : option string :=
  let selector := written d element in
  let selector := if String.prefix "#" selector then escapeId selector else selector in
  match query d selector with
  | Some (_ :: _) => Some selector
  | _ => None
  end.

(** [$(selector)[0]] *)
Definition first (d : dom) (selector : string) : option nid :=
  match query d selector with Some (n :: _) => Some n | _ => None end.
Definition target_of (d : dom) (element : nid) : option nid :=
  s ← getSelectorFromElement d element; first d s.

(** Lines 71 to 73: the type names [toType] answers for the option values. *)
Inductive optval := OUndefined | ONull | OBool (b : bool) | ONum (z : Z) | OStr (s : string)
  | OElement (n : nid) | OObject | OFunction | OArray.

Definition toType (v : optval) : string :=
  match v with
  | OUndefined => "undefined" | ONull => "null" | OBool _ => "boolean" | ONum _ => "number"
  | OStr _ => "string" | OElement _ => "element" | OObject => "object" | OFunction => "function"
  | OArray => "array"
  end.

#[global] Instance optval_eq_dec : EqDecision optval.
Proof. solve_decision. Defined.

Definition truthy (v : optval) : bool :=
  match v with
  | OUndefined | ONull => false
  | OBool b => b
  | ONum z => negb (z =? 0)%Z
  | OStr s => negb (bool_decide (s = ""))
  | _ => true
  end.

Fixpoint contains (p s : string) : bool :=
  String.prefix p s || match s with EmptyString => false | String _ s' => contains p s' end.

Definition upper (s : string) : string :=
  String.string_of_list_ascii ((λ a, let n := Ascii.nat_of_ascii a in
    if (97 <=? n)%nat && (n <=? 122)%nat then Ascii.ascii_of_nat (n - 32) else a) <$> String.list_ascii_of_string s).

Definition quote (s : string) : string := String (Ascii.ascii_of_nat 34) (s +:+ String (Ascii.ascii_of_nat 34) EmptyString).

(** Lines 177 to 189: [new RegExp(expected).test(type)] for an alternation of
    type names is a substring test for one of them. *)
Fixpoint typeCheckConfig (name : string) (config : gmap string optval)
    (configTypes : list (string * list string)) : outcome () :=
  match configTypes with
  | [] => Ret ()
  | (property, expected) :: rest =>
      let valueType := toType (default OUndefined (config !! property)) in
      if existsb (λ t, contains t valueType) expected then typeCheckConfig name config rest
      else
        let alt := match expected with [t] => t | _ => "(" +:+ String.concat "|" expected +:+ ")" end in
        Throw (ErrorMsg (upper name +:+ ": Option " +:+ quote property +:+ " provided type " +:+
          quote valueType +:+ " but expected type " +:+ quote alt +:+ "."))
  end.

(** Lines 138 to 145: the drawn numbers are an argument; [None] when they are
    used up before a free identifier is found. *)
Fixpoint getUID (in_use : string → bool) (prefix : string) (draws : list string) : option string :=
  match draws with
  | [] => None
  | r :: draws' =>
      let prefix := prefix +:+ r in
      if in_use prefix then getUID in_use prefix draws' else Some prefix
  end.

End util.
End Util.

(** ** Waiting for the end of a transition, lines 75 to 112

    [$(el).one(TRANSITION_END, callback).emulateTransitionEnd(duration)]: the
    browser may report the end of the transition on the element, on one of
    its descendants (which bubbles and is ignored) or not at all; a timer
    reports it when nobody has. *)

Module Emulator.

(** Lines 89 to 97 and 113 to 121: what is registered when the script is loaded;
    [qunit] tells whether the page is a test page. *)
Definition transitionEndTest (qunit : bool) : option string := if qunit then None else Some "transitionend".
Record support := Support {
  transition : option string;          (* [transition.end] *)
  special : gmap string string         (* [$.event.special]: the type that is bound *)
}.
Definition setTransitionEndSupport (qunit : bool) : support :=
  let transition := transitionEndTest qunit in
  Support transition match transition with Some e => {[ TRANSITION_END := e ]} | None => ∅ end.
(** Lines 168 to 173. *)
Definition triggerTransitionEnd (s : support) : option string := transition s.
Definition has_support (s : support) : bool := bool_decide (is_Some (transition s)).
(** The type of event for which a listener for [e] is bound. *)
Definition bound (s : support) (e : string) : string := default e (special s !! e).

(** Where components wait for the end of a transition at all, the listeners for
    it are bound for the event that browsers send and that the timer sends. *)
Lemma end_reaches_listeners qunit :
  let s := setTransitionEndSupport qunit in
  has_support s = negb qunit ∧
  (has_support s = true → bound s TRANSITION_END = "transitionend" ∧ triggerTransitionEnd s = Some "transitionend").
Proof. by destruct qunit. Qed.

(** Several transitions may be started on one element, one after the other, each
    with a callback of its caller, a flag [called] of its own and a timer, which
    goes on when the transition has ended.  The transitions are numbered. *)
Inductive handler := Callback (n : nat) | SetCalled (n : nat).
Record state := State {
  started : nat;                (* how many transitions *)
  handlers : list handler;      (* of the element, for the end of a transition *)
  called : list nat;            (* the flags that are set *)
  timers : list nat;            (* the timeouts that are pending *)
  runs : list nat               (* the callbacks that have run, in order *)
}.
Definition no_transitions : state := State 0 [] [] [] [].

(** Lines 99 to 112, after the caller's [one]. *)
Definition transitionEndEmulator (s : state) : state :=
  let n := started s in
  State (S n) (handlers s ++ [Callback n; SetCalled n]) (called s) (timers s ++ [n]) (runs s).

(** [transition.end] reaches the element; lines 79 to 85 keep the handlers
    from running when it comes from a descendant.  Each handler runs once. *)
Definition handle (s : state) (h : handler) : state :=
  match h with
  | Callback n => State (started s) (handlers s) (called s) (timers s) (runs s ++ [n])
  | SetCalled n => State (started s) (handlers s) (n :: called s) (timers s) (runs s)
  end.
Definition transition_end (from_descendant : bool) (s : state) : state :=
  if from_descendant then s
  else foldl handle (State (started s) [] (called s) (timers s) (runs s)) (handlers s).

(** Lines 106 to 110: the timer of the transition [n]. *)
Definition timeout (n : nat) (s : state) : state :=
  if bool_decide (n ∈ timers s) then
    let s := State (started s) (handlers s) (called s) (filter (λ m, m ≠ n) (timers s)) (runs s) in
    if bool_decide (n ∈ called s) then s else transition_end false s
  else s.

Inductive step := Start | Ended (from_descendant : bool) | Timeout (n : nat).
Definition run (s : state) (x : step) : state :=
  match x with
  | Start => transitionEndEmulator s
  | Ended d => transition_end d s
  | Timeout n => timeout n s
  end.

(** What callers rely on, without flags and timers: the transitions that have
    not ended end together, when the element reports an end or when the time of
    one of them is up. *)
Record view := View { count : nat; open_ : list nat; ended : list nat }.
Definition close_all (v : view) : view := View (count v) [] (ended v ++ open_ v).
Definition watch (v : view) (x : step) : view :=
  match x with
  | Start => View (S (count v)) (open_ v ++ [count v]) (ended v)
  | Ended d => if d then v else close_all v
  | Timeout n => if bool_decide (n ∈ open_ v) then close_all v else v
  end.

Definition handlers_of (n : nat) : list handler := [Callback n; SetCalled n].
Record agrees (s : state) (v : view) : Prop := {
  ag_count : started s = count v;
  ag_handlers : handlers s = mjoin (handlers_of <$> open_ v);
  ag_runs : runs s = ended v;
  ag_called n : n ∈ called s ↔ n ∈ ended v;
  ag_timers n : n ∈ open_ v → n ∈ timers s;
  ag_timed n : n ∈ timers s → n < count v;
  ag_all n : n ∈ ended v ++ open_ v ↔ n < count v;
  ag_once : NoDup (ended v ++ open_ v)
}.

Lemma handle_all ns s :
  foldl handle s (mjoin (handlers_of <$> ns)) =
    State (started s) (handlers s) (reverse ns ++ called s) (timers s) (runs s ++ ns).
Proof.
  revert s. induction ns as [|n ns IH]; intros s; [cbn; rewrite app_nil_r; by destruct s|].
  change (foldl handle (handle (handle s (Callback n)) (SetCalled n)) (mjoin (handlers_of <$> ns)) =
    State (started s) (handlers s) (reverse (n :: ns) ++ called s) (timers s) (runs s ++ n :: ns)).
  rewrite IH, reverse_cons, <- app_assoc. cbn [handle started handlers called timers runs app]. by rewrite <- app_assoc.
Qed.
Lemma end_agrees s v : agrees s v → agrees (transition_end false s) (close_all v).
Proof.
  intros [H1 H2 H3 H4 H5 H5' H6 H7]. unfold transition_end. rewrite H2, handle_all.
  split; cbn; try done; rewrite ?app_nil_r; [by rewrite H3| |by intros n ?%elem_of_nil|done..].
  intros n. rewrite !elem_of_app, elem_of_reverse, H4. tauto.
Qed.
Lemma start_agrees s v : agrees s v → agrees (transitionEndEmulator s) (watch v Start).
Proof.
  intros [H1 H2 H3 H4 H5 H5' H6 H7]. assert (Hfresh : count v ∉ ended v ++ open_ v) by (rewrite H6; lia).
  split; cbn; rewrite ?H1; try done.
  - by rewrite H2, fmap_app, join_app.
  - intros n. rewrite !elem_of_app. intros [Hn|Hn]; [left; auto|by right].
  - intros n. rewrite elem_of_app, list_elem_of_singleton. intros [?%H5'| ->]; lia.
  - intros n. rewrite app_assoc, elem_of_app, H6, list_elem_of_singleton. lia.
  - rewrite app_assoc. apply NoDup_app. split; [done|]. split; [|apply NoDup_singleton].
    by intros n Hn ->%list_elem_of_singleton.
Qed.
(** A timer that is over is one of an ended transition, whose flag is set. *)
Lemma timeout_agrees s v n : agrees s v → agrees (timeout n s) (watch v (Timeout n)).
Proof.
  intros Ha. pose proof Ha as [H1 H2 H3 H4 H5 H5' H6 H7]. unfold timeout, watch.
  destruct (decide (n ∈ open_ v)) as [Hn|Hn].
  - rewrite (bool_decide_true (n ∈ timers s)), (bool_decide_true (n ∈ open_ v)) by auto. cbn [called]. rewrite bool_decide_false.
    2: { rewrite H4. intros He. apply NoDup_app in H7 as (_ & H7 & _). by apply (H7 n). }
    destruct (end_agrees s v Ha) as [E1 E2 E3 E4 E5 E5' E6 E7]. unfold transition_end in *. cbn [handlers] in *.
    rewrite H2, handle_all in *. cbn in *. split; cbn; try done; [by intros m ?%elem_of_nil|].
    intros m [_ Hm]%list_elem_of_filter. auto.
  - rewrite (bool_decide_false (n ∈ open_ v)) by done. case_bool_decide as Ht; [|done]. cbn [called].
    rewrite bool_decide_true.
    + split; cbn; try done; [intros m Hm; apply list_elem_of_filter; split; [congruence|auto]|].
      intros m [_ Hm]%list_elem_of_filter. auto.
    + apply H4. apply H5', H6, elem_of_app in Ht as [|]; done.
Qed.
Lemma run_agrees s v x : agrees s v → agrees (run s x) (watch v x).
Proof.
  intros Ha. destruct x as [|[]|n]; cbn [run]; [by apply start_agrees|done|by apply end_agrees|by apply timeout_agrees].
Qed.

(** C32. Whatever transitions are started on an element one after the other, and
    whatever ends the element or its descendants report and timers run, in any
    order, the callbacks of the transitions run as callers rely on: those that
    have not ended run together when the element itself reports an end or when
    the time of one of them is up, and the timer of a transition that has ended
    does not end a later one.  No callback runs twice, and as long as one has not
    run its timer is pending. *)
Theorem emulator_once steps :
  let s := foldl run no_transitions steps in
  let v := foldl watch (View 0 [] []) steps in
  runs s = ended v ∧ NoDup (runs s) ∧
  ∀ n, n < started s → n ∈ runs s ∨ n ∈ timers s ∧ Callback n ∈ handlers s.
Proof.
  intros s v. assert (Ha : agrees s v).
  { unfold s, v. assert (H : agrees no_transitions (View 0 [] [])).
    { split; cbn; try done; try (by constructor); intros n; rewrite ?elem_of_nil; first [done|lia]. }
    revert H. generalize no_transitions (View 0 [] []).
    induction steps as [|x steps IH]; intros s0 v0 H; [done|]. cbn [foldl]. by apply IH, run_agrees. }
  destruct Ha as [H1 H2 H3 H4 H5 H5' H6 H7]. split; [done|]. split; [rewrite H3; by apply NoDup_app in H7 as [? _]|].
  intros n Hn. rewrite H1 in Hn. rewrite H3, H2. apply H6, elem_of_app in Hn as [|Hn]; [by left|right]. split; [auto|].
  apply list_elem_of_join. exists (handlers_of n). split; [by left|]. by apply list_elem_of_fmap_2.
Qed.

(** A transition ends by itself, a second one is started, and the timer of the
    first one leaves it alone. *)
Example stale_timer : runs (foldl run no_transitions [Start; Ended false; Start; Timeout 0]) = [0] ∧
  runs (foldl run no_transitions [Start; Ended false; Start; Timeout 0; Timeout 1]) = [0; 1].
Proof. by vm_compute. Qed.

End Emulator.

(** ** Alert, lines 202 to 365 *)

Module Alert.
Section alert.
Context `{B : Browser}.

(** The callback that waits for the fade: destroy the element. *)
Inductive kont := DestroyElement (element : nid).
Abbreviation alertM := (bsM () kont).

(** Lines 266 to 279. *)
Definition _getRootElement (d : dom) (element : nid) : option nid :=
  match Util.target_of d element with
  | Some n => Some n
  | None => Dom.closest (Dom.sel_class "alert") d element
  end.

(** Lines 303 to 305: the element leaves the document, then it is told. *)
Definition _destroyElement (element : nid) : alertM () :=
  _ ← doc_op (Dom.detach element);
  _ ← trigger "closed.bs.alert" [] element;
  doc_op (Dom.remove element).

(** Lines 287 to 301. *)
Definition _removeElement (element : nid) : alertM () :=
  _ ← doc_op (Dom.removeClass "show" element);
  fade ← mget (λ p, Dom.hasClass (pdoc p) element "fade");
  if negb supportsTransitionEnd || negb fade then _destroyElement element
  else one element TRANSITION_END (DestroyElement element).

(** Lines 246 to 258 and 281 to 285; on an empty selection nothing happens. *)
Definition close (element : nid) : alertM () :=
  root ← mget (λ p, _getRootElement (pdoc p) element);
  match root with
  | None => mret ()
  | Some root =>
      prevented ← trigger "close.bs.alert" [] root;
      if (prevented : bool) then mret () else _removeElement root
  end.

Definition resume (k : kont) : alertM () :=
  match k with DestroyElement n => _destroyElement n end.

(** Lines 260 to 263. *)
Definition dispose (el : nid) : alertM () := mupdate (drop_data el).

(** Lines 308 to 322: one object per element. *)
Definition _jQueryInterface (config : string) (els : list nid) : alertM () :=
  meach (λ el,
    _ ← mupdate (λ p, match pdata p !! el with Some _ => p | None => set_data el () p end);
    if bool_decide (config = "close") then close el else mret ()) els.

(** Lines 324 to 332. *)
Definition _handleDismiss (el : nid) : alertM () := close el.

Lemma delete_all_lookup (ms : list nid) (d : dom) n : n ∈ ms → foldl (λ d m, delete m d) d ms !! n = None.
Proof.
  revert d; induction ms as [|m ms IH]; intros d Hin; [by apply elem_of_nil in Hin|].
  cbn [foldl]. apply elem_of_cons in Hin as [->|Hin]; [|by apply IH].
  clear IH. assert (H : delete m d !! m = None) by apply lookup_delete_eq. revert H.
  generalize (delete m d). clear d. intros d. revert d; induction ms as [|m' ms IH]; intros d H; [done|].
  cbn [foldl]. apply IH. rewrite lookup_delete. by case_decide.
Qed.

Lemma remove_lookup n d : Dom.remove n d !! n = None.
Proof. unfold Dom.remove. apply delete_all_lookup. by left. Qed.

Lemma destroy_effect r p :
  pdoc (_destroyElement r p).1 !! r = None ∧
  plog (_destroyElement r p).1 = plog p ++ [Ev r "closed.bs.alert" []] ∧
  pwait (_destroyElement r p).1 = pwait p.
Proof. unfold _destroyElement. run. split_and!; [apply remove_lookup|done|done]. Qed.

(** Dismissing an alert announces it with a close event; a listener that
    prevents it keeps the document as it was; otherwise the alert is gone from
    the document, at once or at the end of its fade, and the closed event is
    the last one. *)
Theorem alert_close el r p :
  _getRootElement (pdoc p) el = Some r → waiting r TRANSITION_END p = [] →
  let p1 := (close el p).1 in
  let p2 := (fire resume r TRANSITION_END p1).1 in
  if prevents (pdoc p) r "close.bs.alert"
  then pdoc p1 = pdoc p ∧ plog p1 = plog p ++ [Ev r "close.bs.alert" []]
  else pdoc p2 !! r = None ∧
       plog p2 = plog p ++ [Ev r "close.bs.alert" []; Ev r "closed.bs.alert" []].
Proof.
  intros Hr Hw p1 p2. set (q := add_log (Ev r "close.bs.alert" []) p).
  assert (E1 : close el p = if prevents (pdoc p) r "close.bs.alert" then (q, Ret ()) else _removeElement r q).
  { unfold close, trigger, mbind, jsM_bind, mget, mupdate, mret, jsM_ret. rewrite Hr. by case_match. }
  unfold p2, p1. rewrite E1. destruct (prevents (pdoc p) r "close.bs.alert"); [by split|].
  unfold _removeElement, doc_op, mbind, jsM_bind, mget, mupdate.
  set (q1 := on_doc (Dom.removeClass "show" r) q).
  destruct (negb supportsTransitionEnd || negb (Dom.hasClass (pdoc q1) r "fade")).
  - destruct (destroy_effect r q1) as (Hd & Hl & Hwt). destruct (_destroyElement r q1) as [q2 o]. cbn [fst] in *.
    rewrite fire_none by (unfold waiting in *; rewrite Hwt; exact Hw).
    split; [exact Hd|]. cbn. rewrite Hl. cbn. by rewrite <- app_assoc.
  - unfold one, mupdate. cbn [fst]. rewrite (fire_single _ _ _ (DestroyElement r)).
    + cbn [resume]. set (q2 := drop_wait r TRANSITION_END _).
      destruct (destroy_effect r q2) as (Hd & Hl & _). split; [exact Hd|]. rewrite Hl. cbn. by rewrite <- app_assoc.
    + rewrite waiting_add, bool_decide_true by done.
      change (waiting r TRANSITION_END q1) with (waiting r TRANSITION_END p). by rewrite Hw.
Qed.

End alert.

Lemma alert_close_witness :
  let B := plain_browser in
  let p : bpage () kont :=
    BPage {[ 1%nat := Elem "div" "" ["alert"; "fade"; "show"] ∅ ∅ None [2%nat];
             2%nat := Elem "button" "" [] ∅ ∅ (Some 1%nat) [] ]} [] [] ∅ 0 in
  let p2 := (fire resume 1%nat TRANSITION_END (close 2%nat p).1).1 in
  pdoc p2 !! 1%nat = None ∧ plog p2 = [Ev 1 "close.bs.alert" []; Ev 1 "closed.bs.alert" []].
Proof.
  intros B p p2. exact (alert_close (B:=plain_browser) 2 1 p ltac:(vm_compute; reflexivity) eq_refl).
Defined.

End Alert.

(** ** Button, lines 374 to 528 *)

Module Button.
Section button.
Context `{B : Browser}.

Abbreviation btnM := (bsM () False).

(** The live property [checked] of an input is kept under a name that is no
    attribute. *)
Definition checked_key : string := ":checked".
Definition checked (d : dom) (n : nid) : bool := bool_decide (Dom.getAttribute d n checked_key = Some "true").
(** [input.checked = b]; a radio input that is checked takes the check from the
    others of its name (inputs in different forms are not told apart). *)
Definition is_radio (d : dom) (n : nid) : bool := bool_decide (Dom.getAttribute d n "type" = Some "radio").
Definition group_name (d : dom) (n : nid) : string := default "" (Dom.getAttribute d n "name").
Definition rival (d : dom) (n m : nid) : bool :=
  Dom.sel_tag "input" d m && is_radio d m && negb (bool_decide (m = n)) &&
  negb (bool_decide (group_name d n = "")) && bool_decide (group_name d m = group_name d n).
Definition set_checked (b : bool) (n : nid) (d : dom) : dom :=
  let d := if b && is_radio d n
           then Dom.each (Dom.setAttribute checked_key "false") (Dom.query (all_nodes d) (λ d m, rival d n m) d) d
           else d in
  Dom.setAttribute checked_key (Dom.bool_attr b) n d.

Definition is_disabled (d : dom) (input root : nid) : bool :=
  Dom.hasAttribute d input "disabled" || Dom.hasAttribute d root "disabled" ||
  Dom.hasClass d input "disabled" || Dom.hasClass d root "disabled".

(** Lines 429 to 439: leave the radio group's active element; the answer is
    [triggerChangeEvent]. *)
Definition leave_active (el root input : nid) : btnM bool :=
  d ← mget pdoc;
  if is_radio d input then
    if checked d input && Dom.hasClass d el "active" then mret false
    else
      _ ← doc_opt (Dom.removeClass "active") (head (Dom.find (Dom.sel_class "active") d root));
      mret true
  else mret true.

(** Lines 420 to 462. *)
Definition toggle (el : nid) : btnM () :=
  d ← mget pdoc;
  let rootElement := Dom.closest (Dom.sel_attr "data-toggle" "buttons") d el in
  let input := match rootElement with
               | Some _ => head (Dom.find (Dom.sel_tag "input") d el)
               | None => None
               end in
  let finish (addAriaPressed triggerChangeEvent : bool) : btnM () :=
    d ← mget pdoc;
    _ ← (if addAriaPressed then
           doc_op (Dom.setAttribute "aria-pressed" (Dom.bool_attr (negb (Dom.hasClass d el "active"))) el)
         else mret ());
    if triggerChangeEvent then doc_op (Dom.toggleClass "active" el) else mret () in
  match rootElement, input with
  | Some root, Some input =>
      triggerChangeEvent ← leave_active el root input;
      d ← mget pdoc;
      if (triggerChangeEvent : bool) then
        if is_disabled d input root then mret ()
        else
          _ ← doc_op (set_checked (negb (Dom.hasClass d el "active")) input);
          _ ← trigger "change" [] input;
          _ ← trigger "focus" [] input;
          finish false true
      else
        _ ← trigger "focus" [] input;
        finish false false
  | _, _ => finish true true
  end.

(** Lines 464 to 467. *)
Definition dispose (el : nid) : btnM () := mupdate (drop_data el).

(** Lines 470 to 483. *)
Definition _jQueryInterface (config : string) (els : list nid) : btnM () :=
  meach (λ el,
    _ ← mupdate (λ p, match pdata p !! el with Some _ => p | None => set_data el () p end);
    if bool_decide (config = "toggle") then toggle el else mret ()) els.

(** Lines 500 to 508: the click may hit a node inside the button. *)
Definition on_click (target : nid) : btnM () :=
  d ← mget pdoc;
  let button := if Dom.hasClass d target "btn" then Some target
                else Dom.closest (Dom.sel_class "btn") d target in
  match button with
  | Some b => _jQueryInterface "toggle" [b]
  | None => mret ()
  end.

(** Lines 509 to 512. *)
Definition on_focus_blur (type : string) (target : nid) : btnM () :=
  d ← mget pdoc;
  doc_opt (Dom.toggleClassTo "focus" (bool_decide (type = "focus") || bool_decide (type = "focusin")))
    (Dom.closest (Dom.sel_class "btn") d target).

Lemma set_checked_class b n d m c : Dom.hasClass (set_checked b n d) m c = Dom.hasClass d m c.
Proof.
  unfold set_checked. rewrite Dom.hasClass_setAttribute. case_match; [|done]. apply Dom.each_hasClass.
  intros k d' _. apply Dom.hasClass_setAttribute.
Qed.
Lemma set_checked_present b n d m : is_Some (set_checked b n d !! m) ↔ is_Some (d !! m).
Proof.
  unfold set_checked. rewrite Dom.present_setAttribute. case_match; [|done]. apply Dom.each_present.
  intros k d'. apply Dom.present_setAttribute.
Qed.
Lemma set_checked_same b n d : is_Some (d !! n) → checked (set_checked b n d) n = b.
Proof.
  intros Hn. unfold checked, set_checked. rewrite Dom.getAttribute_set_same; [by destruct b|]. case_match; [|done].
  rewrite Dom.each_present; [done|]. intros k d'. apply Dom.present_setAttribute.
Qed.

(** In a group with at most one active member. *)
Definition one_active (d : dom) (root : nid) : Prop :=
  ∀ a b, a ∈ Dom.descendants d root → b ∈ Dom.descendants d root →
    Dom.hasClass d a "active" = true → Dom.hasClass d b "active" = true → a = b.

Lemma find_elem P d root n : n ∈ Dom.find P d root ↔ P d n = true ∧ n ∈ Dom.descendants d root.
Proof. unfold Dom.find. rewrite list_elem_of_filter. by rewrite Is_true_true. Qed.

Lemma checked_toggle c n d m : checked (Dom.toggleClass c n d) m = checked d m.
Proof. unfold checked, Dom.toggleClass. case_match; by rewrite ?Dom.getAttribute_removeClass, ?Dom.getAttribute_addClass. Qed.

(** What [leave_active] does to a radio group. *)
Definition left (d : dom) (root : nid) : dom :=
  match head (Dom.find (Dom.sel_class "active") d root) with
  | Some a => Dom.removeClass "active" a d
  | None => d
  end.

Lemma left_inactive d root n :
  one_active d root → n ∈ Dom.descendants d root → Dom.hasClass (left d root) n "active" = false.
Proof.
  intros H1 Hn. unfold left. destruct (Dom.find (Dom.sel_class "active") d root) as [|a l] eqn:E; simpl.
  - destruct (Dom.hasClass d n "active") eqn:Ha; [|done].
    assert (n ∈ Dom.find (Dom.sel_class "active") d root) as Hin by (by apply find_elem).
    rewrite E in Hin. by apply elem_of_nil in Hin.
  - assert (a ∈ Dom.find (Dom.sel_class "active") d root) as Hin by (rewrite E; by left).
    apply find_elem in Hin as [Ha Hd]. rewrite Dom.hasClass_removeClass.
    destruct (Dom.hasClass d n "active") eqn:Hna; [|by rewrite andb_false_r].
    rewrite bool_decide_true; [done|]. split; [by apply H1|done].
Qed.

(** Choosing a radio button of a group in which at most one button is
    active makes it the only active one and checks its input, and the change
    is announced; nothing else of the group stays active. *)
Theorem radio_exclusive el root input p :
  Dom.closest (Dom.sel_attr "data-toggle" "buttons") (pdoc p) el = Some root →
  head (Dom.find (Dom.sel_tag "input") (pdoc p) el) = Some input →
  Dom.getAttribute (pdoc p) input "type" = Some "radio" →
  checked (pdoc p) input && Dom.hasClass (pdoc p) el "active" = false →
  is_disabled (pdoc p) input root = false →
  el ∈ Dom.descendants (pdoc p) root → is_Some (pdoc p !! el) → is_Some (pdoc p !! input) →
  one_active (pdoc p) root →
  let p' := (toggle el p).1 in
  Dom.hasClass (pdoc p') el "active" = true ∧ checked (pdoc p') input = true ∧
  (∀ n, n ∈ Dom.descendants (pdoc p) root → n ≠ el → Dom.hasClass (pdoc p') n "active" = false) ∧
  plog p' = plog p ++ [Ev input "change" []; Ev input "focus" []].
Proof.
  intros Hroot Hin Hty Hch Hdis Hel Hpe Hpi H1 p'.
  set (d := left (pdoc p) root).
  assert (Hleave : leave_active el root input p = (BPage d (plog p) (pwait p) (pdata p) (pfresh p), Ret true)).
  { unfold leave_active, is_radio, mbind, jsM_bind, mget. rewrite bool_decide_true, Hch by done.
    unfold doc_opt, doc_op, mupdate, on_doc, d, left. destruct (head (Dom.find (Dom.sel_class "active") (pdoc p) root)); [done|]. by destruct p. }
  assert (Hdis' : is_disabled d input root = false).
  { rewrite <- Hdis. unfold is_disabled, Dom.hasAttribute, d, left.
    destruct (head (Dom.find (Dom.sel_class "active") (pdoc p) root)); [|done].
    by rewrite !Dom.getAttribute_removeClass, !Dom.hasClass_remove_other by (by right). }
  assert (Hna : Dom.hasClass d el "active" = false) by (by apply left_inactive).
  assert (Hpres : ∀ n, is_Some (d !! n) ↔ is_Some (pdoc p !! n)).
  { intros n. unfold d, left.
    destruct (head (Dom.find (Dom.sel_class "active") (pdoc p) root)); [apply Dom.present_removeClass|done]. }
  set (d' := Dom.toggleClass "active" el (set_checked true input d)).
  assert (E : (toggle el p).1 =
    BPage d' (plog p ++ [Ev input "change" []; Ev input "focus" []]) (pwait p) (pdata p) (pfresh p)).
  { unfold toggle, mbind at 1, jsM_bind at 1, mget at 1. rewrite Hroot, Hin.
    unfold mbind at 1, jsM_bind at 1. rewrite Hleave.
    run. rewrite Hdis', Hna. run. by rewrite <- app_assoc. }
  unfold p'. rewrite E. cbn [pdoc plog]. unfold d'.
  split_and!; [| | |done].
  - rewrite Dom.hasClass_toggle_same by (rewrite set_checked_present; by apply Hpres).
    by rewrite set_checked_class, Hna.
  - rewrite checked_toggle. apply set_checked_same. by apply Hpres.
  - intros n Hn Hne. rewrite Dom.hasClass_toggle_other by (by left). rewrite set_checked_class.
    by apply left_inactive.
Qed.

End button.

Lemma radio_exclusive_witness :
  let B := plain_browser in
  let d : dom := {[ 1%nat := Elem "div" "" [] {[ "data-toggle" := "buttons" ]} ∅ None [2%nat; 4%nat];
             2%nat := Elem "label" "" ["btn"; "active"] ∅ ∅ (Some 1%nat) [3%nat];
             3%nat := Elem "input" "" [] {[ "type" := "radio"; checked_key := "true" ]} ∅ (Some 2%nat) [];
             4%nat := Elem "label" "" ["btn"] ∅ ∅ (Some 1%nat) [5%nat];
             5%nat := Elem "input" "" [] {[ "type" := "radio" ]} ∅ (Some 4%nat) [] ]} in
  let p : bpage () False := BPage d [] [] ∅ 0 in
  let p' := (toggle 4%nat p).1 in
  Dom.hasClass (pdoc p') 4 "active" = true ∧ checked (pdoc p') 5 = true ∧
  (∀ n, n ∈ Dom.descendants (pdoc p) 1 → n ≠ 4%nat → Dom.hasClass (pdoc p') n "active" = false) ∧
  plog p' = plog p ++ [Ev 5 "change" []; Ev 5 "focus" []].
Proof.
  intros B d p. apply (radio_exclusive (B:=plain_browser) 4 1 5 p);
    try (vm_compute; reflexivity); [by_evaluation|by eexists|by eexists|].
  intros a b Ha Hb. change (Dom.descendants (pdoc p) 1) with [2; 3; 4; 5]%nat in *.
  repeat setoid_rewrite elem_of_cons in Ha. repeat setoid_rewrite elem_of_cons in Hb.
  repeat setoid_rewrite elem_of_nil in Ha. repeat setoid_rewrite elem_of_nil in Hb.
  destruct_or?; subst; try done.
Defined.

End Button.
