(* ===== verification/ButtonLife.v ===== *)
(** * Button: a group of radio buttons

    Labels that look like buttons, each with a radio input inside, as a machine:
    the button that looks pressed and the input that is checked.  The click
    handler refines it; the two agree as long as no disabled button is clicked. *)

From S2P Require Import Prelude Dom DomMarks Bs.
Local Open Scope string_scope.
Local Open Scope list_scope.

Module ButtonLife.
Import DomMarks Button.

(** ** The machine *)

Record radio := MkRadio { lit : option nat; ticked : option nat }.
Definition press (off : nat → bool) (s : radio) (i : nat) : radio :=
  if bool_decide (lit s = Some i ∧ ticked s = Some i) then s
  else if off i then MkRadio None (ticked s)
  else MkRadio (Some i) (Some i).

(** ** A group *)

Definition classes : list string := ["active"].
Definition attrs : list string := [checked_key].
Abbreviation alike := (alike classes attrs).

Section group.
Context `{B : Browser}.
Context (d0 : dom) (root : nid) (name : string) (labels inputs : list nid).

(** The button that a click on [t] reaches, lines 501 to 505. *)
Definition button_of (d : dom) (t : nid) : option nid :=
  if Dom.hasClass d t "btn" then Some t else Dom.closest (Dom.sel_class "btn") d t.

Record group : Prop := {
  r_root l : l ∈ labels → Dom.closest (Dom.sel_attr "data-toggle" "buttons") d0 l = Some root;
  r_below l : l ∈ labels → l ∈ Dom.descendants d0 root ∧ is_Some (d0 !! l);
  r_input i l x : labels !! i = Some l → inputs !! i = Some x → head (Dom.find (Dom.sel_tag "input") d0 l) = Some x;
  r_type x : x ∈ inputs → Dom.sel_tag "input" d0 x = true ∧ is_radio d0 x = true ∧ group_name d0 x = name;
  r_named : name ≠ "";
  r_labels : NoDup labels;
  r_inputs : NoDup inputs;
  r_length : length labels = length inputs;
  r_nodes d x : alike d0 d → x ∈ inputs → x ∈ all_nodes d
}.
Hypothesis G : group.

Definition off (i : nat) : bool := match inputs !! i with Some x => is_disabled d0 x root | None => false end.

Definition shows (d : dom) (s : radio) : Prop :=
  (∀ n, n ∈ Dom.descendants d0 root → Dom.hasClass d n "active" = bool_decide (lit s ≫= (labels !!.) = Some n)) ∧
  (∀ i x, inputs !! i = Some x → checked d x = bool_decide (ticked s = Some i)).
Definition represents (s : radio) (p : bpage () False) : Prop :=
  ∃ d w, page_at d w (λ _, True) p ∧ alike d0 d ∧ shows d s.

(** ** The document *)

Lemma checked_other a v n d m : a ≠ checked_key → checked (Dom.setAttribute a v n d) m = checked d m.
Proof. intros Ha. unfold checked. by rewrite Dom.getAttribute_set_other by (by right). Qed.
Lemma set_checked_alike b n d : alike d (set_checked b n d).
Proof.
  unfold set_checked. cbv zeta. assert (Ha : checked_key ∈ attrs) by (by left).
  case_match; [|by apply marks_set]. etrans; [apply marks_each_node|by apply marks_set]. intros ??. by apply marks_set.
Qed.
Lemma alike_disabled d x : alike d0 d → is_disabled d x root = is_disabled d0 x root.
Proof.
  intros H. unfold is_disabled, Dom.hasAttribute. by rewrite !(marks_attribute classes attrs d0 d),
    !(marks_class classes attrs d0 d) by (done || by_evaluation).
Qed.
Lemma alike_radio d x : alike d0 d → is_radio d x = is_radio d0 x ∧ group_name d x = group_name d0 x.
Proof. intros H. unfold is_radio, group_name. by rewrite !(marks_attribute classes attrs d0 d) by (done || by_evaluation). Qed.

(** Checking one input takes the check from the others. *)
Lemma each_unchecked ns d m :
  checked (Dom.each (Dom.setAttribute checked_key "false") ns d) m = negb (bool_decide (m ∈ ns)) && checked d m.
Proof.
  unfold Dom.each. revert d. induction ns as [|n ns IH]; intros d; [done|]. cbn [foldl]. rewrite IH.
  destruct (decide (m = n)) as [->|Hne].
  - rewrite (bool_decide_true (n ∈ n :: ns)) by (by left). cbn. unfold checked.
    destruct (decide (is_Some (d !! n))) as [Hn|Hn].
    + rewrite Dom.getAttribute_set_same by done. by rewrite (bool_decide_false (Some "false" = Some "true")), andb_false_r.
    + unfold Dom.getAttribute. assert (Hs : Dom.setAttribute checked_key "false" n d !! n = None).
      { apply eq_None_not_Some. by rewrite Dom.present_setAttribute. }
      rewrite Hs. by rewrite (bool_decide_false (None ≫= _ = Some "true")), andb_false_r.
  - unfold checked at 1. rewrite Dom.getAttribute_set_other by (left; congruence). do 2 f_equal. apply bool_decide_ext. set_solver.
Qed.
Lemma set_checked_group i x d j y :
  alike d0 d → inputs !! i = Some x → inputs !! j = Some y →
  checked (set_checked true x d) y = bool_decide (i = j).
Proof.
  intros H Hx Hy. destruct (decide (i = j)) as [->|Hij].
  { rewrite bool_decide_true by done. replace y with x by congruence. apply set_checked_same.
    apply (marks_present classes attrs d0 d H). assert (Hin : x ∈ inputs) by (by eapply list_elem_of_lookup_2).
    destruct (r_type G x Hin) as (Ht & _). unfold Dom.sel_tag in Ht. destruct (d0 !! x); [by eexists|done]. }
  assert (Hxy : y ≠ x) by (intros ->; apply Hij; by eapply NoDup_lookup; [apply (r_inputs G)|..]).
  assert (Hxi : x ∈ inputs) by (by eapply list_elem_of_lookup_2). assert (Hyi : y ∈ inputs) by (by eapply list_elem_of_lookup_2).
  destruct (r_type G x Hxi) as (_ & Rx & Nx), (r_type G y Hyi) as (Ty & Ry & Ny).
  destruct (alike_radio d x H) as [Ex Gx], (alike_radio d y H) as [Ey Gy].
  rewrite bool_decide_false by done. unfold set_checked. rewrite Ex, Rx. cbn [andb].
  unfold checked at 1. rewrite Dom.getAttribute_set_other by (left; congruence). fold (checked (Dom.each (Dom.setAttribute checked_key "false") (Dom.query (all_nodes d) (λ d m, rival d x m) d) d) y).
  rewrite each_unchecked, bool_decide_true; [done|]. unfold Dom.query. apply list_elem_of_filter.
  split; [|by apply (r_nodes G)]. unfold rival. rewrite (marks_tag classes attrs d0 d H), Ty, Ey, Ry, Gx, Gy, Nx, Ny.
  rewrite (bool_decide_false (y = x)), (bool_decide_false (name = "")), (bool_decide_true (name = name)) by (done || apply (r_named G)).
  done.
Qed.
Lemma lit_label s i l : labels !! i = Some l → lit s ≫= (labels !!.) = Some l ↔ lit s = Some i.
Proof.
  intros Hl. destruct (lit s) as [j|]; cbn; [|naive_solver]. split; [|congruence].
  intros Hj. f_equal. by eapply NoDup_lookup; [apply (r_labels G)|..].
Qed.
Lemma shows_one d s : alike d0 d → shows d s → one_active d root.
Proof.
  intros H [Hs _] a b. rewrite (marks_descendants classes attrs d0 d H). intros Ha Hb.
  rewrite (Hs a Ha), (Hs b Hb), !bool_decide_eq_true. congruence.
Qed.
Lemma left_alike d : alike d (left d root).
Proof. unfold left. case_match; [by apply marks_remove; left|done]. Qed.
Lemma left_shows d s : alike d0 d → shows d s → shows (left d root) (MkRadio None (ticked s)).
Proof.
  intros H Hs. split.
  - intros n Hn. rewrite left_inactive; [done|by eapply shows_one|by rewrite (marks_descendants classes attrs d0 d H)].
  - intros i x Hx. cbn [ticked]. rewrite <- (proj2 Hs i x Hx). unfold left. case_match; [|done]. unfold checked.
    by rewrite Dom.getAttribute_removeClass.
Qed.
Lemma chosen_shows d i l x t :
  alike d0 d → shows d (MkRadio None t) → labels !! i = Some l → inputs !! i = Some x →
  shows (Dom.toggleClass "active" l (set_checked true x d)) (MkRadio (Some i) (Some i)).
Proof.
  intros H [Hs1 Hs2] Hl Hx. assert (Hin : l ∈ labels) by (by eapply list_elem_of_lookup_2). destruct (r_below G l Hin) as [Hd Hp].
  split.
  - intros n Hn. cbn [lit mbind option_bind]. rewrite Hl. destruct (decide (n = l)) as [->|Hne].
    + rewrite Dom.hasClass_toggle_same by (rewrite set_checked_present; by apply (marks_present classes attrs d0 d H)).
      rewrite set_checked_class, (Hs1 l Hd). by rewrite (bool_decide_true (Some l = Some l)).
    + rewrite Dom.hasClass_toggle_other, set_checked_class, (Hs1 n Hn) by (left; congruence).
      by rewrite (bool_decide_false (Some l = Some n)) by congruence.
  - intros j y Hy. rewrite checked_toggle, (set_checked_group i x d j y) by done. apply bool_decide_ext. cbn. naive_solver.
Qed.

(** ** The handler *)

Lemma leave_active_at l x d w R b :
  is_radio d x = true → checked d x && Dom.hasClass d l "active" = b →
  triple (page_at d w R) (leave_active l root x) (λ r s, page_at (if b then d else left d root) w R s ∧ r = negb b).
Proof.
  intros Hr Hb. unfold leave_active. apply (page_get_seq id). unfold id. rewrite Hr, Hb. destruct b.
  - intros s Hs. by exists false, s.
  - eapply triple_seq; [|intros s Hs; exists true, s; split; [done|split; [exact Hs|done]]].
    unfold left, doc_opt. destruct (head _); [apply page_doc|apply triple_ret].
Qed.
Lemma toggle_represents i l s : labels !! i = Some l → triple (represents s) (toggle l) (λ _, represents (press off s i)).
Proof.
  intros Hl. assert (Hi : i < length inputs) by (rewrite <- (r_length G); by eapply lookup_lt_Some).
  apply lookup_lt_is_Some in Hi as [x Hx].
  assert (Hll : l ∈ labels) by (by eapply list_elem_of_lookup_2). assert (Hxi : x ∈ inputs) by (by eapply list_elem_of_lookup_2).
  intros p (d & w & Hp & H & Hs). revert p Hp.
  assert (Hsh : triple (page_at d w (λ _, True)) (toggle l) (λ _ p, represents (press off s i) p)); [|exact Hsh].
  unfold toggle. apply (page_get_seq id). unfold id.
  rewrite (marks_closest classes attrs d0 d H), (r_root G l Hll).
  2: { intros m. unfold Dom.sel_attr. by rewrite (marks_attribute classes attrs d0 d H) by by_evaluation. }
  rewrite (marks_find classes attrs d0 d H), (r_input G i l x Hl Hx) by (intros m; by apply (marks_tag classes attrs)).
  destruct (r_type G x Hxi) as (_ & Rx & _). destruct (r_below G l Hll) as [Hd _].
  set (b := bool_decide (lit s = Some i ∧ ticked s = Some i)).
  eapply triple_bind. { apply (leave_active_at l x d w _ b); [by rewrite (proj1 (alike_radio d x H))|].
    rewrite (proj2 Hs i x Hx), (proj1 Hs l Hd), <- bool_decide_and. apply bool_decide_ext. rewrite (lit_label s i l Hl). naive_solver. }
  intros r. apply triple_pure. intros ->. unfold press. fold b. destruct b; cbn [negb].
  - apply (page_get_seq id). unfold id. apply page_trigger_bind. apply (page_get_seq id). intros p Hp. exists tt, p. split; [done|]. by exists d, w.
  - set (d1 := left d root). assert (H1 : alike d0 d1) by (etrans; [exact H|apply left_alike]).
    pose proof (left_shows d s H Hs) as Hs1. fold d1 in Hs1.
    apply (page_get_seq id). unfold id. rewrite alike_disabled by done. unfold off. rewrite Hx.
    destruct (is_disabled d0 x root); [intros p Hp; exists tt, p; split; [done|]; by exists d1, w|].
    rewrite (proj1 Hs1 l Hd). cbn [lit mbind option_bind]. rewrite (bool_decide_false (None = Some l)) by done. cbn [negb].
    eapply triple_seq; [apply page_doc|]. do 2 apply page_trigger_bind. apply (page_get_seq id).
    eapply triple_seq; [apply triple_ret|]. eapply triple_conseq; [apply page_doc|done|]. intros ? q Hq. eexists _, _. split; [exact Hq|].
    split; [|by eapply chosen_shows]. etrans; [exact H1|]. etrans; [apply set_checked_alike|]. apply marks_toggle. by left.
Qed.

(** A click that reaches the button with the number [i]. *)
Definition reaches (t : nid) (i : nat) : Prop := is_Some (labels !! i) ∧ button_of d0 t = labels !! i.
Lemma radio_represents t i s :
  reaches t i → triple (represents s) (on_click t) (λ _, represents (press off s i)).
Proof.
  intros [[l Hl] Ht] p (d & w & Hp & H & Hs). revert p Hp.
  assert (Hsh : triple (page_at d w (λ _, True)) (on_click t) (λ _ p, represents (press off s i) p)); [|exact Hsh].
  unfold on_click. apply (page_get_seq id). unfold id. fold (button_of d t).
  assert (Hb : button_of d t = Some l).
  { rewrite <- Hl, <- Ht. unfold button_of. rewrite (marks_class classes attrs d0 d H) by by_evaluation. case_match; [done|].
    apply (marks_closest classes attrs d0 d H). intros m. unfold Dom.sel_class. by rewrite (marks_class classes attrs d0 d H) by by_evaluation. }
  rewrite Hb. unfold _jQueryInterface. cbn [meach]. eapply triple_seq; [|apply triple_ret].
  eapply triple_seq; [|cbn; by apply (toggle_represents i l s)]. apply triple_update. intros p (Hd & Hw & _).
  exists d, w. split; [|done]. by case_match.
Qed.
Definition clicks (ts : list nid) : bsM () False () := meach on_click ts.

(** Without disabled buttons the last one clicked is chosen. *)
Lemma press_enabled s js : Forall (λ i, off i = false) js → js ≠ [] → foldl (press off) s js = MkRadio (last js) (last js).
Proof.
  induction js as [|j js _] using rev_ind; [done|]. intros Ho _. rewrite foldl_app, last_snoc. cbn [foldl]. unfold press at 1.
  case_bool_decide as Hc.
  - destruct (foldl (press off) s js) as [a b]. cbn in Hc. by destruct Hc as [-> ->].
  - apply Forall_app in Ho as [_ Ho]. inversion Ho as [|?? Hoff _]; subst. by rewrite Hoff.
Qed.

(** C26. A group of radio buttons: whatever is clicked, no handler throws, and the
    page shows the state of the machine.  As long as the clicked buttons are
    enabled, the last of them is the only active one and its input the only
    checked one of the group.  But a click on a disabled button takes the class
    active from the chosen one before the handler gives up, so that no button
    looks chosen although an input is still checked. *)
Theorem radio_group s ts js p :
  represents s p → Forall2 reaches ts js →
  ∃ p', clicks ts p = (p', Ret ()) ∧ represents (foldl (press off) s js) p' ∧
        (Forall (λ i, off i = false) js → js ≠ [] → represents (MkRadio (last js) (last js)) p').
Proof.
  intros Hp Hts. assert (Ht : triple (represents s) (clicks ts) (λ _, represents (foldl (press off) s js))).
  { clear p Hp. revert s. induction Hts as [|t j ts js Hr _ IH]; intros s; [apply triple_ret|].
    unfold clicks. cbn [meach foldl]. eapply triple_seq; [by apply radio_represents|apply IH]. }
  destruct (Ht p Hp) as ([] & p' & E & H'). exists p'. split_and!; [done..|]. intros Ho Hj. by rewrite <- press_enabled with (s := s).
Qed.

End group.

(** ** Two enabled buttons and a disabled one *)

Definition radio_input (more : gmap string string) (l : nat) : elem :=
  Elem "input" "" [] (<["type" := "radio"]> (<["name" := "options"]> more)) ∅ (Some l) [].
Definition sample_doc : dom :=
  {[ 1%nat := Elem "div" "" ["btn-group"] {[ "data-toggle" := "buttons" ]} ∅ None [2%nat; 3%nat; 4%nat];
     2%nat := Elem "label" "" ["btn"; "active"] ∅ ∅ (Some 1%nat) [5%nat];
     3%nat := Elem "label" "" ["btn"] ∅ ∅ (Some 1%nat) [6%nat];
     4%nat := Elem "label" "" ["btn"] ∅ ∅ (Some 1%nat) [7%nat];
     5%nat := radio_input {[ checked_key := "true" ]} 2;
     6%nat := radio_input ∅ 3;
     7%nat := radio_input {[ "disabled" := "" ]} 4 ]}.
Lemma sample_group : group (B:=plain_browser) sample_doc 1 "options" [2; 3; 4] [5; 6; 7].
Proof.
  split.
  - intros l Hl. each_of Hl.
  - intros l Hl. each_of Hl; (split; [by_evaluation|eexists; vm_compute; reflexivity]).
  - intros i l x Hl Hx. each_at Hl i; injection Hx as <-; vm_compute; reflexivity.
  - intros x Hx. each_of Hx; split_and!; vm_compute; reflexivity.
  - done.
  - by_evaluation.
  - by_evaluation.
  - done.
  - intros d x Hd Hx. cbn. rewrite (marks_keys _ _ _ _ Hd). each_of Hx; by_evaluation.
Qed.
Lemma sample_shows : represents sample_doc 1 [2; 3; 4] [5; 6; 7] (MkRadio (Some 0) (Some 0)) (BPage sample_doc [] [] ∅ 0).
Proof.
  exists sample_doc, []. split; [done|]. split; [done|]. split.
  - intros n Hn. change (Dom.descendants sample_doc 1) with [2; 5; 3; 6; 4; 7]%nat in Hn. each_of Hn.
  - intros i x Hx. each_at Hx i; vm_compute; reflexivity.
Qed.

(** The second button, by its input, and then the disabled one. *)
Lemma radio_group_witness : ∃ p',
  clicks (B:=plain_browser) [6; 4] (BPage sample_doc [] [] ∅ 0) = (p', Ret ()) ∧
  represents sample_doc 1 [2; 3; 4] [5; 6; 7] (MkRadio None (Some 1)) p'.
Proof.
  destruct (radio_group (B:=plain_browser) sample_doc 1 "options" [2; 3; 4] [5; 6; 7] sample_group
    (MkRadio (Some 0) (Some 0)) [6; 4] [1; 2] (BPage sample_doc [] [] ∅ 0) sample_shows) as (p' & E & H & _).
  - constructor; [|constructor; [|constructor]]; (split; [by eexists|vm_compute; reflexivity]).
  - exists p'. by split.
Defined.
End ButtonLife.
