(* ===== verification/BsIndex.v ===== *)
(** * Loading Bootstrap, bootstrap.js lines 3862 to 3877

    When the library is loaded it compares the version of jQuery, a text, with
    numbers: [<] and [>=] convert the text, [===] does not. *)

From S2P Require Import Prelude JsString JsNum.
Local Open Scope Z_scope.

Module BsIndex.

(** [a === b] *)
Definition strict_eq (a b : jsval) : bool :=
  match a, b with
  | VUndef, VUndef => true
  | VNum x, VNum y => deq x y
  | VStr s, VStr t => bool_decide (s = t)
  | _, _ => false
  end.

(** [version[i]] *)
Definition part (version : list jsstring) (i : nat) : jsval := from_option VStr VUndef (version !! i).

Definition no_jquery : js_exn := TypeError.
Definition wrong_jquery : js_exn := ErrorMsg "Bootstrap's JavaScript requires at least jQuery v1.9.1 but less than v4.0.0".

(** Lines 3867 to 3876, on the text [$.fn.jquery]; [None] if jQuery is undefined. *)
Definition split_version (jquery : jsstring) : list jsstring := split_on 46 (default [] (head (split_on 32 jquery))).
Definition outdated (version : list jsstring) : bool :=
  (js_lt (part version 0) (num 2) && js_lt (part version 1) (num 9)) ||
  (strict_eq (part version 0) (num 1) && strict_eq (part version 1) (num 9) && js_lt (part version 2) (num 1)) ||
  js_le (num 4) (part version 0).
Definition check_jquery (jquery : option jsstring) : outcome () :=
  match jquery with
  | None => Throw no_jquery
  | Some text => if outdated (split_version text) then Throw wrong_jquery else Ret ()
  end.

(** Numbers of up to three digits. *)
Lemma below_2 n : 0 ≤ n < 1000 → js_lt (VStr (js_of_Z n)) (num 2) = (n <? 2).
Proof. intros Hn. check_range n 1000. Qed.
Lemma below_9 n : 0 ≤ n < 1000 → js_lt (VStr (js_of_Z n)) (num 9) = (n <? 9).
Proof. intros Hn. check_range n 1000. Qed.
Lemma from_4 n : 0 ≤ n < 1000 → js_le (num 4) (VStr (js_of_Z n)) = (4 <=? n).
Proof. intros Hn. check_range n 1000. Qed.
Lemma digits_only n : 0 ≤ n < 1000 → 46 ∉ js_of_Z n ∧ 32 ∉ js_of_Z n.
Proof. intros Hn. check_range n 1000. Qed.

Lemma split_head sep w s : sep ∉ w → head (split_on sep (w ++ s)) = (w ++.) <$> head (split_on sep s).
Proof.
  intros Hw. destruct (split_on_cons_ne sep s) as (x & xs & Hs). rewrite Hs. cbn.
  induction w as [|c w IH]; [cbn; by rewrite Hs|]. apply not_elem_of_cons in Hw as [Hc Hw]. cbn [split_on app].
  specialize (IH Hw). destruct (split_on sep (w ++ s)) as [|y ys]; [done|]. injection IH as ->.
  by rewrite (proj2 (Z.eqb_neq c sep)).
Qed.
Lemma split_version_text maj min rest :
  0 ≤ maj < 1000 → 0 ≤ min < 1000 →
  ∃ parts, split_version (js_of_Z maj ++ 46 :: js_of_Z min ++ 46 :: rest) = js_of_Z maj :: js_of_Z min :: parts.
Proof.
  intros Hmaj Hmin. destruct (digits_only maj Hmaj) as [D1 S1], (digits_only min Hmin) as [D2 S2]. unfold split_version.
  replace (js_of_Z maj ++ 46 :: js_of_Z min ++ 46 :: rest) with ((js_of_Z maj ++ 46 :: js_of_Z min ++ [46]) ++ rest)
    by (by rewrite <- app_assoc; cbn; rewrite <- app_assoc).
  rewrite split_head by (rewrite elem_of_app, elem_of_cons, elem_of_app, list_elem_of_singleton; naive_solver lia).
  destruct (split_on_cons_ne 32 rest) as (x & xs & Hs). rewrite Hs. cbn [head fmap option_fmap option_map default from_option id].
  rewrite <- app_assoc. cbn [app]. rewrite <- app_assoc. cbn [app]. rewrite !split_on_app by done. by eexists.
Qed.

(** Which versions of jQuery Bootstrap accepts: those with a major number of 4
    or more are refused, and those with a major number below 2 if the minor one
    is below 9; nothing else is looked at, so that version 1.9.0, which the
    message excludes, is accepted (as is 0.9). *)
Theorem jquery_versions maj min rest :
  0 ≤ maj < 1000 → 0 ≤ min < 1000 →
  check_jquery (Some (js_of_Z maj ++ 46 :: js_of_Z min ++ 46 :: rest)) =
    if ((maj <? 2) && (min <? 9)) || (4 <=? maj) then Throw wrong_jquery else Ret ().
Proof.
  intros Hmaj Hmin. destruct (split_version_text maj min rest Hmaj Hmin) as [parts E]. unfold check_jquery. rewrite E.
  unfold outdated. cbn [part lookup list_lookup from_option strict_eq andb].
  by rewrite below_2, below_9, from_4, orb_false_r by done.
Qed.
Lemma jquery_versions_witness :
  check_jquery (Some (js "1.9.0")) = Ret () ∧ check_jquery (Some (js "1.8.3")) = Throw wrong_jquery ∧
  check_jquery (Some (js "3.4.0 -ajax")) = Ret ().
Proof.
  split_and!.
  - apply (jquery_versions 1 9 (js "0")); lia.
  - apply (jquery_versions 1 8 (js "3")); lia.
  - apply (jquery_versions 3 4 (js "0 -ajax")); lia.
Defined.

End BsIndex.
