(* ===== verification/Carousel.v ===== *)
(** * Carousel, bootstrap.js lines 537 to 1027

    A carousel object lives on its element and remembers its timer and whether
    it is paused or sliding.  A slide that is animated ends in a callback that
    waits for the end of the transition; a request to go to an item while
    sliding waits for the slid event. *)

From S2P Require Import Prelude Dom Bs.
Local Open Scope string_scope.
Local Open Scope list_scope.

Class Visibility := {
  page_visible : dom → nid → bool;         (* lines 642: page and carousel are visible *)
  visibilityState : bool;                  (* [document.visibilityState] exists *)
  has_touch : bool;                        (* ['ontouchstart' in document.documentElement] *)
  data_attributes : dom → nid → gmap string Util.optval   (* [$(el).data()] *)
}.

Module Carousel.

Inductive direction := NEXT | PREV.
#[global] Instance direction_eq_dec : EqDecision direction.
Proof. solve_decision. Defined.

(** What the interval timer calls. *)
Inductive ticker := TickVisible | TickNext.

Abbreviation config := (gmap string Util.optval).

Record carousel := MkCarousel {
  _items : list nid;
  _interval : option ticker;
  _activeElement : option nid;
  _isPaused : bool;
  _isSliding : bool;
  touchTimeout : bool;
  _config : config;
  _indicatorsElement : option nid;
  listeners : list string
}.

(** Callbacks: the end of an animated slide, the slid event it schedules, and
    the [to] calls that wait for it. *)
Inductive kont :=
  | EndSlide (active next : nid) (directional order : string) (slid : list (string * evarg))
  | TriggerSlid (slid : list (string * evarg))
  | GoTo (index : Z) (is_number : bool).

Abbreviation carM := (bsM carousel kont).

Section carousel.
Context `{B : Browser, V : Visibility}.

(** Lines 556 to 569. *)
Definition Default : config :=
  list_to_map [("interval", Util.ONum 5000); ("keyboard", Util.OBool true);
    ("slide", Util.OBool false); ("pause", Util.OStr "hover"); ("wrap", Util.OBool true)].
Definition DefaultType : list (string * list string) :=
  [("interval", ["number"; "boolean"]); ("keyboard", ["boolean"]); ("slide", ["boolean"; "string"]);
   ("pause", ["string"; "boolean"]); ("wrap", ["boolean"])].

Definition truthy : Util.optval → bool := Util.truthy.
Definition option_of (c : config) (k : string) : Util.optval := default Util.OUndefined (c !! k).

(** ** Access to the object on [el] *)

Definition upd (f : carousel → carousel) (el : nid) : carM () :=
  mupdate (λ p, BPage (pdoc p) (plog p) (pwait p) (alter f el (pdata p)) (pfresh p)).
Definition this {A} (el : nid) (f : carousel → A) : carM A := λ p,
  match pdata p !! el with Some c => (p, Ret (f c)) | None => (p, Throw TypeError) end.

Definition set_items (l : list nid) (c : carousel) : carousel :=
  MkCarousel l (_interval c) (_activeElement c) (_isPaused c) (_isSliding c) (touchTimeout c)
    (_config c) (_indicatorsElement c) (listeners c).
Definition set_interval (t : option ticker) (c : carousel) : carousel :=
  MkCarousel (_items c) t (_activeElement c) (_isPaused c) (_isSliding c) (touchTimeout c)
    (_config c) (_indicatorsElement c) (listeners c).
Definition set_active (a : option nid) (c : carousel) : carousel :=
  MkCarousel (_items c) (_interval c) a (_isPaused c) (_isSliding c) (touchTimeout c)
    (_config c) (_indicatorsElement c) (listeners c).
Definition set_paused (b : bool) (c : carousel) : carousel :=
  MkCarousel (_items c) (_interval c) (_activeElement c) b (_isSliding c) (touchTimeout c)
    (_config c) (_indicatorsElement c) (listeners c).
Definition set_sliding (b : bool) (c : carousel) : carousel :=
  MkCarousel (_items c) (_interval c) (_activeElement c) (_isPaused c) b (touchTimeout c)
    (_config c) (_indicatorsElement c) (listeners c).
Definition set_touch (b : bool) (c : carousel) : carousel :=
  MkCarousel (_items c) (_interval c) (_activeElement c) (_isPaused c) (_isSliding c) b
    (_config c) (_indicatorsElement c) (listeners c).

(** ** Items *)

Definition ACTIVE_ITEM : Dom.selector := Dom.sel_and (Dom.sel_class "active") (Dom.sel_class "carousel-item").
Definition active_item (d : dom) (el : nid) : option nid := head (Dom.find ACTIVE_ITEM d el).

Fixpoint indexOf (x : nid) (l : list nid) (i : Z) : Z :=
  match l with
  | [] => -1
  | y :: l' => if decide (x = y) then i else indexOf x l' (i + 1)%Z
  end.

(** Lines 790 to 793: the items beside [element], remembered, and its index. *)
Definition items_of (d : dom) (element : option nid) : list nid :=
  match element ≫= Dom.parent d with
  | Some q => Dom.find (Dom.sel_class "carousel-item") d q
  | None => []
  end.
Definition index_in (l : list nid) (element : option nid) : Z :=
  match element with Some e => indexOf e l 0 | None => -1 end.
Definition _getItemIndex (el : nid) (element : option nid) : carM Z :=
  l ← mget (λ p, items_of (pdoc p) element);
  _ ← upd (set_items l) el;
  mret (index_in l element).

(** Lines 801 to 810, on the items and the index of the active one; the
    remainder has the sign of the dividend. *)
Definition pick (wrap : bool) (dir : direction) (items : list nid) (activeElement : nid) (activeIndex : Z) :
    option nid :=
  let len := Z.of_nat (length items) in
  let isGoingToWrap :=
    match dir with PREV => (activeIndex =? 0)%Z | NEXT => (activeIndex =? len - 1)%Z end in
  if isGoingToWrap && negb wrap then Some activeElement
  else
    let delta := match dir with PREV => -1 | NEXT => 1 end%Z in
    let itemIndex := Z.rem (activeIndex + delta) len in
    if (itemIndex =? -1)%Z then items !! Z.to_nat (len - 1)
    else if (itemIndex <? 0)%Z then None
    else items !! Z.to_nat itemIndex.

(** Lines 795 to 811. *)
Definition _getItemByDirection (el : nid) (dir : direction) (activeElement : nid) : carM (option nid) :=
  activeIndex ← _getItemIndex el (Some activeElement);
  items ← this el _items;
  cfg ← this el _config;
  mret (pick (truthy (option_of cfg "wrap")) dir items activeElement activeIndex).

(** Lines 828 to 838. *)
Definition _setActiveIndicatorElement (el : nid) (element : option nid) : carM () :=
  ind ← this el _indicatorsElement;
  match ind with
  | None => mret ()
  | Some ind =>
      d ← mget pdoc;
      _ ← doc_op (Dom.each (Dom.removeClass "active") (Dom.find (Dom.sel_class "active") d ind));
      i ← _getItemIndex el element;
      kids ← mget (λ p, Dom.children (pdoc p) ind);
      doc_opt (Dom.addClass "active") (if (i <? 0)%Z then None else kids !! Z.to_nat i)
  end.

(** ** The timer *)

(** Lines 667 to 680; [event] tells whether an event object is passed. *)
Definition cycle (el : nid) (event : bool) : carM () :=
  _ ← mguard (negb event) (upd (set_paused false) el);
  _ ← upd (set_interval None) el;
  c ← this el id;
  mguard (truthy (option_of (_config c) "interval") && negb (_isPaused c))
    (upd (set_interval (Some (if visibilityState then TickVisible else TickNext))) el).

(** Lines 653 to 665.  The transition end is triggered on the carousel
    itself, where no callback waits. *)
Definition pause (el : nid) (event : bool) : carM () :=
  _ ← mguard (negb event) (upd (set_paused true) el);
  d ← mget pdoc;
  _ ← match head (Dom.find (Dom.sel_or (Dom.sel_class "carousel-item-next") (Dom.sel_class "carousel-item-prev")) d el) with
      | Some _ =>
          if supportsTransitionEnd then
            _ ← trigger "transitionend" [] el;
            cycle el true
          else mret ()
      | None => mret ()
      end;
  upd (set_interval None) el.

(** ** Sliding *)

Definition directional (dir : direction) : string :=
  match dir with NEXT => "carousel-item-left" | PREV => "carousel-item-right" end.
Definition order (dir : direction) : string :=
  match dir with NEXT => "carousel-item-next" | PREV => "carousel-item-prev" end.
Definition event_direction (dir : direction) : string :=
  match dir with NEXT => "left" | PREV => "right" end.

Definition slide_args (related : option nid) (dir : string) (from to : Z) : list (string * evarg) :=
  [("relatedTarget", ANode related); ("direction", AStr dir); ("from", ANum from); ("to", ANum to)].

(** Lines 813 to 826. *)
Definition _triggerSlideEvent (el : nid) (relatedTarget : option nid) (dir : string) : carM bool :=
  targetIndex ← _getItemIndex el relatedTarget;
  a ← mget (λ p, active_item (pdoc p) el);
  fromIndex ← _getItemIndex el a;
  trigger "slide.bs.carousel" (slide_args relatedTarget dir fromIndex targetIndex) el.

(** Lines 897 to 909 and 910 to 915; [on_slid] runs the callbacks that wait
    for the slid event. *)
Definition animate (el active next : nid) (dir : direction) (slid : list (string * evarg)) : carM () :=
  _ ← doc_op (Dom.addClass (order dir) next);
  _ ← doc_op (Dom.addClass (directional dir) active);
  _ ← doc_op (Dom.addClass (directional dir) next);
  one active TRANSITION_END (EndSlide active next (directional dir) (order dir) slid).
Definition jump (on_slid : carM ()) (el active next : nid) (slid : list (string * evarg)) : carM () :=
  _ ← doc_op (Dom.removeClass "active" active);
  _ ← doc_op (Dom.addClass "active" next);
  _ ← upd (set_sliding false) el;
  _ ← trigger "slid.bs.carousel" slid el;
  on_slid.

(** Lines 840 to 920. *)
Definition _slide (on_slid : carM ()) (el : nid) (dir : direction) (element : option nid) : carM () :=
  activeElement ← mget (λ p, active_item (pdoc p) el);
  activeElementIndex ← _getItemIndex el activeElement;
  nextElement ← match element, activeElement with
                | Some e, _ => mret (Some e)
                | None, Some a => _getItemByDirection el dir a
                | None, None => mret None
                end;
  nextElementIndex ← _getItemIndex el nextElement;
  isCycling ← this el (λ c, bool_decide (is_Some (_interval c)));
  d ← mget pdoc;
  if match nextElement with Some n => Dom.hasClass d n "active" | None => false end then
    upd (set_sliding false) el
  else
    prevented ← _triggerSlideEvent el nextElement (event_direction dir);
    if (prevented : bool) then mret ()
    else
      match activeElement, nextElement with
      | Some active, Some next =>
          _ ← upd (set_sliding true) el;
          _ ← mguard isCycling (pause el false);
          _ ← _setActiveIndicatorElement el (Some next);
          let slid := slide_args (Some next) (event_direction dir) activeElementIndex nextElementIndex in
          animated ← mget (λ p, supportsTransitionEnd && Dom.hasClass (pdoc p) el "slide");
          _ ← (if (animated : bool) then animate el active next dir slid
               else jump on_slid el active next slid);
          mguard isCycling (cycle el false)
      | _, _ => mret ()
      end.

(** Lines 682 to 709; [is_number] is false for the text of a data attribute,
    which is never strictly equal to an index.  The recursion, through the
    callbacks of the slid event, is bounded by fuel. *)
Fixpoint to (fuel : nat) (el : nid) (index : Z) (is_number : bool) : carM () :=
  match fuel with
  | O => mret ()
  | S f =>
      a ← mget (λ p, active_item (pdoc p) el);
      _ ← upd (set_active a) el;
      activeIndex ← _getItemIndex el a;
      c ← this el id;
      if (Z.of_nat (length (_items c)) - 1 <? index)%Z || (index <? 0)%Z then mret ()
      else if _isSliding c then one el "slid.bs.carousel" (GoTo index is_number)
      else if is_number && (activeIndex =? index)%Z then
        _ ← pause el false;
        cycle el false
      else
        let dir := if (activeIndex <? index)%Z then NEXT else PREV in
        _slide (fire (λ k, match k with GoTo i n => to f el i n | _ => mret () end) el "slid.bs.carousel")
          el dir (_items c !! Z.to_nat index)
  end.

(** The callbacks of the slid event. *)
Definition on_slid (fuel : nat) (el : nid) : carM () :=
  fire (λ k, match k with GoTo i n => to fuel el i n | _ => mret () end) el "slid.bs.carousel".

(** Lines 633 to 651. *)
Definition next (fuel : nat) (el : nid) : carM () :=
  sliding ← this el _isSliding;
  if (sliding : bool) then mret () else _slide (on_slid fuel el) el NEXT None.
Definition prev (fuel : nat) (el : nid) : carM () :=
  sliding ← this el _isSliding;
  if (sliding : bool) then mret () else _slide (on_slid fuel el) el PREV None.
Definition nextWhenVisible (fuel : nat) (el : nid) : carM () :=
  v ← mget (λ p, page_visible (pdoc p) el);
  if (v : bool) then next fuel el else mret ().

(** Lines 902 to 909: the end of an animated slide, and the timeout after it. *)
Definition endSlide (el active next : nid) (dirc ord : string) (slid : list (string * evarg)) : carM () :=
  _ ← doc_op (λ d, Dom.addClass "active" next (Dom.removeClass ord next (Dom.removeClass dirc next d)));
  _ ← doc_op (λ d, Dom.removeClass dirc active (Dom.removeClass ord active (Dom.removeClass "active" active d)));
  _ ← upd (set_sliding false) el;
  one el "timeout" (TriggerSlid slid).
Definition on_transition_end (el n : nid) : carM () :=
  fire (λ k, match k with
             | EndSlide active next dirc ord slid => endSlide el active next dirc ord slid
             | _ => mret ()
             end) n TRANSITION_END.
(** Timeouts of the same length run one by one, the oldest first; an object
    that was disposed of meanwhile has no element to tell (line 716). *)
Fixpoint drop_first (n : nid) (e : string) (ws : list (nid * string * kont)) : list (nid * string * kont) :=
  match ws with
  | [] => []
  | w :: ws' => if decide (w.1.1 = n ∧ w.1.2 = e) then ws' else w :: drop_first n e ws'
  end.
Definition on_timeout (fuel : nat) (el : nid) : carM () :=
  ks ← mget (waiting el "timeout");
  _ ← mupdate (λ p, BPage (pdoc p) (plog p) (drop_first el "timeout" (pwait p)) (pdata p) (pfresh p));
  alive ← mget (λ p, bool_decide (is_Some (pdata p !! el)));
  match head ks with
  | Some (TriggerSlid slid) =>
      if (alive : bool) then _ ← trigger "slid.bs.carousel" slid el; on_slid fuel el else mret ()
  | _ => mret ()
  end.

(** ** Construction and events *)

(** Lines 725 to 729. *)
Definition _getConfig (c : config) : outcome config :=
  let c := c ∪ Default in
  match Util.typeCheckConfig "carousel" c DefaultType with
  | Ret _ => Ret c
  | Throw e => Throw e
  end.

(** Lines 731 to 768: the listeners that are installed. *)
Definition _addEventListeners (c : config) : list string :=
  (if truthy (option_of c "keyboard") then ["keydown"] else []) ++
  (if bool_decide (option_of c "pause" = Util.OStr "hover")
   then ["mouseenter"; "mouseleave"] ++ (if has_touch then ["touchend"] else []) else []).

(** Lines 615 to 627. *)
Definition construct (el : nid) (c : config) : carM () := λ p,
  match _getConfig c with
  | Throw e => (p, Throw e)
  | Ret c => (set_data el (MkCarousel [] None None false false false c
               (head (Dom.find (Dom.sel_class "carousel-indicators") (pdoc p) el))
               (_addEventListeners c)) p, Ret ())
  end.

(** Lines 770 to 788. *)
Definition _keydown (fuel : nat) (el : nid) (in_text : bool) (which : Z) : carM () :=
  if in_text then mret ()
  else if (which =? 37)%Z then prev fuel el
  else if (which =? 39)%Z then next fuel el
  else mret ().

(** Lines 755 to 765: touching pauses, and a timeout restarts the cycle. *)
Definition on_touchend (el : nid) : carM () :=
  _ ← pause el false;
  upd (set_touch true) el.
Definition on_touch_timeout (el : nid) : carM () :=
  _ ← upd (set_touch false) el;
  cycle el false.

(** Lines 711 to 722. *)
Definition dispose (el : nid) : carM () :=
  _ ← mupdate (drop_wait el "slid.bs.carousel");
  mupdate (drop_data el).

(** Lines 923 to 953: the argument of [$.fn.carousel]. *)
Inductive call := CallOptions (c : config) | CallNumber (i : Z) | CallMethod (m : string) | CallNone.

(** The public methods that take no argument; a name the object does not have is
    a TypeError (lines 941 to 943).  [to] without its index and the private
    methods, which a page could also name, are not modelled. *)
Definition simple_methods : list string := ["next"; "prev"; "nextWhenVisible"; "pause"; "cycle"].
Definition method (fuel : nat) (el : nid) (m : string) : carM () :=
  if bool_decide (m = "next") then next fuel el
  else if bool_decide (m = "prev") then prev fuel el
  else if bool_decide (m = "nextWhenVisible") then nextWhenVisible fuel el
  else if bool_decide (m = "pause") then pause el false
  else if bool_decide (m = "cycle") then cycle el false
  else if bool_decide (m = "dispose") then dispose el
  else mthrow TypeError.

(** Lines 927 to 931 and 933: the options of a call and the method it names. *)
Definition call_config (attrs : config) (arg : call) : config :=
  match arg with CallOptions c => c ∪ (attrs ∪ Default) | _ => attrs ∪ Default end.
Definition call_action (attrs : config) (arg : call) : option string :=
  match arg with
  | CallMethod m => Some m
  | _ => match option_of (call_config attrs arg) "slide" with Util.OStr s => Some s | _ => None end
  end.

Definition _jQueryInterface (fuel : nat) (config : call) (el : nid) : carM () :=
  attrs ← mget (λ p, data_attributes (pdoc p) el);
  let _config := call_config attrs config in
  exists_ ← mget (λ p, bool_decide (is_Some (pdata p !! el)));
  _ ← mguard (negb exists_) (construct el _config);
  match config with
  | CallNumber i => to fuel el i true
  | _ =>
      match call_action attrs config with
      | Some action => method fuel el action
      | None => mguard (truthy (option_of _config "interval")) (_ ← pause el false; cycle el false)
      end
  end.

(** Lines 955 to 982; [slideIndex] is the number the attribute [data-slide-to]
    spells, when it is there. *)
Definition click_config (d : dom) (self target : nid) (slideIndex : option Z) : config :=
  let cfg := data_attributes d self ∪ data_attributes d target in
  match slideIndex with Some _ => <["interval" := Util.OBool false]> cfg | None => cfg end.
Definition _dataApiClickHandler (fuel : nat) (self : nid) (slideIndex : option Z) : carM () :=
  target ← mget (λ p, Util.target_of (pdoc p) self);
  match target with
  | None => mret ()
  | Some target =>
      is_carousel ← mget (λ p, Dom.hasClass (pdoc p) target "carousel");
      if negb is_carousel then mret ()
      else
        cfg ← mget (λ p, click_config (pdoc p) self target slideIndex);
        _ ← _jQueryInterface fuel (CallOptions cfg) target;
        match slideIndex with Some i => to fuel target i false | None => mret () end
  end.

(** Lines 1005 to 1011: when the page has been loaded. *)
Definition DATA_RIDE : Dom.selector := Dom.sel_attr "data-ride" "carousel".
Definition on_load (fuel : nat) : carM () :=
  rides ← mget (λ p, Dom.query (all_nodes (pdoc p)) DATA_RIDE (pdoc p));
  meach (λ el, attrs ← mget (λ p, data_attributes (pdoc p) el); _jQueryInterface fuel (CallOptions attrs) el) rides.

(** ** The item in a direction *)

Lemma indexOf_lookup (l : list nid) i x k :
  NoDup l → l !! i = Some x → indexOf x l k = (k + Z.of_nat i)%Z.
Proof.
  revert i k; induction l as [|y l IH]; intros i k Hd Hi; [done|].
  apply NoDup_cons in Hd as [Hy Hd]. destruct i as [|i]; simpl in *.
  - simplify_eq. rewrite decide_True by done. lia.
  - rewrite decide_False; [rewrite IH with (i:=i) by done; lia|].
    intros ->. apply Hy. by eapply list_elem_of_lookup_2.
Qed.

Lemma pick_next items a i :
  items !! i = Some a →
  pick true NEXT items a (Z.of_nat i) = items !! (S i mod length items)%nat.
Proof.
  intros Hi. apply lookup_lt_Some in Hi as Hlt. unfold pick. rewrite andb_false_r.
  rewrite Z.rem_mod_nonneg by lia.
  replace ((Z.of_nat i + 1) mod Z.of_nat (length items))%Z with (Z.of_nat (S i mod length items))
    by (rewrite Nat2Z.inj_mod; f_equal; lia).
  rewrite (proj2 (Z.eqb_neq _ _)) by lia. rewrite (proj2 (Z.ltb_ge _ _)) by lia. by rewrite Nat2Z.id.
Qed.

Lemma pick_prev items a i :
  items !! i = Some a →
  pick true PREV items a (Z.of_nat i) = items !! ((i + (length items - 1)) mod length items)%nat.
Proof.
  intros Hi. apply lookup_lt_Some in Hi as Hlt. unfold pick. rewrite andb_false_r.
  destruct i as [|i].
  - destruct (decide (length items = 1)%nat) as [E|E].
    + rewrite E in *. reflexivity.
    + replace (Z.rem (Z.of_nat 0 + -1) (Z.of_nat (length items))) with (-1)%Z
        by (change (Z.of_nat 0 + -1)%Z with (-(1))%Z; rewrite Z.rem_opp_l by lia; rewrite Z.rem_small by lia; done).
      rewrite Z.eqb_refl. rewrite Nat.mod_small by lia. f_equal. lia.
  - rewrite Z.rem_small by lia.
    rewrite (proj2 (Z.eqb_neq _ _)) by lia. rewrite (proj2 (Z.ltb_ge _ _)) by lia.
    f_equal. replace (S i + (length items - 1))%nat with (i + 1 * length items)%nat by lia.
    rewrite Nat.Div0.mod_add, Nat.mod_small by lia. lia.
Qed.

(** With wrapping, going to the next item and then to the previous one, or
    the other way round, comes back to the item one started from, also across
    the ends of the list; both neighbours always exist. *)
Theorem next_prev_inverse items a i :
  NoDup items → items !! i = Some a →
  ∃ b c, pick true NEXT items a (indexOf a items 0) = Some b ∧
         pick true PREV items b (indexOf b items 0) = Some a ∧
         pick true PREV items a (indexOf a items 0) = Some c ∧
         pick true NEXT items c (indexOf c items 0) = Some a.
Proof.
  intros Hd Hi. apply lookup_lt_Some in Hi as Hlt. set (n := length items) in *.
  assert (Hx : ∀ k, ∃ b, items !! (k mod n)%nat = Some b).
  { intros k. apply lookup_lt_is_Some. apply Nat.mod_upper_bound. lia. }
  destruct (Hx (S i)) as [b Hb], (Hx (i + (n - 1))%nat) as [c Hc].
  exists b, c. rewrite !(indexOf_lookup items i a 0) by done. rewrite (indexOf_lookup items _ b 0 Hd Hb).
  rewrite (indexOf_lookup items _ c 0 Hd Hc). rewrite !Z.add_0_l.
  rewrite (pick_next items a i Hi), (pick_prev items a i Hi), (pick_prev items b _ Hb), (pick_next items c _ Hc).
  fold n. split_and!; [done| |done|].
  - rewrite Nat.Div0.add_mod_idemp_l. replace (S i + (n - 1))%nat with (i + 1 * n)%nat by lia.
    by rewrite Nat.Div0.mod_add, Nat.mod_small.
  - replace (S ((i + (n - 1)) mod n))%nat with ((i + (n - 1)) mod n + 1)%nat by lia.
    rewrite Nat.Div0.add_mod_idemp_l. replace (i + (n - 1) + 1)%nat with (i + 1 * n)%nat by lia.
    by rewrite Nat.Div0.mod_add, Nat.mod_small.
Qed.

Lemma next_prev_inverse_witness :
  ∃ b c, pick true NEXT [4; 5; 6]%nat 6 (indexOf 6 [4; 5; 6]%nat 0) = Some b ∧
         pick true PREV [4; 5; 6]%nat b (indexOf b [4; 5; 6]%nat 0) = Some 6%nat ∧
         pick true PREV [4; 5; 6]%nat 6 (indexOf 6 [4; 5; 6]%nat 0) = Some c ∧
         pick true NEXT [4; 5; 6]%nat c (indexOf c [4; 5; 6]%nat 0) = Some 6%nat.
Proof. apply (next_prev_inverse [4; 5; 6]%nat 6 2); [by_evaluation|reflexivity]. Defined.

(** ** One animation at a time *)

(** The callbacks that wait for the end of a transition. *)
Definition slides (p : bpage carousel kont) : list kont :=
  snd <$> filter (λ w, w.1.2 = TRANSITION_END) (pwait p).
Definition is_end (k : kont) : Prop := match k with EndSlide _ _ _ _ _ => True | _ => False end.

(** The carousel on [el] is at rest, or sliding with exactly one animation. *)
Definition rest (el : nid) (p : bpage carousel kont) : Prop :=
  slides p = [] ∧ ∃ c, pdata p !! el = Some c ∧ _isSliding c = false.
Definition starting (el : nid) (p : bpage carousel kont) : Prop :=
  slides p = [] ∧ ∃ c, pdata p !! el = Some c ∧ _isSliding c = true.
Definition sliding (el : nid) (p : bpage carousel kont) : Prop :=
  (∃ k, slides p = [k] ∧ is_end k) ∧ ∃ c, pdata p !! el = Some c ∧ _isSliding c = true.
Definition stable (el : nid) (p : bpage carousel kont) : Prop := rest el p ∨ sliding el p.

Lemma filter_drop_first (P : nid * string * kont → Prop) `{∀ w, Decision (P w)} n e ws :
  (∀ w, w.1.1 = n ∧ w.1.2 = e → ¬ P w) → filter P (drop_first n e ws) = filter P ws.
Proof.
  intros HP. induction ws as [|w ws IH]; [done|]. cbn [drop_first]. case_decide as Hw.
  - by rewrite filter_cons_False by (by apply HP).
  - rewrite !filter_cons. by rewrite IH.
Qed.
Lemma filter_dropped_first n e ws :
  filter (λ w, w.1.1 = n ∧ w.1.2 = e) (drop_first n e ws) = tail (filter (λ w, w.1.1 = n ∧ w.1.2 = e) ws).
Proof.
  induction ws as [|w ws IH]; [done|]. cbn [drop_first]. case_decide as Hw.
  - by rewrite filter_cons_True.
  - by rewrite !filter_cons_False, IH.
Qed.

(** A condition on the waiting animations and the sliding flag only. *)
Definition flagged (el : nid) (P : bpage carousel kont → Prop) : Prop :=
  (∀ p, P p → is_Some (pdata p !! el)) ∧
  ∀ p q, slides q = slides p →
    _isSliding <$> pdata q !! el = _isSliding <$> pdata p !! el → P p → P q.

Lemma flag_lookup el (p q : bpage carousel kont) b :
  _isSliding <$> pdata q !! el = _isSliding <$> pdata p !! el →
  (∃ c, pdata p !! el = Some c ∧ _isSliding c = b) → ∃ c, pdata q !! el = Some c ∧ _isSliding c = b.
Proof. intros H (c & Hc & Hb). rewrite Hc in H. destruct (pdata q !! el); naive_solver. Qed.

Lemma flagged_rest el : flagged el (rest el).
Proof.
  split; [intros p (_ & c & Hc & _); by eexists|]. intros p q Hs Hd [H1 H2].
  split; [by rewrite Hs|by eapply flag_lookup].
Qed.
Lemma flagged_starting el : flagged el (starting el).
Proof.
  split; [intros p (_ & c & Hc & _); by eexists|]. intros p q Hs Hd [H1 H2].
  split; [by rewrite Hs|by eapply flag_lookup].
Qed.
Lemma flagged_stable el : flagged el (stable el).
Proof.
  split; [intros p [(_ & c & Hc & _)|(_ & c & Hc & _)]; by eexists|].
  intros p q Hs Hd [[H1 H2]|[H1 H2]]; [left|right]; (split; [by rewrite Hs|by eapply flag_lookup]).
Qed.

Section flagged.
Context (el : nid) (P : bpage carousel kont → Prop) (HP : flagged el P).

Lemma flagged_doc f : triple P (doc_op f) (λ _, P).
Proof. apply triple_update. intros p. by apply HP. Qed.
Lemma flagged_doc_opt f n : triple P (doc_opt f n) (λ _, P).
Proof. destruct n; [apply flagged_doc|apply triple_ret]. Qed.
Lemma flagged_trigger e args n : triple P (trigger e args n) (λ _, P).
Proof.
  apply triple_keep_get. intros a. eapply triple_seq; [apply triple_update; intros p; by apply HP|].
  apply triple_ret.
Qed.
Lemma flagged_upd f : (∀ c, _isSliding (f c) = _isSliding c) → triple P (upd f el) (λ _, P).
Proof.
  intros Hf. apply triple_update. intros p. apply HP; [done|]. cbn [pdata].
  rewrite lookup_alter_eq. destruct (pdata p !! el); simpl; by rewrite ?Hf.
Qed.
Lemma flagged_this {A} (f : carousel → A) : triple P (this el f) (λ _, P).
Proof.
  intros p Hp. destruct (proj1 HP p Hp) as [c Hc]. exists (f c), p. unfold this. by rewrite Hc.
Qed.
Lemma flagged_one n e k : e ≠ TRANSITION_END → triple P (one n e k) (λ _, P).
Proof.
  intros He. apply triple_update. intros p. apply HP; [|done]. unfold slides, add_wait. cbn [pwait].
  rewrite filter_app, fmap_app, filter_cons_False by done. cbn. by rewrite app_nil_r.
Qed.
Lemma flagged_drop n e : e ≠ TRANSITION_END → triple P (mupdate (drop_wait n e)) (λ _, P).
Proof.
  intros He. apply triple_update. intros p. apply HP; [|done]. unfold slides, drop_wait. cbn [pwait].
  rewrite list_filter_filter_l; [done|]. intros w Hw [_ Hw']. congruence.
Qed.

Lemma flagged_drop_first n e : e ≠ TRANSITION_END →
  triple P (mupdate (λ p, BPage (pdoc p) (plog p) (drop_first n e (pwait p)) (pdata p) (pfresh p))) (λ _, P).
Proof.
  intros He. apply triple_update. intros p. apply HP; [|done]. unfold slides. cbn [pwait]. f_equal.
  apply filter_drop_first. intros w [_ Hw] Hw'. congruence.
Qed.

Lemma flagged_index x : triple P (_getItemIndex el x) (λ _, P).
Proof.
  apply triple_keep_get. intros l. eapply triple_seq; [by apply flagged_upd|]. apply triple_ret.
Qed.
Lemma flagged_cycle b : triple P (cycle el b) (λ _, P).
Proof.
  unfold cycle. eapply triple_seq; [by apply triple_guard, flagged_upd|].
  eapply triple_seq; [by apply flagged_upd|]. eapply triple_bind; [apply flagged_this|]. intros c.
  by apply triple_guard, flagged_upd.
Qed.
Lemma flagged_pause b : triple P (pause el b) (λ _, P).
Proof.
  unfold pause. eapply triple_seq; [by apply triple_guard, flagged_upd|]. apply triple_keep_get. intros d.
  eapply triple_seq; [|by apply flagged_upd]. case_match; [|apply triple_ret].
  case_match; [|apply triple_ret]. eapply triple_bind; [apply flagged_trigger|]. intros ?. apply flagged_cycle.
Qed.
Lemma flagged_indicator x : triple P (_setActiveIndicatorElement el x) (λ _, P).
Proof.
  eapply triple_bind; [apply flagged_this|]. intros [ind|]; [|apply triple_ret].
  apply triple_keep_get. intros d. eapply triple_seq; [apply flagged_doc|].
  eapply triple_bind; [apply flagged_index|]. intros i. apply triple_keep_get. intros kids.
  apply flagged_doc_opt.
Qed.
Lemma flagged_direction dir a : triple P (_getItemByDirection el dir a) (λ _, P).
Proof.
  eapply triple_bind; [apply flagged_index|]. intros i. eapply triple_bind; [apply flagged_this|]. intros l.
  eapply triple_bind; [apply flagged_this|]. intros c. apply triple_ret.
Qed.
Lemma flagged_slide_event x dir : triple P (_triggerSlideEvent el x dir) (λ _, P).
Proof.
  eapply triple_bind; [apply flagged_index|]. intros i. apply triple_keep_get. intros a.
  eapply triple_bind; [apply flagged_index|]. intros j. apply flagged_trigger.
Qed.
End flagged.

(** Starting an animation and ending it. *)
Lemma animate_sliding el active nxt dir slid :
  triple (starting el) (animate el active nxt dir slid) (λ _, stable el).
Proof.
  unfold animate. do 3 (eapply triple_seq; [apply (flagged_doc el), flagged_starting|]).
  apply triple_update. intros p [Hs Hd]. right. split; [|exact Hd].
  eexists. unfold slides, add_wait in *. cbn [pwait]. rewrite filter_app, fmap_app, Hs.
  split; [reflexivity|done].
Qed.

Lemma stop_rest el : triple (starting el) (upd (set_sliding false) el) (λ _, rest el).
Proof.
  apply triple_update. intros p (Hs & c & Hc & _). split; [exact Hs|]. exists (set_sliding false c).
  cbn [pdata]. by rewrite lookup_alter_eq, Hc.
Qed.

Lemma jump_stable el k active nxt slid :
  triple (rest el) k (λ _, stable el) →
  triple (starting el) (jump k el active nxt slid) (λ _, stable el).
Proof.
  intros Hk. unfold jump. do 2 (eapply triple_seq; [apply (flagged_doc el), flagged_starting|]).
  eapply triple_seq; [apply stop_rest|].
  eapply triple_bind; [apply (flagged_trigger el), flagged_rest|]. intros ?. exact Hk.
Qed.

Lemma rest_stable {A} el (m : carM A) Q : triple (stable el) m Q → triple (rest el) m Q.
Proof. intros H. eapply triple_conseq; [exact H| |done]. intros p Hp. by left. Qed.

Lemma slide_stable el k dir element :
  triple (rest el) k (λ _, stable el) → triple (rest el) (_slide k el dir element) (λ _, stable el).
Proof.
  intros Hk. unfold _slide. apply triple_keep_get. intros a.
  eapply triple_bind; [apply flagged_index, flagged_rest|]. intros i.
  eapply (triple_bind _ _ (λ _, rest el)).
  { destruct element; [apply triple_ret|]. destruct a; [apply flagged_direction, flagged_rest|apply triple_ret]. }
  intros n. eapply triple_bind; [apply flagged_index, flagged_rest|]. intros j.
  eapply triple_bind; [apply flagged_this, flagged_rest|]. intros cyc. apply triple_keep_get. intros d.
  case_match.
  { apply triple_update. intros p (Hs & c & Hc & _). left. split; [exact Hs|]. exists (set_sliding false c).
    cbn [pdata]. by rewrite lookup_alter_eq, Hc. }
  eapply triple_bind; [apply flagged_slide_event, flagged_rest|]. intros prevented.
  destruct prevented; [apply rest_stable, triple_ret|].
  destruct a as [a|]; [|apply rest_stable, triple_ret]. destruct n as [n|]; [|apply rest_stable, triple_ret].
  eapply (triple_seq _ _ (starting el)).
  { apply triple_update. intros p (Hs & c & Hc & _). split; [exact Hs|]. exists (set_sliding true c).
    cbn [pdata]. by rewrite lookup_alter_eq, Hc. }
  eapply triple_seq; [apply triple_guard, flagged_pause, flagged_starting|].
  eapply triple_seq; [apply flagged_indicator, flagged_starting|]. apply triple_keep_get. intros animated.
  eapply triple_seq; [|apply triple_guard, flagged_cycle, flagged_stable].
  destruct animated; [apply animate_sliding|by apply jump_stable].
Qed.

Lemma fire_slid_stable el (f : kont → carM ()) :
  (∀ k, triple (stable el) (f k) (λ _, stable el)) →
  triple (stable el) (fire f el "slid.bs.carousel") (λ _, stable el).
Proof.
  intros Hf. unfold fire. apply triple_keep_get. intros ks.
  eapply triple_seq; [apply (flagged_drop el); [apply flagged_stable|done]|]. by apply triple_each.
Qed.

(** In a stable page, the flag tells the two cases apart. *)
Lemma stable_this {A A'} el (f : carousel → A) (k : A → carM A') R :
  (∀ c, triple (λ p, stable el p ∧ pdata p !! el = Some c) (k (f c)) R) →
  triple (stable el) (a ← this el f; k a) R.
Proof.
  intros Hk p Hp. destruct (proj1 (flagged_stable el) p Hp) as [c Hc].
  destruct (Hk c p (conj Hp Hc)) as (b & q & E & Hq). exists b, q. split; [|done].
  unfold mbind, jsM_bind, this. by rewrite Hc.
Qed.

Lemma stable_not_sliding {A} el c (m : carM A) Q :
  _isSliding c = false → triple (rest el) m Q →
  triple (λ p, stable el p ∧ pdata p !! el = Some c) m Q.
Proof.
  intros Hc Hm. eapply triple_conseq; [exact Hm| |done].
  intros p [[Hr|(_ & c' & Hc' & Hs)] Hp]; [done|congruence].
Qed.
Lemma stable_keep {A} el (c : carousel) (m : carM A) Q :
  triple (stable el) m Q → triple (λ p, stable el p ∧ pdata p !! el = Some c) m Q.
Proof. intros Hm. eapply triple_conseq; [exact Hm|naive_solver|done]. Qed.

Lemma to_stable fuel el i n : triple (stable el) (to fuel el i n) (λ _, stable el).
Proof.
  revert i n; induction fuel as [|f IH]; intros i n; [apply triple_ret|]. cbn [to].
  apply triple_keep_get. intros a. eapply triple_seq; [apply flagged_upd; [apply flagged_stable|done]|].
  eapply triple_bind; [apply flagged_index, flagged_stable|]. intros j. apply stable_this. intros c.
  case_match; [apply stable_keep, triple_ret|]. case_match.
  { apply stable_keep, (flagged_one el); [apply flagged_stable|done]. }
  case_match.
  { apply stable_keep. eapply triple_seq; [apply flagged_pause, flagged_stable|].
    apply flagged_cycle, flagged_stable. }
  apply stable_not_sliding; [done|]. apply slide_stable, rest_stable, fire_slid_stable.
  intros []; [apply triple_ret..|apply IH].
Qed.

Lemma on_slid_stable fuel el : triple (stable el) (on_slid fuel el) (λ _, stable el).
Proof. apply fire_slid_stable. intros []; [apply triple_ret..|apply to_stable]. Qed.

Lemma step_stable fuel el dir :
  triple (stable el) (sliding ← this el _isSliding;
    if (sliding : bool) then mret () else _slide (on_slid fuel el) el dir None) (λ _, stable el).
Proof.
  apply stable_this. intros c. destruct (_isSliding c) eqn:E; [apply stable_keep, triple_ret|].
  apply stable_not_sliding; [done|]. apply slide_stable, rest_stable, on_slid_stable.
Qed.

(** The end of a transition somewhere on the page. *)
Lemma transition_stable el n : triple (stable el) (on_transition_end el n) (λ _, stable el).
Proof.
  intros p Hp. unfold on_transition_end, fire, mbind, jsM_bind, mget, mupdate.
  set (q := drop_wait n TRANSITION_END p).
  assert (Hsplit : (waiting n TRANSITION_END p = [] ∧ slides q = slides p) ∨
    (slides q = [] ∧ waiting n TRANSITION_END p = slides p)).
  { assert (Hlen : (length (filter (λ w, w.1.2 = TRANSITION_END) (pwait p)) ≤ 1)%nat).
    { rewrite <- (length_fmap snd). fold (slides p). destruct Hp as [[-> _]|[(k & -> & _) _]]; simpl; lia. }
    unfold slides, q, drop_wait, waiting in *; cbn [pwait].
    destruct (filter_take_one _ (λ w, w.1.1 = n) _ Hlen) as [[-> ->]|[-> ->]]; auto. }
  destruct Hsplit as [[-> Hq]|[Hq Hw]].
  - exists (), q. split; [done|]. by apply (flagged_stable el) with p.
  - rewrite Hw. destruct Hp as [[Hs Hd]|[(k & Hs & Hk) Hd]]; rewrite Hs.
    + exists (), q. split; [done|]. left. split; [done|exact Hd].
    + destruct k as [a b x y z| |]; try done. cbn [meach].
      destruct (triple_bind (starting el) (endSlide el a b x y z) (λ _, stable el) (λ _, mret ()) (λ _, stable el))
        with q as (v & q' & E & Hst); [|intros; apply triple_ret|by split|].
      * unfold endSlide. do 2 (eapply triple_seq; [apply (flagged_doc el), flagged_starting|]).
        eapply triple_seq; [apply stop_rest|].
        apply rest_stable, (flagged_one el); [apply flagged_stable|done].
      * exists v, q'. split; [exact E|exact Hst].
Qed.

(** ** Everything that can happen to a carousel *)

(** [Click] is a click on a control anywhere on the page, [Call] a call of the
    jQuery interface on the carousel, [Script] what other scripts do to the
    document. *)
Inductive step :=
  | Next | Prev | Tick | Key (in_text : bool) (which : Z) | To (index : Z) (is_number : bool)
  | Pause (event : bool) | Cycle (event : bool) | Touch | TouchTimeout
  | TransitionEnd (n : nid) | SlidTimeout
  | Click (self : nid) (slideIndex : option Z) | Call (c : call) | Script (f : dom → dom).

Definition run_step (fuel : nat) (el : nid) (s : step) : carM () :=
  match s with
  | Next => next fuel el
  | Prev => prev fuel el
  | Tick => t ← this el _interval;
            match t with
            | Some TickVisible => nextWhenVisible fuel el
            | Some TickNext => next fuel el
            | None => mret ()
            end
  | Key t w => _keydown fuel el t w
  | To i n => to fuel el i n
  | Pause e => pause el e
  | Cycle e => cycle el e
  | Touch => on_touchend el
  | TouchTimeout => on_touch_timeout el
  | TransitionEnd n => on_transition_end el n
  | SlidTimeout => on_timeout fuel el
  | Click self i => _dataApiClickHandler fuel self i
  | Call c => _jQueryInterface fuel c el
  | Script f => doc_op f
  end.

(** A call names no method, or a public one that takes no argument and is not
    [dispose]; a click that reaches a carousel reaches this one, and the options
    it gathers name such a method or none. *)
Definition call_allowed (d : dom) (el : nid) (c : call) : bool :=
  match c with
  | CallNumber _ => true
  | _ => match call_action (data_attributes d el) c with
         | Some m => bool_decide (m ∈ simple_methods)
         | None => true
         end
  end.
Definition allowed (d : dom) (el : nid) (s : step) : bool :=
  match s with
  | Click self i =>
      match Util.target_of d self with
      | Some target =>
          negb (Dom.hasClass d target "carousel") ||
          bool_decide (target = el) && call_allowed d el (CallOptions (click_config d self el i))
      | None => true
      end
  | Call c => call_allowed d el c
  | _ => true
  end.

Lemma next_stable fuel el : triple (stable el) (next fuel el) (λ _, stable el).
Proof. apply step_stable. Qed.
Lemma visible_stable fuel el : triple (stable el) (nextWhenVisible fuel el) (λ _, stable el).
Proof. apply triple_keep_get. intros [|]; [apply next_stable|apply triple_ret]. Qed.

Lemma method_stable fuel el m :
  m ∈ simple_methods → triple (stable el) (method fuel el m) (λ _, stable el).
Proof.
  unfold simple_methods. rewrite !elem_of_cons, elem_of_nil. intros [->|[->|[->|[->|[->|[]]]]]].
  - exact (next_stable fuel el).
  - exact (step_stable fuel el PREV).
  - exact (visible_stable fuel el).
  - exact (flagged_pause el _ (flagged_stable el) false).
  - exact (flagged_cycle el _ (flagged_stable el) false).
Qed.

(** What a handler may rely on about the document it starts from. *)
Lemma triple_doc_get {A A'} (P : bpage carousel kont → Prop) (ψ : dom → Prop) (f : dom → A) (k : A → carM A') R :
  (∀ d, ψ d → triple (λ p, P p ∧ pdoc p = d) (k (f d)) R) →
  triple (λ p, P p ∧ ψ (pdoc p)) (a ← mget (λ p, f (pdoc p)); k a) R.
Proof. intros Hk p [Hp Hd]. exact (Hk (pdoc p) Hd p (conj Hp eq_refl)). Qed.

Lemma interface_stable fuel el c :
  triple (λ p, stable el p ∧ call_allowed (pdoc p) el c = true) (_jQueryInterface fuel c el) (λ _, stable el).
Proof.
  unfold _jQueryInterface.
  apply (triple_doc_get _ (λ d, call_allowed d el c = true) (λ d, data_attributes d el)). intros d Hd. cbv zeta.
  eapply triple_conseq with (P := stable el) (Q := λ _, stable el); [|naive_solver|done].
  intros p Hp. destruct (proj1 (flagged_stable el) p Hp) as [o Ho].
  unfold mbind at 1 2, jsM_bind at 1 2, mget. rewrite bool_decide_true by (by eexists). cbn [negb mguard].
  revert p Hp o Ho. enough (H : triple (stable el)
    match c with
    | CallNumber i => to fuel el i true
    | _ => match call_action (data_attributes d el) c with
           | Some action => method fuel el action
           | None => mguard (truthy (option_of (call_config (data_attributes d el) c) "interval"))
                       (_ ← pause el false; cycle el false)
           end
    end (λ _, stable el)) by (intros p Hp _ _; exact (H p Hp)).
  assert (Hg : ∀ b, triple (stable el) (mguard b (_ ← pause el false; cycle el false)) (λ _, stable el)).
  { intros b. apply triple_guard. eapply triple_seq; [apply flagged_pause, flagged_stable|apply flagged_cycle, flagged_stable]. }
  unfold call_allowed in Hd.
  destruct c; [|apply to_stable|..]; (case_match; [apply method_stable; by apply bool_decide_eq_true in Hd|apply Hg]).
Qed.

Lemma click_stable fuel el self i :
  triple (λ p, stable el p ∧ allowed (pdoc p) el (Click self i) = true) (_dataApiClickHandler fuel self i)
    (λ _, stable el).
Proof.
  unfold _dataApiClickHandler.
  apply (triple_doc_get _ (λ d, allowed d el (Click self i) = true) (λ d, Util.target_of d self)). intros d Hd.
  cbn [allowed] in Hd. destruct (Util.target_of d self) as [target|]; [|by intros p [Hp _]; exists (), p].
  eapply triple_conseq with (P := λ p, stable el p ∧ (λ d', d' = d) (pdoc p)) (Q := λ _, stable el); [|done|done].
  apply (triple_doc_get _ (λ d', d' = d) (λ d, Dom.hasClass d target "carousel")). intros ? ->.
  destruct (Dom.hasClass d target "carousel"); cbn [negb]; [|by intros p [Hp _]; exists (), p].
  cbn [negb orb] in Hd. apply andb_true_iff in Hd as [->%bool_decide_eq_true Hd].
  apply (triple_doc_get _ (λ d', d' = d) (λ d, click_config d self el i)). intros ? ->.
  eapply triple_seq; [eapply triple_conseq; [apply interface_stable| |done]|].
  { intros p [Hp ->]. by split. }
  destruct i; [apply to_stable|apply triple_ret].
Qed.

Lemma run_step_stable fuel el s :
  triple (λ p, stable el p ∧ allowed (pdoc p) el s = true) (run_step fuel el s) (λ _, stable el).
Proof.
  destruct s; cbn [run_step]; [..|apply click_stable|apply interface_stable|];
    (eapply triple_conseq with (P := stable el) (Q := λ _, stable el); [|naive_solver|done]).
  - apply next_stable.
  - apply step_stable.
  - eapply triple_bind; [apply flagged_this, flagged_stable|].
    intros [[]|]; [apply visible_stable|apply next_stable|apply triple_ret].
  - unfold _keydown. repeat case_match; first [apply step_stable|apply triple_ret].
  - apply to_stable.
  - apply flagged_pause, flagged_stable.
  - apply flagged_cycle, flagged_stable.
  - eapply triple_seq; [apply flagged_pause, flagged_stable|]. by apply flagged_upd; [apply flagged_stable|].
  - eapply triple_seq; [apply flagged_upd; [apply flagged_stable|done]|]. apply flagged_cycle, flagged_stable.
  - apply transition_stable.
  - apply triple_keep_get. intros ks. eapply triple_seq; [apply (flagged_drop_first el); [apply flagged_stable|done]|].
    apply triple_keep_get. intros alive. destruct (head ks) as [[]|]; try apply triple_ret.
    destruct alive; [|apply triple_ret].
    eapply triple_bind; [apply (flagged_trigger el), flagged_stable|]. intros ?. apply on_slid_stable.
  - apply (flagged_doc el), flagged_stable.
Qed.

(** The pages that handlers, one after the other, can lead to; a handler that
    throws leaves the page as it has made it. *)
Inductive reached (fuel : nat) (el : nid) (p : bpage carousel kont) : bpage carousel kont → Prop :=
  | reached_start : reached fuel el p p
  | reached_step q s :
      reached fuel el p q → allowed (pdoc q) el s = true → reached fuel el p (run_step fuel el s q).1.


End carousel.

Definition plain_visibility : Visibility := {|
  page_visible := λ _ _, true; visibilityState := true; has_touch := false; data_attributes := λ _ _, ∅
|}.

Lemma Default_checks : Util.typeCheckConfig "carousel" (∅ ∪ Default) DefaultType = Ret ().
Proof. vm_compute. reflexivity. Qed.

(** A carousel with two items and a control that goes to the next one. *)
Definition sample_document : dom :=
  {[ 1%nat := Elem "div" "show" ["carousel"; "slide"] ∅ ∅ None [2%nat; 5%nat];
     2%nat := Elem "div" "" ["carousel-inner"] ∅ ∅ (Some 1%nat) [3%nat; 4%nat];
     3%nat := Elem "div" "" ["carousel-item"; "active"] ∅ ∅ (Some 2%nat) [];
     4%nat := Elem "div" "" ["carousel-item"] ∅ ∅ (Some 2%nat) [];
     5%nat := Elem "a" "" [] {[ "href" := "#show"; "data-slide" := "next" ]} ∅ (Some 1%nat) [] ]}.
Definition slide_visibility : Visibility := {|
  page_visible := λ _ _, true; visibilityState := true; has_touch := false;
  data_attributes := λ d n, match Dom.getAttribute d n "data-slide" with Some s => {[ "slide" := Util.OStr s ]} | None => ∅ end
|}.

Definition sample_steps : list step :=
  [Cycle false; Tick; Click 5 None; Call (CallNumber 0); TransitionEnd 3; SlidTimeout; Click 5 None; Key false 37].
Fixpoint run_all `{Browser, Visibility} (ss : list step) (p : bpage carousel kont) : bpage carousel kont :=
  match ss with [] => p | s :: ss' => run_all ss' (run_step 5 1 s p).1 end.
Fixpoint all_allowed `{Browser, Visibility} (ss : list step) (p : bpage carousel kont) : bool :=
  match ss with [] => true | s :: ss' => allowed (pdoc p) 1 s && all_allowed ss' (run_step 5 1 s p).1 end.
Lemma all_reached `{Browser, Visibility} ss p q :
  reached 5 1 p q → all_allowed ss q = true → reached 5 1 p (run_all ss q).
Proof.
  revert q. induction ss as [|s ss IH]; intros q Hq Ha; [done|]. cbn in Ha. apply andb_true_iff in Ha as [H1 H2].
  apply IH; [by apply reached_step|done].
Qed.


End Carousel.
