(* ===== verification/CarouselLife.v ===== *)
(** * Carousel: going round

    A carousel shows one item and marks one indicator.  Its handlers refine a
    machine of the item shown, the item it slides to, the timeouts that are
    pending and the items asked for during a slide, for every order of presses,
    ticks, calls, ends of transitions and timeouts; and once the browser has
    reported the transitions the carousel is at rest, and nothing of the
    animation is left on the items. *)

From S2P Require Import Prelude Dom Bs Carousel.
Local Open Scope string_scope.
Local Open Scope list_scope.

Module CarouselLife.
Import Carousel.

(** ** Documents that differ in classes only *)

Definition reclassed (d d' : dom) : Prop :=
  size d' = size d ∧ ∀ m, Dom.children d' m = Dom.children d m ∧ Dom.parent d' m = Dom.parent d m ∧
    (is_Some (d' !! m) ↔ is_Some (d !! m)).
#[local] Instance reclassed_preorder : PreOrder reclassed.
Proof.
  split; [done|]. intros d1 d2 d3 [S1 H1] [S2 H2]. split; [congruence|]. intros m.
  destruct (H1 m) as (A1 & A2 & A3), (H2 m) as (C1 & C2 & C3). split_and!; [congruence|congruence|by rewrite C3].
Qed.
Lemma reclassed_alter f n d :
  (∀ e, childNodes (f e) = childNodes e ∧ parentNode (f e) = parentNode e) → reclassed d (alter f n d).
Proof.
  intros Hf. split; [apply Dom.size_alter_doc|]. intros m. split; [apply Dom.children_alter, Hf|].
  split; [apply Dom.parent_alter, Hf|apply Dom.present_alter].
Qed.
Lemma reclassed_add c n d : reclassed d (Dom.addClass c n d).
Proof. by apply reclassed_alter. Qed.
Lemma reclassed_remove c n d : reclassed d (Dom.removeClass c n d).
Proof. by apply reclassed_alter. Qed.
Lemma reclassed_each (f : nid → dom → dom) ns d : (∀ n d, reclassed d (f n d)) → reclassed d (Dom.each f ns d).
Proof. intros Hf. unfold Dom.each. revert d. induction ns as [|n ns IH]; intros d; [done|]. cbn. etrans; [apply Hf|apply IH]. Qed.
Lemma reclassed_descendants d d' n : reclassed d d' → Dom.descendants d' n = Dom.descendants d n.
Proof.
  intros [Hs H]. unfold Dom.descendants. rewrite Hs. generalize (size d). intros f. revert n.
  induction f as [|f IH]; intros n; [done|]. cbn [Dom.descendants_fuel]. rewrite (proj1 (H n)).
  f_equal. apply list_fmap_ext. intros i x _. by rewrite IH.
Qed.

Lemma find_iff P d n m : m ∈ Dom.find P d n ↔ P d m = true ∧ m ∈ Dom.descendants d n.
Proof. unfold Dom.find. rewrite list_elem_of_filter. by rewrite Is_true_true. Qed.

(** The classes of an animation. *)
Definition moving : list string :=
  ["carousel-item-next"; "carousel-item-prev"; "carousel-item-left"; "carousel-item-right"].

Section gallery.
Context (el q : nid) (l : list nid) (ind : option nid).

(** The items of the carousel, below one element, and its indicators, of which
    there are as many, outside the items. *)
Record gallery (d : dom) : Prop := {
  g_parent x : x ∈ l → Dom.parent d x = Some q;
  g_items : Dom.find (Dom.sel_class "carousel-item") d q = l;
  g_below x : x ∈ l → x ∈ Dom.descendants d el;
  g_only x : x ∈ Dom.descendants d el → Dom.hasClass d x "carousel-item" = true → x ∈ l;
  g_once : NoDup (Dom.descendants d el);
  g_nodup : NoDup l;
  g_two : (2 ≤ length l)%nat;
  g_kids k : ind = Some k → NoDup (Dom.children d k) ∧ length (Dom.children d k) = length l;
  g_below_kids k n : ind = Some k → n ∈ Dom.children d k → n ∈ Dom.descendants d k ∧ is_Some (d !! n);
  g_apart k n : ind = Some k → n ∈ Dom.descendants d k → Dom.hasClass d n "carousel-item" = false;
  g_inside k n : ind = Some k → n ∈ Dom.descendants d k → n ∈ Dom.descendants d el
}.
Lemma g_item d x : gallery d → x ∈ l → Dom.hasClass d x "carousel-item" = true ∧ is_Some (d !! x).
Proof.
  intros Hg Hx. rewrite <- (g_items d Hg) in Hx. apply find_iff in Hx as [Hx _]. split; [exact Hx|].
  unfold Dom.sel_class, Dom.hasClass in Hx. destruct (d !! x); [by eexists|done].
Qed.
Lemma gallery_reclassed d d' :
  reclassed d d' → (∀ n, Dom.hasClass d' n "carousel-item" = Dom.hasClass d n "carousel-item") → gallery d → gallery d'.
Proof.
  intros Hr Hc Hg. pose proof Hr as [_ H]. pose proof (λ n, reclassed_descendants d d' n Hr) as Hd.
  destruct Hg as [H1 H2 H3 H4 H5 H6 H7 H8 H9 H10 H11]. split; try done.
  - intros x Hx. rewrite (proj1 (proj2 (H x))). auto.
  - rewrite <- H2. unfold Dom.find. rewrite Hd. apply list_filter_iff. intros x. unfold Dom.sel_class. by rewrite Hc.
  - intros x Hx. rewrite Hd. auto.
  - intros x. rewrite Hd, Hc. apply H4.
  - by rewrite Hd.
  - intros k Hk. rewrite (proj1 (H k)). auto.
  - intros k n Hk. rewrite (proj1 (H k)), Hd, (proj2 (proj2 (H n))). by apply H9.
  - intros k n Hk. rewrite Hd, Hc. by apply H10.
  - intros k n Hk. rewrite !Hd. by apply H11.
Qed.

(** No animation, and the item and the indicator with the number [i] marked. *)
Definition still (d : dom) : Prop := ∀ n c, n ∈ Dom.descendants d el → c ∈ moving → Dom.hasClass d n c = false.
Definition marked (i : nat) (d : dom) : Prop :=
  (∀ x, x ∈ l → Dom.hasClass d x "active" = bool_decide (l !! i = Some x)) ∧
  (∀ k n, ind = Some k → n ∈ Dom.descendants d k → Dom.hasClass d n "active" = bool_decide (Dom.children d k !! i = Some n)).

Lemma active_shown d i a :
  gallery d → (∀ x, x ∈ l → Dom.hasClass d x "active" = bool_decide (l !! i = Some x)) → l !! i = Some a →
  active_item d el = Some a.
Proof.
  intros Hg Hm Ha. assert (Hin : a ∈ l) by (by eapply list_elem_of_lookup_2).
  assert (H : ∀ m, m ∈ Dom.find ACTIVE_ITEM d el ↔ m = a).
  { intros m. rewrite find_iff. unfold ACTIVE_ITEM, Dom.sel_and, Dom.sel_class. rewrite andb_true_iff. split.
    - intros [[H1 H2] H3]. pose proof (g_only d Hg m H3 H2) as Hl. rewrite Hm in H1 by done.
      apply bool_decide_eq_true in H1. congruence.
    - intros ->. rewrite Hm by done. rewrite bool_decide_true by done. split; [split; [done|by apply g_item]|by apply (g_below d Hg)]. }
  unfold active_item. destruct (Dom.find ACTIVE_ITEM d el) as [|m ms] eqn:E; [by pose proof (proj2 (H a) eq_refl) as []%elem_of_nil|].
  cbn. f_equal. apply H. by left.
Qed.
Lemma active_found d i a : gallery d → marked i d → l !! i = Some a → active_item d el = Some a.
Proof. intros Hg [Hm _]. by apply active_shown. Qed.

(** ** What a step does to the document *)

(** Lines 828 to 838, for the item with the number [j]. *)
Definition indicate (j : nat) (d : dom) : dom :=
  match ind with
  | None => d
  | Some k =>
      let d1 := Dom.each (Dom.removeClass "active") (Dom.find (Dom.sel_class "active") d k) d in
      match Dom.children d1 k !! j with Some n => Dom.addClass "active" n d1 | None => d1 end
  end.
Lemma indicate_reclassed j d : reclassed d (indicate j d).
Proof.
  unfold indicate. destruct ind as [k|]; [|done]. cbv zeta. case_match; [etrans; [|apply reclassed_add]|].
  all: apply reclassed_each; intros; apply reclassed_remove.
Qed.
Lemma indicate_other j d n c :
  gallery d → c ≠ "active" ∨ Dom.hasClass d n "carousel-item" = true →
  Dom.hasClass (indicate j d) n c = Dom.hasClass d n c.
Proof.
  intros Hg Hn. unfold indicate. destruct ind as [k|] eqn:Ek; [|done]. cbv zeta.
  set (d1 := Dom.each _ _ _). assert (Hr : reclassed d d1) by (apply reclassed_each; intros; apply reclassed_remove).
  assert (Hk : ∀ m, m ∈ Dom.descendants d k → c = "active" → m ≠ n).
  { intros m Hm -> ->. destruct Hn as [|Hn]; [done|]. rewrite (g_apart d Hg k n Ek Hm) in Hn. done. }
  assert (H1 : Dom.hasClass d1 n c = Dom.hasClass d n c).
  { apply Dom.each_hasClass. intros m d' [_ Hm]%find_iff. apply Dom.hasClass_remove_other.
    destruct (decide (c = "active")) as [E|E]; [left; by apply Hk|right; congruence]. }
  case_match eqn:E; [|done]. rewrite Dom.hasClass_add_other; [done|].
  destruct (decide (c = "active")) as [E'|E']; [left|right; congruence]. apply Hk; [|done].
  rewrite (proj1 (proj2 Hr k)) in E. apply list_elem_of_lookup_2 in E. by apply (g_below_kids d Hg k).
Qed.
Lemma indicate_marks j d k n :
  gallery d → ind = Some k → n ∈ Dom.descendants d k → (j < length l)%nat →
  Dom.hasClass (indicate j d) n "active" = bool_decide (Dom.children d k !! j = Some n).
Proof.
  intros Hg Ek Hn Hj. unfold indicate. rewrite Ek. cbv zeta.
  set (d1 := Dom.each _ _ _). assert (Hr : reclassed d d1) by (apply reclassed_each; intros; apply reclassed_remove).
  rewrite (proj1 (proj2 Hr k)). destruct (g_kids d Hg k Ek) as [_ Hlen]. rewrite <- Hlen in Hj.
  apply lookup_lt_is_Some in Hj as [m Hm]. rewrite Hm.
  assert (H1 : Dom.hasClass d1 n "active" = false).
  { unfold d1. rewrite Dom.each_removeClass. destruct (Dom.hasClass d n "active") eqn:E; [|by rewrite andb_false_r].
    rewrite bool_decide_true; [done|]. apply find_iff. split; [exact E|done]. }
  rewrite Dom.hasClass_addClass, H1, orb_false_r. apply bool_decide_ext. split; [naive_solver|].
  intros [= ->]. split_and!; [done..|]. apply (proj2 Hr n). apply (g_below_kids d Hg k n Ek).
  by eapply list_elem_of_lookup_2.
Qed.

(** Lines 898 to 901, 903 and 904, and 911 and 912. *)
Definition moved (dir : direction) (a b : nid) (d : dom) : dom :=
  Dom.addClass (directional dir) b (Dom.addClass (directional dir) a (Dom.addClass (order dir) b d)).
Definition landed (dir : direction) (a b : nid) (d : dom) : dom :=
  Dom.removeClass (directional dir) a (Dom.removeClass (order dir) a (Dom.removeClass "active" a
    (Dom.addClass "active" b (Dom.removeClass (order dir) b (Dom.removeClass (directional dir) b d))))).
Definition jumped (a b : nid) (d : dom) : dom := Dom.addClass "active" b (Dom.removeClass "active" a d).

Lemma moving_classes dir : directional dir ∈ moving ∧ order dir ∈ moving ∧ directional dir ≠ order dir ∧ "active" ∉ moving.
Proof. destruct dir; (split_and!; [by apply (bool_decide_unpack _)|by apply (bool_decide_unpack _)|done|by apply (bool_decide_unpack _)]). Qed.

Lemma add_iff c n d m c' :
  Dom.hasClass (Dom.addClass c n d) m c' = true ↔ (n = m ∧ c = c' ∧ is_Some (d !! m)) ∨ Dom.hasClass d m c' = true.
Proof. by rewrite Dom.hasClass_addClass, orb_true_iff, bool_decide_eq_true. Qed.
Lemma remove_iff c n d m c' :
  Dom.hasClass (Dom.removeClass c n d) m c' = true ↔ ¬ (n = m ∧ c = c') ∧ Dom.hasClass d m c' = true.
Proof. by rewrite Dom.hasClass_removeClass, andb_true_iff, negb_true_iff, bool_decide_eq_false. Qed.

Lemma landed_class dir a b d n c :
  a ≠ b → is_Some (d !! b) → still d → n ∈ Dom.descendants d el →
  Dom.hasClass (landed dir a b (moved dir a b d)) n c =
    if bool_decide (c = "active") then bool_decide (n = b) || negb (bool_decide (n = a)) && Dom.hasClass d n c
    else Dom.hasClass d n c.
Proof.
  intros Hab Hb Hs Hn. destruct (moving_classes dir) as (M1 & M2 & M3 & M4).
  assert (Hd : "active" ≠ directional dir) by (intros E; apply M4; by rewrite E).
  assert (Ho : "active" ≠ order dir) by (intros E; apply M4; by rewrite E).
  pose proof (Hs n (directional dir) Hn M1) as H1. pose proof (Hs n (order dir) Hn M2) as H2.
  apply eq_iff_eq_true. unfold landed, moved. rewrite !remove_iff, !add_iff, !remove_iff, !add_iff.
  rewrite !Dom.present_removeClass, !Dom.present_addClass.
  case_bool_decide as Hc; [subst c; rewrite orb_true_iff, andb_true_iff, negb_true_iff, bool_decide_eq_true, bool_decide_eq_false|].
  - naive_solver.
  - destruct (decide (c = directional dir)) as [->|]; [rewrite H1; naive_solver|].
    destruct (decide (c = order dir)) as [->|]; [rewrite H2; naive_solver|]. naive_solver.
Qed.

(** The document at rest again: [a] was shown, [b] is. *)
Definition arrives (a b : nid) (d d' : dom) : Prop :=
  reclassed d d' ∧ (∀ n, Dom.hasClass d' n "carousel-item" = Dom.hasClass d n "carousel-item") ∧
  ∀ n c, n ∈ Dom.descendants d el → Dom.hasClass d' n c =
    if bool_decide (c = "active") then bool_decide (n = b) || negb (bool_decide (n = a)) && Dom.hasClass d n c
    else Dom.hasClass d n c.

Lemma landed_arrives dir a b d : a ≠ b → is_Some (d !! b) → still d → arrives a b d (landed dir a b (moved dir a b d)).
Proof.
  intros Hab Hb Hs. split; [|split].
  - unfold landed, moved. repeat first [apply reclassed_add|apply reclassed_remove|etrans; [|apply reclassed_remove]|etrans; [|apply reclassed_add]].
  - intros n. unfold landed, moved.
    rewrite !Dom.hasClass_remove_other, !Dom.hasClass_add_other, !Dom.hasClass_remove_other, !Dom.hasClass_add_other
      by (right; by destruct dir). done.
  - intros n c. by apply landed_class.
Qed.
Lemma jumped_arrives a b d : a ≠ b → is_Some (d !! b) → arrives a b d (jumped a b d).
Proof.
  intros Hab Hb. unfold jumped. split; [etrans; [apply reclassed_remove|apply reclassed_add]|]. split.
  - intros n. by rewrite Dom.hasClass_add_other, Dom.hasClass_remove_other by (by right).
  - intros n c _. apply eq_iff_eq_true. rewrite add_iff, remove_iff, Dom.present_removeClass.
    case_bool_decide as Hc; [subst c; rewrite orb_true_iff, andb_true_iff, negb_true_iff, bool_decide_eq_true, bool_decide_eq_false|];
      naive_solver.
Qed.

Lemma arrive i j a b d d' :
  gallery d → still d → marked i d → l !! i = Some a → l !! j = Some b → i ≠ j → arrives a b (indicate j d) d' →
  gallery d' ∧ still d' ∧ marked j d'.
Proof.
  intros Hg Hs Hm Ha Hb Hij (Hr & Hci & Hc).
  assert (Hri : reclassed d d') by (etrans; [apply (indicate_reclassed j)|exact Hr]).
  pose proof (reclassed_descendants d d' el Hri) as Hel. pose proof (reclassed_descendants _ _ el (indicate_reclassed j d)) as Hel2.
  rewrite Hel2 in Hc.
  assert (Hit : ∀ n, Dom.hasClass d' n "carousel-item" = Dom.hasClass d n "carousel-item").
  { intros n. rewrite Hci. apply indicate_other; [done|by left]. }
  split; [by apply (gallery_reclassed d)|]. split.
  { intros n c Hn Hcm. rewrite Hel in Hn. destruct (moving_classes NEXT) as (_ & _ & _ & Hact).
    assert (Hne : c ≠ "active") by (by intros ->). rewrite Hc by done. rewrite (bool_decide_false (c = "active")) by done.
    rewrite indicate_other by auto. by apply Hs. }
  assert (Hinl : ∀ x, x ∈ l → x ∈ Dom.descendants d el) by (intros x; apply (g_below d Hg)).
  assert (Hal : a ∈ l) by (by eapply list_elem_of_lookup_2). assert (Hbl : b ∈ l) by (by eapply list_elem_of_lookup_2).
  split.
  - intros x Hx. rewrite Hc by auto. rewrite (bool_decide_true ("active" = "active")) by done.
    rewrite indicate_other by (auto; right; by apply g_item). rewrite (proj1 Hm x Hx).
    destruct (decide (x = b)) as [->|Hxb]; [by rewrite (bool_decide_true (b = b)), (bool_decide_true (l !! j = Some b))|]. rewrite (bool_decide_false (x = b)) by done. cbn [orb].
    rewrite (bool_decide_false (l !! j = Some x)) by congruence.
    destruct (decide (x = a)) as [->|Hxa]; [by rewrite (bool_decide_true (a = a))|]. rewrite (bool_decide_false (l !! i = Some x)) by congruence.
    by rewrite andb_false_r.
  - intros k n Ek Hn. rewrite (reclassed_descendants d d' k Hri) in Hn. rewrite (proj1 (proj2 Hri k)).
    rewrite Hc by (by apply (g_inside d Hg k)). rewrite (bool_decide_true ("active" = "active")) by done.
    assert (Hn' : n ∉ l). { intros Hl. destruct (g_item d n Hg Hl) as [H _]. by rewrite (g_apart d Hg k n Ek Hn) in H. }
    rewrite (bool_decide_false (n = b)), (bool_decide_false (n = a)) by congruence. cbn [orb negb andb].
    apply indicate_marks; [done..|]. by eapply lookup_lt_Some.
Qed.

(** ** The handlers *)

Section handlers.
Context `{B : Browser, V : Visibility}.
Hypothesis calm : ∀ d n e, prevents d n e = false.
Context (cyc : bool).     (* the timer is running *)

(** The object: sliding or not, with the timer or without, and its options. *)
Record obj (sl iv : bool) (c : carousel) : Prop := {
  ob_sliding : _isSliding c = sl;
  ob_timer : bool_decide (is_Some (_interval c)) = iv;
  ob_wrap : truthy (option_of (_config c) "wrap") = true;
  ob_interval : cyc = true → truthy (option_of (_config c) "interval") = true;
  ob_indicators : _indicatorsElement c = ind
}.
Definition at_ (d : dom) (w : list (nid * string * kont)) (sl iv : bool) : bpage carousel kont → Prop :=
  page_at d w (λ m, ∃ c, m !! el = Some c ∧ obj sl iv c).

Lemma at_upd f d w sl iv sl' iv' :
  (∀ c, obj sl iv c → obj sl' iv' (f c)) → triple (at_ d w sl iv) (upd f el) (λ _, at_ d w sl' iv').
Proof.
  intros Hf. apply triple_update. intros s (Hd & Hw & c & Hc & Ho). split_and!; [done..|].
  exists (f c). cbn. rewrite lookup_alter_eq, Hc. split; [done|by apply Hf].
Qed.
Lemma at_this_seq {A A'} (f : carousel → A) (k : A → carM A') d w sl iv R :
  (∀ c, obj sl iv c → triple (at_ d w sl iv) (k (f c)) R) → triple (at_ d w sl iv) (x ← this el f; k x) R.
Proof.
  intros Hk s (Hd & Hw & c & Hc & Ho). destruct (Hk c Ho s) as (r & s' & E & Hr); [by split_and!; [..|exists c]|].
  exists r, s'. unfold mbind, jsM_bind, this. by rewrite Hc.
Qed.
Lemma index_lookup k x : NoDup l → l !! k = Some x → index_in l (Some x) = Z.of_nat k.
Proof. intros Hn Hk. cbn. by rewrite (indexOf_lookup l k x 0). Qed.
Lemma items_found d x : gallery d → x ∈ l → items_of d (Some x) = l.
Proof. intros Hg Hx. unfold items_of. cbn. rewrite (g_parent d Hg x Hx). apply (g_items d Hg). Qed.

Lemma at_index k x d w sl iv : gallery d → l !! k = Some x →
  triple (at_ d w sl iv) (_getItemIndex el (Some x))
    (λ r s, (at_ d w sl iv s ∧ (_items <$> pdata s !! el) = Some l) ∧ r = Z.of_nat k).
Proof.
  intros Hg Hk s (Hd & Hw & c & Hc & Ho). eexists _, _. unfold _getItemIndex, mbind, jsM_bind, mget, upd, mupdate.
  split; [reflexivity|]. cbn [pdoc pdata pwait]. rewrite Hd, items_found by (done || by eapply list_elem_of_lookup_2).
  rewrite lookup_alter_eq, Hc. split; [|by apply index_lookup; [apply (g_nodup d Hg)|]]. split; [|done].
  split_and!; [done..|]. exists (set_items l c). cbn. rewrite lookup_alter_eq, Hc. split; [done|]. by destruct Ho; split.
Qed.
Lemma at_index_seq {A} k x (m : Z → carM A) d w sl iv R : gallery d → l !! k = Some x →
  triple (at_ d w sl iv) (m (Z.of_nat k)) R → triple (at_ d w sl iv) (i ← _getItemIndex el (Some x); m i) R.
Proof.
  intros Hg Hk Hm. eapply triple_bind; [by apply at_index|]. intros r. apply triple_pure. intros ->.
  eapply triple_conseq; [exact Hm|naive_solver|done].
Qed.

(** The neighbour in a direction. *)
Definition shift (dir : direction) (i : nat) : nat :=
  match dir with NEXT => S i mod length l | PREV => (i + (length l - 1)) mod length l end.
Lemma shift_differs dir i : (2 ≤ length l)%nat → (i < length l)%nat → shift dir i ≠ i ∧ (shift dir i < length l)%nat.
Proof.
  intros H2 Hi. split; [|destruct dir; apply Nat.mod_upper_bound; lia]. destruct dir; cbn.
  - destruct (decide (S i = length l)) as [E|]; [rewrite E, Nat.Div0.mod_same|rewrite Nat.mod_small]; lia.
  - destruct i as [|i]; [rewrite Nat.mod_small; lia|].
    replace (S i + (length l - 1))%nat with (i + 1 * length l)%nat by lia. rewrite Nat.Div0.mod_add, Nat.mod_small; lia.
Qed.
Lemma at_direction dir i a b d w sl iv : gallery d → l !! i = Some a → l !! shift dir i = Some b →
  triple (at_ d w sl iv) (_getItemByDirection el dir a) (λ r s, at_ d w sl iv s ∧ r = Some b).
Proof.
  intros Hg Ha Hb. unfold _getItemByDirection. eapply triple_bind; [by apply at_index|]. intros r. apply triple_pure. intros ->.
  intros s [(Hd & Hw & c & Hc & Ho) Hit]. eexists _, s. unfold mbind, jsM_bind, this. rewrite Hc in Hit. rewrite !Hc. cbn in Hit.
  injection Hit as Hit. split; [reflexivity|]. split; [by split_and!; [..|exists c]|]. rewrite Hit, (ob_wrap _ _ _ Ho).
  rewrite <- Hb. destruct dir; [by apply pick_next|by apply pick_prev].
Qed.

Lemma at_slide_event i j a b x dir d w sl iv :
  gallery d → marked i d → l !! i = Some a → l !! j = Some b → x = Some b →
  triple (at_ d w sl iv) (_triggerSlideEvent el x dir) (λ r s, at_ d w sl iv s ∧ r = false).
Proof.
  intros Hg Hm Ha Hb ->. unfold _triggerSlideEvent. eapply at_index_seq; [done..|].
  eapply triple_bind; [apply (page_get (λ d, active_item d el))|]. intros r. apply triple_pure. intros ->.
  rewrite (active_found d i a) by done. eapply at_index_seq; [done..|]. by apply page_trigger.
Qed.
Lemma still_none d : still d →
  Dom.find (Dom.sel_or (Dom.sel_class "carousel-item-next") (Dom.sel_class "carousel-item-prev")) d el = [].
Proof.
  intros Hs. destruct (Dom.find _ d el) as [|n ns] eqn:E; [done|]. exfalso.
  assert (Hn : n ∈ Dom.find (Dom.sel_or (Dom.sel_class "carousel-item-next") (Dom.sel_class "carousel-item-prev")) d el)
    by (rewrite E; by left).
  apply find_iff in Hn as [Hn Hin]. unfold Dom.sel_or, Dom.sel_class in Hn.
  rewrite !Hs in Hn by (done || by apply (bool_decide_unpack _)). done.
Qed.
Lemma at_pause d w sl iv : still d → triple (at_ d w sl iv) (pause el false) (λ _, at_ d w sl false).
Proof.
  intros Hs. unfold pause. eapply triple_seq.
  { apply (at_upd (set_paused true) d w sl iv sl iv). intros c []. by split. }
  eapply triple_bind; [apply (page_get id)|]. intros r. apply triple_pure. intros ->. unfold id.
  rewrite still_none by done. eapply triple_seq; [apply triple_ret|]. apply at_upd. intros c []. by split.
Qed.
Lemma at_cycle d w sl iv : cyc = true → triple (at_ d w sl iv) (cycle el false) (λ _, at_ d w sl true).
Proof.
  intros Hcyc. unfold cycle. intros s (Hd & Hw & c & Hc & Ho).
  eexists _, _. unfold mguard, mbind, jsM_bind, upd, mupdate, this. cbn [negb pdata]. rewrite !lookup_alter_eq, Hc. cbn [fmap option_fmap option_map id].
  cbn. rewrite (ob_interval _ _ _ Ho Hcyc). cbn. split; [reflexivity|]. split_and!; [done..|].
  eexists. cbn. rewrite !lookup_alter_eq, Hc. split; [reflexivity|]. by destruct Ho; split.
Qed.
Lemma at_indicator j b d w sl iv : gallery d → l !! j = Some b →
  triple (at_ d w sl iv) (_setActiveIndicatorElement el (Some b)) (λ _, at_ (indicate j d) w sl iv).
Proof.
  intros Hg Hb. unfold _setActiveIndicatorElement. apply at_this_seq. intros c Ho. rewrite (ob_indicators _ _ _ Ho).
  unfold indicate. destruct ind as [k|] eqn:Ek; [|apply triple_ret].
  eapply triple_bind; [apply (page_get id)|]. intros d0. apply triple_pure. intros ->. unfold id.
  eapply triple_seq; [apply page_doc|]. cbv zeta. set (d1 := Dom.each _ _ _).
  assert (Hg1 : gallery d1).
  { apply (gallery_reclassed d); [apply reclassed_each; intros; apply reclassed_remove| |done]. intros n.
    apply Dom.each_hasClass. intros m d' _. apply Dom.hasClass_remove_other. by right. }
  eapply at_index_seq; [done..|].
  eapply triple_bind; [apply (page_get (λ d, Dom.children d k))|]. intros kids. apply triple_pure. intros ->.
  rewrite (proj2 (Z.ltb_ge _ _)) by lia. rewrite Nat2Z.id.
  destruct (Dom.children d1 k !! j); [apply page_doc|apply triple_ret].
Qed.
Lemma at_animate dir a b slid d w sl iv :
  triple (at_ d w sl iv) (animate el a b dir slid)
    (λ _, at_ (moved dir a b d) (w ++ [(a, TRANSITION_END, EndSlide a b (directional dir) (order dir) slid)]) sl iv).
Proof. unfold animate. do 3 (eapply triple_seq; [apply page_doc|]). apply page_one. Qed.
Lemma filter_end a (w : list (nid * string * kont)) :
  filter (λ x, x.1.1 = a ∧ x.1.2 = TRANSITION_END) w = filter (λ x, x.1.1 = a) (filter (λ x, x.1.2 = TRANSITION_END) w).
Proof. rewrite list_filter_filter. apply list_filter_iff. done. Qed.
Lemma at_fire (f : kont → carM ()) n e d w sl iv :
  filter (λ x, x.1.1 = n ∧ x.1.2 = e) w = [] → triple (at_ d w sl iv) (fire f n e) (λ _, at_ d w sl iv).
Proof.
  intros Hw s (Hd & Hws & Hc). unfold fire, mbind, jsM_bind, mget, mupdate, waiting. rewrite Hws, Hw. cbn.
  eexists _, _. split; [reflexivity|]. split; [done|]. split; [|done]. cbn. rewrite Hws. apply filter_all.
  intros x Hx Hx'. assert (Hin : x ∈ filter (λ x, x.1.1 = n ∧ x.1.2 = e) w) by (by apply list_elem_of_filter).
  rewrite Hw in Hin. by apply elem_of_nil in Hin.
Qed.
Lemma at_jump fuel a b slid d w iv :
  filter (λ x, x.1.1 = el ∧ x.1.2 = "slid.bs.carousel") w = [] →
  triple (at_ d w true iv) (jump (on_slid fuel el) el a b slid) (λ _, at_ (jumped a b d) w false iv).
Proof.
  intros Hw. unfold jump. do 2 (eapply triple_seq; [apply page_doc|]). eapply triple_seq.
  { apply (at_upd (set_sliding false) _ _ true iv false iv). intros c []. by split. }
  eapply triple_bind; [by apply page_trigger|]. intros r. apply triple_pure. intros _. by apply at_fire.
Qed.

Lemma at_halt d w sl : still d → triple (at_ d w sl cyc) (mguard cyc (pause el false)) (λ _, at_ d w sl false).
Proof. intros Hs. destruct cyc eqn:E; cbn [mguard]; [by apply at_pause|apply triple_ret]. Qed.
Lemma at_resume d w sl : triple (at_ d w sl false) (mguard cyc (cycle el false)) (λ _, at_ d w sl cyc).
Proof. destruct cyc eqn:E; cbn [mguard]; [by apply at_cycle|apply triple_ret]. Qed.

(** A slide, up to its animation. *)
Definition animated (d : dom) : bool := supportsTransitionEnd && Dom.hasClass d el "slide".
Definition slid_from (dir : direction) (a b : nid) (w : list (nid * string * kont)) (d : dom) (s : bpage carousel kont) : Prop :=
  if animated d then ∃ slid,
    at_ (moved dir a b d) (w ++ [(a, TRANSITION_END, EndSlide a b (directional dir) (order dir) slid)]) true cyc s
  else at_ (jumped a b d) w false cyc s.

Lemma at_slide fuel dir element i j a b d w :
  gallery d → still d → marked i d → l !! i = Some a → l !! j = Some b → i ≠ j →
  element = Some b ∨ element = None ∧ j = shift dir i →
  (animated (indicate j d) = false → filter (λ x, x.1.1 = el ∧ x.1.2 = "slid.bs.carousel") w = []) →
  triple (at_ d w false cyc) (_slide (on_slid fuel el) el dir element) (λ _, slid_from dir a b w (indicate j d)).
Proof.
  intros Hg Hs Hm Ha Hb Hij He Hw. assert (Hal : a ∈ l) by (by eapply list_elem_of_lookup_2).
  assert (Hbl : b ∈ l) by (by eapply list_elem_of_lookup_2).
  unfold _slide. apply (page_get_seq (λ d, active_item d el)).
  rewrite (active_found d i a) by done. eapply at_index_seq; [done..|].
  eapply triple_bind with (Q := λ r s, at_ d w false cyc s ∧ r = Some b).
  { destruct He as [->|[-> ->]]; [|by eapply at_direction]. intros s Hs'. by exists (Some b), s. }
  intros r. apply triple_pure. intros ->.
  eapply at_index_seq; [done..|]. apply at_this_seq. intros c Ho. rewrite (ob_timer _ _ _ Ho).
  apply (page_get_seq id). unfold id. rewrite (proj1 Hm b Hbl), bool_decide_false.
  2: { intros E. apply Hij. eapply NoDup_lookup; [apply (g_nodup d Hg)|done|done]. }
  eapply triple_bind; [by eapply at_slide_event|]. intros r. apply triple_pure. intros ->.
  eapply triple_seq. { apply (at_upd (set_sliding true) d w false cyc true cyc). intros c' []. by split. }
  eapply triple_seq; [by apply at_halt|]. eapply triple_seq; [by apply at_indicator|].
  apply (page_get_seq animated). unfold slid_from.
  destruct (animated (indicate j d)).
  - eapply triple_seq; [apply at_animate|]. eapply triple_conseq; [apply at_resume|done|]. intros ? s Hs'. eexists. exact Hs'.
  - eapply triple_seq; [by apply at_jump; auto|apply at_resume].
Qed.
(** A slide to the item that is shown does nothing. *)
Lemma at_slide_self (onslid : carM ()) dir i a d w :
  gallery d → marked i d → l !! i = Some a →
  triple (at_ d w false cyc) (_slide onslid el dir (Some a)) (λ _, at_ d w false cyc).
Proof.
  intros Hg Hm Ha. unfold _slide. apply (page_get_seq (λ d, active_item d el)).
  rewrite (active_found d i a) by done. eapply at_index_seq; [done..|]. eapply triple_bind with (Q := λ r s, at_ d w false cyc s ∧ r = Some a).
  { intros s Hs. by exists (Some a), s. }
  intros r. apply triple_pure. intros ->. eapply at_index_seq; [done..|]. apply at_this_seq. intros c Ho.
  apply (page_get_seq id). unfold id. rewrite (proj1 Hm a) by (by eapply list_elem_of_lookup_2). rewrite bool_decide_true by done.
  apply (at_upd (set_sliding false) d w false cyc false cyc). intros c' []. by split.
Qed.

(** Lines 682 to 709: what a call of [to] comes to. *)
Lemma at_to fuel i a z is_number d w sl Q :
  gallery d → active_item d el = Some a → l !! i = Some a →
  triple (at_ d w sl cyc)
    (if (Z.of_nat (length l) - 1 <? z)%Z || (z <? 0)%Z then mret ()
     else if sl then one el "slid.bs.carousel" (GoTo z is_number)
     else if is_number && (Z.of_nat i =? z)%Z then (_ ← pause el false; cycle el false)
     else _slide (on_slid fuel el) el (if (Z.of_nat i <? z)%Z then NEXT else PREV) (l !! Z.to_nat z)) Q →
  triple (at_ d w sl cyc) (to (S fuel) el z is_number) Q.
Proof.
  intros Hg Hact Ha Hk. cbn [to]. apply (page_get_seq (λ d, active_item d el)). rewrite Hact.
  eapply triple_seq. { apply (at_upd (set_active (Some a)) d w sl cyc sl cyc). intros c []. by split. }
  eapply triple_bind; [by apply (at_index i a)|]. intros r. apply triple_pure. intros ->.
  intros s [(Hd & Hw & c & Hc & Ho) Hit]. rewrite Hc in Hit. injection Hit as Hit.
  destruct (Hk s) as (r & s' & E & Hr); [by split_and!; [..|exists c]|]. exists r, s'. split; [|done].
  unfold mbind at 1, jsM_bind at 1, this. rewrite Hc. unfold id. rewrite Hit, (ob_sliding _ _ _ Ho). exact E.
Qed.

(** The end of the transition. *)
Lemma at_end dir a b slid d w :
  filter (λ x, x.1.2 = TRANSITION_END) w = [(a, TRANSITION_END, EndSlide a b (directional dir) (order dir) slid)] →
  triple (at_ d w true cyc) (on_transition_end el a)
    (λ _, at_ (landed dir a b d)
       (filter (λ x, ¬ (x.1.1 = a ∧ x.1.2 = TRANSITION_END)) w ++ [(el, "timeout", TriggerSlid slid)]) false cyc).
Proof.
  intros Hf s (Hd & Hw & Hc). unfold on_transition_end, fire, mbind at 1 2, jsM_bind at 1 2, mget, mupdate, waiting.
  rewrite Hw, filter_end, Hf. rewrite filter_cons_True by done. cbn [filter list_filter fmap list_fmap snd meach].
  set (w' := filter (λ x, ¬ (x.1.1 = a ∧ x.1.2 = TRANSITION_END)) w).
  assert (Hs : at_ d w' true cyc (drop_wait a TRANSITION_END s)) by (split_and!; [done| |done]; cbn; by rewrite Hw).
  assert (Ht : triple (at_ d w' true cyc) (endSlide el a b (directional dir) (order dir) slid)
    (λ _, at_ (landed dir a b d) (w' ++ [(el, "timeout", TriggerSlid slid)]) false cyc)).
  { unfold endSlide. do 2 (eapply triple_seq; [apply page_doc|]). eapply triple_seq; [|exact (page_one el "timeout" (TriggerSlid slid) _ w' _)].
    apply (at_upd (set_sliding false) _ w' true cyc false cyc). intros c []. by split. }
  exact (triple_seq _ _ _ _ _ Ht (triple_ret _ ()) _ Hs).
Qed.
(** ** The machine *)

(** The number of the item that is shown, of the one the carousel slides to, if
    it slides, how many timeouts after a slide are pending, and the items that
    were asked for during slides. *)
Record view := View { shown : nat; going : option nat; timeouts : nat; asked : list (Z * bool) }.
Context (anim : bool).     (* slides are animated *)
Definition in_list (z : Z) : bool := (0 <=? z)%Z && (z <? Z.of_nat (length l))%Z.

Definition slide_to (j : nat) (v : view) : view :=
  if anim then View (shown v) (Some j) (timeouts v) (asked v) else View j None (timeouts v) (asked v).
Definition press (dir : direction) (v : view) : view :=
  match going v with Some _ => v | None => slide_to (shift dir (shown v)) v end.
Definition goto (v : view) (ask : Z * bool) : view :=
  if negb (in_list ask.1) then v
  else match going v with
  | Some _ => View (shown v) (going v) (timeouts v) (asked v ++ [ask])
  | None => if decide (shown v = Z.to_nat ask.1) then v else slide_to (Z.to_nat ask.1) v
  end.
Definition ended (v : view) : view :=
  match going v with Some j => View j None (S (timeouts v)) (asked v) | None => v end.
Definition timed_out (v : view) : view :=
  match timeouts v with
  | O => v
  | S k => foldl goto (View (shown v) (going v) k []) (asked v)
  end.

(** What happens: the methods that the controls, the arrow keys and scripts call
    ([Button] and [To]; the number that an indicator gives is a text), a tick of
    the timer, the end of a transition of some element and a timeout. *)
Inductive move := Button (dir : direction) | Timer | To (z : Z) (is_number : bool) | Ends (n : nid) | Timeout.
Definition perform (fuel : nat) (m : move) : carM () :=
  match m with
  | Button NEXT => next fuel el
  | Button PREV => prev fuel el
  | Timer => run_step fuel el Tick
  | To z is_number => to fuel el z is_number
  | Ends n => on_transition_end el n
  | Timeout => on_timeout fuel el
  end.
Definition machine (v : view) (m : move) : view :=
  match m with
  | Button dir => press dir v
  | Timer => if cyc then press NEXT v else v
  | To z is_number => goto v (z, is_number)
  | Ends n => if decide (l !! shown v = Some n) then ended v else v
  | Timeout => timed_out v
  end.
(** A script that asks for the item that is shown starts the timer. *)
Definition keeps_timer (m : move) : Prop := match m with To _ true => cyc = true | _ => True end.
Definition keeps_timers (v : view) : Prop := Forall (λ ask, ask.2 = true → cyc = true) (asked v).

(** ** The page of a view *)

Definition ends (w : list (nid * string * kont)) := filter (λ x, x.1.2 = TRANSITION_END) w.
Definition asks (w : list (nid * string * kont)) := filter (λ x, x.1.1 = el ∧ x.1.2 = "slid.bs.carousel") w.
Definition timers (w : list (nid * string * kont)) := filter (λ x, x.1.1 = el ∧ x.1.2 = "timeout") w.

(** The document and the animation that waits for its end: [i] is shown, or the
    carousel slides from [i] to [j]. *)
Definition sliding_to (i j : nat) (d : dom) (k : nid * string * kont) : Prop :=
  ∃ d0 dir a b slid, gallery d0 ∧ still d0 ∧ marked i d0 ∧ l !! i = Some a ∧ l !! j = Some b ∧ i ≠ j ∧
    d = moved dir a b (indicate j d0) ∧ k = (a, TRANSITION_END, EndSlide a b (directional dir) (order dir) slid).
Definition scene (v : view) (d : dom) (w : list (nid * string * kont)) : Prop :=
  match going v with
  | None => gallery d ∧ still d ∧ marked (shown v) d ∧ ends w = []
  | Some j => ∃ k, sliding_to (shown v) j d k ∧ ends w = [k]
  end.
Definition queued (v : view) (w : list (nid * string * kont)) : Prop :=
  (asks w).*2 = (λ ask, GoTo ask.1 ask.2) <$> asked v ∧
  ∃ slids, (timers w).*2 = TriggerSlid <$> slids ∧ length slids = timeouts v.
Definition shows (v : view) (p : bpage carousel kont) : Prop :=
  ∃ d w, at_ d w (bool_decide (is_Some (going v))) cyc p ∧ scene v d w ∧ queued v w ∧
    animated d = anim ∧ (anim = false → going v = None ∧ asked v = []) ∧
    (shown v < length l)%nat ∧ keeps_timers v.

(** A carousel at rest that shows the item with the number [i]. *)
Definition showing (i : nat) (p : bpage carousel kont) : Prop :=
  ∃ d, at_ d [] false cyc p ∧ gallery d ∧ still d ∧ marked i d ∧ animated d = anim.

Lemma animated_add c n d : c ≠ "slide" → animated (Dom.addClass c n d) = animated d.
Proof. intros Hc. unfold animated. rewrite Dom.hasClass_add_other; [done|by right]. Qed.
Lemma animated_remove c n d : c ≠ "slide" → animated (Dom.removeClass c n d) = animated d.
Proof. intros Hc. unfold animated. rewrite Dom.hasClass_remove_other; [done|by right]. Qed.
Lemma animated_indicate j d : gallery d → animated (indicate j d) = animated d.
Proof. intros Hg. unfold animated. by rewrite indicate_other by auto. Qed.
Lemma animated_moved dir a b d : animated (moved dir a b d) = animated d.
Proof. unfold moved. by rewrite !animated_add by (by destruct dir). Qed.
Lemma animated_landed dir a b d : animated (landed dir a b d) = animated d.
Proof. unfold landed. by rewrite !animated_remove, animated_add, !animated_remove by (by destruct dir). Qed.
Lemma animated_jumped a b d : animated (jumped a b d) = animated d.
Proof. unfold jumped. by rewrite animated_add, animated_remove. Qed.

Lemma queued_cons v w n e k : e = TRANSITION_END → queued v w → queued v (w ++ [(n, e, k)]).
Proof.
  intros -> [Ha Ht]. unfold queued, asks, timers. rewrite !filter_app, !(filter_cons_False _ (n, TRANSITION_END, k)) by (by intros []).
  by rewrite filter_nil, !app_nil_r.
Qed.

(** The document while the carousel slides. *)
Lemma sliding_gallery i j d k : sliding_to i j d k → gallery d ∧ active_item d el = l !! i.
Proof.
  intros (d0 & dir & a & b & slid & Hg & Hs & Hm & Ha & Hb & _ & -> & _).
  assert (Hr : reclassed d0 (moved dir a b (indicate j d0))).
  { etrans; [apply (indicate_reclassed j)|]. unfold moved. etrans; [|apply reclassed_add]. etrans; apply reclassed_add. }
  assert (Hc : ∀ n c, c = "carousel-item" ∨ c = "active" ∧ n ∈ l →
    Dom.hasClass (moved dir a b (indicate j d0)) n c = Dom.hasClass d0 n c).
  { intros n c Hn. unfold moved.
    rewrite !Dom.hasClass_add_other by (right; destruct dir; intros <-; by destruct Hn as [|[]]).
    apply indicate_other; [done|]. destruct Hn as [->|[_ Hn]]; [by left|]. right. by apply g_item. }
  assert (Hg' : gallery (moved dir a b (indicate j d0))) by (apply (gallery_reclassed d0); auto).
  split; [done|]. rewrite Ha. apply (active_shown _ i); [done| |done]. intros x Hx. rewrite Hc by auto. by apply (proj1 Hm).
Qed.

Lemma shows_active v p : shows v p → active_item (pdoc p) el = l !! shown v.
Proof.
  intros (d & w & (Hd & _) & Hsc & _ & _ & _ & Hlt & _). rewrite Hd. unfold scene in Hsc.
  destruct (going v); [destruct Hsc as (k & Hsl & _); by eapply sliding_gallery|]. destruct Hsc as (Hg & _ & Hm & _).
  destruct (lookup_lt_is_Some_2 _ _ Hlt) as [a Ha]. rewrite Ha. by eapply active_found.
Qed.

(** ** The handlers and the machine *)

(** A slide that starts from rest at [shown v]. *)
Lemma slid_shows v dir i j a b w d s :
  going v = None → shown v = i → gallery d → still d → marked i d → ends w = [] → queued v w → animated d = anim →
  (anim = false → asked v = []) → keeps_timers v → l !! i = Some a → l !! j = Some b → i ≠ j →
  slid_from dir a b w (indicate j d) s → shows (slide_to j v) s.
Proof.
  intros Hgo Hi Hg Hs Hm He Hq Han Hask Hk Ha Hb Hij. unfold slid_from, slide_to. rewrite animated_indicate, Han by done.
  assert (Hj : (j < length l)%nat) by (by eapply lookup_lt_Some).
  assert (Hil : (i < length l)%nat) by (by eapply lookup_lt_Some).
  destruct anim eqn:Ea.
  - intros [slid Hat]. eexists _, _. split; [exact Hat|]. split_and!.
    + exists (a, TRANSITION_END, EndSlide a b (directional dir) (order dir) slid). split.
      * exists d, dir, a, b, slid. by rewrite Hi.
      * unfold ends in *. by rewrite filter_app, He.
    + by apply queued_cons.
    + rewrite animated_moved, animated_indicate by done. congruence.
    + by rewrite Ea.
    + cbn. by rewrite Hi.
    + exact Hk.
  - intros Hat. eexists _, _. split; [exact Hat|].
    assert (Hab : a ≠ b) by (intros ->; apply Hij; eapply NoDup_lookup; [apply (g_nodup d Hg)|done|done]).
    assert (Hpb : is_Some (indicate j d !! b)).
    { apply (indicate_reclassed j d). apply (g_item d b Hg). by eapply list_elem_of_lookup_2. }
    destruct (arrive i j a b d (jumped a b (indicate j d))) as (G1 & G2 & G3); [done..|by apply jumped_arrives|].
    split; [by split_and!|]. split; [done|]. split; [|by split_and!; auto].
    rewrite animated_jumped, animated_indicate by done. congruence.
Qed.

Lemma press_shows fuel dir v :
  triple (shows v) (sliding ← this el _isSliding;
    if (sliding : bool) then mret () else _slide (on_slid fuel el) el dir None) (λ _, shows (press dir v)).
Proof.
  intros p (d & w & Hat & Hsc & Hq & Han & Hf & Hlt & Hk). unfold press, scene in *.
  destruct (going v) as [j|] eqn:Eg.
  - assert (Hsh : shows v p) by (exists d, w; unfold scene; rewrite Eg; by split_and!).
    destruct Hat as (Hd & Hw & c & Hc & Ho). exists (), p. split; [|done].
    unfold mbind, jsM_bind, this. rewrite Hc. by rewrite (ob_sliding _ _ _ Ho).
  - destruct Hsc as (Hg & Hs & Hm & He). destruct (lookup_lt_is_Some_2 _ _ Hlt) as [a Ha].
    destruct (shift_differs dir (shown v) (g_two d Hg) Hlt) as [Hne Hlt'].
    destruct (lookup_lt_is_Some_2 _ _ Hlt') as [b Hb].
    enough (Ht : triple (at_ d w false cyc) (sliding ← this el _isSliding;
      if (sliding : bool) then mret () else _slide (on_slid fuel el) el dir None) (λ _, shows (slide_to (shift dir (shown v)) v)))
      by exact (Ht p Hat).
    apply at_this_seq. intros c Ho. rewrite (ob_sliding _ _ _ Ho).
    eapply triple_conseq; [eapply (at_slide fuel dir None (shown v) (shift dir (shown v))); [done..|by right|]|done|].
    + rewrite animated_indicate, Han by done. intros Ea. destruct Hq as [Hq _]. rewrite (proj2 (Hf Ea)) in Hq.
      by apply fmap_nil_inv in Hq.
    + intros [] s Hs'. eapply slid_shows; [done..| |done|done|done|done|exact Hs']. intros Ea. by apply Hf.
Qed.

Lemma to_shows fuel v z is_number :
  (is_number = true → cyc = true) → triple (shows v) (to (S fuel) el z is_number) (λ _, shows (goto v (z, is_number))).
Proof.
  intros Hkt p (d & w & Hat & Hsc & Hq & Han & Hf & Hlt & Hk). destruct (lookup_lt_is_Some_2 _ _ Hlt) as [a Ha].
  assert (Hga : gallery d ∧ active_item d el = Some a).
  { unfold scene in Hsc. rewrite <- Ha. destruct (going v); [destruct Hsc as (k & Hsl & _); by eapply sliding_gallery|].
    destruct Hsc as (Hg & _ & Hm & _). rewrite Ha. split; [done|by eapply active_found]. }
  destruct Hga as [Hg Hact].
  enough (Ht : triple (at_ d w (bool_decide (is_Some (going v))) cyc) (to (S fuel) el z is_number)
    (λ _, shows (goto v (z, is_number)))) by exact (Ht p Hat).
  eapply at_to; [done..|]. unfold goto. cbn [fst].
  assert (Hout : (Z.of_nat (length l) - 1 <? z)%Z || (z <? 0)%Z = negb (in_list z)).
  { unfold in_list. apply eq_iff_eq_true. rewrite orb_true_iff, negb_true_iff, andb_false_iff, !Z.ltb_lt, Z.leb_gt, Z.ltb_ge. lia. }
  rewrite Hout. assert (Hsame : ∀ s, at_ d w (bool_decide (is_Some (going v))) cyc s → shows v s) by (intros s Hs; by exists d, w).
  destruct (in_list z) eqn:Ez; cbn [negb]; [|by intros s Hs; exists (), s; auto].
  apply andb_true_iff in Ez as [H1%Z.leb_le H2%Z.ltb_lt].
  unfold scene in Hsc. destruct (going v) as [j|] eqn:Eg.
  - destruct Hsc as (k & Hsl & He). eapply triple_conseq; [apply (page_one el "slid.bs.carousel" (GoTo z is_number))|done|].
    intros [] s Hs. eexists _, _. split; [exact Hs|]. split_and!.
    + exists k. split; [done|]. unfold ends in *. by rewrite filter_app, He.
    + destruct Hq as [Hq1 Hq2]. split.
      * cbn [asked]. rewrite fmap_app. unfold asks in *. by rewrite filter_app, fmap_app, Hq1, filter_cons_True.
      * unfold timers in *. rewrite filter_app, (filter_cons_False _ (el, "slid.bs.carousel", _)) by (by intros []).
        by rewrite filter_nil, app_nil_r.
    + done.
    + intros Ea. by destruct (Hf Ea).
    + done.
    + apply Forall_app. split; [done|]. by repeat constructor.
  - destruct Hsc as (_ & Hs & Hm & He). destruct (decide (shown v = Z.to_nat z)) as [Es|Es].
    + rewrite Es, Z2Nat.id, Z.eqb_refl, andb_true_r by done. eapply triple_conseq with (P := at_ d w false cyc) (Q := λ _, at_ d w false cyc).
      2: done. 2: { intros [] s. apply Hsame. }
      destruct is_number; [|rewrite <- Es, Ha; by eapply at_slide_self].
      pose proof (at_cycle d w false false (Hkt eq_refl)) as Hc.
      eapply triple_seq; [by apply at_pause|]. by rewrite (Hkt eq_refl).
    + rewrite (proj2 (Z.eqb_neq _ _)), andb_false_r by lia. destruct (lookup_lt_is_Some_2 l (Z.to_nat z)) as [b Hb]; [lia|].
      eapply triple_conseq; [eapply (at_slide fuel _ _ (shown v) (Z.to_nat z)); [done..|by left|]|done|].
      * rewrite animated_indicate, Han by done. intros Ea. destruct Hq as [Hq _]. rewrite (proj2 (Hf Ea)) in Hq.
        by apply fmap_nil_inv in Hq.
      * intros [] s Hs'. eapply slid_shows; [done..| |done|done|done|done|exact Hs']. intros Ea. by apply Hf.
Qed.

(** A page whose waiting callbacks were changed. *)
Lemma shows_waits v v' w d p :
  at_ d w (bool_decide (is_Some (going v))) cyc p → shown v' = shown v → going v' = going v →
  scene v d w → queued v' w → animated d = anim → (anim = false → going v = None ∧ asked v' = []) →
  (shown v < length l)%nat → keeps_timers v' → shows v' p.
Proof.
  intros Hat Hs Hg Hsc Hq Han Hf Hlt Hk. exists d, w. unfold scene in *. rewrite Hg, Hs. by split_and!.
Qed.

Lemma ends_filter (Q : nid * string * kont → Prop) `{∀ x, Decision (Q x)} w : ends (filter Q w) = filter Q (ends w).
Proof. unfold ends. rewrite !list_filter_filter. apply list_filter_iff. naive_solver. Qed.

Lemma ends_shows v n : triple (shows v) (on_transition_end el n) (λ _, shows (machine v (Ends n))).
Proof.
  intros p (d & w & Hat & Hsc & Hq & Han & Hf & Hlt & Hk).
  assert (Hidle : filter (λ x, x.1.1 = n ∧ x.1.2 = TRANSITION_END) w = [] → machine v (Ends n) = v →
    ∃ r p', on_transition_end el n p = (p', Ret r) ∧ shows (machine v (Ends n)) p').
  { intros Hw ->. destruct (at_fire (λ k, match k with
      | EndSlide active next dirc ord slid => endSlide el active next dirc ord slid | _ => mret () end)
      n TRANSITION_END d w _ _ Hw p Hat) as (r & p' & E & Hat'). exists r, p'.
    split; [exact E|]. by exists d, w. }
  unfold scene in Hsc. destruct (going v) as [j|] eqn:Eg.
  2: { apply Hidle; [rewrite filter_end; fold (ends w); by rewrite (proj2 (proj2 (proj2 Hsc)))|].
       cbn. unfold ended. rewrite Eg. by case_decide. }
  destruct Hsc as (k & (d0 & dir & a & b & slid & Hg & Hs & Hm & Ha & Hb & Hij & -> & ->) & He).
  destruct (decide (a = n)) as [<-|Hn].
  2: { apply Hidle; [rewrite filter_end; unfold ends in He; by rewrite He, filter_cons_False|].
       cbn. by rewrite decide_False by congruence. }
  destruct (at_end dir a b slid _ w He p Hat) as (r & p' & E & Hat'). exists r, p'. split; [exact E|].
  cbn [machine]. rewrite decide_True by done. unfold ended. rewrite Eg.
  assert (Hab : a ≠ b) by (intros ->; apply Hij; eapply NoDup_lookup; [apply (g_nodup d0 Hg)|done|done]).
  assert (Hpb : is_Some (indicate j d0 !! b)).
  { apply (indicate_reclassed j d0). apply (g_item d0 b Hg). by eapply list_elem_of_lookup_2. }
  assert (Hst : still (indicate j d0)).
  { intros m c Hn Hcm. rewrite (reclassed_descendants _ _ el (indicate_reclassed _ d0)) in Hn.
    rewrite indicate_other; [by apply Hs|done|left]. destruct (moving_classes NEXT) as (_ & _ & _ & Hx). congruence. }
  destruct (arrive (shown v) j a b d0 (landed dir a b (moved dir a b (indicate j d0)))) as (G1 & G2 & G3);
    [done..|by apply landed_arrives|].
  eexists _, _. split; [exact Hat'|]. destruct Hq as [Hq1 (slids & Hq2 & Hq3)]. split_and!.
  - unfold scene. cbn [going]. split_and!; [done..|]. unfold ends. rewrite filter_app. fold (ends w).
    change (filter _ (filter ?Q w)) with (ends (filter Q w)). rewrite ends_filter, He.
    by rewrite filter_cons_False by (intros Hx; by apply Hx).
  - split.
    + unfold asks in *. rewrite filter_app, (filter_cons_False _ (el, "timeout", _)) by (by intros []).
      rewrite filter_nil, app_nil_r, list_filter_filter_l; [done|]. intros x [_ Hx] [_ Hx']. by rewrite Hx in Hx'.
    + exists (slids ++ [slid]). unfold timers in *. rewrite filter_app, filter_cons_True by done.
      rewrite list_filter_filter_l, !fmap_app, Hq2, length_app by (intros x [_ Hx] [_ Hx']; by rewrite Hx in Hx').
      cbn. split; [done|lia].
  - rewrite animated_landed. exact Han.
  - intros Ea. by destruct (Hf Ea).
  - by eapply lookup_lt_Some.
  - done.
Qed.

Lemma asked_shows fuel qs v :
  Forall (λ ask, ask.2 = true → cyc = true) qs →
  triple (shows v) (meach (λ k, match k with GoTo i n => to (S fuel) el i n | _ => mret () end)
    ((λ ask, GoTo ask.1 ask.2) <$> qs)) (λ _, shows (foldl goto v qs)).
Proof.
  revert v. induction qs as [|[z n] qs IH]; intros v Hq; [apply triple_ret|]. apply Forall_cons in Hq as [Hz Hq].
  cbn [fmap list_fmap meach foldl fst snd]. eapply triple_seq; [by apply to_shows|by apply IH].
Qed.
Lemma on_slid_shows fuel v :
  triple (shows v) (on_slid (S fuel) el) (λ _, shows (foldl goto (View (shown v) (going v) (timeouts v) []) (asked v))).
Proof.
  intros p (d & w & Hat & Hsc & [Hq1 (slids & Hq2 & Hq3)] & Han & Hf & Hlt & Hk). unfold on_slid, fire, mbind, jsM_bind, mget, mupdate, waiting.
  destruct Hat as (Hd & Hw & Hc). rewrite Hw. fold (asks w). rewrite Hq1.
  apply asked_shows; [done|].
  apply (shows_waits v _ (filter (λ x, ¬ (x.1.1 = el ∧ x.1.2 = "slid.bs.carousel")) w) d);
    [|done|done| | |done|intros Ea; by destruct (Hf Ea)|done|by constructor].
  - split_and!; [done| |done]. cbn. by rewrite Hw.
  - assert (He : ends (filter (λ x, ¬ (x.1.1 = el ∧ x.1.2 = "slid.bs.carousel")) w) = ends w).
    { unfold ends. apply list_filter_filter_l. intros x Hx [_ Hx']. by rewrite Hx in Hx'. }
    unfold scene in *. by rewrite He.
  - split.
    + rewrite (elem_of_nil_inv (asks _)); [done|]. intros x. unfold asks. rewrite !list_elem_of_filter. tauto.
    + exists slids. unfold timers in *. rewrite list_filter_filter_l; [done|]. intros x [_ Hx] [_ Hx']. by rewrite Hx in Hx'.
Qed.

Lemma drop_first_none n e (w : list (nid * string * kont)) :
  filter (λ x, x.1.1 = n ∧ x.1.2 = e) w = [] → drop_first n e w = w.
Proof.
  induction w as [|x w IH]; [done|]. rewrite filter_cons. cbn [drop_first]. case_decide; [done|].
  intros Hw. by rewrite IH.
Qed.

Lemma timeout_shows fuel v : triple (shows v) (on_timeout (S fuel) el) (λ _, shows (timed_out v)).
Proof.
  intros p (d & w & Hat & Hsc & [Hq1 (slids & Hq2 & Hq3)] & Han & Hf & Hlt & Hk). pose proof Hat as (Hd & Hw & c & Hc & Ho).
  set (p1 := BPage (pdoc p) (plog p) (drop_first el "timeout" w) (pdata p) (pfresh p)).
  assert (Hat1 : at_ d (drop_first el "timeout" w) (bool_decide (is_Some (going v))) cyc p1).
  { split_and!; [done|done|by exists c]. }
  assert (Hrun : on_timeout (S fuel) el p = match slids with
    | [] => (p1, Ret ())
    | slid :: _ => (_ ← trigger "slid.bs.carousel" slid el; on_slid (S fuel) el) p1 end).
  { unfold on_timeout, mbind at 1 2 3, jsM_bind at 1 2 3, mget, mupdate. unfold waiting. rewrite Hw. fold (timers w). rewrite Hq2.
    fold p1. rewrite bool_decide_true by (by exists c). by destruct slids. }
  rewrite Hrun. unfold timed_out. rewrite <- Hq3. destruct slids as [|slid slids]; cbn [length].
  - apply fmap_nil_inv in Hq2. rewrite (drop_first_none _ _ _ Hq2) in Hat1. exists (), p1. split; [done|].
    exists d, w. split_and!; try done. split; [done|]. exists []. by rewrite Hq2.
  - assert (Hs1 : shows (View (shown v) (going v) (length slids) (asked v)) p1).
    { apply (shows_waits v _ (drop_first el "timeout" w) d); try done.
      - assert (He : ends (drop_first el "timeout" w) = ends w) by (apply filter_drop_first; by intros x [_ ->]).
        unfold scene in *. by rewrite He.
      - split.
        + unfold asks in *. rewrite filter_drop_first; [done|]. by intros x [_ Hx] [_ Hx']; rewrite Hx in Hx'.
        + exists slids. unfold timers in *. rewrite filter_dropped_first. split; [|done].
          destruct (filter _ w) as [|x xs]; [done|]. cbn in Hq2 |- *. congruence. }
    refine (triple_bind _ _ (λ _, shows (View (shown v) (going v) (length slids) (asked v))) _ _ _ _ p1 Hs1).
    + intros s (d' & w' & Hat' & Hrest). destruct (page_trigger_value "slid.bs.carousel" slid el d' w' _ s Hat') as (r & s' & E & Hs' & _).
      exists r, s'. split; [exact E|]. by exists d', w'.
    + intros r. apply (on_slid_shows fuel (View (shown v) (going v) (length slids) (asked v))).
Qed.

Hypothesis visible : ∀ d, page_visible d el = true.

Lemma tick_shows fuel v : triple (shows v) (run_step fuel el Tick) (λ _, shows (if cyc then press NEXT v else v)).
Proof.
  cbn [run_step]. intros p Hp. pose proof Hp as (d & w & (Hd & Hw & c & Hc & Ho) & _).
  unfold mbind at 1, jsM_bind at 1, this. rewrite Hc. pose proof (ob_timer _ _ _ Ho) as Ht.
  destruct cyc eqn:Ecyc.
  - apply bool_decide_eq_true in Ht as [[] ->]; [|by apply press_shows]. unfold nextWhenVisible.
    unfold mbind, jsM_bind, mget. rewrite visible. by apply press_shows.
  - apply bool_decide_eq_false in Ht. destruct (_interval c); [by destruct Ht|]. by exists (), p.
Qed.

Lemma perform_shows fuel m v : keeps_timer m → triple (shows v) (perform (S fuel) m) (λ _, shows (machine v m)).
Proof.
  intros Hk. destruct m as [[]| |z num|n|]; cbn [perform machine].
  - apply press_shows.
  - apply press_shows.
  - apply tick_shows.
  - apply to_shows. by destruct num.
  - apply (ends_shows v n).
  - apply timeout_shows.
Qed.
Definition performs (fuel : nat) (ms : list move) : carM () := meach (perform fuel) ms.
Lemma performs_shows fuel ms v :
  Forall keeps_timer ms → triple (shows v) (performs (S fuel) ms) (λ _, shows (foldl machine v ms)).
Proof.
  intros Hms. revert v. induction Hms as [|m ms Hm _ IH]; intros v; [apply triple_ret|].
  unfold performs. cbn [meach foldl]. eapply triple_seq; [by apply perform_shows|apply IH].
Qed.

Lemma performs_app fuel ms ms' p p' :
  performs fuel ms p = (p', Ret ()) → performs fuel (ms ++ ms') p = performs fuel ms' p'.
Proof.
  revert p. induction ms as [|m ms IH]; intros p; unfold performs in *; cbn [meach app]; [by intros [= ->]|].
  unfold mbind, jsM_bind. destruct (perform fuel m p) as [p1 [[]|]]; [apply IH|done].
Qed.

(** ** Coming to rest *)

(** The browser reports the end of the transition of the item that is shown and
    runs a timeout, [n] times. *)
Fixpoint reports (n : nat) (v : view) : list move :=
  match n with
  | O => []
  | S n =>
      let ms := [Ends (default el (l !! shown v)); Timeout] in
      ms ++ reports n (foldl machine v ms)
  end.
Definition rest_of (i : nat) : view := View i None 0 [].
Definition budget (v : view) : nat := (length (asked v) + (if going v then 1 else 0) + timeouts v)%nat.

(** What was asked for waits for a slide or for its timeout. *)
Definition awaited (v : view) : Prop := asked v ≠ [] → is_Some (going v) ∨ (0 < timeouts v)%nat.
Lemma goto_going v ask : is_Some (going v) → is_Some (going (goto v ask)) ∧ timeouts (goto v ask) = timeouts v ∧
  (length (asked (goto v ask)) ≤ S (length (asked v)))%nat.
Proof.
  intros [j Hj]. unfold goto. destruct (in_list ask.1); cbn [negb]; [|rewrite Hj; cbn; split_and!; [by eexists|done|lia]].
  rewrite Hj. cbn. rewrite length_app. cbn. split_and!; [by eexists|done|lia].
Qed.
Lemma gotos_going qs v : is_Some (going v) → is_Some (going (foldl goto v qs)) ∧ timeouts (foldl goto v qs) = timeouts v ∧
  (length (asked (foldl goto v qs)) ≤ length (asked v) + length qs)%nat.
Proof.
  revert v. induction qs as [|ask qs IH]; intros v Hv; cbn [foldl length]; [split_and!; [done|done|lia]|].
  destruct (goto_going v ask Hv) as (H1 & H2 & H3), (IH (goto v ask) H1) as (H4 & H5 & H6). split_and!; [done|congruence|lia].
Qed.
Lemma gotos_rest qs v : going v = None → asked v = [] →
  timeouts (foldl goto v qs) = timeouts v ∧
  (going (foldl goto v qs) = None ∧ asked (foldl goto v qs) = [] ∨
   is_Some (going (foldl goto v qs)) ∧ (S (length (asked (foldl goto v qs))) ≤ length qs)%nat).
Proof.
  revert v. induction qs as [|ask qs IH]; intros v Hg Ha; cbn [foldl length]; [by auto|].
  destruct (decide (is_Some (going (goto v ask)))) as [Hs|Hs].
  - assert (Hv : timeouts (goto v ask) = timeouts v ∧ asked (goto v ask) = []).
    { unfold goto, slide_to. rewrite Hg. repeat case_match; cbn; auto. }
    destruct Hv as [Ht Hv], (gotos_going qs _ Hs) as (H1 & H2 & H3). rewrite Hv in H3. cbn in H3. split; [congruence|].
    right. split; [done|lia].
  - assert (Hv : going (goto v ask) = None ∧ asked (goto v ask) = [] ∧ timeouts (goto v ask) = timeouts v).
    { apply eq_None_not_Some in Hs. split; [done|]. unfold goto, slide_to. rewrite Hg. repeat case_match; cbn; auto. }
    destruct Hv as (H1 & H2 & H3), (IH _ H1 H2) as (H4 & H5). split; [congruence|].
    destruct H5 as [H5|[H5 H6]]; [by left|right]. split; [done|lia].
Qed.

Lemma report_budget v : (shown v < length l)%nat → awaited v →
  let v' := foldl machine v [Ends (default el (l !! shown v)); Timeout] in
  awaited v' ∧ (budget v' ≤ budget v - 1)%nat.
Proof.
  intros Hlt Haw. cbn [foldl machine]. destruct (lookup_lt_is_Some_2 _ _ Hlt) as [a Ha]. rewrite Ha. cbn [default].
  rewrite decide_True by done. unfold ended, timed_out. destruct (going v) as [j|] eqn:Eg.
  - cbn [timeouts]. destruct (gotos_rest (asked v) (View j None (timeouts v) []) eq_refl eq_refl) as [Ht H].
    cbn [timeouts] in Ht. cbn [shown going asked]. set (v' := foldl goto _ _) in *. unfold budget, awaited. rewrite Eg, Ht.
    destruct H as [[-> ->]|[H1 H2]]; [split; [done|cbn; lia]|]. split; [by left|]. destruct (going v'); cbn in *; lia.
  - destruct (timeouts v) as [|k] eqn:Et.
    + assert (Has : asked v = []) by (destruct (asked v) eqn:E; [done|]; destruct Haw as [[]|]; [by rewrite E|congruence|lia]).
      split; [by unfold awaited; rewrite Has|]. unfold budget. rewrite Has, Eg, Et. done.
    + destruct (gotos_rest (asked v) (View (shown v) None k []) eq_refl eq_refl) as [Ht H].
      cbn [timeouts] in Ht. cbn [shown going asked]. rewrite Eg. set (v' := foldl goto _ _) in *. unfold budget, awaited. rewrite Eg, Et, Ht.
      destruct H as [[-> ->]|[H1 H2]]; [split; [done|cbn; lia]|]. split; [by left|]. destruct (going v'); cbn in *; lia.
Qed.
Lemma report_target v : (shown v < length l)%nat → asked v = [] →
  let v' := foldl machine v [Ends (default el (l !! shown v)); Timeout] in
  asked v' = [] ∧ default (shown v') (going v') = default (shown v) (going v).
Proof.
  intros Hlt Hv. cbn [foldl machine]. destruct (lookup_lt_is_Some_2 _ _ Hlt) as [a Ha]. rewrite Ha. cbn [default].
  rewrite decide_True by done. unfold ended, timed_out. destruct (going v) as [j|] eqn:Eg; cbn [timeouts asked]; rewrite ?Hv; [done|].
  destruct (timeouts v); cbn [foldl asked shown going]; by rewrite ?Eg.
Qed.

Lemma machine_awaited v m : awaited v → awaited (machine v m).
Proof.
  unfold awaited. intros Haw. assert (Hpress : ∀ dir, awaited (press dir v)).
  { intros dir Hne. unfold press in *. destruct (going v) eqn:Eg; [left; by rewrite Eg|]. unfold slide_to in *.
    destruct anim; cbn in *; [left; by eexists|]. destruct (Haw Hne) as [[]|]; [congruence|by right]. }
  destruct m as [dir| |z num|n|]; cbn [machine].
  - apply Hpress.
  - destruct cyc; [apply Hpress|done].
  - unfold goto. cbn [fst]. destruct (in_list z); cbn [negb]; [|done]. destruct (going v) eqn:Eg; [intros _; left; by eexists|].
    case_decide; [by rewrite Eg|]. unfold slide_to. destruct anim; cbn; [intros _; left; by eexists|].
    intros Hne. destruct (Haw Hne) as [[]|]; [done|by right].
  - unfold ended. case_decide; [|done]. destruct (going v) eqn:Eg; [cbn; intros _; right; lia|]. by rewrite Eg in *.
  - unfold timed_out. destruct (timeouts v) as [|k] eqn:Et; [by rewrite Et|]. destruct (going v) as [j|] eqn:Eg; intros Hne.
    + left. apply gotos_going. by eexists.
    + destruct (gotos_rest (asked v) (View (shown v) None k []) eq_refl eq_refl) as [_ [[_ H]|[H _]]]; [by destruct (Hne H)|by left].
Qed.

Lemma settles fuel n v p : shows v p → awaited v → (budget v ≤ n)%nat →
  ∃ p' j, performs (S fuel) (reports n v) p = (p', Ret ()) ∧ shows (rest_of j) p' ∧
    (asked v = [] → j = default (shown v) (going v)).
Proof.
  revert v p. induction n as [|n IH]; intros v p Hp Haw Hb.
  - exists p, (shown v). split; [done|]. destruct v as [i g k qs]. unfold budget in Hb. cbn in *.
    destruct g; [lia|]. destruct qs; [|cbn in Hb; lia]. destruct k; [|lia]. done.
  - assert (Hlt : (shown v < length l)%nat) by (destruct Hp as (? & ? & ?); naive_solver).
    destruct (report_budget v Hlt Haw) as [Haw' Hb']. cbn [reports].
    set (ms := [Ends (default el (l !! shown v)); Timeout]) in *. set (v' := foldl machine v ms) in *.
    destruct (performs_shows fuel ms v) with p as ([] & p1 & E1 & Hp1); [by repeat constructor|done|].
    destruct (IH v' p1 Hp1 Haw') as (p' & j & E' & Hj & Hz); [lia|]. exists p', j. split_and!; [|done|].
    + by rewrite (performs_app _ _ _ _ _ E1).
    + intros Hq. destruct (report_target v Hlt Hq) as [Hq' Ht]. fold ms in Hq', Ht. fold v' in Hq', Ht. rewrite <- Ht. auto.
Qed.


End handlers.
End gallery.

(** A page with three items and as many indicators; the constructed carousel
    cycles. *)
Definition sample_page : bpage carousel kont :=
  BPage {[ 1%nat := Elem "div" "" ["carousel"; "slide"] ∅ ∅ None [2%nat; 3%nat];
           2%nat := Elem "ol" "" ["carousel-indicators"] ∅ ∅ (Some 1%nat) [4%nat; 5%nat; 6%nat];
           3%nat := Elem "div" "" ["carousel-inner"] ∅ ∅ (Some 1%nat) [7%nat; 8%nat; 9%nat];
           4%nat := Elem "li" "" ["active"] ∅ ∅ (Some 2%nat) [];
           5%nat := Elem "li" "" [] ∅ ∅ (Some 2%nat) [];
           6%nat := Elem "li" "" [] ∅ ∅ (Some 2%nat) [];
           7%nat := Elem "div" "" ["carousel-item"; "active"] ∅ ∅ (Some 3%nat) [];
           8%nat := Elem "div" "" ["carousel-item"] ∅ ∅ (Some 3%nat) [];
           9%nat := Elem "div" "" ["carousel-item"] ∅ ∅ (Some 3%nat) [] ]} [] [] ∅ 0.
Definition sample_started : bpage carousel kont :=
  (cycle (V:=plain_visibility) 1 false (construct (V:=plain_visibility) 1 ∅ sample_page).1).1.
Lemma sample_below : Dom.descendants (pdoc sample_started) 1 = [2; 4; 5; 6; 3; 7; 8; 9]%nat ∧
  Dom.descendants (pdoc sample_started) 2 = [4; 5; 6]%nat ∧ Dom.children (pdoc sample_started) 2 = [4; 5; 6]%nat.
Proof. vm_compute. done. Qed.
Lemma sample_gallery : gallery 1 3 [7; 8; 9]%nat (Some 2%nat) (pdoc sample_started).
Proof.
  destruct sample_below as (H1 & H2 & H3). split; rewrite ?H1.
  - intros x Hx. each_of Hx.
  - vm_compute. done.
  - intros x Hx. each_of Hx; by_evaluation.
  - intros x Hx. each_of Hx; intros Hc; first [by_evaluation|vm_compute in Hc; discriminate Hc].
  - by_evaluation.
  - by_evaluation.
  - cbn. lia.
  - intros k [= <-]. rewrite H3. split; [by_evaluation|done].
  - intros k n [= <-]. rewrite H3, H2. intros Hn. split; [done|]. each_of Hn; eexists; vm_compute; reflexivity.
  - intros k n [= <-]. rewrite H2. intros Hn. each_of Hn.
  - intros k n [= <-]. rewrite H2. intros Hn. each_of Hn; by_evaluation.
Qed.
Lemma sample_turns_shows :
  shows (B:=plain_browser) 1 3 [7; 8; 9]%nat (Some 2%nat) true true (rest_of 0) sample_started.
Proof.
  destruct sample_below as (H1 & H2 & H3). exists (pdoc sample_started), []. split; [split; [done|split]|split_and!].
  - by vm_compute.
  - eexists. split; [vm_compute; reflexivity|]. split; vm_compute; reflexivity.
  - split_and!; [apply sample_gallery| | |done].
    + intros n c. rewrite H1. intros Hn Hc. each_of Hn; each_of Hc.
    + split.
      * intros x Hx. each_of Hx.
      * intros k n [= <-]. rewrite H2, H3. intros Hn. each_of Hn.
  - split; [done|by exists []].
  - by vm_compute.
  - done.
  - cbn. lia.
  - constructor.
Qed.

(** The timer and quick presses during a slide, and two items asked for during
    it; the second one is reached when the slide to the first one is over. *)
Definition sample_moves : list move :=
  [Button PREV; Button PREV; Timer; To 5 true; To 1 false; To 0 true; Ends 8; Ends 7; Timeout; Button NEXT].
End CarouselLife.
