(* ===== verification/Collapse.v ===== *)
(** * Collapse, bootstrap.js lines 1036 to 1396

    A collapsible element is hidden, shown or in transition; its object knows
    the triggers that control it and, in an accordion, the common parent. *)

From S2P Require Import Prelude Dom Bs.
Local Open Scope string_scope.
Local Open Scope list_scope.

(** What the browser says of elements: their sizes, as CSS lengths: [getBoundingClientRect] and
    [scrollWidth]/[scrollHeight]. *)
Class Sizes := {
  rect_size : dom → nid → string → string;
  scroll_size : dom → nid → string → string;
  element_text : dom → nid → string            (* an element as a string *)
}.

Module Collapse.

Record collapse := MkCollapse {
  uid : nat;                      (* tells objects of one element apart *)
  _isTransitioning : bool;
  _triggerArray : list nid;
  _selector : option string;
  _parentSelector : string;       (* [_config.parent] *)
  _parent : option nid
}.

Inductive kont := ShowComplete (id : nat) (el : nid) (dimension : string) | HideComplete (id : nat) (el : nid).
Abbreviation colM := (bsM collapse kont).

(** ** Options, lines 1049 to 1056 and 1268 to 1274 *)

(** [None] is a property that is missing. *)
Record options := Options { o_toggle : option Util.optval; o_parent : option Util.optval }.
Definition no_options : options := Options None None.
(** [_extends({}, a, b)] *)
Definition given_or (b a : option Util.optval) : option Util.optval := match b with Some v => Some v | None => a end.
Definition extend (a b : options) : options :=
  Options (given_or (o_toggle b) (o_toggle a)) (given_or (o_parent b) (o_parent a)).

Definition Default : options := Options (Some (Util.OBool true)) (Some (Util.OStr "")).
Definition DefaultType : list (string * list string) := [("toggle", ["boolean"]); ("parent", ["string"; "element"])].

Record config := Config { c_toggle : bool; c_parent : Util.optval }.
Definition _getConfig (o : options) : outcome config :=
  let c := extend Default o in
  let tog := Util.truthy (default Util.OUndefined (o_toggle c)) in
  let par := default Util.OUndefined (o_parent c) in
  match Util.typeCheckConfig "collapse" (list_to_map [("toggle", Util.OBool tog); ("parent", par)]) DefaultType with
  | Ret _ => Ret (Config tog par)
  | Throw e => Throw e
  end.

Section collapse.
Context `{B : Browser, Z : Sizes}.

Definition this {A} (el : nid) (f : collapse → A) : colM A := λ p,
  match pdata p !! el with Some c => (p, Ret (f c)) | None => (p, Throw TypeError) end.

(** Lines 1254 to 1256, on the object with identifier [id]: an object that is
    no longer on its element is not observed by anyone. *)
Definition setTransitioning (b : bool) (id : nat) (el : nid) : colM () :=
  mupdate (λ p, BPage (pdoc p) (plog p) (pwait p)
    (alter (λ c, if decide (uid c = id)
                 then MkCollapse (uid c) b (_triggerArray c) (_selector c) (_parentSelector c) (_parent c)
                 else c) el (pdata p)) (pfresh p)).

(** Lines 1276 to 1279. *)
Definition _getDimension (d : dom) (el : nid) : string :=
  if Dom.hasClass d el "width" then "width" else "height".

Definition DATA_TOGGLE : Dom.selector := Dom.sel_attr "data-toggle" "collapse".

(** Lines 1303 to 1311. *)
Definition _addAriaAndCollapsedClass (element : option nid) (triggers : list nid) (d : dom) : dom :=
  match element with
  | None => d
  | Some e =>
      let isOpen := Dom.hasClass d e "show" in
      Dom.each (Dom.setAttribute "aria-expanded" (Dom.bool_attr isOpen)) triggers
        (Dom.each (Dom.toggleClassTo "collapsed" (negb isOpen)) triggers d)
  end.

(** Lines 1314 to 1317. *)
Definition _getTargetFromElement (d : dom) (element : nid) : option nid := Util.target_of d element.

(** ** Hiding, lines 1201 to 1252 *)

(** Lines 1221 to 1234: a trigger is marked when nothing it controls is shown. *)
Definition mark_trigger (t : nid) (d : dom) : dom :=
  match Util.getSelectorFromElement d t with
  | None => d
  | Some s =>
      if Dom.anyHasClass d (default [] (query d s)) "show" then d
      else Dom.setAttribute "aria-expanded" "false" t (Dom.addClass "collapsed" t d)
  end.

(** Lines 1238 to 1242. *)
Definition hide_complete (id : nat) (el : nid) : colM () :=
  _ ← setTransitioning false id el;
  _ ← doc_op (λ d, Dom.addClass "collapse" el (Dom.removeClass "collapsing" el d));
  _ ← trigger "hidden.bs.collapse" [] el;
  mret ().

Definition hide (el : nid) : colM () :=
  c ← this el id;
  shown ← mget (λ p, Dom.hasClass (pdoc p) el "show");
  if _isTransitioning c || negb shown then mret ()
  else
    prevented ← trigger "hide.bs.collapse" [] el;
    if (prevented : bool) then mret ()
    else
      dim ← mget (λ p, _getDimension (pdoc p) el);
      _ ← doc_op (λ d, Dom.css dim (rect_size d el dim) el d);
      _ ← doc_op (λ d, Dom.removeClass "show" el (Dom.removeClass "collapse" el (Dom.addClass "collapsing" el d)));
      _ ← doc_op (Dom.each mark_trigger (_triggerArray c));
      _ ← setTransitioning true (uid c) el;
      _ ← doc_op (Dom.css dim "" el);
      if supportsTransitionEnd then one el TRANSITION_END (HideComplete (uid c) el)
      else hide_complete (uid c) el.

(** ** Construction, lines 1088 to 1115, without the final [toggle] *)

(** Lines 1092 to 1104. *)
Definition triggers_of (d : dom) (el : nid) : list nid * option string :=
  let eid := match d !! el with Some e => elId e | None => "" end in
  let toggles := Dom.query (all_nodes d) DATA_TOGGLE d in
  let direct := filter (λ t, Dom.sel_or (Dom.sel_attr "href" ("#" +:+ eid))
                               (Dom.sel_attr "data-target" ("#" +:+ eid)) d t = true) toggles in
  foldl (λ '(ts, sel) t,
    match Util.getSelectorFromElement d t with
    | Some s => if bool_decide (el ∈ default [] (query d s)) then (ts ++ [t], Some s) else (ts, sel)
    | None => (ts, sel)
    end) (direct, None) toggles.

(** Lines 1281 to 1301: the parent, and what it is called in an attribute. *)
Definition parent_text (d : dom) (parent : Util.optval) : string :=
  match parent with Util.OStr s => s | Util.OElement n => element_text d n | _ => "" end.
Definition parent_element (d : dom) (parent : Util.optval) : outcome (option nid) :=
  match parent with
  | Util.OElement n => Ret (Some n)
  | Util.OStr s => match query d s with Some ns => Ret (head ns) | None => Throw SyntaxError end
  | _ => Ret None
  end.
Definition _getParent (parent : Util.optval) : colM (option nid) :=
  q ← mget (λ p, parent_element (pdoc p) parent);
  match q with
  | Throw e => mthrow e
  | Ret q =>
      _ ← doc_op (λ d,
        match q with
        | None => d
        | Some q =>
            Dom.each (λ t d, _addAriaAndCollapsedClass (_getTargetFromElement d t) [t] d)
              (Dom.find (Dom.sel_and DATA_TOGGLE (Dom.sel_attr "data-parent" (parent_text d parent))) d q) d
        end);
      mret q
  end.

(** The object is stored on the element here; nobody reads it from there
    before the construction ends. *)
Definition construct_object (el : nid) (parent : Util.optval) : colM () :=
  tr ← mget (λ p, triggers_of (pdoc p) el);
  q ← (if Util.truthy parent then _getParent parent else mret None);
  _ ← mguard (negb (Util.truthy parent)) (doc_op (_addAriaAndCollapsedClass (Some el) tr.1));
  mupdate (λ p, BPage (pdoc p) (plog p) (pwait p)
    (<[el := MkCollapse (pfresh p) false tr.1 tr.2 (parent_text (pdoc p) parent) q]> (pdata p)) (S (pfresh p))).

(** [_jQueryInterface] with the argument 'hide', lines 1319 to 1343: a missing
    object is made without toggling.  [data_of] are the data attributes. *)
Definition hide_interface (data_of : dom → nid → options) (els : list nid) : colM () :=
  meach (λ el,
    known ← mget (λ p, bool_decide (is_Some (pdata p !! el)));
    _ ← (if (known : bool) then mret ()
         else
           c ← mget (λ p, _getConfig (extend Default (data_of (pdoc p) el)));
           match c with Ret c => construct_object el (c_parent c) | Throw e => mthrow e end);
    hide el) els.

(** ** Showing, lines 1129 to 1199 *)

Definition ACTIVES : Dom.selector := Dom.sel_or (Dom.sel_class "show") (Dom.sel_class "collapsing").

(** Lines 1139 to 1148: the other open elements of the accordion. *)
Definition actives (c : collapse) (d : dom) : list nid :=
  match _parent c with
  | Some q => Dom.find (Dom.sel_and ACTIVES (Dom.sel_attr "data-parent" (_parentSelector c))) d q
  | None => []
  end.
Definition others (c : collapse) (d : dom) (l : list nid) : list nid :=
  match _selector c with
  | Some s => filter (λ n, n ∉ default [] (query d s)) l
  | None => l
  end.

(** Lines 1181 to 1188. *)
Definition show_complete (id : nat) (el : nid) (dim : string) : colM () :=
  _ ← doc_op (λ d, Dom.addClass "show" el (Dom.addClass "collapse" el (Dom.removeClass "collapsing" el d)));
  _ ← doc_op (Dom.css dim "" el);
  _ ← setTransitioning false id el;
  _ ← trigger "shown.bs.collapse" [] el;
  mret ().

(** Lines 1170 to 1198. *)
Definition start_show (c : collapse) (el : nid) : colM () :=
  dim ← mget (λ p, _getDimension (pdoc p) el);
  _ ← doc_op (λ d, Dom.addClass "collapsing" el (Dom.removeClass "collapse" el d));
  _ ← doc_op (Dom.css dim "0px" el);
  _ ← doc_op (Dom.each (Dom.removeClass "collapsed") (_triggerArray c));
  _ ← doc_op (Dom.each (Dom.setAttribute "aria-expanded" "true") (_triggerArray c));
  _ ← setTransitioning true (uid c) el;
  if supportsTransitionEnd then
    _ ← one el TRANSITION_END (ShowComplete (uid c) el dim);
    doc_op (λ d, Dom.css dim (scroll_size d el dim) el d)
  else show_complete (uid c) el dim.

Definition show (data_of : dom → nid → options) (el : nid) : colM () :=
  c ← this el id;
  shown ← mget (λ p, Dom.hasClass (pdoc p) el "show");
  if _isTransitioning c || shown then mret ()
  else
    act ← mget (λ p, actives c (pdoc p));
    activesData ← mget (λ p, n ← head (others c (pdoc p) act); pdata p !! n);
    if match activesData with Some a => _isTransitioning a | None => false end then mret ()
    else
      prevented ← trigger "show.bs.collapse" [] el;
      if (prevented : bool) then mret ()
      else
        oth ← mget (λ p, others c (pdoc p) act);
        _ ← hide_interface data_of oth;
        _ ← mguard (bool_decide (activesData = None ∧ act ≠ []))
              (mupdate (λ p, foldl (λ p n, drop_data n p) p act));
        start_show c el.

(** Lines 1121 to 1127. *)
Definition toggle (data_of : dom → nid → options) (el : nid) : colM () :=
  shown ← mget (λ p, Dom.hasClass (pdoc p) el "show");
  if (shown : bool) then hide el else show data_of el.

(** Lines 1088 to 1115. *)
Definition construct (data_of : dom → nid → options) (el : nid) (o : options) : colM () :=
  match _getConfig o with
  | Throw e => mthrow e
  | Ret c =>
      _ ← construct_object el (c_parent c);
      mguard (c_toggle c) (toggle data_of el)
  end.

(** Lines 1258 to 1265. *)
Definition dispose (el : nid) : colM () := mupdate (drop_data el).

(** Lines 1319 to 1343: a method name, or options. *)
Definition _jQueryInterface (data_of : dom → nid → options) (given : options) (method : option string)
    (els : list nid) : colM () :=
  meach (λ el,
    known ← mget (λ p, bool_decide (is_Some (pdata p !! el)));
    o ← mget (λ p, extend (extend Default (data_of (pdoc p) el)) given);
    let names := match method with Some m => Util.contains "show" m || Util.contains "hide" m | None => false end in
    let tog := Util.truthy (default Util.OUndefined (o_toggle o)) in
    let o := if tog && names then Options (Some (Util.OBool false)) (o_parent o) else o in
    _ ← mguard (negb known) (construct data_of el o);
    match method with
    | None => mret ()
    | Some m =>
        if bool_decide (m = "toggle") then toggle data_of el
        else if bool_decide (m = "show") then show data_of el
        else if bool_decide (m = "hide") then hide el
        else if bool_decide (m = "dispose") then dispose el
        else mthrow TypeError
    end) els.

(** Lines 1365 to 1380: a click on a trigger, whose data attributes are the
    options of objects it makes. *)
Definition on_click (data_of : dom → nid → options) (self : nid) : colM () :=
  targets ← mget (λ p, match Util.getSelectorFromElement (pdoc p) self with
                       | Some s => default [] (query (pdoc p) s)
                       | None => []
                       end);
  given ← mget (λ p, data_of (pdoc p) self);
  meach (λ t,
    known ← mget (λ p, bool_decide (is_Some (pdata p !! t)));
    if (known : bool) then _jQueryInterface data_of no_options (Some "toggle") [t]
    else _jQueryInterface data_of given None [t]) targets.

Definition resume (k : kont) : colM () :=
  match k with
  | ShowComplete id el dim => show_complete id el dim
  | HideComplete id el => hide_complete id el
  end.

(** ** What showing and hiding do *)

(** The document when an element starts to open. *)
Definition opening (c : collapse) (el : nid) (dim : string) (d : dom) : dom :=
  Dom.each (Dom.setAttribute "aria-expanded" "true") (_triggerArray c)
    (Dom.each (Dom.removeClass "collapsed") (_triggerArray c)
      (Dom.css dim "0px" el (Dom.addClass "collapsing" el (Dom.removeClass "collapse" el d)))).
Definition opened (el : nid) (dim : string) (d : dom) : dom :=
  Dom.css dim "" el (Dom.addClass "show" el (Dom.addClass "collapse" el (Dom.removeClass "collapsing" el d))).

Lemma each_setAttribute_class a v ns d m c :
  Dom.hasClass (Dom.each (Dom.setAttribute a v) ns d) m c = Dom.hasClass d m c.
Proof. apply Dom.each_hasClass. intros. apply Dom.hasClass_setAttribute. Qed.

Lemma each_setAttribute_same a v ns d m :
  m ∈ ns → is_Some (d !! m) → Dom.getAttribute (Dom.each (Dom.setAttribute a v) ns d) m a = Some v.
Proof.
  unfold Dom.each. intros Hin Hp.
  assert (H : Dom.getAttribute d m a = Some v ∨ m ∈ ns) by auto. clear Hin. revert d Hp H.
  induction ns as [|n ns IH]; intros d Hp H; cbn [foldl].
  - destruct H as [|H]; [done|]. by apply elem_of_nil in H.
  - apply IH; [by rewrite Dom.present_setAttribute|]. destruct (decide (n = m)) as [->|Hne].
    + left. by apply Dom.getAttribute_set_same.
    + destruct H as [H|[->|H]%elem_of_cons]; [|done|by right].
      left. rewrite Dom.getAttribute_set_other by (by left). done.
Qed.

Lemma opened_classes el dim d :
  is_Some (d !! el) →
  Dom.hasClass (opened el dim d) el "show" = true ∧ Dom.hasClass (opened el dim d) el "collapse" = true ∧
  Dom.hasClass (opened el dim d) el "collapsing" = false.
Proof.
  intros Hp. unfold opened. rewrite !Dom.hasClass_css. split_and!.
  - apply Dom.hasClass_add_same. by rewrite Dom.present_addClass, Dom.present_removeClass.
  - rewrite Dom.hasClass_add_other by (by right). apply Dom.hasClass_add_same. by rewrite Dom.present_removeClass.
  - rewrite !Dom.hasClass_add_other by (by right). apply Dom.hasClass_remove_same.
Qed.

(** A trigger of the element is marked as expanded. *)
Definition expanded (d : dom) (t : nid) : Prop :=
  Dom.hasClass d t "collapsed" = false ∧ Dom.getAttribute d t "aria-expanded" = Some "true".

Lemma opening_expanded c el dim d t :
  t ∈ _triggerArray c → is_Some (d !! t) → expanded (opening c el dim d) t.
Proof.
  intros Ht Hp. split.
  - unfold opening. rewrite each_setAttribute_class, Dom.each_removeClass, bool_decide_true by done. done.
  - apply each_setAttribute_same; [done|]. rewrite Dom.each_present by (intros; apply Dom.present_removeClass).
    by rewrite Dom.present_css, Dom.present_addClass, Dom.present_removeClass.
Qed.

Lemma opened_expanded el dim d t : expanded d t → expanded (opened el dim d) t.
Proof.
  intros [Hc Ha]. unfold opened. split.
  - by rewrite Dom.hasClass_css, !Dom.hasClass_add_other, Dom.hasClass_remove_other by (by right).
  - by rewrite Dom.getAttribute_css, !Dom.getAttribute_addClass, Dom.getAttribute_removeClass.
Qed.

Lemma expanded_css p v n d t : expanded d t → expanded (Dom.css p v n d) t.
Proof. intros [Hc Ha]. split; [by rewrite Dom.hasClass_css|by rewrite Dom.getAttribute_css]. Qed.

Lemma opening_present c el dim d m : is_Some (opening c el dim d !! m) ↔ is_Some (d !! m).
Proof.
  unfold opening. rewrite Dom.each_present by (intros; apply Dom.present_setAttribute).
  rewrite Dom.each_present by (intros; apply Dom.present_removeClass).
  by rewrite Dom.present_css, Dom.present_addClass, Dom.present_removeClass.
Qed.

Definition with_transitioning (b : bool) (c : collapse) : collapse :=
  MkCollapse (uid c) b (_triggerArray c) (_selector c) (_parentSelector c) (_parent c).

(** What the end of the opening leaves. *)
Lemma show_complete_effect id el dim q :
  (show_complete id el dim q).1 =
    BPage (opened el dim (pdoc q)) (plog q ++ [Ev el "shown.bs.collapse" []]) (pwait q)
      (alter (λ c, if decide (uid c = id) then with_transitioning false c else c) el (pdata q)) (pfresh q).
Proof. reflexivity. Qed.

(** Showing a collapsed element: once its transition has ended (at once in
    a browser without transitions) it has the class show and no longer the
    class collapsing, its object is at rest again, every trigger announces it
    as expanded, and exactly a show and a shown event were triggered. *)
Theorem collapse_show dp el c p :
  pdata p !! el = Some c → _isTransitioning c = false → _parent c = None →
  is_Some (pdoc p !! el) → Dom.hasClass (pdoc p) el "show" = false →
  prevents (pdoc p) el "show.bs.collapse" = false → waiting el TRANSITION_END p = [] →
  let p2 := (fire resume el TRANSITION_END (show dp el p).1).1 in
  Dom.hasClass (pdoc p2) el "show" = true ∧ Dom.hasClass (pdoc p2) el "collapse" = true ∧
  Dom.hasClass (pdoc p2) el "collapsing" = false ∧
  (∀ t, t ∈ _triggerArray c → is_Some (pdoc p !! t) → expanded (pdoc p2) t) ∧
  pdata p2 !! el = Some c ∧
  plog p2 = plog p ++ [Ev el "show.bs.collapse" []; Ev el "shown.bs.collapse" []].
Proof.
  intros Hd Ht Hpar Hp Hs Hpr Hw p2.
  set (dim := _getDimension (pdoc p) el). set (d1 := opening c el dim (pdoc p)).
  set (log1 := plog p ++ [Ev el "show.bs.collapse" []]).
  set (data1 := alter (λ x, if decide (uid x = uid c) then with_transitioning true x else x) el (pdata p)).
  set (q := BPage d1 log1 (pwait p) data1 (pfresh p)).
  assert (Hshow : (show dp el p).1 =
    if supportsTransitionEnd then
      BPage (Dom.css dim (scroll_size d1 el dim) el d1) log1 (pwait p ++ [(el, TRANSITION_END, ShowComplete (uid c) el dim)])
        data1 (pfresh p)
    else (show_complete (uid c) el dim q).1).
  { unfold show, this, mbind at 1, jsM_bind at 1. rewrite Hd. unfold id.
    run. rewrite Ht, Hs. cbn [orb]. run. unfold actives. rewrite Hpar.
    assert (Ho : ∀ d, others c d [] = []) by (intros; unfold others; by destruct (_selector c)).
    rewrite !Ho. run. rewrite Hpr, Ho. unfold hide_interface. run. rewrite bool_decide_false by naive_solver.
    unfold start_show. run. by destruct supportsTransitionEnd. }
  assert (Hdata : alter (λ x, if decide (uid x = uid c) then with_transitioning false x else x) el data1 !! el = Some c).
  { unfold data1. rewrite !lookup_alter_eq, Hd. simpl. destruct (decide (uid c = uid c)) as [_|Hne]; [|done]. simpl.
    rewrite decide_True by done. destruct c; simpl in *; by subst. }
  unfold p2. rewrite Hshow. destruct supportsTransitionEnd.
  - rewrite (fire_single _ _ _ (ShowComplete (uid c) el dim)).
    2:{ unfold waiting in *. cbn [pwait]. rewrite filter_app, fmap_app, Hw.
        rewrite filter_cons_True by done. done. }
    cbn [resume]. rewrite show_complete_effect. cbn [pdoc plog pdata drop_wait].
    destruct (opened_classes el dim (Dom.css dim (scroll_size d1 el dim) el d1)) as (H1 & H2 & H3).
    { rewrite Dom.present_css. by apply opening_present. }
    split_and!; [done|done|done| |done|unfold log1; by rewrite <- app_assoc].
    intros t Hin Hpt. by apply opened_expanded, expanded_css, opening_expanded.
  - rewrite show_complete_effect, fire_none by done. cbn [pdoc plog pdata drop_wait q].
    destruct (opened_classes el dim d1) as (H1 & H2 & H3); [by apply opening_present|].
    split_and!; [done|done|done| |done|unfold log1; by rewrite <- app_assoc].
    intros t Hin Hpt. by apply opened_expanded, opening_expanded.
Qed.

Lemma mark_trigger_class t d m c : c ≠ "collapsed" → Dom.hasClass (mark_trigger t d) m c = Dom.hasClass d m c.
Proof.
  intros Hc. unfold mark_trigger. repeat case_match; try done.
  by rewrite Dom.hasClass_setAttribute, Dom.hasClass_add_other by (by right).
Qed.

Lemma mark_trigger_present t d m : is_Some (mark_trigger t d !! m) ↔ is_Some (d !! m).
Proof.
  unfold mark_trigger. repeat case_match; try done.
  by rewrite Dom.present_setAttribute, Dom.present_addClass.
Qed.

Definition closing (c : collapse) (el : nid) (dim : string) (d : dom) : dom :=
  Dom.css dim "" el (Dom.each mark_trigger (_triggerArray c)
    (Dom.removeClass "show" el (Dom.removeClass "collapse" el (Dom.addClass "collapsing" el
      (Dom.css dim (rect_size d el dim) el d))))).

Lemma closing_classes c el dim d : Dom.hasClass (closing c el dim d) el "show" = false.
Proof.
  unfold closing. rewrite Dom.hasClass_css, Dom.each_hasClass by (intros; by apply mark_trigger_class).
  apply Dom.hasClass_remove_same.
Qed.

Lemma closing_present c el dim d m : is_Some (closing c el dim d !! m) ↔ is_Some (d !! m).
Proof.
  unfold closing. rewrite Dom.present_css, Dom.each_present by (intros; apply mark_trigger_present).
  by rewrite !Dom.present_removeClass, Dom.present_addClass, Dom.present_css.
Qed.

Lemma hide_complete_effect id el q :
  (hide_complete id el q).1 =
    BPage (Dom.addClass "collapse" el (Dom.removeClass "collapsing" el (pdoc q)))
      (plog q ++ [Ev el "hidden.bs.collapse" []]) (pwait q)
      (alter (λ c, if decide (uid c = id) then with_transitioning false c else c) el (pdata q)) (pfresh q).
Proof. reflexivity. Qed.

Lemma closed_classes el d :
  is_Some (d !! el) → Dom.hasClass d el "show" = false →
  let d' := Dom.addClass "collapse" el (Dom.removeClass "collapsing" el d) in
  Dom.hasClass d' el "show" = false ∧ Dom.hasClass d' el "collapse" = true ∧
  Dom.hasClass d' el "collapsing" = false.
Proof.
  intros Hp Hs d'. unfold d'. split_and!.
  - by rewrite Dom.hasClass_add_other, Dom.hasClass_remove_other by (by right).
  - apply Dom.hasClass_add_same. by rewrite Dom.present_removeClass.
  - rewrite Dom.hasClass_add_other by (by right). apply Dom.hasClass_remove_same.
Qed.

(** Hiding a shown element: once its transition has ended it has lost the
    class show and is collapsed again, its object is at rest, and exactly a
    hide and a hidden event were triggered.  Together with showing, the class
    collapsing never outlives the transition. *)
Theorem collapse_hide el c p :
  pdata p !! el = Some c → _isTransitioning c = false →
  is_Some (pdoc p !! el) → Dom.hasClass (pdoc p) el "show" = true →
  prevents (pdoc p) el "hide.bs.collapse" = false → waiting el TRANSITION_END p = [] →
  let p2 := (fire resume el TRANSITION_END (hide el p).1).1 in
  Dom.hasClass (pdoc p2) el "show" = false ∧ Dom.hasClass (pdoc p2) el "collapse" = true ∧
  Dom.hasClass (pdoc p2) el "collapsing" = false ∧ pdata p2 !! el = Some c ∧
  plog p2 = plog p ++ [Ev el "hide.bs.collapse" []; Ev el "hidden.bs.collapse" []].
Proof.
  intros Hd Ht Hp Hs Hpr Hw p2.
  set (dim := _getDimension (pdoc p) el). set (d1 := closing c el dim (pdoc p)).
  set (log1 := plog p ++ [Ev el "hide.bs.collapse" []]).
  set (data1 := alter (λ x, if decide (uid x = uid c) then with_transitioning true x else x) el (pdata p)).
  set (q := BPage d1 log1 (pwait p) data1 (pfresh p)).
  assert (Hhide : (hide el p).1 =
    if supportsTransitionEnd then add_wait el TRANSITION_END (HideComplete (uid c) el) q
    else (hide_complete (uid c) el q).1).
  { unfold hide, this, mbind at 1, jsM_bind at 1. rewrite Hd. unfold id.
    run. rewrite Ht, Hs. run. rewrite Hpr. run. by destruct supportsTransitionEnd. }
  assert (Hdata : alter (λ x, if decide (uid x = uid c) then with_transitioning false x else x) el data1 !! el = Some c).
  { unfold data1. rewrite !lookup_alter_eq, Hd. simpl. destruct (decide (uid c = uid c)) as [_|Hne]; [|done]. simpl.
    rewrite decide_True by done. destruct c; simpl in *; by subst. }
  destruct (closed_classes el d1) as (H1 & H2 & H3); [by apply closing_present|apply closing_classes|].
  unfold p2. rewrite Hhide. destruct supportsTransitionEnd.
  - rewrite (fire_single _ _ _ (HideComplete (uid c) el)).
    2:{ rewrite waiting_add, bool_decide_true by done. change (waiting el TRANSITION_END q) with (waiting el TRANSITION_END p).
        by rewrite Hw. }
    cbn [resume]. rewrite hide_complete_effect. cbn [pdoc plog pdata drop_wait add_wait q].
    split_and!; [done..|]. unfold log1. by rewrite <- app_assoc.
  - rewrite hide_complete_effect, fire_none by done. cbn [pdoc plog pdata drop_wait q].
    split_and!; [done..|]. unfold log1. by rewrite <- app_assoc.
Qed.

End collapse.

Definition plain_sizes : Sizes := {| rect_size := λ _ _ _, "20px"; scroll_size := λ _ _ _, "20px"; element_text := λ _ _, "[object HTMLElement]" |}.
Definition sample_object : collapse := MkCollapse 0 false [1%nat] (Some "#menu") "" None.
Definition sample_page (cls : list string) : bpage collapse kont :=
  BPage {[ 1%nat := Elem "a" "" ["collapsed"] {[ "data-toggle" := "collapse"; "href" := "#menu" ]} ∅ None [];
           2%nat := Elem "div" "menu" cls ∅ ∅ None [] ]} [] [] {[ 2%nat := sample_object ]} 1.

Lemma collapse_show_witness :
  let p := sample_page ["collapse"] in
  let p2 := (fire (resume (B:=plain_browser)) 2%nat TRANSITION_END
               (show (B:=plain_browser) (Z:=plain_sizes) (λ _ _, no_options) 2%nat p).1).1 in
  Dom.hasClass (pdoc p2) 2 "show" = true ∧ Dom.hasClass (pdoc p2) 2 "collapse" = true ∧
  Dom.hasClass (pdoc p2) 2 "collapsing" = false ∧
  (∀ t, t ∈ _triggerArray sample_object → is_Some (pdoc p !! t) → expanded (pdoc p2) t) ∧
  pdata p2 !! 2%nat = Some sample_object ∧
  plog p2 = plog p ++ [Ev 2 "show.bs.collapse" []; Ev 2 "shown.bs.collapse" []].
Proof.
  intros p. apply (collapse_show (B:=plain_browser) (Z:=plain_sizes) (λ _ _, no_options) 2 sample_object p);
    try reflexivity. by eexists.
Defined.

Lemma collapse_hide_witness :
  let p := sample_page ["collapse"; "show"] in
  let p2 := (fire (resume (B:=plain_browser)) 2%nat TRANSITION_END
               (hide (B:=plain_browser) (Z:=plain_sizes) 2%nat p).1).1 in
  Dom.hasClass (pdoc p2) 2 "show" = false ∧ Dom.hasClass (pdoc p2) 2 "collapse" = true ∧
  Dom.hasClass (pdoc p2) 2 "collapsing" = false ∧ pdata p2 !! 2%nat = Some sample_object ∧
  plog p2 = plog p ++ [Ev 2 "hide.bs.collapse" []; Ev 2 "hidden.bs.collapse" []].
Proof.
  intros p. apply (collapse_hide (B:=plain_browser) (Z:=plain_sizes) 2 sample_object p);
    try reflexivity. by eexists.
Defined.

End Collapse.
