(* ===== verification/Accordion.v ===== *)
(** * Accordions

    Collapsible elements with a common parent: opening one closes the others.
    An element is at rest, or moves towards its goal, open or closed; the
    transitions of the elements may end in any order. *)

From S2P Require Import Prelude Dom Bs Collapse.
Local Open Scope string_scope.
Local Open Scope list_scope.

Module Accordion.
Import Collapse.

Section accordion.
Context `{B : Browser, Z : Sizes}.
Hypothesis calm : ∀ d n e, prevents d n e = false.
Abbreviation page := (bpage collapse kont).

(** ** The state of one element *)

(** The classes a collapsible element lives by. *)
Definition phases : list string := ["show"; "collapse"; "collapsing"].
(** Nothing has happened to [n]. *)
Record untouched (n : nid) (p p' : page) : Prop := {
  u_data : pdata p' !! n = pdata p !! n;
  u_wait : waiting n TRANSITION_END p' = waiting n TRANSITION_END p;
  u_present : is_Some (pdoc p' !! n) ↔ is_Some (pdoc p !! n);
  u_class : ∀ c, c ∈ phases → Dom.hasClass (pdoc p') n c = Dom.hasClass (pdoc p) n c
}.
#[local] Instance untouched_preorder n : PreOrder (untouched n).
Proof.
  split; [done|]. intros p1 p2 p3 [A1 A2 A3 A4] [C1 C2 C3 C4].
  split; [by rewrite C1|by rewrite C2|by rewrite C3|]. intros c Hc. by rewrite C4, A4.
Qed.

Record rest (open : bool) (n : nid) (c : collapse) (p : page) : Prop := {
  r_data : pdata p !! n = Some c;
  r_still : _isTransitioning c = false;
  r_present : is_Some (pdoc p !! n);
  r_show : Dom.hasClass (pdoc p) n "show" = open;
  r_collapse : Dom.hasClass (pdoc p) n "collapse" = true;
  r_collapsing : Dom.hasClass (pdoc p) n "collapsing" = false;
  r_wait : waiting n TRANSITION_END p = []
}.
(** On the way to being open or closed. *)
Definition is_end (open : bool) (n : nid) (c : collapse) (k : kont) : Prop :=
  if open then ∃ dim, k = ShowComplete (uid c) n dim else k = HideComplete (uid c) n.
Record moving (open : bool) (n : nid) (c : collapse) (p : page) : Prop := {
  m_data : pdata p !! n = Some (with_transitioning true c);
  m_still : _isTransitioning c = false;
  m_present : is_Some (pdoc p !! n);
  m_show : Dom.hasClass (pdoc p) n "show" = false;
  m_wait : ∃ k, waiting n TRANSITION_END p = [k] ∧ is_end open n c k
}.
Definition settling (open : bool) (n : nid) (c : collapse) (p : page) : Prop := rest open n c p ∨ moving open n c p.

Lemma rest_untouched b n c p p' : untouched n p p' → rest b n c p → rest b n c p'.
Proof.
  intros [A1 A2 A3 A4] [H1 H2 H3 H4 H5 H6 H7].
  split; rewrite ?A1, ?A2, ?A4 by set_solver; try done. by apply A3.
Qed.
Lemma settling_untouched b n c p p' : untouched n p p' → settling b n c p → settling b n c p'.
Proof.
  intros Hu [H|[H1 H2 H3 H4 H5]]; [left; by eapply rest_untouched|right]. destruct Hu as [A1 A2 A3 A4].
  split; rewrite ?A1, ?A2, ?A4 by set_solver; try done. by apply A3.
Qed.

(** ** Documents *)

(** The changes of phase at an element, and the marking of triggers. *)
Definition marks (f : dom → dom) : Prop := ∀ d n,
  (is_Some (f d !! n) ↔ is_Some (d !! n)) ∧ ∀ c, c ∈ phases → Dom.hasClass (f d) n c = Dom.hasClass d n c.
Lemma marks_css p v n : marks (Dom.css p v n).
Proof. intros d m. split; [by rewrite Dom.present_css|]. intros. by rewrite Dom.hasClass_css. Qed.
Lemma marks_each f ns : (∀ n, marks (f n)) → marks (Dom.each f ns).
Proof.
  intros Hf d m. split; [apply Dom.each_present; intros; apply Hf|]. intros c Hc.
  apply Dom.each_hasClass. intros. by apply Hf.
Qed.
Lemma marks_trigger t : marks (mark_trigger t).
Proof. intros d m. split; [apply mark_trigger_present|]. intros c Hc. apply mark_trigger_class. set_solver. Qed.
Lemma marks_collapsed n : marks (Dom.removeClass "collapsed" n).
Proof.
  intros d m. split; [by rewrite Dom.present_removeClass|]. intros c Hc. apply Dom.hasClass_remove_other. right. set_solver.
Qed.
Lemma marks_expanded v n : marks (Dom.setAttribute "aria-expanded" v n).
Proof. intros d m. split; [by rewrite Dom.present_setAttribute|]. intros. by rewrite Dom.hasClass_setAttribute. Qed.

(** Documents that differ at [n] only. *)
Definition near (n : nid) (d d' : dom) : Prop := ∀ m,
  (is_Some (d' !! m) ↔ is_Some (d !! m)) ∧ (m ≠ n → ∀ c, c ∈ phases → Dom.hasClass d' m c = Dom.hasClass d m c).
#[local] Instance near_preorder n : PreOrder (near n).
Proof.
  split; [done|]. intros d1 d2 d3 H1 H2 m. destruct (H1 m) as [A1 A2], (H2 m) as [C1 C2].
  split; [by rewrite C1|]. intros Hm c Hc. by rewrite C2, A2.
Qed.
Lemma near_marks n f d : marks f → near n d (f d).
Proof. intros Hf m. split; [apply Hf|]. intros _ c Hc. by apply Hf. Qed.
Lemma near_add c n d : near n d (Dom.addClass c n d).
Proof. intros m. split; [apply Dom.present_addClass|]. intros Hm x _. apply Dom.hasClass_add_other. left. congruence. Qed.
Lemma near_remove c n d : near n d (Dom.removeClass c n d).
Proof. intros m. split; [apply Dom.present_removeClass|]. intros Hm x _. apply Dom.hasClass_remove_other. left. congruence. Qed.

Lemma near_closing c n dim d : near n d (closing c n dim d).
Proof.
  unfold closing. repeat first [etrans; [|apply near_marks, marks_css]|etrans; [|apply near_remove]|etrans; [|apply near_add]
    |etrans; [|apply near_marks, marks_each, marks_trigger]]. done.
Qed.
Lemma near_opening c n dim d : near n d (opening c n dim d).
Proof.
  unfold opening. repeat first [etrans; [|apply near_marks, marks_css]|etrans; [|apply near_remove]|etrans; [|apply near_add]
    |etrans; [|apply near_marks, marks_each, marks_collapsed]|etrans; [|apply near_marks, marks_each, marks_expanded]]. done.
Qed.

(** The page after a step at [n]. *)
Lemma untouched_near n m (p p' : page) :
  m ≠ n → near n (pdoc p) (pdoc p') → pdata p' !! m = pdata p !! m →
  waiting m TRANSITION_END p' = waiting m TRANSITION_END p → untouched m p p'.
Proof. intros Hm Hn Hd Hw. destruct (Hn m) as [H1 H2]. split; auto. Qed.

(** ** Hiding *)

Definition begun (c : collapse) (n : nid) (d : dom) (e : string) (p : page) : page :=
  BPage d (plog p ++ [Ev n e []]) (pwait p)
    (alter (λ x, if decide (uid x = uid c) then with_transitioning true x else x) n (pdata p)) (pfresh p).

Lemma transitioning_data b n (c : collapse) (m : gmap nid collapse) :
  m !! n = Some c → alter (λ x, if decide (uid x = uid c) then with_transitioning b x else x) n m !! n =
    Some (with_transitioning b c).
Proof. intros H. rewrite lookup_alter_eq, H. simpl. by destruct (decide (uid c = uid c)). Qed.
Lemma with_rest c : _isTransitioning c = false → with_transitioning false (with_transitioning true c) = c.
Proof. intros H. destruct c; simpl in *; by subst. Qed.

(** The end of hiding. *)
Lemma hide_end n c p :
  pdata p !! n = Some (with_transitioning true c) → _isTransitioning c = false → is_Some (pdoc p !! n) →
  Dom.hasClass (pdoc p) n "show" = false → waiting n TRANSITION_END p = [] →
  let p' := (hide_complete (uid c) n p).1 in rest false n c p' ∧ ∀ m, m ≠ n → untouched m p p'.
Proof.
  intros Hd Ht Hp Hs Hw p'. subst p'. rewrite hide_complete_effect.
  destruct (closed_classes n (pdoc p)) as (H1 & H2 & H3); [done|done|]. split.
  - split; cbn [pdata pdoc]; try done.
    + change (uid c) with (uid (with_transitioning true c)). rewrite (transitioning_data false n _ _ Hd). f_equal. by apply with_rest.
    + by rewrite Dom.present_addClass, Dom.present_removeClass.
  - intros m Hm. apply (untouched_near n); [done| |cbn; by rewrite lookup_alter_ne|done]. cbn [pdoc].
    etrans; [apply near_remove|apply near_add].
Qed.

Lemma hide_panel_run n c p : rest true n c p →
  ∃ p', hide n p = (p', Ret ()) ∧ settling false n c p' ∧ ∀ m, m ≠ n → untouched m p p'.
Proof.
  intros [H1 H2 H3 H4 H5 H6 H7]. set (q := begun c n (closing c n (_getDimension (pdoc p) n) (pdoc p)) "hide.bs.collapse" p).
  assert (E : hide n p = if supportsTransitionEnd then (add_wait n TRANSITION_END (HideComplete (uid c) n) q, Ret ())
    else hide_complete (uid c) n q).
  { unfold hide, this, mbind at 1, jsM_bind at 1. rewrite H1. unfold id. run. rewrite H2, H4. run. rewrite calm. run.
    by destruct supportsTransitionEnd. }
  assert (Hq : ∀ m, m ≠ n → untouched m p q).
  { intros m Hm. apply (untouched_near n); [done|apply near_closing|cbn; by rewrite lookup_alter_ne|done]. }
  assert (Hd : pdata q !! n = Some (with_transitioning true c)) by by apply transitioning_data.
  assert (Hp : is_Some (pdoc q !! n)) by by apply closing_present.
  assert (Hs : Dom.hasClass (pdoc q) n "show" = false) by apply closing_classes.
  rewrite E. destruct supportsTransitionEnd.
  - eexists. split; [reflexivity|]. split.
    + right. split; [exact Hd|done|exact Hp|exact Hs|]. exists (HideComplete (uid c) n). split; [|done].
      rewrite waiting_add, bool_decide_true by done. change (waiting n TRANSITION_END q) with (waiting n TRANSITION_END p). by rewrite H7.
    + intros m Hm. etrans; [by apply Hq|]. split; [done| |done|done]. rewrite waiting_add, bool_decide_false by naive_solver.
      by rewrite app_nil_r.
  - destruct (hide_end n c q Hd H2 Hp Hs H7) as [Hr Hu]. eexists. split; [apply surjective_pairing|].
    split; [left; exact Hr|]. intros m Hm. etrans; [by apply Hq|by apply Hu].
Qed.

(** ** Showing *)

Lemma opening_show c n dim d m : Dom.hasClass (opening c n dim d) m "show" = Dom.hasClass d m "show".
Proof.
  unfold opening.
  rewrite (proj2 (marks_each _ _ (marks_expanded "true") _ m)) by set_solver.
  rewrite (proj2 (marks_each _ _ marks_collapsed _ m)) by set_solver.
  by rewrite Dom.hasClass_css, Dom.hasClass_add_other, Dom.hasClass_remove_other by (by right).
Qed.
Lemma show_end n c dim p :
  pdata p !! n = Some (with_transitioning true c) → _isTransitioning c = false → is_Some (pdoc p !! n) →
  waiting n TRANSITION_END p = [] →
  let p' := (show_complete (uid c) n dim p).1 in rest true n c p' ∧ ∀ m, m ≠ n → untouched m p p'.
Proof.
  intros Hd Ht Hp Hw p'. subst p'. rewrite show_complete_effect.
  destruct (opened_classes n dim (pdoc p)) as (H1 & H2 & H3); [done|]. split.
  - split; cbn [pdata pdoc]; try done.
    + change (uid c) with (uid (with_transitioning true c)). rewrite (transitioning_data false n _ _ Hd). f_equal. by apply with_rest.
    + unfold opened. by rewrite Dom.present_css, !Dom.present_addClass, Dom.present_removeClass.
  - intros m Hm. apply (untouched_near n); [done| |cbn; by rewrite lookup_alter_ne|done]. cbn [pdoc]. unfold opened.
    etrans; [|apply near_marks, marks_css]. etrans; [apply near_remove|]. etrans; apply near_add.
Qed.

Lemma start_show_run n c p : rest false n c p →
  ∃ p', start_show c n p = (p', Ret ()) ∧ settling true n c p' ∧ ∀ m, m ≠ n → untouched m p p'.
Proof.
  intros [H1 H2 H3 H4 H5 H6 H7]. set (dim := _getDimension (pdoc p) n). set (d1 := opening c n dim (pdoc p)).
  set (q := BPage d1 (plog p) (pwait p)
    (alter (λ x, if decide (uid x = uid c) then with_transitioning true x else x) n (pdata p)) (pfresh p)).
  assert (E : start_show c n p = if supportsTransitionEnd
    then (on_doc (Dom.css dim (scroll_size d1 n dim) n) (add_wait n TRANSITION_END (ShowComplete (uid c) n dim) q), Ret ())
    else show_complete (uid c) n dim q) by (unfold start_show; run; by destruct supportsTransitionEnd).
  assert (Hq : ∀ m, m ≠ n → untouched m p q).
  { intros m Hm. apply (untouched_near n); [done|apply near_opening|cbn; by rewrite lookup_alter_ne|done]. }
  assert (Hd : pdata q !! n = Some (with_transitioning true c)) by by apply transitioning_data.
  assert (Hp : is_Some (pdoc q !! n)) by by apply opening_present.
  rewrite E. destruct supportsTransitionEnd.
  - eexists. split; [reflexivity|]. split.
    + right. split; [exact Hd|done|cbn; by rewrite Dom.present_css| |].
      * cbn. rewrite Dom.hasClass_css. unfold d1. by rewrite opening_show.
      * exists (ShowComplete (uid c) n dim). split; [|by eexists].
        change (waiting n TRANSITION_END (add_wait n TRANSITION_END (ShowComplete (uid c) n dim) q) = [ShowComplete (uid c) n dim]).
        rewrite waiting_add, bool_decide_true by done. change (waiting n TRANSITION_END q) with (waiting n TRANSITION_END p). by rewrite H7.
    + intros m Hm. etrans; [by apply Hq|]. apply (untouched_near n); [done|apply near_marks, marks_css|done|].
      change (waiting m TRANSITION_END (add_wait n TRANSITION_END (ShowComplete (uid c) n dim) q) = waiting m TRANSITION_END q).
      rewrite waiting_add, bool_decide_false by naive_solver. by rewrite app_nil_r.
  - destruct (show_end n c dim q Hd H2 Hp H7) as [Hr Hu]. eexists. split; [apply surjective_pairing|].
    split; [left; exact Hr|]. intros m Hm. etrans; [by apply Hq|by apply Hu].
Qed.

(** ** The end of a transition *)

Lemma waiting_drop_other {D K} n m e (p : bpage D K) : m ≠ n → waiting m e (drop_wait n e p) = waiting m e p.
Proof.
  intros Hm. unfold waiting, drop_wait; simpl. rewrite list_filter_filter. f_equal. apply list_filter_iff.
  intros [[k e'] x]. naive_solver.
Qed.
Lemma drop_untouched n m (p : page) : m ≠ n → untouched m p (drop_wait n TRANSITION_END p).
Proof. intros Hm. split; [done|by apply waiting_drop_other|done|done]. Qed.

Lemma fire_settles b n c p : settling b n c p →
  let p' := (fire resume n TRANSITION_END p).1 in rest b n c p' ∧ ∀ m, m ≠ n → untouched m p p'.
Proof.
  intros [Hr|[H1 H2 H3 H4 (k & H5 & Hk)]] p'; subst p'.
  - rewrite fire_none by apply Hr. split; [|intros m Hm; by apply drop_untouched].
    eapply rest_untouched; [|exact Hr]. split; [done| |done|done]. by rewrite waiting_drop, (r_wait _ _ _ _ Hr).
  - rewrite (fire_single _ _ _ k) by done. set (q := drop_wait n TRANSITION_END p).
    assert (Hw : waiting n TRANSITION_END q = []) by apply waiting_drop.
    assert (∃ r, (resume k q).1 = r ∧ rest b n c r ∧ ∀ m, m ≠ n → untouched m q r) as (r & -> & Hr & Hu).
    { eexists. split; [reflexivity|]. destruct b; simpl in Hk.
      - destruct Hk as [dim ->]. by apply show_end.
      - subst k. by apply hide_end. }
    split; [done|]. intros m Hm. etrans; [by apply drop_untouched|by apply Hu].
Qed.

Definition finish (p : page) (n : nid) : page := (fire resume n TRANSITION_END p).1.
Lemma finish_all l p :
  (∀ m, m ∈ l → ∃ b c, settling b m c p) →
  (∀ b n c, settling b n c p → n ∈ l → rest b n c (foldl finish p l)) ∧
  ∀ m, m ∉ l → untouched m p (foldl finish p l).
Proof.
  revert p; induction l as [|x l IH]; intros p Hl; [split; [by intros b n c _ H%elem_of_nil|done]|].
  destruct (Hl x) as (bx & cx & Hx); [by left|]. destruct (fire_settles bx x cx p Hx) as [Hrx Hu]. fold (finish p x) in Hrx, Hu.
  assert (Hs : ∀ b n c, settling b n c p → settling b n c (finish p x)).
  { intros b n c Hn. destruct (decide (n = x)) as [->|Hne]; [|by eapply settling_untouched; [apply Hu|]].
    left. by destruct (fire_settles b x c p Hn). }
  destruct (IH (finish p x)) as [IH1 IH2].
  { intros m Hm. destruct (Hl m) as (b & c & H); [by right|]. exists b, c. auto. }
  cbn [foldl]. split.
  - intros b n c Hn Hin. destruct (decide (n ∈ l)) as [Hl'|Hl']; [by apply IH1; [apply Hs|]|].
    assert (n = x) as -> by set_solver. eapply rest_untouched; [by apply IH2|]. by destruct (fire_settles b x c p Hn).
  - intros m Hm. etrans; [apply Hu; set_solver|apply IH2; set_solver].
Qed.

Lemma hide_all dp acts p :
  NoDup acts → (∀ n, n ∈ acts → ∃ c, rest true n c p) →
  ∃ p', hide_interface dp acts p = (p', Ret ()) ∧
    (∀ n c, n ∈ acts → rest true n c p → settling false n c p') ∧ ∀ m, m ∉ acts → untouched m p p'.
Proof.
  unfold hide_interface. revert p; induction acts as [|x acts IH]; intros p Hd Ha.
  { exists p. split; [done|]. split; [by intros n c H%elem_of_nil|done]. }
  apply NoDup_cons in Hd as [Hx Hd]. destruct (Ha x) as [cx Hcx]; [by left|].
  destruct (hide_panel_run x cx p Hcx) as (p1 & E1 & Hs1 & Hu1). destruct (IH p1 Hd) as (p2 & E2 & Hs2 & Hu2).
  { intros n Hn. destruct (Ha n) as [c Hc]; [by right|]. exists c. eapply rest_untouched; [|exact Hc]. apply Hu1. set_solver. }
  exists p2. cbn [meach]. split.
  { erewrite bind_ret; [exact E2|]. erewrite bind_ret by reflexivity. rewrite bool_decide_true by (by rewrite (r_data _ _ _ _ Hcx)).
    erewrite bind_ret by reflexivity. exact E1. }
  split.
  - intros n c [->|Hn]%elem_of_cons Hc.
    + assert (c = cx) as -> by (pose proof (r_data _ _ _ _ Hc); pose proof (r_data _ _ _ _ Hcx); congruence).
      by eapply settling_untouched; [apply Hu2|].
    + apply Hs2; [done|]. eapply rest_untouched; [|exact Hc]. apply Hu1. set_solver.
  - intros m Hm. etrans; [apply Hu1; set_solver|apply Hu2; set_solver].
Qed.

(** C25. In an accordion, showing a closed element closes all that are open: when
    the transitions have ended, in whatever order, the element is open, the ones
    that were open are closed, all of them at rest, and every other element is as
    it was. *)
Theorem accordion_exclusive dp el c p l :
  let acts := actives c (pdoc p) in
  rest false el c p → NoDup acts → (∀ n, n ∈ acts → ∃ cn, rest true n cn p) → others c (pdoc p) acts = acts →
  (∀ n, n ∈ l ↔ n = el ∨ n ∈ acts) →
  let p' := foldl finish (show dp el p).1 l in
  rest true el c p' ∧ (∀ n cn, n ∈ acts → rest true n cn p → rest false n cn p') ∧
  ∀ m, m ≠ el → m ∉ acts → untouched m p p'.
Proof.
  intros acts Hel Hd Ha Ho Hl p'. pose proof Hel as [H1 H2 H3 H4 H5 H6 H7].
  set (p1 := add_log (Ev el "show.bs.collapse" []) p). assert (Hu1 : ∀ m, untouched m p p1) by done.
  assert (Hne : el ∉ acts). { intros Hin. destruct (Ha el Hin) as [cn Hn]. pose proof (r_show _ _ _ _ Hn). congruence. }
  destruct (hide_all dp acts p1 Hd) as (p2 & E2 & Hs2 & Hu2).
  { intros n Hn. destruct (Ha n Hn) as [cn Hcn]. exists cn. eapply rest_untouched; [apply Hu1|done]. }
  destruct (start_show_run el c p2) as (p3 & E3 & Hs3 & Hu3).
  { eapply rest_untouched; [|exact Hel]. etrans; [apply Hu1|by apply Hu2]. }
  assert (E : (show dp el p).1 = p3).
  { unfold show, this, mbind at 1, jsM_bind at 1. rewrite H1. unfold id. run. rewrite H2, H4. cbn [orb]. run.
    fold acts. rewrite Ho. destruct acts as [|a acts'] eqn:Ea.
    - run. rewrite calm. cbn [pdoc]. rewrite Ho. change (BPage (pdoc p) _ _ _ _) with p1. rewrite E2.
      rewrite bool_decide_false by naive_solver. by rewrite E3.
    - destruct (Ha a) as [ca Hca]; [by left|]. cbn [head option_bind]. rewrite (r_data _ _ _ _ Hca), (r_still _ _ _ _ Hca). run.
      rewrite calm. cbn [pdoc]. rewrite Ho. change (BPage (pdoc p) _ _ _ _) with p1. rewrite E2.
      rewrite bool_decide_false by naive_solver. by rewrite E3. }
  assert (Hg : ∀ n cn, n ∈ acts → rest true n cn p → settling false n cn p3).
  { intros n cn Hn Hcn. eapply settling_untouched; [apply Hu3; set_solver|]. apply Hs2; [done|]. eapply rest_untouched; [apply Hu1|done]. }
  destruct (finish_all l p3) as [F1 F2].
  { intros m [->|Hm]%Hl; [by exists true, c|]. destruct (Ha m Hm) as [cm Hcm]. exists false, cm. auto. }
  subst p'. rewrite E. split; [apply F1; [done|apply Hl; by left]|]. split.
  - intros n cn Hn Hcn. apply F1; [auto|apply Hl; by right].
  - intros m Hm1 Hm2. etrans; [apply Hu1|]. etrans; [by apply Hu2|]. etrans; [by apply Hu3|]. apply F2. rewrite Hl. naive_solver.
Qed.

End accordion.

(** ** Three elements, the first one open *)

Definition panel (cls : list string) : elem :=
  Elem "div" "" cls {[ "data-parent" := "#acc" ]} ∅ (Some 1%nat) [].
Definition sample_panel (id : nat) : collapse := MkCollapse id false [] None "#acc" (Some 1%nat).
Definition sample_accordion : bpage collapse kont :=
  BPage {[ 1%nat := Elem "div" "acc" [] ∅ ∅ None [2; 3; 4]%nat;
           2%nat := panel ["collapse"; "show"]; 3%nat := panel ["collapse"]; 4%nat := panel ["collapse"] ]}
    [] [] {[ 2%nat := sample_panel 0; 3%nat := sample_panel 1; 4%nat := sample_panel 2 ]} 3.

Lemma accordion_exclusive_witness :
  let p' := foldl (finish (B:=plain_browser)) (show (B:=plain_browser) (Z:=plain_sizes) (λ _ _, no_options) 3 sample_accordion).1 [3; 2]%nat in
  rest true 3 (sample_panel 1) p' ∧ rest false 2 (sample_panel 0) p' ∧ untouched 4 sample_accordion p'.
Proof.
  destruct (accordion_exclusive (B:=plain_browser) (Z:=plain_sizes) ltac:(done) (λ _ _, no_options) 3 (sample_panel 1)
    sample_accordion [3; 2]%nat) as (H1 & H2 & H3).
  - split; first [by eexists|reflexivity].
  - apply (bool_decide_unpack _). vm_compute. exact I.
  - assert (E : actives (sample_panel 1) (pdoc sample_accordion) = [2%nat]) by (vm_compute; reflexivity).
    rewrite E. intros n ->%list_elem_of_singleton. exists (sample_panel 0). split; first [by eexists|reflexivity].
  - reflexivity.
  - assert (E : actives (sample_panel 1) (pdoc sample_accordion) = [2%nat]) by (vm_compute; reflexivity).
    rewrite E. intros n. set_solver.
  - split; [exact H1|]. split; [apply H2|apply H3].
    + vm_compute. by left.
    + split; first [by eexists|reflexivity].
    + done.
    + apply (bool_decide_unpack _). vm_compute. exact I.
Defined.

End Accordion.
