(* ===== verification/Modal.v ===== *)
(** * Modal, bootstrap.js lines 1870 to 2437

    A modal dialog with its backdrop: showing and hiding go through up to two
    transitions each (the backdrop's and the dialog's).  While a modal is
    open, the page is kept from scrolling and the width of the scroll bar is
    made up for with paddings, which are put back afterwards. *)

From stdpp Require Import pretty.
From S2P Require Import Prelude Dom Bs.
Local Open Scope string_scope.
Local Open Scope list_scope.

(** What the code measures, in whole pixels. *)
Class ModalLayout := {
  body : nid;
  modal_overflows : dom → nid → bool;          (* line 2259 *)
  body_overflows : dom → bool;                 (* line 2277 *)
  scrollbar_width : dom → Z;                   (* lines 2337 to 2345 *)
  computed_px : dom → nid → string → Z;        (* [parseFloat($(el).css(p))] *)
  modal_data : dom → nid → gmap string Util.optval   (* [$(el).data()] *)
}.

Module Modal.

Definition px (z : Z) : string := pretty z +:+ "px".

Record options := Options { o_backdrop : Util.optval; o_keyboard : bool; o_focus : bool }.

(** Lines 1886 to 1897. *)
Abbreviation config := (gmap string Util.optval).
Definition Default : config :=
  list_to_map [("backdrop", Util.OBool true); ("keyboard", Util.OBool true); ("focus", Util.OBool true);
    ("show", Util.OBool true)].
Definition DefaultType : list (string * list string) :=
  [("backdrop", ["boolean"; "string"]); ("keyboard", ["boolean"]); ("focus", ["boolean"]); ("show", ["boolean"])].

Definition flag (c : config) (k : string) : bool := match c !! k with Some (Util.OBool b) => b | _ => false end.
(** Lines 2067 to 2071: the options, as the methods read them. *)
Definition _getConfig (c : config) : outcome options :=
  let c := c ∪ Default in
  match Util.typeCheckConfig "modal" c DefaultType with
  | Throw e => Throw e
  | Ret _ => Ret (Options (default Util.OUndefined (c !! "backdrop")) (flag c "keyboard") (flag c "focus"))
  end.

Record modal := MkModal {
  _config : options;
  _dialog : option nid;
  _backdrop : option nid;
  _isShown : bool;
  _isTransitioning : bool;
  _isBodyOverflowing : bool;
  _ignoreBackdropClick : bool;
  _scrollbarWidth : Z;
  handlers : list string           (* installed event handlers *)
}.

Inductive kont :=
  | ShowElement (el : nid) (related : option nid)
  | ShownComplete (el : nid) (related : option nid)
  | HideModal (el : nid)
  | RemoveBackdrop (el : nid).
Abbreviation modM := (bsM modal kont).

Section modal.
Context `{B : Browser, L : ModalLayout}.

Definition this {A} (el : nid) (f : modal → A) : modM A := λ p,
  match pdata p !! el with Some c => (p, Ret (f c)) | None => (p, Throw TypeError) end.
Definition upd (f : modal → modal) (el : nid) : modM () :=
  mupdate (λ p, BPage (pdoc p) (plog p) (pwait p) (alter f el (pdata p)) (pfresh p)).

Definition set_backdrop (b : option nid) (m : modal) : modal :=
  MkModal (_config m) (_dialog m) b (_isShown m) (_isTransitioning m) (_isBodyOverflowing m)
    (_ignoreBackdropClick m) (_scrollbarWidth m) (handlers m).
Definition set_shown (b : bool) (m : modal) : modal :=
  MkModal (_config m) (_dialog m) (_backdrop m) b (_isTransitioning m) (_isBodyOverflowing m)
    (_ignoreBackdropClick m) (_scrollbarWidth m) (handlers m).
Definition set_transitioning (b : bool) (m : modal) : modal :=
  MkModal (_config m) (_dialog m) (_backdrop m) (_isShown m) b (_isBodyOverflowing m)
    (_ignoreBackdropClick m) (_scrollbarWidth m) (handlers m).
Definition set_scrollbar (o : bool) (w : Z) (m : modal) : modal :=
  MkModal (_config m) (_dialog m) (_backdrop m) (_isShown m) (_isTransitioning m) o
    (_ignoreBackdropClick m) w (handlers m).
Definition set_ignore (b : bool) (m : modal) : modal :=
  MkModal (_config m) (_dialog m) (_backdrop m) (_isShown m) (_isTransitioning m) (_isBodyOverflowing m)
    b (_scrollbarWidth m) (handlers m).
Definition on (h : string) (m : modal) : modal :=
  MkModal (_config m) (_dialog m) (_backdrop m) (_isShown m) (_isTransitioning m) (_isBodyOverflowing m)
    (_ignoreBackdropClick m) (_scrollbarWidth m) (handlers m ++ [h]).
Definition off (h : string) (m : modal) : modal :=
  MkModal (_config m) (_dialog m) (_backdrop m) (_isShown m) (_isTransitioning m) (_isBodyOverflowing m)
    (_ignoreBackdropClick m) (_scrollbarWidth m) (filter (λ x, x ≠ h) (handlers m)).

(** ** The scroll bar, lines 2258 to 2335 *)

(** Lines 2258 to 2273. *)
Definition _adjustDialog (m : modal) (el : nid) (d : dom) : dom :=
  let over := modal_overflows d el in
  let d := if negb (_isBodyOverflowing m) && over
           then Dom.css "padding-left" (px (_scrollbarWidth m)) el d else d in
  if _isBodyOverflowing m && negb over then Dom.css "padding-right" (px (_scrollbarWidth m)) el d else d.
Definition _resetAdjustments (el : nid) (d : dom) : dom :=
  Dom.css "padding-right" "" el (Dom.css "padding-left" "" el d).

(** Lines 2275 to 2279. *)
Definition _checkScrollbar (el : nid) : modM () :=
  o ← mget (λ p, body_overflows (pdoc p));
  w ← mget (λ p, scrollbar_width (pdoc p));
  upd (set_scrollbar o w) el.

Definition FIXED_CONTENT : Dom.selector :=
  Dom.sel_or (Dom.sel_or (Dom.sel_class "fixed-top") (Dom.sel_class "fixed-bottom"))
    (Dom.sel_or (Dom.sel_class "is-fixed") (Dom.sel_class "sticky-top")).
Definition STICKY_CONTENT : Dom.selector := Dom.sel_class "sticky-top".
Definition NAVBAR_TOGGLER : Dom.selector := Dom.sel_class "navbar-toggler".
Definition select (P : Dom.selector) (d : dom) : list nid := Dom.query (all_nodes d) P d.

(** [$(el).data(p, v)]: the saved value is kept under a name that is no
    attribute. *)
Definition data_key (p : string) : string := ":data-" +:+ p.

(** Save the inline value of property [p] and set it to the computed one plus
    [w] pixels. *)
Definition save_and_set (p : string) (w : Z) (n : nid) (d : dom) : dom :=
  let actual := default "" (Dom.getStyle d n p) in
  let calculated := computed_px d n p in
  Dom.css p (px (calculated + w)) n (Dom.setAttribute (data_key p) actual n d).
Definition restore (p : string) (n : nid) (d : dom) : dom :=
  match Dom.getAttribute d n (data_key p) with
  | Some v => Dom.removeAttribute (data_key p) n (Dom.css p v n d)
  | None => d
  end.

(** Lines 2281 to 2310. *)
Definition _setScrollbar (m : modal) (d : dom) : dom :=
  if _isBodyOverflowing m then
    let w := _scrollbarWidth m in
    let d := Dom.each (save_and_set "padding-right" w) (select FIXED_CONTENT d) d in
    let d := Dom.each (save_and_set "margin-right" (- w)) (select STICKY_CONTENT d) d in
    let d := Dom.each (save_and_set "margin-right" w) (select NAVBAR_TOGGLER d) d in
    save_and_set "padding-right" w body d
  else d.

(** Lines 2312 to 2335. *)
Definition _resetScrollbar (d : dom) : dom :=
  let d := Dom.each (restore "padding-right") (select FIXED_CONTENT d) d in
  let d := Dom.each (restore "margin-right") (select (Dom.sel_or STICKY_CONTENT NAVBAR_TOGGLER) d) d in
  restore "padding-right" body d.

(** ** Showing and hiding *)

Definition fades (el : nid) : modM bool :=
  mget (λ p, supportsTransitionEnd && Dom.hasClass (pdoc p) el "fade").

(** Lines 2130 to 2156. *)
Definition _setEscapeEvent (el : nid) : modM () :=
  m ← this el id;
  if _isShown m then mguard (o_keyboard (_config m)) (upd (on "keydown.dismiss") el)
  else upd (off "keydown.dismiss") el.
Definition _setResizeEvent (el : nid) : modM () :=
  m ← this el id;
  if _isShown m then upd (on "resize") el else upd (off "resize") el.

(** Lines 2119 to 2128. *)
Definition _enforceFocus (el : nid) : modM () :=
  _ ← upd (off "focusin") el;
  upd (on "focusin") el.

(** Lines 2103 to 2110. *)
Definition transitionComplete (el : nid) (related : option nid) : modM () :=
  m ← this el id;
  _ ← (if o_focus (_config m) then trigger "focus" [] el else mret false);
  _ ← upd (set_transitioning false) el;
  _ ← trigger "shown.bs.modal" [("relatedTarget", ANode related)] el;
  mret ().

(** Lines 2073 to 2117; without a dialog nothing waits for its transition. *)
Definition _showElement (el : nid) (related : option nid) : modM () :=
  transition ← fades el;
  _ ← doc_op (λ d, match Dom.parent d el with Some _ => d | None => Dom.append body el d end);
  _ ← doc_op (λ d, Dom.removeAttribute "aria-hidden" el (Dom.css "display" "block" el d));
  _ ← doc_op (Dom.addClass "show" el);
  m ← this el id;
  _ ← mguard (o_focus (_config m)) (_enforceFocus el);
  if (transition : bool) then
    match _dialog m with
    | Some dlg => one dlg TRANSITION_END (ShownComplete el related)
    | None => mret ()
    end
  else transitionComplete el related.

(** Lines 2178 to 2183. *)
Definition _removeBackdrop (el : nid) : modM () :=
  b ← this el _backdrop;
  match b with
  | Some b => _ ← doc_op (Dom.remove b); upd (set_backdrop None) el
  | None => mret ()
  end.

(** Lines 2190 to 2232: the branch that shows the backdrop; the answer tells
    whether the callback runs at once, otherwise it waits on the backdrop. *)
Definition add_backdrop (el : nid) (k : kont) : modM bool :=
  fade ← mget (λ p, Dom.hasClass (pdoc p) el "fade");
  b ← mget (λ p, Dom.new_node (pdoc p));
  _ ← upd (set_backdrop (Some b)) el;
  _ ← doc_op (λ d, Dom.append body b
        (<[b := Elem "div" "" (["modal-backdrop"] ++ if (fade : bool) then ["fade"] else []) ∅ ∅ None []]> d));
  _ ← upd (on "click.dismiss") el;
  _ ← doc_op (Dom.addClass "show" b);
  if supportsTransitionEnd && fade then _ ← one b TRANSITION_END k; mret false else mret true.

(** Lines 2167 to 2175: the callback of hiding. *)
Definition hidden_callback (el : nid) : modM () :=
  _ ← doc_op (Dom.removeClass "modal-open" body);
  _ ← doc_op (_resetAdjustments el);
  _ ← doc_op _resetScrollbar;
  _ ← trigger "hidden.bs.modal" [] el;
  mret ().
Definition callbackRemove (el : nid) : modM () :=
  _ ← _removeBackdrop el;
  hidden_callback el.

(** Lines 2185 to 2252 with the callback of [show], and with that of
    [_hideModal]. *)
Definition _showBackdrop_show (el : nid) (related : option nid) : modM () :=
  m ← this el id;
  if _isShown m && match o_backdrop (_config m) with
                   | Util.OBool b => b | Util.OStr s => negb (bool_decide (s = "")) | _ => false end then
    now ← add_backdrop el (ShowElement el related);
    if (now : bool) then _showElement el related else mret ()
  else _showElement el related.
Definition _showBackdrop_hide (el : nid) : modM () :=
  m ← this el id;
  match _isShown m, _backdrop m with
  | false, Some b =>
      _ ← doc_op (Dom.removeClass "show" b);
      transition ← fades el;
      if (transition : bool) then one b TRANSITION_END (RemoveBackdrop el) else callbackRemove el
  | _, _ => hidden_callback el
  end.

(** Lines 2158 to 2176. *)
Definition _hideModal (el : nid) : modM () :=
  _ ← doc_op (λ d, Dom.setAttribute "aria-hidden" "true" el (Dom.css "display" "none" el d));
  _ ← upd (set_transitioning false) el;
  _showBackdrop_hide el.

(** Lines 1956 to 2004. *)
Definition show (el : nid) (related : option nid) : modM () :=
  m ← this el id;
  if _isTransitioning m || _isShown m then mret ()
  else
    transition ← fades el;
    _ ← mguard transition (upd (set_transitioning true) el);
    prevented ← trigger "show.bs.modal" [("relatedTarget", ANode related)] el;
    shown ← this el _isShown;
    if shown || prevented then mret ()
    else
      _ ← upd (set_shown true) el;
      _ ← _checkScrollbar el;
      m ← this el id;
      _ ← doc_op (_setScrollbar m);
      _ ← doc_op (_adjustDialog m el);
      _ ← doc_op (Dom.addClass "modal-open" body);
      _ ← _setEscapeEvent el;
      _ ← _setResizeEvent el;
      _ ← upd (on "click.dismiss") el;
      _ ← upd (on "mousedown.dismiss") el;
      _showBackdrop_show el related.

(** Lines 2006 to 2047. *)
Definition hide (el : nid) : modM () :=
  m ← this el id;
  if _isTransitioning m || negb (_isShown m) then mret ()
  else
    prevented ← trigger "hide.bs.modal" [] el;
    shown ← this el _isShown;
    if negb shown || prevented then mret ()
    else
      _ ← upd (set_shown false) el;
      transition ← fades el;
      _ ← mguard transition (upd (set_transitioning true) el);
      _ ← _setEscapeEvent el;
      _ ← _setResizeEvent el;
      _ ← upd (off "focusin") el;
      _ ← doc_op (Dom.removeClass "show" el);
      _ ← upd (off "click.dismiss") el;
      _ ← upd (off "mousedown.dismiss") el;
      if (transition : bool) then one el TRANSITION_END (HideModal el) else _hideModal el.

(** Lines 1952 to 1954, 2062 to 2064. *)
Definition toggle (el : nid) (related : option nid) : modM () :=
  shown ← this el _isShown;
  if (shown : bool) then hide el else show el related.
Definition handleUpdate (el : nid) : modM () :=
  m ← this el id;
  doc_op (_adjustDialog m el).

(** ** Handlers *)

(** Lines 1993 to 1999: the mouse goes down in the dialog and up on [target]. *)
Definition on_drag_out (el target : nid) : modM () :=
  mguard (bool_decide (target = el)) (upd (set_ignore true) el).
(** Lines 2134 to 2139. *)
Definition on_keydown (el : nid) (which : Z) : modM () := if (which =? 27)%Z then hide el else mret ().
(** Lines 2200 to 2215: a click on the modal around the dialog. *)
Definition on_backdrop_click (el target : nid) : modM () :=
  m ← this el id;
  if _ignoreBackdropClick m then upd (set_ignore false) el
  else if bool_decide (target ≠ el) then mret ()
  else if bool_decide (o_backdrop (_config m) = Util.OStr "static") then
    _ ← trigger "focus" [] el; mret ()
  else hide el.
(** Lines 2123 to 2127: focus leaves the modal. *)
Definition on_focusin (el : nid) (target : option nid) : modM () :=
  d ← mget pdoc;
  match target with
  | Some t => if bool_decide (t = el) || bool_decide (t ∈ Dom.descendants d el) then mret ()
              else _ ← trigger "focus" [] el; mret ()
  | None => mret ()
  end.

(** ** Construction and calls *)

(** Lines 1936 to 1946. *)
Definition construct (el : nid) (o : options) : modM () := λ p,
  (set_data el (MkModal o (head (Dom.find (Dom.sel_class "modal-dialog") (pdoc p) el)) None false false
     false false 0 []) p, Ret ()).

(** Lines 2049 to 2060: the object is taken off its element.  The listeners on
    the element itself stay, since the other arguments of the call on line 2051
    are not part of the collection. *)
Definition dispose (el : nid) : modM () := mupdate (drop_data el).

(** Lines 2348 to 2369; no method name means options. *)
Definition _jQueryInterface (given : config) (method : option string) (related : option nid) (el : nid) : modM () :=
  c ← mget (λ p, given ∪ modal_data (pdoc p) el ∪ Default);
  known ← mget (λ p, bool_decide (is_Some (pdata p !! el)));
  _ ← (if known : bool then mret ()
       else match _getConfig c with Ret o => construct el o | Throw e => mthrow e end);
  match method with
  | Some name =>
      if bool_decide (name = "toggle") then toggle el related
      else if bool_decide (name = "show") then show el related
      else if bool_decide (name = "hide") then hide el
      else if bool_decide (name = "handleUpdate") then handleUpdate el
      else if bool_decide (name = "dispose") then dispose el
      else mthrow TypeError
  | None => mguard (Util.truthy (default Util.OUndefined (c !! "show"))) (show el related)
  end.

(** Lines 2391 to 2401 and 2420: a click on a trigger. *)
Definition on_click (self : nid) : modM () :=
  target ← mget (λ p, Util.target_of (pdoc p) self);
  match target with
  | None => mret ()
  | Some t =>
      known ← mget (λ p, bool_decide (is_Some (pdata p !! t)));
      given ← mget (λ p, modal_data (pdoc p) self ∪ modal_data (pdoc p) t);
      if (known : bool) then _jQueryInterface ∅ (Some "toggle") (Some self) t
      else _jQueryInterface given None (Some self) t
  end.

Definition resume (k : kont) : modM () :=
  match k with
  | ShowElement el r => _showElement el r
  | ShownComplete el r => transitionComplete el r
  | HideModal el => _hideModal el
  | RemoveBackdrop el => callbackRemove el
  end.

(** ** A prevented show event *)

(** A modal that fades and whose show event a listener prevents keeps its
    transitioning flag although no transition runs: nothing waits that could
    clear it, and every later request to show or hide the modal is ignored. *)
Theorem prevented_show_blocks el related m p :
  pdata p !! el = Some m → _isTransitioning m = false → _isShown m = false →
  supportsTransitionEnd = true → Dom.hasClass (pdoc p) el "fade" = true →
  prevents (pdoc p) el "show.bs.modal" = true →
  let p1 := (show el related p).1 in
  pwait p1 = pwait p ∧ pdoc p1 = pdoc p ∧
  (∀ r, show el r p1 = (p1, Ret ())) ∧ hide el p1 = (p1, Ret ()) ∧ (∀ r, toggle el r p1 = (p1, Ret ())).
Proof.
  intros Hd Ht Hs Hsup Hf Hpr p1.
  assert (E : p1 = BPage (pdoc p) (plog p ++ [Ev el "show.bs.modal" [("relatedTarget", ANode related)]])
    (pwait p) (alter (set_transitioning true) el (pdata p)) (pfresh p)).
  { unfold p1, show, this, fades, upd, mbind at 1, jsM_bind at 1. rewrite Hd. unfold id. run.
    rewrite Ht, Hs. run. rewrite Hsup, Hf. run. rewrite Hpr.
    rewrite lookup_alter_eq, Hd. simpl. rewrite Hs. done. }
  assert (Hd1 : pdata p1 !! el = Some (set_transitioning true m)).
  { rewrite E. cbn [pdata]. by rewrite lookup_alter_eq, Hd. }
  assert (Hshow : ∀ r, show el r p1 = (p1, Ret ())).
  { intros r. unfold show, this, mbind, jsM_bind. by rewrite Hd1. }
  split_and!; [by rewrite E|by rewrite E|done| |].
  - unfold hide, this, mbind, jsM_bind. by rewrite Hd1.
  - intros r. unfold toggle, this, mbind at 1, jsM_bind at 1. rewrite Hd1. simpl. rewrite Hs. apply Hshow.
Qed.

(** ** The scroll bar adjustments are undone *)

Lemma getStyle_setAttribute_removed a n d m q : Dom.getStyle (Dom.removeAttribute a n d) m q = Dom.getStyle d m q.
Proof. by apply Dom.getStyle_alter. Qed.

(** What saving does to the property [q] and to the saved value of [q]. *)
Lemma save_style p w n d m q :
  n ≠ m ∨ p ≠ q → Dom.getStyle (save_and_set p w n d) m q = Dom.getStyle d m q.
Proof.
  intros H. unfold save_and_set. rewrite Dom.getStyle_css_other by done. apply Dom.getStyle_setAttribute.
Qed.
Lemma data_key_inj p q : data_key p = data_key q → p = q.
Proof. intros H. injection H as H. exact H. Qed.
Lemma save_data p w n d m q :
  n ≠ m ∨ p ≠ q →
  Dom.getAttribute (save_and_set p w n d) m (data_key q) = Dom.getAttribute d m (data_key q).
Proof.
  intros H. unfold save_and_set. rewrite Dom.getAttribute_css. apply Dom.getAttribute_set_other.
  destruct H as [|H]; [by left|right]. by intros ?%data_key_inj.
Qed.
Lemma save_data_same p w n d :
  is_Some (d !! n) →
  Dom.getAttribute (save_and_set p w n d) n (data_key p) = Some (default "" (Dom.getStyle d n p)).
Proof. intros H. unfold save_and_set. rewrite Dom.getAttribute_css. by apply Dom.getAttribute_set_same. Qed.

Lemma restore_style_other p n d m q :
  n ≠ m ∨ p ≠ q → Dom.getStyle (restore p n d) m q = Dom.getStyle d m q.
Proof.
  intros H. unfold restore. case_match; [|done]. rewrite getStyle_setAttribute_removed.
  by apply Dom.getStyle_css_other.
Qed.
Lemma getAttribute_remove_other a n d m b :
  n ≠ m ∨ a ≠ b → Dom.getAttribute (Dom.removeAttribute a n d) m b = Dom.getAttribute d m b.
Proof.
  intros H. unfold Dom.getAttribute, Dom.removeAttribute. rewrite lookup_alter. case_decide; [|done].
  subst. destruct (d !! m); [|done]. simpl. apply lookup_delete_ne. naive_solver.
Qed.
Lemma restore_data_other p n d m q :
  n ≠ m ∨ p ≠ q → Dom.getAttribute (restore p n d) m (data_key q) = Dom.getAttribute d m (data_key q).
Proof.
  intros H. unfold restore. case_match; [|done]. rewrite getAttribute_remove_other, Dom.getAttribute_css; [done|].
  destruct H as [|H]; [by left|right]. by intros ?%data_key_inj.
Qed.
Lemma restore_style_same p n d v :
  is_Some (d !! n) → Dom.getAttribute d n (data_key p) = Some v →
  Dom.getStyle (restore p n d) n p = if bool_decide (v = "") then None else Some v.
Proof.
  intros Hp Hv. unfold restore. rewrite Hv, getStyle_setAttribute_removed. by apply Dom.getStyle_css_same.
Qed.

Lemma present_save p w n d m : is_Some (save_and_set p w n d !! m) ↔ is_Some (d !! m).
Proof. unfold save_and_set. by rewrite Dom.present_css, Dom.present_setAttribute. Qed.

(** Saving over a selection. *)
Lemma each_save_other p w ns d m q :
  m ∉ ns ∨ p ≠ q →
  Dom.getStyle (Dom.each (save_and_set p w) ns d) m q = Dom.getStyle d m q ∧
  Dom.getAttribute (Dom.each (save_and_set p w) ns d) m (data_key q) = Dom.getAttribute d m (data_key q).
Proof.
  unfold Dom.each. revert d; induction ns as [|n ns IH]; intros d H; cbn [foldl]; [done|].
  rewrite not_elem_of_cons in H. destruct (IH (save_and_set p w n d)) as [-> ->]; [naive_solver|].
  split; [apply save_style|apply save_data]; naive_solver.
Qed.
Lemma each_save_same p w ns d m :
  NoDup ns → m ∈ ns → is_Some (d !! m) →
  Dom.getAttribute (Dom.each (save_and_set p w) ns d) m (data_key p) = Some (default "" (Dom.getStyle d m p)).
Proof.
  unfold Dom.each. revert d; induction ns as [|n ns IH]; intros d Hd Hin Hp; cbn [foldl]; [by apply elem_of_nil in Hin|].
  apply NoDup_cons in Hd as [Hn Hd]. apply elem_of_cons in Hin as [->|Hin].
  - fold (Dom.each (save_and_set p w) ns (save_and_set p w n d)).
    destruct (each_save_other p w ns (save_and_set p w n d) n p) as [_ ->]; [by left|]. by apply save_data_same.
  - rewrite IH by (done || by rewrite present_save). rewrite save_style; [done|left; by intros ->].
Qed.

(** Restoring over a selection. *)
Lemma present_restore p n d m : is_Some (restore p n d !! m) ↔ is_Some (d !! m).
Proof. unfold restore. case_match; [|done]. unfold Dom.removeAttribute. by rewrite Dom.present_alter, Dom.present_css. Qed.
Lemma each_restore_other p ns d m q :
  m ∉ ns ∨ p ≠ q →
  Dom.getStyle (Dom.each (restore p) ns d) m q = Dom.getStyle d m q ∧
  Dom.getAttribute (Dom.each (restore p) ns d) m (data_key q) = Dom.getAttribute d m (data_key q).
Proof.
  unfold Dom.each. revert d; induction ns as [|n ns IH]; intros d H; cbn [foldl]; [done|].
  rewrite not_elem_of_cons in H. destruct (IH (restore p n d)) as [-> ->]; [naive_solver|].
  split; [apply restore_style_other|apply restore_data_other]; naive_solver.
Qed.
Lemma restore_data_same p n d : Dom.getAttribute (restore p n d) n (data_key p) = None.
Proof.
  unfold restore. destruct (Dom.getAttribute d n (data_key p)) eqn:E; [|done].
  unfold Dom.getAttribute, Dom.removeAttribute. rewrite lookup_alter_eq. destruct (Dom.css p s n d !! n); [|done].
  cbn. apply lookup_delete_eq.
Qed.

(** What is restored from the saved value [v], if there is one. *)
Definition restored (v : option string) (now : option string) : option string :=
  match v with Some v => if bool_decide (v = "") then None else Some v | None => now end.
Lemma restore_same p n d :
  is_Some (d !! n) →
  Dom.getStyle (restore p n d) n p = restored (Dom.getAttribute d n (data_key p)) (Dom.getStyle d n p).
Proof.
  intros Hp. destruct (Dom.getAttribute d n (data_key p)) as [v|] eqn:E; [by apply restore_style_same|].
  unfold restore. by rewrite E.
Qed.
Lemma each_restore_same p ns d m :
  NoDup ns → m ∈ ns → is_Some (d !! m) →
  Dom.getStyle (Dom.each (restore p) ns d) m p = restored (Dom.getAttribute d m (data_key p)) (Dom.getStyle d m p) ∧
  Dom.getAttribute (Dom.each (restore p) ns d) m (data_key p) = None.
Proof.
  unfold Dom.each. revert d; induction ns as [|n ns IH]; intros d Hd Hin Hp; cbn [foldl]; [by apply elem_of_nil in Hin|].
  apply NoDup_cons in Hd as [Hn Hd]. apply elem_of_cons in Hin as [->|Hin].
  - fold (Dom.each (restore p) ns (restore p n d)).
    destruct (each_restore_other p ns (restore p n d) n p) as [-> ->]; [by left|].
    split; [by apply restore_same|apply restore_data_same].
  - assert (Hne : n ≠ m) by (by intros ->). destruct (IH (restore p n d)) as [-> ->]; [done|done|by rewrite present_restore|].
    rewrite restore_data_other, restore_style_other by (by left). done.
Qed.

(** Classes stay. *)
Lemma class_save p w n d m c : Dom.hasClass (save_and_set p w n d) m c = Dom.hasClass d m c.
Proof. unfold save_and_set. by rewrite Dom.hasClass_css, Dom.hasClass_setAttribute. Qed.
Lemma class_restore p n d m c : Dom.hasClass (restore p n d) m c = Dom.hasClass d m c.
Proof. unfold restore. case_match; [|done]. by rewrite Dom.hasClass_removeAttribute, Dom.hasClass_css. Qed.

(** Documents with the same tree and the same selected elements. *)
Definition selecting : list string := ["fixed-top"; "fixed-bottom"; "is-fixed"; "sticky-top"; "navbar-toggler"].
Definition same_tree (d d' : dom) : Prop :=
  ∀ m, Dom.children d m = Dom.children d' m ∧ Dom.parent d m = Dom.parent d' m ∧ (is_Some (d !! m) ↔ is_Some (d' !! m)).
Definition alike (d d' : dom) : Prop :=
  same_tree d d' ∧ ∀ m c, c ∈ selecting → Dom.hasClass d m c = Dom.hasClass d' m c.
#[local] Instance alike_preorder : PreOrder alike.
Proof.
  split; [done|]. intros d1 d2 d3 [T1 C1] [T2 C2]. split; [|intros m c Hc; by rewrite C1, C2].
  intros m. destruct (T1 m) as (-> & -> & ->). apply T2.
Qed.
Lemma tree_alike_alter f n d :
  (∀ e, childNodes (f e) = childNodes e ∧ parentNode (f e) = parentNode e) →
  (∀ m c, c ∈ selecting → Dom.hasClass (alter f n d) m c = Dom.hasClass d m c) → alike (alter f n d) d.
Proof.
  intros Hf Hc. split; [|done]. intros m. split; [apply Dom.children_alter, Hf|].
  split; [apply Dom.parent_alter, Hf|apply Dom.present_alter].
Qed.
Lemma alike_css p v n d : alike (Dom.css p v n d) d.
Proof. apply tree_alike_alter; [done|]. intros. apply Dom.hasClass_css. Qed.
Lemma alike_setAttribute a v n d : alike (Dom.setAttribute a v n d) d.
Proof. apply tree_alike_alter; [done|]. intros. apply Dom.hasClass_setAttribute. Qed.
Lemma alike_removeAttribute a n d : alike (Dom.removeAttribute a n d) d.
Proof. apply tree_alike_alter; [done|]. intros. apply Dom.hasClass_removeAttribute. Qed.
Lemma tree_alike_addClass c n d : c ∉ selecting → alike (Dom.addClass c n d) d.
Proof. intros Hc. apply tree_alike_alter; [done|]. intros m c' Hc'. apply Dom.hasClass_add_other. right. by intros ->. Qed.
Lemma tree_alike_removeClass c n d : c ∉ selecting → alike (Dom.removeClass c n d) d.
Proof. intros Hc. apply tree_alike_alter; [done|]. intros m c' Hc'. apply Dom.hasClass_remove_other. right. by intros ->. Qed.
Lemma alike_save p w n d : alike (save_and_set p w n d) d.
Proof. unfold save_and_set. etrans; [apply alike_css|apply alike_setAttribute]. Qed.
Lemma alike_restore p n d : alike (restore p n d) d.
Proof. unfold restore. case_match; [|done]. etrans; [apply alike_removeAttribute|apply alike_css]. Qed.
Lemma tree_alike_each (f : nid → dom → dom) ns d : (∀ n d, alike (f n d) d) → alike (Dom.each f ns d) d.
Proof. intros Hf. unfold Dom.each. revert d. induction ns as [|n ns IH]; intros d; [done|]. cbn. etrans; [apply IH|apply Hf]. Qed.
Lemma alike_adjust m el d : alike (_adjustDialog m el d) d.
Proof. unfold _adjustDialog. repeat case_match; repeat first [done|apply alike_css|etrans; [apply alike_css|]]. Qed.
Lemma tree_alike_present d d' x : alike d d' → is_Some (d !! x) ↔ is_Some (d' !! x).
Proof. intros [Ht _]. apply Ht. Qed.

Lemma select_elem P d n : n ∈ select P d ↔ P d n = true ∧ n ∈ all_nodes d.
Proof. unfold select, Dom.query. rewrite list_elem_of_filter. by rewrite Is_true_true. Qed.

(** The value a restore puts back. *)
Lemma put_back (o : option string) :
  o ≠ Some "" → (if bool_decide (default "" o = "") then None else Some (default "" o)) = o.
Proof. intros Ho. destruct o as [v|]; simpl; [|done]. rewrite bool_decide_false; [done|]. by intros ->. Qed.

Section scrollbar.
(** [querySelectorAll] gives the elements in the order of the tree, whatever their
    styles, attributes and classes. *)
Hypothesis order_of_tree : ∀ d d', same_tree d d' → all_nodes d = all_nodes d'.

Lemma select_stable d d' : alike d d' →
  select FIXED_CONTENT d = select FIXED_CONTENT d' ∧ select STICKY_CONTENT d = select STICKY_CONTENT d' ∧
  select NAVBAR_TOGGLER d = select NAVBAR_TOGGLER d' ∧
  select (Dom.sel_or STICKY_CONTENT NAVBAR_TOGGLER) d = select (Dom.sel_or STICKY_CONTENT NAVBAR_TOGGLER) d'.
Proof.
  intros [Ht H]. unfold select, Dom.query. rewrite (order_of_tree d d' Ht).
  split_and!; apply list_filter_iff; intros n;
    unfold FIXED_CONTENT, STICKY_CONTENT, NAVBAR_TOGGLER, Dom.sel_or, Dom.sel_class; by rewrite !H by by_evaluation.
Qed.

Lemma select_or P Q d x : x ∈ select (Dom.sel_or P Q) d ↔ x ∈ select P d ∨ x ∈ select Q d.
Proof. rewrite !select_elem. unfold Dom.sel_or. rewrite orb_true_iff. naive_solver. Qed.
Lemma select_present P d x : (∀ n, n ∈ all_nodes d → is_Some (d !! n)) → x ∈ select P d → is_Some (d !! x).
Proof. intros Hpres [_ Hx]%select_elem. by apply Hpres. Qed.
Lemma setScrollbar_alike m d : alike (_setScrollbar m d) d.
Proof.
  unfold _setScrollbar. case_match; [|done]. etrans; [apply alike_save|].
  do 3 (etrans; [apply tree_alike_each; intros; apply alike_save|]). done.
Qed.

(** What the adjustment saves, per node and property. *)
Lemma setScrollbar_saves m d n :
  _isBodyOverflowing m = true → NoDup (all_nodes d) → (∀ n, n ∈ all_nodes d → is_Some (d !! n)) →
  is_Some (d !! body) → body ∉ select FIXED_CONTENT d →
  (∀ n, STICKY_CONTENT d n && NAVBAR_TOGGLER d n = false) →
  (n ∈ select FIXED_CONTENT d ∨ n = body →
    Dom.getAttribute (_setScrollbar m d) n (data_key "padding-right") =
      Some (default "" (Dom.getStyle d n "padding-right"))) ∧
  (n ∈ select (Dom.sel_or STICKY_CONTENT NAVBAR_TOGGLER) d →
    Dom.getAttribute (_setScrollbar m d) n (data_key "margin-right") =
      Some (default "" (Dom.getStyle d n "margin-right"))) ∧
  (∀ q, (q = "padding-right" → n ∉ select FIXED_CONTENT d ∧ n ≠ body) →
        (q = "margin-right" → n ∉ select (Dom.sel_or STICKY_CONTENT NAVBAR_TOGGLER) d) →
    Dom.getStyle (_setScrollbar m d) n q = Dom.getStyle d n q ∧
    Dom.getAttribute (_setScrollbar m d) n (data_key q) = Dom.getAttribute d n (data_key q)).
Proof.
  intros Ho Hd Hpres Hbody Hbf Hst. unfold _setScrollbar. rewrite Ho. set (w := _scrollbarWidth m).
  set (d1 := Dom.each (save_and_set "padding-right" w) (select FIXED_CONTENT d) d).
  set (d2 := Dom.each (save_and_set "margin-right" (- w)) (select STICKY_CONTENT d1) d1).
  set (d3 := Dom.each (save_and_set "margin-right" w) (select NAVBAR_TOGGLER d2) d2).
  assert (C1 : alike d1 d) by (apply tree_alike_each; intros; apply alike_save).
  assert (C2 : alike d2 d) by (etrans; [apply tree_alike_each; intros; apply alike_save|done]).
  assert (C3 : alike d3 d) by (etrans; [apply tree_alike_each; intros; apply alike_save|done]).
  destruct (select_stable _ _ C1) as (_ & ES & _ & _). destruct (select_stable _ _ C2) as (_ & _ & ET & _).
  pose proof (λ x, tree_alike_present d1 d x C1) as P1. pose proof (λ x, tree_alike_present d2 d x C2) as P2.
  pose proof (λ x, tree_alike_present d3 d x C3) as P3.
  assert (Hnd : ∀ P, NoDup (select P d)) by (intros P; by apply NoDup_filter).
  assert (Hin : ∀ P x, x ∈ select P d → is_Some (d !! x)) by (intros; by eapply select_present).
  assert (Hex : ∀ x, x ∈ select STICKY_CONTENT d → x ∉ select NAVBAR_TOGGLER d).
  { intros x [H1 _]%select_elem [H2 _]%select_elem. specialize (Hst x). by rewrite H1, H2 in Hst. }
  assert (S1 : ∀ x q, x ∉ select FIXED_CONTENT d ∨ "padding-right" ≠ q →
    Dom.getStyle d1 x q = Dom.getStyle d x q ∧ Dom.getAttribute d1 x (data_key q) = Dom.getAttribute d x (data_key q))
    by (intros; by apply each_save_other).
  assert (S2 : ∀ x q, x ∉ select STICKY_CONTENT d ∨ "margin-right" ≠ q →
    Dom.getStyle d2 x q = Dom.getStyle d1 x q ∧ Dom.getAttribute d2 x (data_key q) = Dom.getAttribute d1 x (data_key q))
    by (intros; apply each_save_other; by rewrite ES).
  assert (S3 : ∀ x q, x ∉ select NAVBAR_TOGGLER d ∨ "margin-right" ≠ q →
    Dom.getStyle d3 x q = Dom.getStyle d2 x q ∧ Dom.getAttribute d3 x (data_key q) = Dom.getAttribute d2 x (data_key q))
    by (intros; apply each_save_other; by rewrite ET).
  split_and!.
  - destruct (S3 n "padding-right") as [s3 a3]; [by right|]. destruct (S2 n "padding-right") as [s2 a2]; [by right|].
    intros Hn. destruct (decide (n = body)) as [->|Hne].
    + rewrite save_data_same by (by apply P3). rewrite s3, s2. by destruct (S1 body "padding-right") as [-> _]; [left|].
    + destruct Hn as [Hn|]; [|done]. rewrite save_data by auto. rewrite a3, a2. apply each_save_same; eauto.
  - intros [Hn|Hn]%select_or; rewrite save_data by (by right).
    + destruct (S3 n "margin-right") as [_ ->]; [left; auto|]. unfold d2. rewrite ES, each_save_same; [|auto..|apply P1; eauto].
      by destruct (S1 n "margin-right") as [-> _]; [right|].
    + unfold d3. rewrite ET, each_save_same; [|auto..|apply P2; eauto].
      destruct (S2 n "margin-right") as [-> _]; [left; intros Hs; by apply (Hex n)|].
      by destruct (S1 n "margin-right") as [-> _]; [right|].
  - intros q Hpr Hmr. rewrite select_or in Hmr.
    assert (Hm : body ≠ n ∨ "padding-right" ≠ q) by (destruct (decide (q = "padding-right")); [left; naive_solver|by right]).
    rewrite save_style, save_data by done.
    destruct (S3 n q) as [-> ->]; [destruct (decide (q = "margin-right")); [left; naive_solver|by right]|].
    destruct (S2 n q) as [-> ->]; [destruct (decide (q = "margin-right")); [left; naive_solver|by right]|].
    apply S1. destruct (decide (q = "padding-right")); [left; naive_solver|by right].
Qed.

(** What is selected for a change of the property [q]. *)
Definition adjusted : list string := ["padding-right"; "margin-right"].
Definition chosen (q : string) (n : nid) (d : dom) : Prop :=
  q = "padding-right" ∧ (n ∈ select FIXED_CONTENT d ∨ n = body) ∨
  q = "margin-right" ∧ n ∈ select (Dom.sel_or STICKY_CONTENT NAVBAR_TOGGLER) d.
#[local] Instance chosen_dec q n d : Decision (chosen q n d).
Proof. unfold chosen. apply _. Defined.

(** Lines 2312 to 2335, per node and property. *)
Lemma resetScrollbar_style e n q :
  NoDup (all_nodes e) → (∀ n, n ∈ all_nodes e → is_Some (e !! n)) → is_Some (e !! body) → body ∉ select FIXED_CONTENT e →
  Dom.getStyle (_resetScrollbar e) n q =
    (if decide (chosen q n e) then restored (Dom.getAttribute e n (data_key q)) (Dom.getStyle e n q) else Dom.getStyle e n q) ∧
  (chosen q n e → Dom.getAttribute (_resetScrollbar e) n (data_key q) = None) ∧
  (¬ chosen q n e → Dom.getAttribute (_resetScrollbar e) n (data_key q) = Dom.getAttribute e n (data_key q)).
Proof.
  intros Hd Hpres Hbody Hbf. unfold _resetScrollbar.
  set (F := select FIXED_CONTENT e) in *. set (e1 := Dom.each (restore "padding-right") F e).
  assert (A1 : alike e1 e) by (apply tree_alike_each; intros; apply alike_restore).
  destruct (select_stable _ _ A1) as (_ & _ & _ & ->). set (M := select (Dom.sel_or STICKY_CONTENT NAVBAR_TOGGLER) e).
  set (e2 := Dom.each (restore "margin-right") M e1).
  assert (A2 : alike e2 e) by (etrans; [apply tree_alike_each; intros; apply alike_restore|done]).
  assert (HF : NoDup F) by (by apply NoDup_filter). assert (HM : NoDup M) by (by apply NoDup_filter).
  assert (R1 : ∀ x p, x ∉ F ∨ "padding-right" ≠ p →
    Dom.getStyle e1 x p = Dom.getStyle e x p ∧ Dom.getAttribute e1 x (data_key p) = Dom.getAttribute e x (data_key p))
    by (intros; by apply each_restore_other).
  assert (R2 : ∀ x p, x ∉ M ∨ "margin-right" ≠ p →
    Dom.getStyle e2 x p = Dom.getStyle e1 x p ∧ Dom.getAttribute e2 x (data_key p) = Dom.getAttribute e1 x (data_key p))
    by (intros; by apply each_restore_other).
  destruct (decide (q = "padding-right")) as [->|Hq1]; [|destruct (decide (q = "margin-right")) as [->|Hq2]].
  - destruct (R2 n "padding-right") as [s2 a2]; [by right|].
    assert (Hch : chosen "padding-right" n e ↔ n ∈ F ∨ n = body) by (unfold chosen; fold F; naive_solver).
    destruct (decide (n = body)) as [->|Hne].
    + destruct (R1 body "padding-right") as [s1 a1]; [by left|].
      rewrite decide_True by (apply Hch; by right). rewrite restore_same by (by apply (tree_alike_present e2 e)).
      rewrite a2, s2, a1, s1. split_and!; [done|intros _; apply restore_data_same|]. intros []. apply Hch. by right.
    + rewrite restore_style_other, restore_data_other by (left; congruence). rewrite s2, a2.
      destruct (decide (n ∈ F)) as [Hf|Hf].
      * destruct (each_restore_same "padding-right" F e n HF Hf) as [E1 E2]; [by eapply select_present|].
        rewrite decide_True by (apply Hch; by left). fold e1 in E1, E2. rewrite E1, E2.
        split_and!; [done..|]. intros []. apply Hch. by left.
      * destruct (R1 n "padding-right") as [-> ->]; [by left|]. rewrite decide_False by (rewrite Hch; naive_solver).
        split_and!; [done| |done]. intros [?|?]%Hch; done.
  - assert (Hch : chosen "margin-right" n e ↔ n ∈ M) by (unfold chosen; fold M; naive_solver).
    rewrite restore_style_other, restore_data_other by (by right). destruct (R1 n "margin-right") as [s1 a1]; [by right|].
    destruct (decide (n ∈ M)) as [Hm|Hm].
    + destruct (each_restore_same "margin-right" M e1 n HM Hm) as [E1 E2].
      { apply (tree_alike_present e1 e); [done|]. by eapply select_present. }
      rewrite decide_True by (by apply Hch). fold e2 in E1, E2. rewrite E1, E2, s1, a1. split_and!; [done..|]. intros []. by apply Hch.
    + destruct (R2 n "margin-right") as [-> ->]; [by left|]. rewrite s1, a1, decide_False by (by rewrite Hch).
      split_and!; [done| |done]. by intros ?%Hch.
  - assert (Hch : ¬ chosen q n e) by (unfold chosen; naive_solver).
    rewrite restore_style_other, restore_data_other by (by right). destruct (R2 n q) as [-> ->]; [by right; intros <-|].
    destruct (R1 n q) as [-> ->]; [by right; intros <-|]. by rewrite decide_False by done.
Qed.

(** Opening and closing: lines 1980 to 1984 of [show] and lines 2167 to 2171. *)
Definition opened (m : modal) (el : nid) (d : dom) : dom :=
  Dom.addClass "modal-open" body (_adjustDialog m el (_setScrollbar m d)).
Definition closed (el : nid) (d : dom) : dom :=
  _resetScrollbar (_resetAdjustments el (Dom.removeClass "modal-open" body d)).

(** A page that the modal can be opened on: no element is both sticky and a
    toggler, the body is not fixed, the modal is none of these, nothing is saved. *)
Record adjustable (el : nid) (d : dom) : Prop := {
  aj_order : NoDup (all_nodes d);
  aj_present n : n ∈ all_nodes d → is_Some (d !! n);
  aj_body : is_Some (d !! body) ∧ body ∉ select FIXED_CONTENT d;
  aj_apart n : STICKY_CONTENT d n && NAVBAR_TOGGLER d n = false;
  aj_modal q : ¬ chosen q el d;
  aj_unsaved n q : q ∈ adjusted → Dom.getAttribute d n (data_key q) = None;
  aj_styles n q : Dom.getStyle d n q ≠ Some ""
}.
(** What else happens while the modal is open leaves the selected elements, their
    margins and paddings and what is saved for them as they are; the modal's own
    style, other styles and other elements, such as the backdrop, may change. *)
Record kept (el : nid) (d d' : dom) : Prop := {
  kp_order : NoDup (all_nodes d');
  kp_present n : n ∈ all_nodes d' → is_Some (d' !! n);
  kp_body : is_Some (d' !! body);
  kp_fixed n : n ∈ select FIXED_CONTENT d' ↔ n ∈ select FIXED_CONTENT d;
  kp_margin n : n ∈ select (Dom.sel_or STICKY_CONTENT NAVBAR_TOGGLER) d' ↔
    n ∈ select (Dom.sel_or STICKY_CONTENT NAVBAR_TOGGLER) d;
  kp_style n q : n ≠ el → q ∈ adjusted → Dom.getStyle d' n q = Dom.getStyle d n q;
  kp_saved n q : q ∈ adjusted → Dom.getAttribute d' n (data_key q) = Dom.getAttribute d n (data_key q)
}.
Lemma kept_chosen el d d' q n : kept el d d' → chosen q n d' ↔ chosen q n d.
Proof. intros Hk. unfold chosen. by rewrite (kp_fixed _ _ _ Hk), (kp_margin _ _ _ Hk). Qed.
Lemma chosen_alike d d' q n : alike d d' → chosen q n d ↔ chosen q n d'.
Proof. intros H. unfold chosen. destruct (select_stable _ _ H) as (-> & _ & _ & ->). done. Qed.

(** What is saved when the modal has been opened, and what the others look like. *)
Lemma opened_saves m el d n q :
  adjustable el d → n ≠ el → q ∈ adjusted →
  if decide (_isBodyOverflowing m = true ∧ chosen q n d)
  then Dom.getAttribute (opened m el d) n (data_key q) = Some (default "" (Dom.getStyle d n q))
  else Dom.getAttribute (opened m el d) n (data_key q) = None ∧ Dom.getStyle (opened m el d) n q = Dom.getStyle d n q.
Proof.
  intros [H1 H2 [H3 H4] H5 H6 H7 _] Hn Hq. unfold opened. rewrite Dom.getAttribute_addClass, Dom.getStyle_addClass.
  assert (Had : Dom.getAttribute (_adjustDialog m el (_setScrollbar m d)) n (data_key q) =
    Dom.getAttribute (_setScrollbar m d) n (data_key q) ∧
    Dom.getStyle (_adjustDialog m el (_setScrollbar m d)) n q = Dom.getStyle (_setScrollbar m d) n q).
  { unfold _adjustDialog. repeat case_match; rewrite ?Dom.getAttribute_css, ?Dom.getStyle_css_other by (left; congruence); done. }
  destruct Had as [-> ->]. destruct (_isBodyOverflowing m) eqn:Ho.
  2: { rewrite decide_False by naive_solver. unfold _setScrollbar. by rewrite Ho, H7. }
  destruct (setScrollbar_saves m d n Ho H1 H2 H3 H4 H5) as (S1 & S2 & S3).
  case_decide as Hc.
  - destruct Hc as [_ [[-> Hc]|[-> Hc]]]; [by apply S1|by apply S2].
  - destruct (S3 q) as [-> ->]; [unfold chosen in Hc; naive_solver..|]. by rewrite H7.
Qed.

(** C30. Opening a modal changes paddings and margins of the fixed and sticky
    elements, of the toggler and of the page if the page overflows, and the
    padding of the modal; whatever then happens that leaves these elements alone,
    closing it puts their inline paddings and margins back exactly as they were
    before, on every element except the modal, whose own inline padding is
    cleared, touches no other inline style and forgets what was saved, so that
    the modal can be opened again. *)
Theorem scrollbar_restored m el d d' n :
  adjustable el d → kept el (opened m el d) d' → el ≠ body → is_Some (d' !! el) →
  (∀ q, n ≠ el → q ∈ adjusted → Dom.getStyle (closed el d') n q = Dom.getStyle d n q) ∧
  (∀ q, q ∉ adjusted → n ≠ el ∨ q ≠ "padding-left" → Dom.getStyle (closed el d') n q = Dom.getStyle d' n q) ∧
  (∀ q, q ∈ ["padding-left"; "padding-right"] → Dom.getStyle (closed el d') el q = None) ∧
  (∀ q, n ≠ el → q ∈ adjusted → Dom.getAttribute (closed el d') n (data_key q) = None).
Proof.
  intros Ha Hk Heb Hel. unfold closed. set (e := _resetAdjustments el _).
  assert (Ae : alike e d').
  { unfold e, _resetAdjustments. do 2 (etrans; [apply alike_css|]). apply tree_alike_removeClass. by_evaluation. }
  assert (Ao : alike (opened m el d) d).
  { unfold opened. etrans; [apply tree_alike_addClass; by_evaluation|]. etrans; [apply alike_adjust|apply setScrollbar_alike]. }
  assert (Hc : ∀ q x, chosen q x e ↔ chosen q x d).
  { intros q x. rewrite (chosen_alike _ _ _ _ Ae), (kept_chosen _ _ _ _ _ Hk). by apply chosen_alike. }
  assert (Hst : ∀ x q, x ≠ el ∨ q ∉ ["padding-left"; "padding-right"] → Dom.getStyle e x q = Dom.getStyle d' x q).
  { intros x q Hx. unfold e, _resetAdjustments.
    rewrite !Dom.getStyle_css_other, Dom.getStyle_removeClass; [done|..];
      (destruct Hx as [|Hx]; [left; congruence|right; intros <-; apply Hx; by_evaluation]). }
  assert (Hat : ∀ x q, Dom.getAttribute e x q = Dom.getAttribute d' x q).
  { intros x q. unfold e, _resetAdjustments. by rewrite !Dom.getAttribute_css, Dom.getAttribute_removeClass. }
  assert (Hmodal : ∀ q, q ∈ ["padding-left"; "padding-right"] → Dom.getStyle e el q = None).
  { assert (Hp : is_Some (Dom.css "padding-left" "" el (Dom.removeClass "modal-open" body d') !! el))
      by (by rewrite Dom.present_css, Dom.present_removeClass).
    intros q Hq. apply elem_of_cons in Hq as [->|Hq]; [|apply list_elem_of_singleton in Hq as ->]; unfold e, _resetAdjustments.
    - rewrite Dom.getStyle_css_other by (by right). by rewrite Dom.getStyle_css_same by (by rewrite Dom.present_removeClass).
    - by rewrite Dom.getStyle_css_same. }
  pose proof (order_of_tree _ _ (proj1 Ae)) as Oe.
  assert (N1 : NoDup (all_nodes e)) by (rewrite Oe; apply Hk).
  assert (N2 : ∀ x, x ∈ all_nodes e → is_Some (e !! x)).
  { intros x. rewrite Oe, (tree_alike_present _ _ _ Ae). apply Hk. }
  assert (N3 : is_Some (e !! body)) by (rewrite (tree_alike_present _ _ _ Ae); apply (kp_body _ _ _ Hk)).
  assert (N4 : body ∉ select FIXED_CONTENT e).
  { rewrite (proj1 (select_stable _ _ Ae)), (kp_fixed _ _ _ Hk), (proj1 (select_stable _ _ Ao)). apply (aj_body _ _ Ha). }
  pose proof (λ x q, resetScrollbar_style e x q N1 N2 N3 N4) as Hr.
  split_and!.
  - intros q Hn Hq. rewrite (proj1 (Hr n q)), Hat, Hst by (by left).
    rewrite (kp_saved _ _ _ Hk), (kp_style _ _ _ Hk) by done. pose proof (opened_saves m el d n q Ha Hn Hq) as Hs.
    case_decide as Hch; case_decide as Hd; rewrite ?Hc in Hd.
    + rewrite Hs. cbn [restored]. apply put_back, (aj_styles _ _ Ha).
    + destruct Hd. apply Hch.
    + destruct Hs as [-> ->]. done.
    + by destruct Hs as [_ ->].
  - intros q Hq Hx. rewrite (proj1 (Hr n q)), decide_False.
    2: { intros [[-> _]|[-> _]]; apply Hq; by_evaluation. }
    apply Hst. destruct Hx as [|Hx]; [by left|right]. intros Hin. apply elem_of_cons in Hin as [->|Hin]; [done|].
    apply list_elem_of_singleton in Hin as ->. apply Hq. by_evaluation.
  - intros q Hq. rewrite (proj1 (Hr el q)), decide_False; [by apply Hmodal|]. rewrite Hc. apply (aj_modal _ _ Ha).
  - intros q Hn Hq. destruct (Hr n q) as (_ & Hy & Hz). destruct (decide (chosen q n e)) as [He|He]; [auto|].
    rewrite Hz, Hat, (kp_saved _ _ _ Hk) by done. pose proof (opened_saves m el d n q Ha Hn Hq) as Hs.
    rewrite decide_False in Hs by (rewrite <- Hc; tauto). apply Hs.
Qed.
End scrollbar.

End modal.

(** A page whose body has a fixed header and a navigation bar button. *)
Definition sample_browser (prevented : string) : Browser := {|
  query := λ _ _, Some []; all_nodes := λ _, [1; 2; 3; 4]%nat; escapeSelector := λ s, s;
  prevents := λ _ _ e, bool_decide (e = prevented); supportsTransitionEnd := true
|}.
Definition sample_layout : ModalLayout := {|
  body := 1%nat; modal_overflows := λ _ _, false; body_overflows := λ _, true;
  scrollbar_width := λ _, 15%Z; computed_px := λ _ _ _, 0%Z; modal_data := λ _ _, ∅
|}.
Definition sample_doc : dom :=
  {[ 1%nat := Elem "body" "" [] ∅ ∅ None [2%nat; 3%nat; 4%nat];
     2%nat := Elem "div" "" ["sticky-top"] ∅ {[ "padding-right" := "5px" ]} (Some 1%nat) [];
     3%nat := Elem "button" "" ["navbar-toggler"] ∅ ∅ (Some 1%nat) [];
     4%nat := Elem "div" "" ["modal"] ∅ ∅ (Some 1%nat) [] ]}.
Definition sample_modal : modal :=
  MkModal (Options (Util.OBool true) true true) None None false false true false 15 [].

Lemma sample_doc_clean : map_Forall (λ _ e, attributes e = ∅) sample_doc.
Proof. by_evaluation. Qed.
Lemma sample_doc_styles : map_Forall (λ _ e, map_Forall (λ _ v, v ≠ "") (inlineStyle e)) sample_doc.
Proof. by_evaluation. Qed.

Lemma sample_adjustable : adjustable (B:=sample_browser "") (L:=sample_layout) 4 sample_doc.
Proof.
  split.
  - by_evaluation.
  - intros n Hn. cbn in Hn. repeat (apply elem_of_cons in Hn as [->|Hn]; [by eexists|]). by apply elem_of_nil in Hn.
  - split; [by eexists|by_evaluation].
  - intros n. unfold STICKY_CONTENT, NAVBAR_TOGGLER, Dom.sel_class, Dom.hasClass.
    destruct (sample_doc !! n) as [e|] eqn:E; [|done].
    assert (H : map_Forall (λ _ e, bool_decide ("sticky-top" ∈ classList e) &&
      bool_decide ("navbar-toggler" ∈ classList e) = false) sample_doc) by by_evaluation. exact (H n e E).
  - intros q [[_ H]|[_ H]]; revert H; by_evaluation.
  - intros n p _. unfold Dom.getAttribute. destruct (sample_doc !! n) as [e|] eqn:E; [|done].
    simpl. rewrite (sample_doc_clean n e E). apply lookup_empty.
  - intros n p. unfold Dom.getStyle. destruct (sample_doc !! n) as [e|] eqn:E; [|done].
    simpl. intros Hs. by apply (sample_doc_styles n e E p "").
Qed.

(** The modal is displayed in between. *)
Lemma scrollbar_restored_witness :
  let B := sample_browser "" in let L := sample_layout in
  let d' := Dom.css "display" "block" 4 (opened sample_modal 4 sample_doc) in
  (∀ q, 2%nat ≠ 4%nat → q ∈ adjusted → Dom.getStyle (closed 4 d') 2 q = Dom.getStyle sample_doc 2 q) ∧
  Dom.getStyle d' 2 "padding-right" = Some "15px" ∧ Dom.getStyle (closed 4 d') 2 "padding-right" = Some "5px".
Proof.
  intros B L d'. split; [|split; vm_compute; reflexivity].
  assert (Hk : kept 4 (opened sample_modal 4 sample_doc) d').
  { split.
    - by_evaluation.
    - intros n Hn. cbn in Hn. repeat (apply elem_of_cons in Hn as [->|Hn]; [vm_compute; by eexists|]). by apply elem_of_nil in Hn.
    - vm_compute. by eexists.
    - intros n. unfold select, Dom.query. rewrite !list_elem_of_filter. unfold FIXED_CONTENT, Dom.sel_or, Dom.sel_class, d'.
      by rewrite !Dom.hasClass_css.
    - intros n. unfold select, Dom.query. rewrite !list_elem_of_filter.
      unfold STICKY_CONTENT, NAVBAR_TOGGLER, Dom.sel_or, Dom.sel_class, d'. by rewrite !Dom.hasClass_css.
    - intros n q Hn Hq. apply Dom.getStyle_css_other. left. congruence.
    - intros n q _. apply Dom.getAttribute_css. }
  assert (Hel : is_Some (d' !! 4%nat)) by (vm_compute; by eexists).
  assert (H41 : 4%nat ≠ body) by (by vm_compute).
  exact (proj1 (scrollbar_restored (B:=B) (L:=L) (λ _ _ _, eq_refl) sample_modal 4 sample_doc d' 2 sample_adjustable Hk H41 Hel)).
Defined.

End Modal.
