(* ===== verification/ModalLife.v ===== *)
(** * Modal: opening and closing

    A modal that is opened and closed goes through up to four transitions, the
    backdrop's and the dialog's and back.  Once the browser has reported them
    the modal is at rest and the page is as the user expects it. *)

From S2P Require Import Prelude Dom Bs Modal.
Local Open Scope string_scope.
Local Open Scope list_scope.

Module ModalLife.
Import Modal.

Section life.
Context `{B : Browser, L : ModalLayout}.
Hypothesis calm : ∀ d n e, prevents d n e = false.

(** ** Running the methods *)

Lemma this_known {A} el m (f : modal → A) p : pdata p !! el = Some m → this el f p = (p, Ret (f m)).
Proof. intros H. unfold this. by rewrite H. Qed.
Definition with_modal (el : nid) (m : modal) (p : bpage modal kont) : bpage modal kont :=
  BPage (pdoc p) (plog p) (pwait p) (<[el := m]> (pdata p)) (pfresh p).
Lemma upd_known f el m p : pdata p !! el = Some m → upd f el p = (with_modal el (f m) p, Ret ()).
Proof.
  intros H. unfold upd, mupdate, with_modal. f_equal. f_equal. apply map_eq. intros k.
  rewrite lookup_alter, lookup_insert. case_decide; [|done]. subst. by rewrite H.
Qed.
Lemma trigger_calm e a n (p : bpage modal kont) : trigger e a n p = (add_log (Ev n e a) p, Ret false).
Proof. unfold trigger. run. by rewrite calm. Qed.

(** What opening and closing leave alone: the nodes, and all classes but those
    named. *)
Definition quiet (changed : nid → string → Prop) (d d' : dom) : Prop :=
  (∀ n, is_Some (d' !! n) ↔ is_Some (d !! n)) ∧ (∀ n, Dom.parent d' n = Dom.parent d n) ∧
  ∀ n c, ¬ changed n c → Dom.hasClass d' n c = Dom.hasClass d n c.

Lemma quiet_refl P d : quiet P d d.
Proof. done. Qed.
Lemma quiet_trans P d1 d2 d3 : quiet P d1 d2 → quiet P d2 d3 → quiet P d1 d3.
Proof.
  intros (H1 & H2 & H3) (H1' & H2' & H3'). split; [intros n; by rewrite H1'|]. split; [intros n; by rewrite H2'|].
  intros n c Hc. by rewrite H3', H3.
Qed.
Lemma quiet_alter P f n d :
  (∀ e, parentNode (f e) = parentNode e) → (∀ e, classList (f e) = classList e) → quiet P d (alter f n d).
Proof.
  intros Hp Hc. split; [intros m; apply Dom.present_alter|]. split; [intros m; by apply Dom.parent_alter|].
  intros m c _. by apply Dom.hasClass_alter.
Qed.
Lemma quiet_each P (f : nid → dom → dom) ns d : (∀ n d, quiet P d (f n d)) → quiet P d (Dom.each f ns d).
Proof.
  intros Hf. unfold Dom.each. revert d; induction ns as [|n ns IH]; intros d; [apply quiet_refl|]. simpl.
  eapply quiet_trans; [apply Hf|apply IH].
Qed.
Lemma quiet_save P p w n d : quiet P d (save_and_set p w n d).
Proof. eapply quiet_trans; by apply quiet_alter. Qed.
Lemma quiet_restore P p n d : quiet P d (restore p n d).
Proof. unfold restore. case_match; [|apply quiet_refl]. eapply quiet_trans; by apply quiet_alter. Qed.
Lemma quiet_setScrollbar P m d : quiet P d (_setScrollbar m d).
Proof.
  unfold _setScrollbar. case_match; [|apply quiet_refl].
  eapply quiet_trans; [|apply quiet_save]. eapply quiet_trans; [|apply quiet_each; intros; apply quiet_save].
  eapply quiet_trans; [|apply quiet_each; intros; apply quiet_save]. apply quiet_each. intros. apply quiet_save.
Qed.
Lemma quiet_resetScrollbar P d : quiet P d (_resetScrollbar d).
Proof.
  unfold _resetScrollbar. eapply quiet_trans; [|apply quiet_restore].
  eapply quiet_trans; [|apply quiet_each; intros; apply quiet_restore]. apply quiet_each. intros. apply quiet_restore.
Qed.
Lemma quiet_adjust P m el d : quiet P d (_adjustDialog m el d).
Proof.
  unfold _adjustDialog. repeat case_match; try apply quiet_refl; try by apply quiet_alter.
  eapply quiet_trans; by apply quiet_alter.
Qed.
Lemma quiet_class P c n d : P n c → quiet P d (Dom.addClass c n d) ∧ quiet P d (Dom.removeClass c n d).
Proof.
  intros HP. split; (split; [intros m; apply Dom.present_alter|]; split; [intros m; by apply Dom.parent_alter|]);
    intros m c' Hc; [apply Dom.hasClass_add_other|apply Dom.hasClass_remove_other];
    destruct (decide (n = m)), (decide (c = c')); naive_solver.
Qed.

End life.

Ltac known := cbn [pdata with_modal add_log on_doc add_wait drop_wait]; first [eassumption | apply lookup_insert_eq].
Ltac mstep := erewrite bind_ret;
  [ cbv beta
  | first [ apply this_known; known | apply upd_known; known | apply trigger_calm; assumption
          | unfold upd; reflexivity ] ].

Section open.
Context `{B : Browser, L : ModalLayout}.
Hypothesis calm : ∀ d n e, prevents d n e = false.

(** What the methods decide by. *)
Definition core (m : modal) : options * option nid * option nid * bool * bool :=
  (_config m, _dialog m, _backdrop m, _isShown m, _isTransitioning m).

(** The listeners for the escape key and for resizing. *)
Lemma escape_run el m p :
  pdata p !! el = Some m → ∃ m', _setEscapeEvent el p = (with_modal el m' p, Ret ()) ∧ core m' = core m.
Proof.
  intros H. unfold _setEscapeEvent. mstep. unfold id. destruct (_isShown m).
  - destruct (o_keyboard (_config m)); cbn [mguard].
    + eexists. split; [by apply upd_known|done].
    + exists m. split; [|done]. unfold with_modal. rewrite insert_id by done. by destruct p.
  - eexists. split; [by apply upd_known|done].
Qed.
Lemma resize_run el m p :
  pdata p !! el = Some m → ∃ m', _setResizeEvent el p = (with_modal el m' p, Ret ()) ∧ core m' = core m.
Proof.
  intros H. unfold _setResizeEvent. mstep. unfold id.
  destruct (_isShown m); eexists; (split; [by apply upd_known|done]).
Qed.
Lemma scrollbar_run el m p :
  pdata p !! el = Some m → ∃ m', _checkScrollbar el p = (with_modal el m' p, Ret ()) ∧ core m' = core m.
Proof. intros H. unfold _checkScrollbar. do 2 mstep. eexists. split; [by apply upd_known|done]. Qed.

Lemma with_modal_twice el m m' p : with_modal el m (with_modal el m' p) = with_modal el m p.
Proof. unfold with_modal. cbn. by rewrite insert_insert_eq. Qed.
Lemma doc_op_run f (p : bpage modal kont) : doc_op f p = (on_doc f p, Ret ()).
Proof. done. Qed.

(** A closed modal with a dialog and a backdrop to show. *)
Record closed (el dlg : nid) (m : modal) (p : bpage modal kont) : Prop := {
  c_modal : pdata p !! el = Some m;
  c_dialog : _dialog m = Some dlg;
  c_backdrop : _backdrop m = None;
  c_shown : _isShown m = false;
  c_still : _isTransitioning m = false;
  c_option : o_backdrop (_config m) = Util.OBool true;
  c_element : is_Some (pdoc p !! el);
  c_body : is_Some (pdoc p !! body);
  c_placed : is_Some (Dom.parent (pdoc p) el);
  c_differ : el ≠ dlg ∧ el ≠ body;
  c_waits : ∀ n, waiting n TRANSITION_END p = []
}.

Definition opening (n : nid) (c : string) : Prop := n = body ∧ c = "modal-open".
Definition fading (el : nid) (d : dom) : bool := supportsTransitionEnd && Dom.hasClass d el "fade".

(** [show], up to the backdrop. *)
Lemma show_prefix el dlg related m p :
  closed el dlg m p →
  ∃ q m1, show el related p = _showBackdrop_show el related q ∧ pdata q !! el = Some m1 ∧
    core m1 = (_config m, Some dlg, None, true, fading el (pdoc p)) ∧
    plog q = plog p ++ [Ev el "show.bs.modal" [("relatedTarget", ANode related)]] ∧ pwait q = pwait p ∧
    quiet opening (pdoc p) (pdoc q) ∧ Dom.hasClass (pdoc q) body "modal-open" = true.
Proof.
  intros [Hm Hdlg Hb Hs Ht Ho Hel Hbody Hpar Hdiff Hw]. unfold show. mstep. unfold id. rewrite Ht, Hs. cbn [orb].
  unfold fades. mstep. change (supportsTransitionEnd && Dom.hasClass (pdoc p) el "fade") with (fading el (pdoc p)).
  set (m0 := if fading el (pdoc p) then set_transitioning true m else m).
  erewrite bind_ret.
  2: { instantiate (1 := ()). instantiate (1 := with_modal el m0 p). unfold m0. destruct (fading el (pdoc p)); cbn [mguard].
       - by apply upd_known.
       - unfold with_modal. rewrite insert_id by done. by destruct p. }
  assert (Hm0 : core m0 = (_config m, Some dlg, None, false, fading el (pdoc p)))
    by (unfold m0, core; destruct (fading el (pdoc p)); cbn; by rewrite Hdlg, Hb, Hs, ?Ht).
  unfold core in Hm0. injection Hm0 as Hc0 Hd0 Hb0 Hs0 Ht0.
  erewrite bind_ret by (by apply trigger_calm). mstep. rewrite Hs0. cbn [orb]. mstep.
  edestruct scrollbar_run as (m2 & E2 & Hc2); [|rewrite (bind_ret _ _ _ _ _ E2)]; [known|].
  rewrite with_modal_twice. mstep. rewrite !(bind_ret _ _ _ _ _ (doc_op_run _ _)).
  edestruct escape_run as (m3 & E3 & Hc3); [|rewrite (bind_ret _ _ _ _ _ E3)]; [known|].
  edestruct resize_run as (m4 & E4 & Hc4); [|rewrite (bind_ret _ _ _ _ _ E4)]; [known|].
  do 2 mstep. eexists _, _. split; [reflexivity|]. split; [known|].
  split. { transitivity (core m4); [done|]. rewrite Hc4, Hc3. unfold id. rewrite Hc2. unfold core. cbn.
           by rewrite Hc0, Hd0, Hb0, Ht0. }
  split; [done|]. split; [done|]. cbn [pdoc with_modal on_doc add_log]. split.
  - eapply quiet_trans; [|apply quiet_class; done]. eapply quiet_trans; [|apply quiet_adjust]. apply quiet_setScrollbar.
  - apply Dom.hasClass_add_same. apply (proj1 (quiet_adjust opening _ _ _)). by apply (proj1 (quiet_setScrollbar opening _ _)).
Qed.

(** The backdrop is a new node under the body. *)
Definition grown (b : nid) (d d' : dom) : Prop :=
  d !! b = None ∧ Dom.parent d' b = Some body ∧ Dom.hasClass d' b "show" = true ∧ Dom.children d' b = [] ∧
  ∀ n, n ≠ b → (is_Some (d' !! n) ↔ is_Some (d !! n)) ∧ Dom.parent d' n = Dom.parent d n ∧
    ∀ c, Dom.hasClass d' n c = Dom.hasClass d n c.

Lemma grow b e d :
  d !! b = None → parentNode e = None → childNodes e = [] → b ≠ body →
  grown b d (Dom.addClass "show" b (Dom.append body b (<[b := e]> d))).
Proof.
  intros Hb He Hch Hne. assert (Hin : is_Some (<[b := e]> d !! b)) by (rewrite lookup_insert_eq; by eexists).
  split; [done|]. split; [by rewrite Dom.parent_addClass, Dom.parent_append, bool_decide_true|].
  split; [apply Dom.hasClass_add_same; by rewrite Dom.present_append|].
  split. { rewrite Dom.children_addClass. unfold Dom.append. rewrite Dom.children_alter by done.
    unfold Dom.children. rewrite lookup_alter_ne by congruence. unfold Dom.detach, Dom.parent.
    rewrite lookup_insert_eq. simpl. rewrite He. by rewrite lookup_insert_eq. }
  intros n Hn. rewrite Dom.present_addClass, Dom.present_append, Dom.parent_addClass, Dom.parent_append by done.
  rewrite bool_decide_false by congruence. unfold Dom.parent at 1. rewrite !lookup_insert_ne by done.
  split; [done|]. split; [done|]. intros c. rewrite Dom.hasClass_add_other by naive_solver.
  rewrite Dom.hasClass_append. unfold Dom.hasClass. by rewrite lookup_insert_ne.
Qed.

(** Lines 2185 to 2232. *)
Lemma backdrop_run el related m cfg dlg tr q :
  pdata q !! el = Some m → core m = (cfg, Some dlg, None, true, tr) → o_backdrop cfg = Util.OBool true →
  is_Some (pdoc q !! body) →
  ∃ q1 m1 b, _showBackdrop_show el related q =
      (if fading el (pdoc q) then (add_wait b TRANSITION_END (ShowElement el related) q1, Ret ())
       else _showElement el related q1) ∧
    pdata q1 !! el = Some m1 ∧ core m1 = (cfg, Some dlg, Some b, true, tr) ∧ plog q1 = plog q ∧ pwait q1 = pwait q ∧
    grown b (pdoc q) (pdoc q1).
Proof.
  intros Hm Hc Ho Hbody. injection Hc as H1 H2 H3 H4 H5. unfold _showBackdrop_show. mstep. unfold id. rewrite H4, H1, Ho. cbn [andb].
  unfold add_backdrop. set (b := Dom.new_node (pdoc q)).
  set (e := Elem "div" "" (["modal-backdrop"] ++ if Dom.hasClass (pdoc q) el "fade" then ["fade"] else []) ∅ ∅ None []).
  set (m1 := on "click.dismiss" (set_backdrop (Some b) m)).
  set (q1 := BPage (Dom.addClass "show" b (Dom.append body b (<[b := e]> (pdoc q)))) (plog q) (pwait q)
    (<[el := m1]> (pdata q)) (pfresh q)).
  exists q1, m1, b. split.
  - erewrite bind_ret.
    2: { do 3 mstep. rewrite (bind_ret _ _ _ _ _ (doc_op_run _ _)). mstep. rewrite (bind_ret _ _ _ _ _ (doc_op_run _ _)).
         instantiate (1 := negb (fading el (pdoc q))).
         instantiate (1 := if fading el (pdoc q) then add_wait b TRANSITION_END (ShowElement el related) q1 else q1).
         assert (Hq : on_doc (Dom.addClass "show" b) (with_modal el m1 (on_doc (λ d, Dom.append body b (<[b := e]> d))
           (with_modal el (set_backdrop (Some b) m) q))) = q1)
           by (unfold q1, with_modal, on_doc; cbn; by rewrite insert_insert_eq).
         unfold fading. fold b. fold e. fold m1. rewrite Hq. by destruct (supportsTransitionEnd && _). }
    by destruct (fading el (pdoc q)).
  - split; [apply lookup_insert_eq|]. split; [unfold core; cbn; by rewrite H1, H2, H4, H5|].
    split; [done|]. split; [done|]. apply grow; [apply Dom.new_node_fresh|done|done|].
    intros Hx. unfold b in Hx. rewrite <- Hx, Dom.new_node_fresh in Hbody. by destruct Hbody.
Qed.

(** Lines 2073 to 2117, for a modal that is in the document. *)
Definition element_doc (el : nid) (d : dom) : dom :=
  Dom.addClass "show" el (Dom.removeAttribute "aria-hidden" el (Dom.css "display" "block" el d)).
Lemma focus_run el m p :
  pdata p !! el = Some m →
  ∃ m', mguard (o_focus (_config m)) (_enforceFocus el) p = (with_modal el m' p, Ret ()) ∧ core m' = core m.
Proof.
  intros H. destruct (o_focus (_config m)); cbn [mguard].
  - unfold _enforceFocus. mstep. eexists. split; [erewrite upd_known by known; by rewrite with_modal_twice|done].
  - exists m. split; [|done]. unfold with_modal. rewrite insert_id by done. by destruct p.
Qed.
Lemma element_run el related m cfg dlg b tr q :
  pdata q !! el = Some m → core m = (cfg, Some dlg, Some b, true, tr) → is_Some (Dom.parent (pdoc q) el) →
  ∃ q1 m1, _showElement el related q =
      (if fading el (pdoc q) then (add_wait dlg TRANSITION_END (ShownComplete el related) q1, Ret ())
       else transitionComplete el related q1) ∧
    pdata q1 !! el = Some m1 ∧ core m1 = core m ∧ plog q1 = plog q ∧ pwait q1 = pwait q ∧
    pdoc q1 = element_doc el (pdoc q).
Proof.
  intros Hm Hc [par Hpar]. pose proof Hc as Hc'. injection Hc' as H1 H2 H3 H4 H5. unfold _showElement, fades. mstep.
  rewrite !(bind_ret _ _ _ _ _ (doc_op_run _ _)). mstep. unfold id.
  edestruct (focus_run el m) as (m1 & E1 & Hc1); [|rewrite (bind_ret _ _ _ _ _ E1)]; [known|]. rewrite H2.
  match goal with |- ∃ q1 m1, (if _ then _ else _) ?st = _ ∧ _ => exists st, m1 end.
  split; [by unfold fading; destruct (supportsTransitionEnd && _)|]. split; [known|]. split; [done|].
  split; [done|]. split; [done|]. unfold element_doc. cbn. by rewrite Hpar.
Qed.

(** Lines 2103 to 2110. *)
Definition shown_events (cfg : options) (el : nid) (related : option nid) : list ev :=
  (if o_focus cfg then [Ev el "focus" []] else []) ++ [Ev el "shown.bs.modal" [("relatedTarget", ANode related)]].
Lemma complete_modal_run el related m q :
  pdata q !! el = Some m →
  transitionComplete el related q =
    (BPage (pdoc q) (plog q ++ shown_events (_config m) el related) (pwait q)
       (<[el := set_transitioning false m]> (pdata q)) (pfresh q), Ret ()).
Proof.
  intros Hm. unfold transitionComplete, shown_events. mstep. unfold id. destruct (o_focus (_config m)).
  - erewrite bind_ret by (by apply trigger_calm). mstep. erewrite bind_ret by (by apply trigger_calm).
    unfold add_log, with_modal. cbn. by rewrite <- app_assoc.
  - mstep. mstep. erewrite bind_ret by (by apply trigger_calm). done.
Qed.

(** The element and the body are in the document. *)
Definition home (el : nid) (d : dom) : Prop :=
  is_Some (d !! el) ∧ is_Some (d !! body) ∧ is_Some (Dom.parent d el).
(** The nodes other than [b] are the same. *)
Definition same_nodes (b : nid) (d d' : dom) : Prop :=
  ∀ n, n ≠ b → (is_Some (d' !! n) ↔ is_Some (d !! n)) ∧ Dom.parent d' n = Dom.parent d n.
#[local] Instance same_nodes_preorder b : PreOrder (same_nodes b).
Proof.
  split; [done|]. intros d1 d2 d3 H1 H2 n Hn. destruct (H1 n Hn) as [A1 A2], (H2 n Hn) as [C1 C2].
  split; [by rewrite C1|by rewrite C2].
Qed.
Lemma same_home b el d d' : same_nodes b d d' → el ≠ b → body ≠ b → home el d → home el d'.
Proof.
  intros H H1 H2 (A1 & A2 & A3). destruct (H el H1) as [P1 Q1], (H body H2) as [P2 _].
  split; [by apply P1|]. split; [by apply P2|by rewrite Q1].
Qed.
Lemma same_quiet P b d d' : quiet P d d' → same_nodes b d d'.
Proof. intros (H1 & H2 & _) n _. by split. Qed.

(** An open modal at rest. *)
Record opened (el dlg b : nid) (m : modal) (p : bpage modal kont) : Prop := {
  o_modal : pdata p !! el = Some m;
  o_core : core m = (_config m, Some dlg, Some b, true, false);
  o_element : Dom.hasClass (pdoc p) el "show" = true;
  o_display : Dom.getStyle (pdoc p) el "display" = Some "block";
  o_body : Dom.hasClass (pdoc p) body "modal-open" = true;
  o_back : Dom.hasClass (pdoc p) b "show" = true ∧ Dom.parent (pdoc p) b = Some body ∧ Dom.children (pdoc p) b = [];
  o_differ : el ≠ dlg ∧ el ≠ body ∧ el ≠ b ∧ b ≠ body;
  o_home : home el (pdoc p);
  o_waits : ∀ n, waiting n TRANSITION_END p = []
}.

(** Firing an event nobody waits for, and one that a single callback waits for. *)
Lemma drop_none n e (p : bpage modal kont) : waiting n e p = [] → drop_wait n e p = p.
Proof.
  unfold waiting, drop_wait. destruct p as [d l w da f]. cbn. intros H. f_equal. apply fmap_nil_inv in H.
  apply filter_all. intros x Hx Hc. assert (Hin : x ∈ filter (λ w, w.1.1 = n ∧ w.1.2 = e) w) by (by apply list_elem_of_filter).
  rewrite H in Hin. by apply elem_of_nil in Hin.
Qed.
Lemma drop_added n e (k : kont) (p : bpage modal kont) :
  waiting n e p = [] → drop_wait n e (add_wait n e k p) = p.
Proof.
  intros H. apply drop_none in H. revert H. unfold drop_wait, add_wait. destruct p as [d l w da f]. cbn.
  intros [= H]. rewrite filter_app, H. rewrite filter_cons_False by naive_solver. by rewrite app_nil_r.
Qed.
Lemma fire_quiet n (p : bpage modal kont) : waiting n TRANSITION_END p = [] → (fire resume n TRANSITION_END p).1 = p.
Proof. intros H. by rewrite fire_none, drop_none. Qed.
Lemma fire_waiting n k (p : bpage modal kont) :
  waiting n TRANSITION_END p = [] →
  (fire resume n TRANSITION_END (add_wait n TRANSITION_END k p)).1 = (resume k p).1.
Proof.
  intros H. rewrite (fire_single resume n TRANSITION_END k); [by rewrite drop_added|].
  by rewrite waiting_add, H, bool_decide_true.
Qed.

(** The element itself, after the backdrop. *)
Lemma element_settled el related m cfg dlg b tr q :
  pdata q !! el = Some m → core m = (cfg, Some dlg, Some b, true, tr) →
  home el (pdoc q) → el ≠ dlg → el ≠ body → el ≠ b → b ≠ body →
  (∀ n, waiting n TRANSITION_END q = []) → Dom.hasClass (pdoc q) body "modal-open" = true →
  Dom.hasClass (pdoc q) b "show" = true → Dom.parent (pdoc q) b = Some body → Dom.children (pdoc q) b = [] →
  let p' := (fire resume dlg TRANSITION_END (_showElement el related q).1).1 in
  (∃ m', opened el dlg b m' p' ∧ _config m' = cfg) ∧ plog p' = plog q ++ shown_events cfg el related ∧
  same_nodes b (pdoc q) (pdoc p').
Proof.
  intros Hm Hc (Hel & Hbody & Hpar) Hd1 Hd2 Hd3 Hd4 Hw Hbo Hb1 Hb2 Hb3 p'.
  destruct (element_run el related m cfg dlg b tr q Hm Hc Hpar) as (q1 & m1 & E1 & Hm1 & Hc1 & Hl1 & Hw1 & Hdoc).
  assert (Hq : ∀ n, waiting n TRANSITION_END q1 = []) by (intros n; unfold waiting in *; by rewrite Hw1).
  assert (Hp : p' = (transitionComplete el related q1).1).
  { subst p'. rewrite E1. destruct (fading el (pdoc q)); cbn [fst]; [by rewrite fire_waiting|].
    rewrite (complete_modal_run el related m1) by done. cbn [fst]. apply fire_quiet. unfold waiting in *. cbn. apply Hq. }
  rewrite Hc in Hc1. injection Hc1 as H1 H2 H3 H4 H5.
  rewrite Hp, (complete_modal_run el related m1) by done. cbn [fst plog]. rewrite Hl1, H1.
  assert (Hsame : same_nodes b (pdoc q) (element_doc el (pdoc q))).
  { apply (same_quiet (λ n c, n = el ∧ c = "show")). unfold element_doc.
    eapply quiet_trans; [|by apply quiet_class]. eapply quiet_trans; by apply quiet_alter. }
  split; [|split; [done|cbn [pdoc]; by rewrite Hdoc]].
  exists (set_transitioning false m1). split; [|done]. split; cbn [pdoc pdata]; rewrite ?Hdoc; unfold element_doc.
  - apply lookup_insert_eq.
  - unfold core. cbn. by rewrite H2, H3, H4.
  - apply Dom.hasClass_add_same. by rewrite Dom.present_removeAttribute, Dom.present_css.
  - rewrite Dom.getStyle_addClass. unfold Dom.removeAttribute. rewrite Dom.getStyle_alter by done.
    by rewrite Dom.getStyle_css_same by done.
  - rewrite Dom.hasClass_add_other, Dom.hasClass_removeAttribute, Dom.hasClass_css by naive_solver. done.
  - rewrite Dom.hasClass_add_other, Dom.hasClass_removeAttribute, Dom.hasClass_css by naive_solver.
    rewrite Dom.parent_addClass, Dom.parent_removeAttribute, Dom.parent_css.
    rewrite Dom.children_addClass, Dom.children_removeAttribute. unfold Dom.css. by rewrite Dom.children_alter.
  - done.
  - eapply same_home; [exact Hsame|done|done|done].
  - intros n. unfold waiting in *. cbn. apply Hq.
Qed.

Lemma open_settled el dlg related m p :
  closed el dlg m p → body ≠ dlg →
  let p1 := (show el related p).1 in
  ∃ b, (_backdrop <$> pdata p1 !! el) = Some (Some b) ∧
    let p2 := (fire resume b TRANSITION_END p1).1 in
    let p3 := (fire resume dlg TRANSITION_END p2).1 in
    (∃ m', opened el dlg b m' p3 ∧ _config m' = _config m) ∧
    plog p3 = plog p ++ [Ev el "show.bs.modal" [("relatedTarget", ANode related)]] ++
      shown_events (_config m) el related ∧
    pdoc p !! b = None ∧ same_nodes b (pdoc p) (pdoc p3).
Proof.
  intros Hcl Hbd p1.
  destruct (show_prefix el dlg related m p Hcl) as (q & m1 & E1 & Hm1 & Hc1 & Hl1 & Hw1 & Hquiet & Hbo).
  pose proof Hquiet as (Hq1 & Hq2 & Hq3).
  destruct Hcl as [Hm Hdlg Hb Hs Ht Ho Hel Hbody Hpar [Hd1 Hd2] Hw].
  destruct (backdrop_run el related m1 _ _ _ q Hm1 Hc1 Ho) as (q1 & m2 & b & E2 & Hm2 & Hc2 & Hl2 & Hw2 & (Hbn & Hbp & Hbs & Hbc & Hrest));
    [by apply Hq1|].
  assert (Hne : ∀ n, is_Some (pdoc p !! n) → n ≠ b)
    by (intros n Hn ->; apply Hq1 in Hn as [? Hn]; congruence).
  assert (Hw3 : ∀ n, waiting n TRANSITION_END q1 = []) by (intros n; unfold waiting in *; by rewrite Hw2, Hw1).
  destruct (Hrest el (Hne el Hel)) as (R1 & R2 & R3). destruct (Hrest body (Hne body Hbody)) as (_ & _ & R4).
  destruct (element_settled el related m2 _ _ _ _ q1 Hm2 Hc2) as (Hop & Hlog & Hsame); try done.
  { split; [by apply R1, Hq1|]. split; [by apply (Hrest body (Hne body Hbody)), Hq1|by rewrite R2, Hq2]. }
  { by apply Hne. }
  { intros Hx. by apply (Hne body Hbody). }
  { by rewrite R4. }
  assert (Hgone : pdoc p !! b = None) by (apply eq_None_not_Some; intros Hx; by apply (Hne b Hx)).
  assert (Hall : same_nodes b (pdoc p) (pdoc q1)).
  { etrans; [by apply (same_quiet opening)|]. intros n Hn. by destruct (Hrest n Hn) as (? & ? & _). }
  exists b. subst p1. rewrite E1, E2.
  assert (Hlog' : ∀ l : bpage modal kont, plog l = plog q1 ++ shown_events (_config m) el related → plog l = plog p ++
    [Ev el "show.bs.modal" [("relatedTarget", ANode related)]] ++ shown_events (_config m) el related)
    by (intros l ->; by rewrite Hl2, Hl1, <- app_assoc).
  destruct (fading el (pdoc q)) eqn:Ef; cbn [fst].
  - split; [cbn [pdata add_wait]; rewrite Hm2; injection Hc2 as _ _ Hbk _ _; cbn; by rewrite Hbk|].
    cbv zeta. rewrite fire_waiting by done. cbn [resume]. split; [exact Hop|]. split; [by apply Hlog'|]. split; [exact Hgone|]. by etrans.
  - assert (Hsync : (fire resume dlg TRANSITION_END (_showElement el related q1).1).1 = (_showElement el related q1).1 ∧
      (fire resume b TRANSITION_END (_showElement el related q1).1).1 = (_showElement el related q1).1 ∧
      (_backdrop <$> pdata (_showElement el related q1).1 !! el) = Some (Some b)).
    { destruct (element_run el related m2 _ _ _ _ q1 Hm2 Hc2) as (q2 & m3 & E3 & Hm3 & Hc3 & _ & Hw4 & _); [by rewrite R2, Hq2|].
      assert (Hf1 : fading el (pdoc q1) = false) by (unfold fading in *; by rewrite R3).
      rewrite E3, Hf1, (complete_modal_run el related m3) by done. cbn [fst].
      rewrite !fire_quiet by (unfold waiting in *; cbn; by rewrite Hw4, Hw2, Hw1). split_and!; [done|done|].
      cbn. rewrite lookup_insert_eq. rewrite Hc2 in Hc3. injection Hc3 as _ _ Hbk _ _. cbn. by rewrite Hbk. }
    destruct Hsync as (S1 & S2 & S3). split; [exact S3|]. cbv zeta. rewrite S2. split; [exact Hop|]. split; [by apply Hlog'|]. split; [exact Hgone|]. by etrans.
Qed.

(** Opening a closed modal comes to rest: once the transitions of its
    backdrop and of its dialog have been reported, the modal is shown, its
    backdrop is under the body, the body carries the class that keeps it from
    scrolling, no transition is pending, and the last event is shown. *)
Theorem modal_opens el dlg related m p :
  closed el dlg m p → body ≠ dlg →
  let p1 := (show el related p).1 in
  ∃ b, (_backdrop <$> pdata p1 !! el) = Some (Some b) ∧
    let p2 := (fire resume b TRANSITION_END p1).1 in
    let p3 := (fire resume dlg TRANSITION_END p2).1 in
    (∃ m', opened el dlg b m' p3) ∧
    plog p3 = plog p ++ [Ev el "show.bs.modal" [("relatedTarget", ANode related)]] ++
      shown_events (_config m) el related.
Proof.
  intros Hc Hb p1. destruct (open_settled el dlg related m p Hc Hb) as (b & H1 & (m' & H2 & _) & H3 & _).
  exists b. split; [exact H1|]. split; [by exists m'|exact H3].
Qed.

(** ** Closing *)

(** [hide], up to the end of the transition of the element. *)
Lemma hide_modal_run el dlg b m p :
  opened el dlg b m p →
  ∃ q m1, hide el p = (if fading el (pdoc p) then one el TRANSITION_END (HideModal el) else _hideModal el) q ∧
    pdata q !! el = Some m1 ∧ core m1 = (_config m, Some dlg, Some b, false, fading el (pdoc p)) ∧
    plog q = plog p ++ [Ev el "hide.bs.modal" []] ∧ pwait q = pwait p ∧
    pdoc q = Dom.removeClass "show" el (pdoc p).
Proof.
  intros [Hm Hc _ _ _ _ _ _ _]. injection Hc as H2 H3 H4 H5. unfold hide. mstep. unfold id. rewrite H4, H5. cbn [orb negb].
  erewrite bind_ret by (by apply trigger_calm). mstep. rewrite H4. cbn [orb negb]. mstep. unfold fades. mstep.
  change (supportsTransitionEnd && Dom.hasClass _ el "fade") with (fading el (pdoc p)).
  set (m0 := if fading el (pdoc p) then set_transitioning true (set_shown false m) else set_shown false m).
  set (q0 := with_modal el m0 (add_log (Ev el "hide.bs.modal" []) p)).
  erewrite bind_ret.
  2: { instantiate (1 := ()). instantiate (1 := q0). unfold q0, m0. destruct (fading el (pdoc p)); cbn [mguard].
       - erewrite upd_known by known. by rewrite with_modal_twice.
       - done. }
  assert (Hm0 : core m0 = (_config m, Some dlg, Some b, false, fading el (pdoc p)))
    by (unfold m0, core; destruct (fading el (pdoc p)); cbn; by rewrite H2, H3, ?H5).
  edestruct (escape_run el m0 q0) as (m1 & E1 & Hc1); [|rewrite (bind_ret _ _ _ _ _ E1)]; [apply lookup_insert_eq|].
  edestruct resize_run as (m2 & E2 & Hc2); [|rewrite (bind_ret _ _ _ _ _ E2)]; [known|].
  mstep. rewrite (bind_ret _ _ _ _ _ (doc_op_run _ _)). do 2 mstep.
  eexists _, _. split; [reflexivity|]. split; [known|]. split; [|done].
  transitivity (core m2); [done|]. by rewrite Hc2, Hc1.
Qed.

Lemma remove_leaf b d m : Dom.children d b = [] → Dom.parent d b ≠ Some b → m ≠ b →
  (∀ c, Dom.hasClass (Dom.remove b d) m c = Dom.hasClass d m c) ∧
  (∀ s, Dom.getStyle (Dom.remove b d) m s = Dom.getStyle d m s) ∧
  (is_Some (Dom.remove b d !! m) ↔ is_Some (d !! m)) ∧ Dom.parent (Dom.remove b d) m = Dom.parent d m.
Proof.
  intros Hc Hp Hm. unfold Dom.remove.
  assert (Hch : Dom.children (Dom.detach b d) b = []).
  { unfold Dom.detach. destruct (Dom.parent d b) as [q|] eqn:Eq; [|done]. rewrite Dom.children_alter by done.
    unfold Dom.children. rewrite lookup_alter_ne by congruence. exact Hc. }
  assert (Hd : Dom.descendants (Dom.detach b d) b = []).
  { unfold Dom.descendants. destruct (size _); [done|]. cbn. by rewrite Hch. }
  rewrite Hd. cbn [foldl].
  split; [|split; [|split]]; [intros c|intros c| |].
  - rewrite <- (Dom.hasClass_detach b d). unfold Dom.hasClass. by rewrite lookup_delete_ne by congruence.
  - unfold Dom.getStyle. rewrite lookup_delete_ne by congruence. unfold Dom.detach.
    destruct (Dom.parent d b); [|done]. rewrite !lookup_alter. repeat case_decide; subst; try done; by destruct (d !! _).
  - rewrite lookup_delete_ne by congruence. apply Dom.present_detach.
  - unfold Dom.parent at 1. rewrite lookup_delete_ne by congruence. fold (Dom.parent (Dom.detach b d) m).
    rewrite Dom.parent_detach. by rewrite bool_decide_false by congruence.
Qed.

(** A closed modal at rest. *)
Record at_rest (el dlg : nid) (m : modal) (p : bpage modal kont) : Prop := {
  a_modal : pdata p !! el = Some m;
  a_core : core m = (_config m, Some dlg, None, false, false);
  a_element : Dom.hasClass (pdoc p) el "show" = false;
  a_display : Dom.getStyle (pdoc p) el "display" = Some "none";
  a_body : Dom.hasClass (pdoc p) body "modal-open" = false;
  a_home : home el (pdoc p);
  a_waits : ∀ n, waiting n TRANSITION_END p = []
}.

(** The end of the transition of the backdrop. *)
Definition closed_doc (el b : nid) (d : dom) : dom :=
  _resetScrollbar (_resetAdjustments el (Dom.removeClass "modal-open" body (Dom.remove b d))).
Lemma remove_run el b m q :
  pdata q !! el = Some m → _backdrop m = Some b →
  callbackRemove el q =
    (BPage (closed_doc el b (pdoc q)) (plog q ++ [Ev el "hidden.bs.modal" []]) (pwait q)
       (<[el := set_backdrop None m]> (pdata q)) (pfresh q), Ret ()).
Proof.
  intros Hm Hb. unfold callbackRemove.
  erewrite bind_ret.
  2: { unfold _removeBackdrop. mstep. rewrite Hb. rewrite (bind_ret _ _ _ _ _ (doc_op_run _ _)). apply upd_known. known. }
  unfold hidden_callback. rewrite !(bind_ret _ _ _ _ _ (doc_op_run _ _)). erewrite bind_ret by (by apply trigger_calm). done.
Qed.

Lemma style_restore_display p n d m : p ≠ "display" → Dom.getStyle (restore p n d) m "display" = Dom.getStyle d m "display".
Proof. intros Hp. apply restore_style_other. naive_solver. Qed.
Lemma style_each_restore p ns d m :
  p ≠ "display" → Dom.getStyle (Dom.each (restore p) ns d) m "display" = Dom.getStyle d m "display".
Proof.
  intros Hp. unfold Dom.each. revert d; induction ns as [|n ns IH]; intros d; [done|]. simpl. rewrite IH.
  by apply style_restore_display.
Qed.

Lemma closed_doc_facts el b d :
  Dom.children d b = [] → Dom.parent d b ≠ Some b → el ≠ b → body ≠ b → el ≠ body →
  Dom.hasClass (closed_doc el b d) el "show" = Dom.hasClass d el "show" ∧
  Dom.getStyle (closed_doc el b d) el "display" = Dom.getStyle d el "display" ∧
  Dom.hasClass (closed_doc el b d) body "modal-open" = false ∧ closed_doc el b d !! b = None ∧
  same_nodes b d (closed_doc el b d).
Proof.
  intros Hc Hp Hel Hbo Hne. unfold closed_doc.
  destruct (quiet_resetScrollbar (λ _ _, False) (_resetAdjustments el (Dom.removeClass "modal-open" body (Dom.remove b d))))
    as (Hpr & _ & Hq). rewrite !Hq by naive_solver. unfold _resetAdjustments. rewrite !Dom.hasClass_css.
  destruct (remove_leaf b d el Hc Hp Hel) as (R1 & R2 & _).
  rewrite Dom.hasClass_remove_same, Dom.hasClass_remove_other, R1 by naive_solver. split; [done|]. split; [|split; [done|split]].
  - unfold _resetScrollbar. rewrite style_restore_display, !style_each_restore by done.
    rewrite !Dom.getStyle_css_other by naive_solver. by rewrite Dom.getStyle_removeClass, R2.
  - apply eq_None_not_Some. rewrite Hpr. unfold _resetAdjustments. rewrite !Dom.present_css, Dom.present_removeClass.
    rewrite Bs.Alert.remove_lookup. by intros [? [=]].
  - etrans; [|apply (same_quiet (λ _ _, False)), quiet_resetScrollbar]. unfold _resetAdjustments.
    etrans; [|apply (same_quiet (λ _ _, True)); eapply quiet_trans; by apply quiet_alter].
    etrans; [|apply (same_quiet (λ _ _, True)), quiet_class; done].
    intros n Hn. destruct (remove_leaf b d n Hc Hp Hn) as (_ & _ & R3 & R4). done.
Qed.

(** [_hideModal] and the end of the transition of the backdrop. *)
Lemma hidden_settled el dlg b m cfg tr q :
  pdata q !! el = Some m → core m = (cfg, Some dlg, Some b, false, tr) →
  home el (pdoc q) → el ≠ body → el ≠ b → b ≠ body → (∀ n, waiting n TRANSITION_END q = []) →
  Dom.hasClass (pdoc q) el "show" = false → Dom.children (pdoc q) b = [] → Dom.parent (pdoc q) b = Some body →
  let p' := (fire resume b TRANSITION_END (_hideModal el q).1).1 in
  (∃ m', at_rest el dlg m' p' ∧ _config m' = cfg) ∧ pdoc p' !! b = None ∧
  plog p' = plog q ++ [Ev el "hidden.bs.modal" []] ∧ same_nodes b (pdoc q) (pdoc p') ∧
  (fading el (pdoc q) = false → ∀ n, waiting n TRANSITION_END (_hideModal el q).1 = []).
Proof.
  intros Hm Hc Hhome Hd2 Hd3 Hd4 Hw Hs Hch Hpar p'. pose proof (proj1 Hhome) as Hel. injection Hc as H1 H2 H3 H4 H5.
  set (m1 := set_transitioning false m).
  set (d1 := Dom.removeClass "show" b (Dom.setAttribute "aria-hidden" "true" el (Dom.css "display" "none" el (pdoc q)))).
  set (q1 := BPage d1 (plog q) (pwait q) (<[el := m1]> (pdata q)) (pfresh q)).
  assert (Hw1 : ∀ n, waiting n TRANSITION_END q1 = []) by done.
  assert (E1 : _hideModal el q = if fading el (pdoc q) then (add_wait b TRANSITION_END (RemoveBackdrop el) q1, Ret ())
    else callbackRemove el q1).
  { unfold _hideModal. rewrite (bind_ret _ _ _ _ _ (doc_op_run _ _)). mstep. unfold _showBackdrop_hide. mstep. unfold id.
    cbn [_isShown _backdrop set_transitioning m1]. rewrite H4, H3. rewrite (bind_ret _ _ _ _ _ (doc_op_run _ _)).
    unfold fades. mstep. unfold fading. cbn [pdoc on_doc with_modal].
    rewrite Dom.hasClass_remove_other, Dom.hasClass_setAttribute, Dom.hasClass_css by naive_solver.
    by destruct (supportsTransitionEnd && _). }
  pose proof (remove_run el b m1 q1 (lookup_insert_eq _ _ _) H3) as E2. set (q2 := BPage _ _ _ _ _) in E2.
  assert (Hp : p' = q2).
  { subst p'. rewrite E1. destruct (fading el (pdoc q)); cbn [fst]; [rewrite fire_waiting by done; cbn [resume]; by rewrite E2|].
    rewrite E2. cbn [fst]. apply fire_quiet. apply Hw1. }
  destruct (closed_doc_facts el b d1) as (F1 & F2 & F3 & F4 & F5); try done.
  { unfold d1. rewrite Dom.children_removeClass, Dom.children_setAttribute. unfold Dom.css. by rewrite Dom.children_alter. }
  { unfold d1. rewrite Dom.parent_removeClass, Dom.parent_setAttribute, Dom.parent_css. congruence. }
  assert (Hsame : same_nodes b (pdoc q) (closed_doc el b d1)).
  { etrans; [|exact F5]. apply (same_quiet (λ _ _, True)). unfold d1. eapply quiet_trans; [|by apply quiet_class].
    eapply quiet_trans; by apply quiet_alter. }
  rewrite Hp. split; [|split; [exact F4|split; [done|split; [exact Hsame|]]]].
  2: { intros Hf n. rewrite E1, Hf, E2. apply Hw1. }
  exists (set_backdrop None m1). split; [|done]. split.
  - cbn. by rewrite insert_insert_eq, lookup_insert_eq.
  - unfold core. cbn. by rewrite H2, H4.
  - cbn. rewrite F1. unfold d1. rewrite Dom.hasClass_remove_other, Dom.hasClass_setAttribute, Dom.hasClass_css by naive_solver. done.
  - cbn. rewrite F2. unfold d1. rewrite Dom.getStyle_removeClass, Dom.getStyle_setAttribute. by rewrite Dom.getStyle_css_same.
  - exact F3.
  - eapply same_home; [exact Hsame|done|done|done].
  - intros n. apply Hw1.
Qed.

Lemma close_settled el dlg b m p :
  opened el dlg b m p →
  let p1 := (fire resume el TRANSITION_END (hide el p).1).1 in
  let p2 := (fire resume b TRANSITION_END p1).1 in
  (∃ m', at_rest el dlg m' p2 ∧ _config m' = _config m) ∧ pdoc p2 !! b = None ∧
  plog p2 = plog p ++ [Ev el "hide.bs.modal" []; Ev el "hidden.bs.modal" []] ∧ same_nodes b (pdoc p) (pdoc p2).
Proof.
  intros Ho p1 p2. destruct (hide_modal_run el dlg b m p Ho) as (q & m1 & E1 & Hm1 & Hc1 & Hl1 & Hw1 & Hd1).
  destruct Ho as [Hm Hc Hsh Hdi Hbo (Hb1 & Hb2 & Hb3) (Hn1 & Hn2 & Hn3 & Hn4) Hhome Hw].
  assert (Hwq : ∀ n, waiting n TRANSITION_END q = []) by (intros n; unfold waiting in *; by rewrite Hw1).
  assert (Hs1 : same_nodes b (pdoc p) (Dom.removeClass "show" el (pdoc p)))
    by (apply (same_quiet (λ _ _, True)); by apply quiet_class).
  destruct (hidden_settled el dlg b m1 _ _ q Hm1 Hc1) as (Hrest & Hgone & Hlog & Hsame & Hnow); try done.
  { rewrite Hd1. eapply same_home; [apply Hs1|done|done|exact Hhome]. }
  { rewrite Hd1. apply Dom.hasClass_remove_same. }
  { rewrite Hd1. by rewrite Dom.children_removeClass. }
  { rewrite Hd1. by rewrite Dom.parent_removeClass. }
  assert (Hp : p1 = (_hideModal el q).1).
  { subst p1. rewrite E1. destruct (fading el (pdoc p)) eqn:Ef.
    - by apply (fire_waiting el (HideModal el) q).
    - apply fire_quiet, Hnow. rewrite Hd1. unfold fading. rewrite Dom.hasClass_remove_other by naive_solver. exact Ef. }
  subst p2. rewrite Hp. split; [exact Hrest|]. split; [exact Hgone|].
  split; [rewrite Hlog, Hl1; by rewrite <- app_assoc|]. etrans; [exact Hs1|]. by rewrite <- Hd1.
Qed.

(** Closing an open modal comes to rest: once the transitions of the dialog
    and of the backdrop have been reported, the modal is not displayed, its
    backdrop is out of the document, the body may scroll again, no transition is
    pending, and the events were hide and hidden. *)
Theorem modal_closes el dlg b m p :
  opened el dlg b m p →
  let p1 := (fire resume el TRANSITION_END (hide el p).1).1 in
  let p2 := (fire resume b TRANSITION_END p1).1 in
  (∃ m', at_rest el dlg m' p2 ∧ _config m' = _config m) ∧ pdoc p2 !! b = None ∧
  plog p2 = plog p ++ [Ev el "hide.bs.modal" []; Ev el "hidden.bs.modal" []].
Proof. intros Ho p1 p2. destruct (close_settled el dlg b m p Ho) as (H1 & H2 & H3 & _). done. Qed.

(** ** Again and again *)

(** A user opens and closes the modal; the browser reports all transitions. *)
Definition cycle (el dlg : nid) (related : option nid) (p : bpage modal kont) : bpage modal kont :=
  let p1 := (show el related p).1 in
  let b := default el (pdata p1 !! el ≫= _backdrop) in
  let p3 := (fire resume dlg TRANSITION_END (fire resume b TRANSITION_END p1).1).1 in
  (fire resume b TRANSITION_END (fire resume el TRANSITION_END (hide el p3).1).1).1.
Definition cycle_events (cfg : options) (el : nid) (related : option nid) : list ev :=
  [Ev el "show.bs.modal" [("relatedTarget", ANode related)]] ++ shown_events cfg el related ++
  [Ev el "hide.bs.modal" []; Ev el "hidden.bs.modal" []].

Lemma cycle_settled el dlg related m p :
  closed el dlg m p → body ≠ dlg →
  ∃ m', closed el dlg m' (cycle el dlg related p) ∧ at_rest el dlg m' (cycle el dlg related p) ∧ _config m' = _config m ∧
    (∀ n, is_Some (pdoc (cycle el dlg related p) !! n) ↔ is_Some (pdoc p !! n)) ∧
    plog (cycle el dlg related p) = plog p ++ cycle_events (_config m) el related.
Proof.
  intros Hc Hb. destruct (open_settled el dlg related m p Hc Hb) as (b & Hbk & (m1 & Ho & Hc1) & Hl1 & Hb1 & Hn1).
  unfold cycle. cbv zeta in *. set (p1 := (show el related p).1) in *.
  assert (Hbd : default el (pdata p1 !! el ≫= _backdrop) = b).
  { destruct (pdata p1 !! el) as [x|]; [|done]. simpl in *. by injection Hbk as ->. }
  rewrite Hbd. set (p3 := (fire resume dlg _ _).1) in *.
  destruct (close_settled el dlg b m1 p3 Ho) as ((m2 & Hr & Hc2) & Hb2 & Hl2 & Hn2). cbv zeta in *.
  set (p5 := (fire resume b _ _).1) in *. exists m2. destruct Hc as [Hm Hdlg Hbn Hs Ht Hopt Hel Hbody Hpar Hdiff Hw].
  split; [|split; [done|split; [congruence|split]]].
  - destruct Hr as [A1 A2 A3 A4 A5 (A6 & A7 & A8) A9]. injection A2 as Hd' Hb' Hs' Ht'. split; try done. congruence.
  - intros n. destruct (decide (n = b)) as [->|Hne]; [by rewrite Hb1, Hb2|].
    rewrite (proj1 (Hn2 n Hne)). apply (proj1 (Hn1 n Hne)).
  - rewrite Hl2, Hl1. unfold cycle_events. by rewrite <- !app_assoc.
Qed.

(** C12. A modal can be opened and closed any number of times: after every round it
    is closed, at rest and ready for the next one, no node has been left behind
    or lost, and the events are those of the rounds. *)
Theorem modal_cycles el dlg related m p k :
  closed el dlg m p → body ≠ dlg →
  let p' := Nat.iter k (cycle el dlg related) p in
  (∃ m', closed el dlg m' p' ∧ (k = 0%nat ∨ at_rest el dlg m' p') ∧ _config m' = _config m) ∧
  (∀ n, is_Some (pdoc p' !! n) ↔ is_Some (pdoc p !! n)) ∧
  plog p' = plog p ++ mjoin (replicate k (cycle_events (_config m) el related)).
Proof.
  intros Hc Hb p'. subst p'. induction k as [|k ((m1 & Hc1 & _ & Hcf) & Hn & Hl)].
  { split; [exists m; auto|]. split; [done|]. by rewrite app_nil_r. }
  simpl Nat.iter. set (q := Nat.iter k (cycle el dlg related) p) in *.
  destruct (cycle_settled el dlg related m1 q Hc1 Hb) as (m2 & H1 & H2 & H3 & H4 & H5).
  split; [exists m2; split; [done|]; split; [by right|congruence]|]. split; [intros n; by rewrite H4|].
  rewrite H5, Hl, Hcf, replicate_S_end, join_app, <- app_assoc. simpl. by rewrite app_nil_r.
Qed.

End open.

(** ** A page with a fading modal *)

Definition page_doc : dom := {[
  1%nat := Elem "body" "" [] ∅ ∅ None [2%nat];
  2%nat := Elem "div" "" ["modal"; "fade"] ∅ ∅ (Some 1%nat) [3%nat];
  3%nat := Elem "div" "" ["modal-dialog"] ∅ ∅ (Some 2%nat) []
]}.
Definition page : bpage modal kont :=
  (construct 2 (Options (Util.OBool true) true true) (BPage page_doc [] [] ∅ 0)).1.
Definition page_modal : modal := MkModal (Options (Util.OBool true) true true) (Some 3%nat) None false false false false 0 [].

Lemma page_closed : closed (L:=sample_layout) 2 3 page_modal page.
Proof. split; try done; by eexists. Qed.

Lemma modal_opens_witness :
  let p1 := (show (B:=plain_browser) (L:=sample_layout) 2 None page).1 in
  ∃ b, (_backdrop <$> pdata p1 !! 2%nat) = Some (Some b) ∧
    let p3 := (fire (resume (B:=plain_browser) (L:=sample_layout)) 3 TRANSITION_END
      (fire (resume (B:=plain_browser) (L:=sample_layout)) b TRANSITION_END p1).1).1 in
    ∃ m, opened (L:=sample_layout) 2 3 b m p3.
Proof.
  destruct (modal_opens (B:=plain_browser) (L:=sample_layout) ltac:(done) 2 3 None page_modal page page_closed)
    as (b & Hb & Ho & _); [done|].
  exists b. split; [exact Hb|exact Ho].
Defined.

(** The same page with the modal open. *)
Definition open_doc : dom := {[
  1%nat := Elem "body" "" ["modal-open"] ∅ ∅ None [2%nat; 4%nat];
  2%nat := Elem "div" "" ["modal"; "fade"; "show"] ∅ {[ "display" := "block" ]} (Some 1%nat) [3%nat];
  3%nat := Elem "div" "" ["modal-dialog"] ∅ ∅ (Some 2%nat) [];
  4%nat := Elem "div" "" ["modal-backdrop"; "fade"; "show"] ∅ ∅ (Some 1%nat) []
]}.
Definition open_modal : modal :=
  MkModal (Options (Util.OBool true) true true) (Some 3%nat) (Some 4%nat) true false false false 0 [].
Definition open_page : bpage modal kont := BPage open_doc [] [] {[ 2%nat := open_modal ]} 0.

Lemma modal_closes_witness :
  let r := fire (resume (B:=plain_browser) (L:=sample_layout)) in
  let p2 := (r 4%nat TRANSITION_END (r 2%nat TRANSITION_END (hide (B:=plain_browser) (L:=sample_layout) 2 open_page).1).1).1 in
  pdoc p2 !! 4%nat = None ∧ ∃ m, at_rest (L:=sample_layout) 2 3 m p2.
Proof.
  destruct (modal_closes (B:=plain_browser) (L:=sample_layout) ltac:(done) 2 3 4 open_modal open_page)
    as ((m & Hm & _) & Hb & _); [by split; try done; split_and!; by eexists|].
  split; [exact Hb|]. by exists m.
Defined.

Lemma modal_cycles_witness :
  let p' := Nat.iter 3 (cycle (B:=plain_browser) (L:=sample_layout) 2 3 None) page in
  (∃ m, at_rest (L:=sample_layout) 2 3 m p') ∧ length (plog p') = 15%nat.
Proof.
  intros p'. assert (Hne : body (ModalLayout:=sample_layout) ≠ 3%nat) by done.
  pose proof (modal_cycles (B:=plain_browser) (L:=sample_layout) (λ _ _ _, eq_refl) 2 3 None page_modal page 3 page_closed Hne) as H.
  cbv zeta in H. fold p' in H. clearbody p'. destruct H as ((m & _ & Hm & _) & _ & Hl).
  split; [exists m; by destruct Hm|]. rewrite Hl. reflexivity.
Defined.

End ModalLife.
