(* ===== verification/ModalFocus.v ===== *)
(** * Modal: the focus goes back to the toggle, bootstrap.js lines 2403 to 2418

    A click on a toggle hangs a listener on the modal that waits for the next
    show event; that one hangs another, which waits for the next hidden event
    and gives the focus back to the toggle if it is visible.  Both run once.
    They read the events of the modal and do not touch it, so that the page is
    the page of the modal, next to the listeners that wait. *)

From S2P Require Import Prelude Dom Bs Modal ModalLife.
Local Open Scope string_scope.
Local Open Scope list_scope.

Create HintDb log.

Module ModalFocus.
Import Modal ModalLife.

(** Pairs of a modal and of a toggle, and the toggles that got the focus back. *)
Record restorers := Restorers {
  on_show : list (nid * nid);
  on_hidden : list (nid * nid);
  restored : list nid
}.
Record fpage := FPage { fp : bpage modal kont; fr : restorers }.

Section focus.
Context `{B : Browser, L : ModalLayout}.
(** [$(el).is(':visible')] *)
Context (visible : dom → nid → bool).

(** An event bubbles up to the element. *)
Definition reaches (d : dom) (e : ev) (t : nid) : bool :=
  bool_decide (is_Some (Dom.closest (λ _ m, bool_decide (m = t)) d (ev_target e))).

(** Lines 2403 to 2418: what the listeners do at an event.  Whether a show event
    is prevented is known before anything has changed; the hidden event is the
    last thing that happens. *)
Definition hear (before after : dom) (r : restorers) (e : ev) : restorers :=
  let mine := filter (λ x : nid * nid, reaches after e x.1 = true) in
  let others := filter (λ x : nid * nid, reaches after e x.1 = false) in
  if bool_decide (ev_type e = "show.bs.modal") then
    Restorers (others (on_show r))
      (on_hidden r ++ if prevents before (ev_target e) (ev_type e) then [] else mine (on_show r)) (restored r)
  else if bool_decide (ev_type e = "hidden.bs.modal") then
    Restorers (on_show r) (others (on_hidden r))
      (restored r ++ filter (λ s, visible after s = true) (mine (on_hidden r)).*2)
  else r.

(** An operation of the modal, with the listeners. *)
Definition heard (f : modM ()) (x : fpage) : fpage :=
  let p' := (f (fp x)).1 in
  FPage p' (foldl (hear (pdoc (fp x)) (pdoc p')) (fr x) (drop (length (plog (fp x))) (plog p'))).

(** Lines 2391 to 2421: a click on a toggle. *)
Definition wait_show (t self : nid) (r : restorers) : restorers :=
  Restorers (on_show r ++ [(t, self)]) (on_hidden r) (restored r).
Definition click (self : nid) (x : fpage) : fpage :=
  match Util.target_of (pdoc (fp x)) self with
  | Some t => heard (on_click self) (FPage (fp x) (wait_show t self (fr x)))
  | None => heard (on_click self) x
  end.

(** The browser reports transitions. *)
Definition report (n : nid) : modM () := fire resume n TRANSITION_END.
Definition settle (ns : list nid) (x : fpage) : fpage := foldl (λ x n, heard (report n) x) x ns.
Definition backdrop_of (el : nid) (x : fpage) : nid := default el (pdata (fp x) !! el ≫= _backdrop).

(** ** Operations only add to the log *)

Definition logs (l : list ev) (p : bpage modal kont) : Prop := l `prefix_of` plog p.

Lemma logs_self p : logs (plog p) p.
Proof. unfold logs. reflexivity. Qed.
Lemma logs_same l f : (∀ p, plog (f p) = plog p) → keeps (logs l) (mupdate f).
Proof. intros Hf. apply keeps_update. intros p. unfold logs. by rewrite Hf. Qed.
Lemma logs_this {A} l el (f : modal → A) : keeps (logs l) (this el f).
Proof. intros p Hp. unfold this. by destruct (pdata p !! el). Qed.
Lemma logs_trigger l e a n : keeps (logs l) (trigger e a n).
Proof.
  apply keeps_bind; [apply keeps_get|intros pr]. apply keeps_bind; [|intros _; apply keeps_ret].
  apply keeps_update. intros p. unfold logs. apply prefix_app_r.
Qed.

Ltac grow_step := lazymatch goal with
  | |- keeps _ (mret _) => apply keeps_ret
  | |- keeps _ (mthrow _) => apply keeps_throw
  | |- keeps _ (mget _) => apply keeps_get
  | |- keeps _ (this _ _) => apply logs_this
  | |- keeps _ (trigger _ _ _) => apply logs_trigger
  | |- keeps _ (mguard _ _) => apply keeps_guard
  | |- keeps _ (mbind _ _) => apply keeps_bind
  | |- keeps _ (match ?x with _ => _ end) => destruct x
  | |- keeps _ (mupdate _) => by apply logs_same
  | |- keeps _ (upd _ _) => by apply logs_same
  | |- keeps _ (doc_op _) => by apply logs_same
  | |- keeps _ (one _ _ _) => by apply logs_same
  | |- keeps _ _ => solve [auto with log]
  | |- ∀ _, _ => intros ?
  end.
Ltac grow := repeat grow_step.

Lemma logs_complete l el r : keeps (logs l) (transitionComplete el r).
Proof. unfold transitionComplete. grow. Qed.
Lemma logs_focus l el : keeps (logs l) (_enforceFocus el).
Proof. unfold _enforceFocus. grow. Qed.
Lemma logs_hidden l el : keeps (logs l) (hidden_callback el).
Proof. unfold hidden_callback. grow. Qed.
#[local] Hint Resolve logs_complete logs_focus logs_hidden : log.
Lemma logs_remove l el : keeps (logs l) (callbackRemove el).
Proof. unfold callbackRemove, _removeBackdrop. grow. Qed.
#[local] Hint Resolve logs_remove : log.
Lemma logs_element l el r : keeps (logs l) (_showElement el r).
Proof. unfold _showElement, fades. grow. Qed.
Lemma logs_hideModal l el : keeps (logs l) (_hideModal el).
Proof. unfold _hideModal, _showBackdrop_hide, fades. grow. Qed.
#[local] Hint Resolve logs_element logs_hideModal : log.
Lemma logs_show l el r : keeps (logs l) (show el r).
Proof.
  unfold show, fades, _checkScrollbar, _setEscapeEvent, _setResizeEvent, _showBackdrop_show, add_backdrop. grow.
Qed.
Lemma logs_hide l el : keeps (logs l) (hide el).
Proof. unfold hide, fades, _setEscapeEvent, _setResizeEvent. grow. Qed.
#[local] Hint Resolve logs_show logs_hide : log.
Lemma logs_report l n : keeps (logs l) (report n).
Proof. unfold report, fire. grow. apply keeps_each. intros []; cbn [resume]; grow. Qed.
Lemma logs_construct l el o : keeps (logs l) (construct el o).
Proof. by intros p Hp. Qed.
#[local] Hint Resolve logs_construct : log.
Lemma logs_press l self : keeps (logs l) (on_click self).
Proof. unfold on_click, _jQueryInterface, toggle, handleUpdate, dispose. grow. Qed.

(** ** A round with one toggle *)

Section round.
Hypothesis calm : ∀ d n e, prevents d n e = false.
Context (el self : nid) (v : bool).
Hypothesis steady : ∀ d, visible d self = v.

(** The listeners of the toggle on the modal, and what they make of an event of
    the modal. *)
Definition owned (r : restorers) : Prop :=
  Forall (λ x, x = (el, self)) (on_show r) ∧ Forall (λ x, x = (el, self)) (on_hidden r).
Definition hear_own (r : restorers) (e : ev) : restorers :=
  if bool_decide (ev_type e = "show.bs.modal") then Restorers [] (on_hidden r ++ on_show r) (restored r)
  else if bool_decide (ev_type e = "hidden.bs.modal") then
    Restorers (on_show r) [] (restored r ++ if v then (on_hidden r).*2 else [])
  else r.

Lemma reaches_own d e : ev_target e = el → reaches d e el = true.
Proof. intros <-. apply bool_decide_true. unfold Dom.closest. cbn [Dom.closest_fuel]. rewrite bool_decide_true by done. by eexists. Qed.
Lemma filter_own d e b l : ev_target e = el → Forall (λ x, x = (el, self)) l →
  filter (λ x : nid * nid, reaches d e x.1 = b) l = if b then l else [].
Proof.
  intros He. induction 1 as [|x l -> Hl IH]; [by destruct b|]. rewrite filter_cons, IH. cbn [fst].
  rewrite (reaches_own _ _ He). by destruct b.
Qed.
Lemma filter_visible d l : Forall (λ x, x = (el, self)) l →
  filter (λ s, visible d s = true) l.*2 = if v then l.*2 else [].
Proof.
  induction 1 as [|x l -> Hl IH]; [by destruct v|]. rewrite fmap_cons, filter_cons. cbn [snd]. rewrite steady, IH. by destruct v.
Qed.

Lemma hear_owned d d' r e : owned r → ev_target e = el → hear d d' r e = hear_own r e ∧ owned (hear_own r e).
Proof.
  intros [Hs Hh] He. unfold hear, hear_own. rewrite calm, !filter_own, filter_visible by done.
  repeat case_bool_decide; (split; [done|]); split; cbn; try done. by apply Forall_app.
Qed.
Lemma hear_all d d' es r : owned r → Forall (λ e, ev_target e = el) es →
  foldl (hear d d') r es = foldl hear_own r es ∧ owned (foldl hear_own r es).
Proof.
  intros Hr Hes. revert r Hr. induction Hes as [|e es He Hes IH]; intros r Hr; [done|]. cbn [foldl].
  destruct (hear_owned d d' r e Hr He) as [-> Hr']. by apply IH.
Qed.

(** A sequence of operations whose events are all events of the modal. *)
Lemma run_heard (fs : list (modM ())) x es :
  (∀ f l, f ∈ fs → keeps (logs l) f) → owned (fr x) → Forall (λ e, ev_target e = el) es →
  plog (foldl (λ p f, (f p).1) (fp x) fs) = plog (fp x) ++ es →
  let x' := foldl (λ x f, heard f x) x fs in
  fp x' = foldl (λ p f, (f p).1) (fp x) fs ∧ fr x' = foldl hear_own (fr x) es ∧ owned (fr x').
Proof.
  revert x es. induction fs as [|f fs IH]; intros x es Hk Hr Hes Hl; cbn [foldl] in *.
  { rewrite <- (app_nil_r (plog (fp x))) in Hl at 1. apply app_inv_head in Hl as <-. split; [done|]. split; [done|exact Hr]. }
  assert (∃ es1, plog (f (fp x)).1 = plog (fp x) ++ es1) as [es1 H1].
  { apply (Hk f (plog (fp x)) ltac:(by left) (fp x)). apply logs_self. }
  assert (∃ es2, plog (foldl (λ p f, (f p).1) (f (fp x)).1 fs) = plog (f (fp x)).1 ++ es2) as [es2 H2].
  { clear -Hk. assert (Hf : ∀ g l, g ∈ fs → keeps (logs l) g) by (intros g l Hg; apply Hk; by right). clear Hk.
    generalize (f (fp x)).1. induction fs as [|g gs IH]; intros p; [exists []; by rewrite app_nil_r|]. cbn [foldl].
    destruct (IH (λ g' l Hg, Hf g' l ltac:(by right)) (g p).1) as [l2 ->].
    destruct (Hf g (plog p) ltac:(by left) p) as [l1 ->]; [apply logs_self|]. exists (l1 ++ l2). by rewrite app_assoc. }
  rewrite H2, H1, <- app_assoc in Hl. apply app_inv_head in Hl as <-. apply Forall_app in Hes as [He1 He2].
  assert (Hfr : fr (heard f x) = foldl hear_own (fr x) es1 ∧ owned (fr (heard f x))).
  { unfold heard. cbn [fr]. rewrite H1, drop_app_length.
    destruct (hear_all (pdoc (fp x)) (pdoc (f (fp x)).1) es1 (fr x) Hr He1) as [-> Ho]. done. }
  destruct Hfr as [Hfr Ho]. destruct (IH (heard f x) es2) as (E1 & E2 & E3); [|done..|].
  { intros g l Hg. apply Hk. by right. }
  split; [exact E1|]. split; [|exact E3]. by rewrite E2, Hfr, foldl_app.
Qed.

(** Opening and closing, by whatever shows and hides the modal. *)
Lemma settle_run (f : modM ()) ns x : settle ns (heard f x) = foldl (λ x f, heard f x) x (f :: (report <$> ns)).
Proof. cbn [foldl]. unfold settle. generalize (heard f x). induction ns; intros; cbn; auto. Qed.
Lemma reports_keep (f : modM ()) ns : (∀ l, keeps (logs l) f) → ∀ g l, g ∈ f :: (report <$> ns) → keeps (logs l) g.
Proof. intros Hf g l [->|(n & -> & _)%list_elem_of_fmap]%elem_of_cons; [apply Hf|apply logs_report]. Qed.
Lemma shown_own cfg related : Forall (λ e, ev_target e = el) (shown_events cfg el related).
Proof. unfold shown_events. case_match; by repeat constructor. Qed.
Lemma shown_heard cfg related r : foldl hear_own r (shown_events cfg el related) = r.
Proof. unfold shown_events. by case_match. Qed.

Lemma open_half (f : modM ()) dlg related m x :
  (∀ l, keeps (logs l) f) → f (fp x) = show el related (fp x) → owned (fr x) →
  closed el dlg m (fp x) → body ≠ dlg →
  let x1 := heard f x in
  let b := backdrop_of el x1 in
  let x2 := settle [b; dlg] x1 in
  (∃ m', opened el dlg b m' (fp x2) ∧ _config m' = _config m) ∧
  fr x2 = Restorers [] (on_hidden (fr x) ++ on_show (fr x)) (restored (fr x)) ∧ owned (fr x2).
Proof.
  intros Hk Hf Ho Hc Hb x1 b x2. destruct (open_settled calm el dlg related m (fp x) Hc Hb) as (b' & Hbk & Hop & Hl & _).
  assert (b = b') as <-.
  { unfold b, backdrop_of, x1. cbn [heard fp]. rewrite Hf. cbv zeta in Hbk.
    destruct (pdata _ !! el) as [y|]; [|done]. cbn in Hbk |- *. by injection Hbk as ->. }
  rewrite <- Hf in Hop, Hl. cbv zeta in Hop, Hl.
  assert (Hx : x2 = foldl (λ x f, heard f x) x (f :: (report <$> [b; dlg]))) by apply settle_run.
  rewrite Hx. edestruct (run_heard (f :: (report <$> [b; dlg])) x) as (E1 & E2 & E3);
    [by apply reports_keep|done| |exact Hl|].
  { constructor; [done|apply shown_own]. }
  cbv zeta in E1, E2, E3. split; [rewrite E1; exact Hop|]. split; [|exact E3]. rewrite E2. cbn [app foldl].
  by rewrite shown_heard.
Qed.

Lemma close_half (g : modM ()) dlg b m x :
  (∀ l, keeps (logs l) g) → g (fp x) = hide el (fp x) → owned (fr x) → opened el dlg b m (fp x) →
  let x' := settle [el; b] (heard g x) in
  (∃ m', at_rest el dlg m' (fp x') ∧ _config m' = _config m) ∧
  fr x' = Restorers (on_show (fr x)) [] (restored (fr x) ++ if v then (on_hidden (fr x)).*2 else []).
Proof.
  intros Hk Hg Ho Hop x'. destruct (close_settled calm el dlg b m (fp x) Hop) as (Hr & _ & Hl & _).
  rewrite <- Hg in Hr, Hl. cbv zeta in Hr, Hl.
  assert (Hx : x' = foldl (λ x f, heard f x) x (g :: (report <$> [el; b]))) by apply settle_run.
  rewrite Hx. edestruct (run_heard (g :: (report <$> [el; b])) x) as (E1 & E2 & _);
    [by apply reports_keep|done| |exact Hl|].
  { by repeat constructor. }
  cbv zeta in E1, E2. split; [rewrite E1; exact Hr|]. by rewrite E2.
Qed.

Lemma rest_closed dlg m p :
  at_rest el dlg m p → o_backdrop (_config m) = Util.OBool true → el ≠ dlg ∧ el ≠ body → closed el dlg m p.
Proof.
  intros [A1 A2 A3 A4 A5 (A6 & A7 & A8) A9] Ho Hd. injection A2 as Hd' Hb' Hs' Ht'. by split.
Qed.

(** What a click on the toggle comes to. *)
Lemma press_opens dlg m p :
  closed el dlg m p → Util.target_of (pdoc p) self = Some el → on_click self p = show el (Some self) p.
Proof.
  intros [Hm _ _ Hs _ _ _ _ _ _ _] Ht. unfold on_click, _jQueryInterface, toggle, this. run. rewrite Ht. run.
  rewrite bool_decide_true by (by eexists). run. rewrite bool_decide_true by (by eexists). run.
  rewrite bool_decide_true by done. run. rewrite Hm. run. by rewrite Hs.
Qed.
Lemma press_closes dlg b m p :
  opened el dlg b m p → Util.target_of (pdoc p) self = Some el → on_click self p = hide el p.
Proof.
  intros Ho Ht. destruct Ho as [Hm Hc _ _ _ _ _ _ _]. injection Hc as _ _ Hs _.
  unfold on_click, _jQueryInterface, toggle, this. run. rewrite Ht. run.
  rewrite bool_decide_true by (by eexists). run. rewrite bool_decide_true by (by eexists). run.
  rewrite bool_decide_true by done. run. rewrite Hm. run. by rewrite Hs.
Qed.

Lemma click_open dlg m x :
  closed el dlg m (fp x) → body ≠ dlg → Util.target_of (pdoc (fp x)) self = Some el →
  on_show (fr x) = [] → on_hidden (fr x) = [] →
  let x1 := click self x in
  let b := backdrop_of el x1 in
  let x2 := settle [b; dlg] x1 in
  (∃ m', opened el dlg b m' (fp x2) ∧ _config m' = _config m) ∧ fr x2 = Restorers [] [(el, self)] (restored (fr x)).
Proof.
  intros Hc Hb Ht Hs Hh x1 b x2. subst b x2 x1. unfold click. rewrite Ht. unfold wait_show. rewrite Hs, Hh. cbn [app].
  destruct (open_half (on_click self) dlg (Some self) m (FPage (fp x) (Restorers [(el, self)] [] (restored (fr x)))))
    as (H & Hf & _); [intros l; apply logs_press|by eapply press_opens|by repeat constructor|done|done|].
  split; [exact H|exact Hf].
Qed.
Lemma owned_pairs l1 l2 l : Forall (λ x, x = (el, self)) l1 → Forall (λ x, x = (el, self)) l2 → owned (Restorers l1 l2 l).
Proof. by split. Qed.

(** C13. A click on a toggle opens its modal; when the modal is closed again, by its
    dismiss button, the escape key or a call, the focus goes back to the toggle,
    once, if the toggle is visible, and no listener stays behind. *)
Theorem focus_returns dlg m x :
  closed el dlg m (fp x) → body ≠ dlg → Util.target_of (pdoc (fp x)) self = Some el →
  on_show (fr x) = [] → on_hidden (fr x) = [] →
  let x1 := click self x in
  let b := backdrop_of el x1 in
  let x2 := settle [el; b] (heard (hide el) (settle [b; dlg] x1)) in
  (∃ m', closed el dlg m' (fp x2)) ∧
  fr x2 = Restorers [] [] (restored (fr x) ++ if v then [self] else []).
Proof.
  intros Hc Hb Ht Hs Hh x1 b x2. destruct (click_open dlg m x Hc Hb Ht Hs Hh) as ((m1 & Ho & Hcf) & Hf).
  fold x1 b in Ho, Hf. unfold x2. set (y := settle [b; dlg] x1) in *.
  destruct (close_half (hide el) dlg b m1 y (λ l, logs_hide l el) eq_refl) as ((m2 & Hr & Hcf2) & Hf2);
    [rewrite Hf; by apply owned_pairs; repeat constructor|exact Ho|].
  split; [|rewrite Hf2, Hf; by destruct v]. exists m2. apply rest_closed; [done| |apply Hc].
  rewrite Hcf2, Hcf. apply Hc.
Qed.

(** C39. Closing a modal with its toggle leaves a listener for the next show event:
    when the modal is later opened and closed by a call, the focus jumps to the
    toggle although nobody has used it. *)
Theorem stale_focus dlg m x :
  closed el dlg m (fp x) → body ≠ dlg → Util.target_of (pdoc (fp x)) self = Some el →
  on_show (fr x) = [] → on_hidden (fr x) = [] →
  let x1 := click self x in
  let b := backdrop_of el x1 in
  let x2 := settle [b; dlg] x1 in
  Util.target_of (pdoc (fp x2)) self = Some el →
  let x3 := settle [el; b] (click self x2) in
  let x4 := heard (show el None) x3 in
  let b' := backdrop_of el x4 in
  let x5 := settle [el; b'] (heard (hide el) (settle [b'; dlg] x4)) in
  on_show (fr x3) = [(el, self)] ∧
  restored (fr x5) = restored (fr x3) ++ if v then [self] else [].
Proof.
  intros Hc Hb Ht Hs Hh x1 b x2 Ht2 x3. destruct (click_open dlg m x Hc Hb Ht Hs Hh) as ((m1 & Ho & Hcf) & Hf).
  fold x1 b x2 in Ho, Hf.
  assert (H3 : (∃ m3, closed el dlg m3 (fp x3)) ∧ on_show (fr x3) = [(el, self)] ∧ on_hidden (fr x3) = []).
  { unfold x3, click. rewrite Ht2, Hf. unfold wait_show. cbn [on_show on_hidden restored app].
    edestruct (close_half (on_click self) dlg b m1 (FPage (fp x2) (Restorers [(el, self)] [(el, self)] (restored (fr x)))))
      as ((m2 & Hr & Hcf2) & ->); [intros l; apply logs_press|by eapply press_closes|by repeat constructor|done|].
    split; [|done]. exists m2. apply rest_closed; [done| |apply Hc]. rewrite Hcf2, Hcf. apply Hc. }
  clearbody x3. destruct H3 as ((m3 & Hc3) & Hs3 & Hh3). intros x4 b' x5. split; [done|].
  destruct (open_half (show el None) dlg None m3 x3 (λ l, logs_show l el None) eq_refl) as ((m4 & Ho4 & _) & Hf4 & Hw4);
    [split; rewrite ?Hs3, ?Hh3; by repeat constructor|done|done|].
  destruct (close_half (hide el) dlg b' m4 (settle [b'; dlg] x4) (λ l, logs_hide l el) eq_refl Hw4 Ho4) as (_ & Hf5).
  unfold x5. rewrite Hf5. unfold b', x4. rewrite Hf4, Hs3, Hh3. by destruct v.
Qed.

End round.
End focus.

(** ** A page with a toggle for a fading modal *)

Definition focus_doc : dom := {[
  1%nat := Elem "body" "" [] ∅ ∅ None [2%nat; 5%nat];
  2%nat := Elem "div" "m" ["modal"; "fade"] ∅ ∅ (Some 1%nat) [3%nat];
  3%nat := Elem "div" "" ["modal-dialog"] ∅ ∅ (Some 2%nat) [];
  5%nat := Elem "button" "" [] {[ "data-target" := "#m" ]} ∅ (Some 1%nat) []
]}.
Definition focus_page : fpage :=
  FPage (construct 2 (Options (Util.OBool true) true true) (BPage focus_doc [] [] ∅ 0)).1 (Restorers [] [] []).

Lemma focus_closed : closed (L:=sample_layout) 2 3 page_modal (fp focus_page).
Proof. split; try done; by eexists. Qed.

Lemma focus_returns_witness :
  let heard := heard (B:=plain_browser) (λ _ _, true) in
  let settle := settle (B:=plain_browser) (L:=sample_layout) (λ _ _, true) in
  let x1 := click (B:=plain_browser) (L:=sample_layout) (λ _ _, true) 5 focus_page in
  let b := backdrop_of 2 x1 in
  fr (settle [2%nat; b] (heard (hide (B:=plain_browser) (L:=sample_layout) 2) (settle [b; 3%nat] x1))) =
    Restorers [] [] [5%nat].
Proof.
  apply (focus_returns (B:=plain_browser) (L:=sample_layout) (λ _ _, true) ltac:(done) 2 5 true ltac:(done) 3 page_modal
    focus_page focus_closed); [done|vm_compute; reflexivity|done|done].
Defined.
Lemma stale_focus_witness :
  let heard := heard (B:=plain_browser) (λ _ _, true) in
  let settle := settle (B:=plain_browser) (L:=sample_layout) (λ _ _, true) in
  let click := click (B:=plain_browser) (L:=sample_layout) (λ _ _, true) in
  let x1 := click 5%nat focus_page in
  let b := backdrop_of 2 x1 in
  let x3 := settle [2%nat; b] (click 5%nat (settle [b; 3%nat] x1)) in
  on_show (fr x3) = [(2, 5)]%nat.
Proof.
  apply (stale_focus (B:=plain_browser) (L:=sample_layout) (λ _ _, true) ltac:(done) 2 5 true ltac:(done) 3 page_modal
    focus_page focus_closed); [done|vm_compute; reflexivity|done|done|vm_compute; reflexivity].
Defined.

End ModalFocus.
