(* ===== verification/ScrollSpy.v ===== *)
(** * ScrollSpy, bootstrap.js lines 3304 to 3606

    The scroll spy keeps the offsets of the sections its links point to, in
    order, and on every scroll event marks the link of the section that is in
    view.  Measurements, in whole pixels, are arguments. *)

From S2P Require Import Prelude Dom Bs.
Local Open Scope Z_scope.

Module ScrollSpy.

(** [_activeTarget]: null at first and when cleared; a target read past the
    end of the list is undefined. *)
Inductive active := Null | Target (t : option string).
#[global] Instance active_eq_dec : EqDecision active.
Proof. solve_decision. Defined.

Record spy := MkSpy {
  _offset : Z;                    (* [_config.offset] *)
  _offsets : list Z;
  _targets : list string;
  _activeTarget : active;
  _scrollHeight : Z
}.

Inductive effect := Activated (t : option string) | Cleared.

(** What one event handler measures: the scroll position, the heights and, for
    the links in order, the position and selector of their visible target. *)
Record view := View {
  v_scrollTop : Z;
  v_scrollHeight : Z;
  v_offsetHeight : Z;
  v_links : list (option (Z * string))
}.

(** ** Refresh, lines 3384 to 3421 *)

(** The (stable) sort by offset. *)
Fixpoint insert_item (x : Z * string) (l : list (Z * string)) : list (Z * string) :=
  match l with
  | [] => [x]
  | y :: l' => if x.1 <=? y.1 then x :: l else y :: insert_item x l'
  end.
Definition sort_items (l : list (Z * string)) : list (Z * string) := foldr insert_item [] l.

Definition refresh (v : view) (s : spy) : spy :=
  let items := sort_items (omap id (v_links v)) in
  MkSpy (_offset s) items.*1 items.*2 (_activeTarget s) (v_scrollHeight v).

(** ** Scrolling, lines 3467 to 3503 *)

Definition set_active (a : active) (s : spy) : spy :=
  MkSpy (_offset s) (_offsets s) (_targets s) a (_scrollHeight s).

(** Lines 3505 to 3508, what it does to the object. *)
Definition activate (t : option string) (r : spy * list effect) : spy * list effect :=
  (set_active (Target t) r.1, r.2 ++ [Activated t]).

Definition truthy (a : active) : bool :=
  match a with Target (Some t) => negb (bool_decide (t = ""%string)) | _ => false end.

(** Lines 3496 to 3502: [i] counts down. *)
Definition in_section (scrollTop : Z) (s : spy) (i : nat) : bool :=
  bool_decide (_activeTarget s ≠ Target (_targets s !! i)) &&
  match _offsets s !! i with Some o => o <=? scrollTop | None => false end &&
  match _offsets s !! S i with Some o => scrollTop <? o | None => true end.
Fixpoint spy_loop (scrollTop : Z) (i : nat) (r : spy * list effect) : spy * list effect :=
  match i with
  | O => r
  | S i' => spy_loop scrollTop i'
              (if in_section scrollTop r.1 i' then activate (_targets r.1 !! i') r else r)
  end.

Definition _process (v : view) (s : spy) : spy * list effect :=
  let scrollTop := v_scrollTop v + _offset s in
  let maxScroll := _offset s + v_scrollHeight v - v_offsetHeight v in
  let s := if _scrollHeight s =? v_scrollHeight v then s else refresh v s in
  if maxScroll <=? scrollTop then
    let target := _targets s !! (length (_targets s) - 1)%nat in
    if bool_decide (_activeTarget s ≠ Target target) then activate target (s, []) else (s, [])
  else if truthy (_activeTarget s) &&
          match _offsets s !! 0%nat with Some o => (scrollTop <? o) && (0 <? o) | None => false end then
    (set_active Null s, [Cleared])
  else spy_loop scrollTop (length (_offsets s)) (s, []).

(** Lines 3361 to 3378: the constructor refreshes and processes once. *)
Definition construct (offset : Z) (v : view) : spy * list effect :=
  _process v (refresh v (MkSpy offset [] [] Null 0)).

(** ** The links, lines 3505 to 3538 *)

(** What a text stands for between the quotes of an attribute selector: a
    backslash makes the next character part of the string.  [None]: the selector
    is malformed, because the text has a quote of its own. *)
Class CssText := css_string : string → option string.

Section links.
(** [$(this._selector)]: the links the spy controls. *)
Context `{C : CssText} (spy_links : dom → list nid).

(** Lines 3536 to 3538. *)
Definition _clear (d : dom) : dom :=
  Dom.each (Dom.removeClass "active") (filter (λ n, Dom.hasClass d n "active" = true) (spy_links d)) d.

(** Lines 3510 to 3516: the links that have the value as an attribute. *)
Definition link_of (value : string) (d : dom) : list nid :=
  filter (λ n, Dom.getAttribute d n "data-target" = Some value ∨ Dom.getAttribute d n "href" = Some value)
    (spy_links d).

Fixpoint ancestors (fuel : nat) (d : dom) (n : nid) : list nid :=
  match fuel with
  | O => []
  | S f => match Dom.parent d n with Some p => p :: ancestors f d p | None => [] end
  end.
Definition parents (P : Dom.selector) (d : dom) (n : nid) : list nid :=
  filter (λ m, P d m = true) (ancestors (size d) d n).

(** The previous sibling. *)
Fixpoint before (x : nid) (l : list nid) : option nid :=
  match l with
  | y :: ((z :: _) as l') => if decide (z = x) then Some y else before x l'
  | _ => None
  end.
Definition prev (P : Dom.selector) (d : dom) (n : nid) : list nid :=
  match p ← Dom.parent d n; before n (Dom.children d p) with
  | Some m => if P d m then [m] else []
  | None => []
  end.

Definition NAV_LIST_GROUP : Dom.selector := Dom.sel_or (Dom.sel_class "nav") (Dom.sel_class "list-group").
Definition LINKS : Dom.selector := Dom.sel_or (Dom.sel_class "nav-link") (Dom.sel_class "list-group-item").

(** Lines 3518 to 3529. *)
Definition mark_links (link : list nid) (d : dom) : dom :=
  if Dom.anyHasClass d link "dropdown-item" then
    let toggles := link ≫= λ n,
      match Dom.closest (Dom.sel_class "dropdown") d n with
      | Some m => Dom.find (Dom.sel_class "dropdown-toggle") d m
      | None => []
      end in
    Dom.each (Dom.addClass "active") link (Dom.each (Dom.addClass "active") toggles d)
  else
    let d := Dom.each (Dom.addClass "active") link d in
    let groups := link ≫= parents NAV_LIST_GROUP d in
    let d := Dom.each (Dom.addClass "active") (groups ≫= prev LINKS d) d in
    Dom.each (Dom.addClass "active")
      (groups ≫= (λ g, prev (Dom.sel_class "nav-item") d g ≫= (λ i,
         filter (λ m, Dom.hasClass d m "nav-link" = true) (Dom.children d i)))) d.

(** Lines 3508 to 3530; the marks are cleared before the selector throws. *)
Definition _activate (target : string) (d : dom) : dom * outcome () :=
  let d := _clear d in
  match css_string target with
  | Some value => (mark_links (link_of value d) d, Ret ())
  | None => (d, Throw SyntaxError)
  end.
End links.

(** ** The active section *)

Lemma insert_item_perm x l : insert_item x l ≡ₚ x :: l.
Proof.
  induction l as [|y l IH]; [done|]. cbn [insert_item]. case_match; [done|].
  rewrite IH. apply Permutation_swap.
Qed.

Lemma sort_items_perm l : sort_items l ≡ₚ l.
Proof. induction l as [|x l IH]; [done|]. cbn. by rewrite insert_item_perm, IH. Qed.

Definition sorted (l : list Z) : Prop := ∀ i j x y, (i ≤ j)%nat → l !! i = Some x → l !! j = Some y → x ≤ y.

Lemma sorted_cons x l : (∀ y, y ∈ l → x ≤ y) → sorted l → sorted (x :: l).
Proof.
  intros Hx Hs [|i] [|j] a b Hij Ha Hb; simpl in *; simplify_eq; [lia| |lia|].
  - apply Hx. by eapply list_elem_of_lookup_2.
  - by apply (Hs i j); [lia|..].
Qed.

Lemma sorted_tail x l : sorted (x :: l) → sorted l ∧ ∀ y, y ∈ l → x ≤ y.
Proof.
  intros Hs. split.
  - intros i j a b Hij Ha Hb. apply (Hs (S i) (S j)); [lia|done|done].
  - intros y [j Hj]%list_elem_of_lookup. by apply (Hs 0%nat (S j)); [lia|..].
Qed.

Lemma insert_sorted x l : sorted l.*1 → sorted (insert_item x l).*1.
Proof.
  induction l as [|y l IH]; intros Hs; cbn [insert_item].
  - apply sorted_cons; [|done]. intros z Hz. by apply elem_of_nil in Hz.
  - apply sorted_tail in Hs as Hy. destruct Hy as [Hl Hy]. destruct (Z.leb_spec x.1 y.1).
    + apply sorted_cons; [|done]. intros z [->|Hz]%elem_of_cons; [done|]. specialize (Hy z Hz). lia.
    + rewrite fmap_cons. apply sorted_cons; [|by apply IH]. intros z Hz.
      rewrite (insert_item_perm x l) in Hz. rewrite fmap_cons in Hz. apply elem_of_cons in Hz as [->|Hz]; [lia|auto].
Qed.

Lemma sort_items_sorted l : sorted (sort_items l).*1.
Proof.
  induction l as [|x l IH]; [|by apply insert_sorted].
  intros i j a b Hij Ha. by destruct i.
Qed.

(** Is the position in the [i]-th section? *)
Definition in_range (scrollTop : Z) (s : spy) (i : nat) : bool :=
  match _offsets s !! i with Some o => o <=? scrollTop | None => false end &&
  match _offsets s !! S i with Some o => scrollTop <? o | None => true end.

Lemma in_section_range st s i :
  in_section st s i = bool_decide (_activeTarget s ≠ Target (_targets s !! i)) && in_range st s i.
Proof. unfold in_section, in_range. by rewrite andb_assoc. Qed.

Lemma loop_skip st i r : (∀ j, (j < i)%nat → in_range st r.1 j = false) → spy_loop st i r = r.
Proof.
  induction i as [|i IH]; intros H; [done|]. cbn [spy_loop].
  rewrite in_section_range, H, andb_false_r by lia. apply IH. intros j Hj. apply H. lia.
Qed.

Lemma loop_above st i k r :
  (k < i)%nat → (∀ j, (k < j < i)%nat → in_range st r.1 j = false) → spy_loop st i r = spy_loop st (S k) r.
Proof.
  induction i as [|i IH]; intros Hk H; [lia|]. destruct (decide (i = k)) as [->|Hne]; [done|].
  cbn [spy_loop]. rewrite in_section_range, H, andb_false_r by lia. apply IH; [lia|]. intros j Hj. apply H. lia.
Qed.

(** The section at a position: its offset is reached, that of the next ones is
    not. *)
Definition section_at (st : Z) (s : spy) (k : nat) : Prop :=
  (∃ o, _offsets s !! k = Some o ∧ o ≤ st) ∧ ∀ j o, (k < j)%nat → _offsets s !! j = Some o → st < o.

Lemma section_ranges st s k :
  sorted (_offsets s) → section_at st s k →
  in_range st s k = true ∧ ∀ j, j ≠ k → in_range st s j = false.
Proof.
  intros Hs [(o & Ho & Hle) Hgt]. unfold in_range. split.
  - rewrite Ho. rewrite (proj2 (Z.leb_le _ _) Hle). simpl. destruct (_offsets s !! S k) as [o'|] eqn:E; [|done].
    apply Z.ltb_lt. eapply Hgt; [|exact E]. lia.
  - intros j Hj. destruct (_offsets s !! j) as [oj|] eqn:Ej; [|done].
    destruct (decide (k < j)%nat) as [Hlt|Hlt].
    + specialize (Hgt j oj Hlt Ej). by rewrite (proj2 (Z.leb_gt _ _) Hgt).
    + assert (Hn : (S j < length (_offsets s))%nat) by (apply lookup_lt_Some in Ho; lia).
      apply lookup_lt_is_Some in Hn as [oj' Ej']. rewrite Ej'.
      assert (oj' ≤ o) by (apply (Hs (S j) k); [lia|done|done]).
      rewrite (proj2 (Z.ltb_ge _ _)) by lia. apply andb_false_r.
Qed.

(** On every scroll event that is neither past the end of the page nor
    above its first section, the spy ends with the target of the section in
    view as its active one: the last whose offset is reached.  It activates
    that target if it was not active before, and otherwise does nothing. *)
Theorem process_section v s k :
  _scrollHeight s = v_scrollHeight v → sorted (_offsets s) →
  v_scrollTop v < v_scrollHeight v - v_offsetHeight v →
  section_at (v_scrollTop v + _offset s) s k →
  let target := Target (_targets s !! k) in
  _process v s =
    (set_active target s, if bool_decide (_activeTarget s = target) then [] else [Activated (_targets s !! k)]).
Proof.
  intros Hh Hsort Hmax Hsec target. destruct (section_ranges _ _ _ Hsort Hsec) as [Hk Hothers].
  destruct Hsec as [(o & Ho & Hle) _]. set (st := v_scrollTop v + _offset s) in *.
  unfold _process. rewrite Hh, Z.eqb_refl. fold st.
  rewrite (proj2 (Z.leb_gt _ _)) by (unfold st; lia).
  assert (H0 : match _offsets s !! 0%nat with Some o0 => (st <? o0) && (0 <? o0) | None => false end = false).
  { destruct (_offsets s !! 0%nat) as [o0|] eqn:E0; [|done].
    assert (o0 ≤ o) by (apply (Hsort 0%nat k); [lia|done|done]). by rewrite (proj2 (Z.ltb_ge _ _)) by lia. }
  rewrite H0, andb_false_r. apply lookup_lt_Some in Ho.
  rewrite (loop_above _ _ k) by (done || (intros; apply Hothers; lia)). cbn [spy_loop fst].
  rewrite in_section_range, Hk, andb_true_r. fold target.
  destruct (decide (_activeTarget s = target)) as [E|E].
  - rewrite bool_decide_false by (intros H; by apply H). rewrite loop_skip by (intros; apply Hothers; lia).
    rewrite bool_decide_true by done. rewrite <- E. by destruct s.
  - rewrite bool_decide_true, (bool_decide_false (_ = _)) by done.
    rewrite loop_skip; [done|]. intros j Hj. exact (Hothers j ltac:(lia)).
Qed.

Lemma process_section_witness :
  let s := MkSpy 10 [0; 300; 700] ["#a"; "#b"; "#c"]%string Null 2000 in
  _process (View 350 2000 500 []) s =
    (set_active (Target (Some "#b"%string)) s, [Activated (Some "#b"%string)]).
Proof.
  intros s. apply (process_section (View 350 2000 500 []) s 1).
  - reflexivity.
  - intros i j x y Hij Hx Hy. do 3 (destruct i as [|i]; [do 3 (destruct j as [|j]; [simpl in *; simplify_eq; lia|]); done|]). done.
  - simpl. lia.
  - split; [exists 300; split; [done|simpl; lia]|]. intros j o Hj Ho.
    destruct j as [|[|[|j]]]; [lia|lia| |done]. simpl in *. simplify_eq. lia.
Defined.

(** Refreshing sorts: the offsets are in ascending order, offsets and
    targets are those of exactly the links whose target is visible. *)
Theorem refresh_sorted v s :
  sorted (_offsets (refresh v s)) ∧
  zip (_offsets (refresh v s)) (_targets (refresh v s)) ≡ₚ omap id (v_links v) ∧
  length (_offsets (refresh v s)) = length (_targets (refresh v s)).
Proof.
  cbn [refresh _offsets _targets]. set (items := sort_items _). split_and!.
  - apply sort_items_sorted.
  - replace (zip items.*1 items.*2) with items; [apply sort_items_perm|].
    induction items as [|[a b] l IH]; [done|]. cbn. by rewrite <- IH.
  - by rewrite !length_fmap.
Qed.

End ScrollSpy.
