(* ===== verification/ScrollSpyPage.v ===== *)
(** * ScrollSpy on a page: bootstrap.js lines 3316 to 3590

    File ScrollSpy models how a spy chooses the section in view.  Here it is put
    into a page: its options, what it measures, the links it marks, its
    listeners and the jQuery interface.  What a handler measures is an argument,
    the layout at the time of the event. *)

From S2P Require Import Prelude Dom DomClass Bs ScrollSpy.
Local Open Scope string_scope.
Local Open Scope list_scope.
Local Open Scope Z_scope.

Module ScrollSpyPage.
Import ScrollSpy.

(** ** Options, lines 3316 to 3325 and 3437 to 3453 *)

(** A target that is no string is an element, or a value of which jQuery makes
    the empty selection. *)
Inductive target_option := TNothing | TString (s : string) | TElement (n : nid).
(** Given options: [None] is a property that is missing. *)
Record options := Options {
  g_offset : option Util.optval;
  g_method : option Util.optval;
  g_target : option target_option
}.
Record config := Config { c_offset : Z; c_method : string; c_target : string }.

Definition DefaultType : list (string * list string) :=
  [("offset", ["number"]); ("method", ["string"]); ("target", ["string"; "element"])].

(** ** Objects and pages *)

Inductive scroller := Window | Scrolled (n : nid).
#[global] Instance scroller_eq_dec : EqDecision scroller.
Proof. solve_decision. Defined.

Record object := Object {
  _element : nid;
  _scrollElement : scroller;
  _config : config;
  _spy : spy
}.
Record page := Page {
  sdoc : dom;
  objects : gmap nat object;
  sdata : gmap nid nat;                              (* the object of an element *)
  listeners : list (scroller * nat);                 (* for the event scroll *)
  activations : list (scroller * option string);     (* the events activate *)
  sfresh : nat
}.
Abbreviation spyM := (jsM page).

Definition on_sdoc (f : dom → dom) (p : page) : page :=
  Page (f (sdoc p)) (objects p) (sdata p) (listeners p) (activations p) (sfresh p).
Definition on_objects (f : gmap nat object → gmap nat object) (p : page) : page :=
  Page (sdoc p) (f (objects p)) (sdata p) (listeners p) (activations p) (sfresh p).
Definition set_sdata (f : gmap nid nat → gmap nid nat) (p : page) : page :=
  Page (sdoc p) (objects p) (f (sdata p)) (listeners p) (activations p) (sfresh p).
Definition on_listeners (f : list (scroller * nat) → list (scroller * nat)) (p : page) : page :=
  Page (sdoc p) (objects p) (sdata p) (f (listeners p)) (activations p) (sfresh p).
Definition add_activation (a : scroller * option string) (p : page) : page :=
  Page (sdoc p) (objects p) (sdata p) (listeners p) (activations p ++ [a]) (sfresh p).
Definition sbump (p : page) : page :=
  Page (sdoc p) (objects p) (sdata p) (listeners p) (activations p) (S (sfresh p)).

(** ** Measuring, lines 3455 to 3465 *)

Record layout := Layout {
  pageYOffset : Z;
  innerHeight : Z;
  body_scrollHeight : Z;
  html_scrollHeight : Z;
  scrollTop : nid → Z;
  scrollHeight : nid → Z;
  rect_size : nid → Z * Z;                           (* of [getBoundingClientRect()] *)
  offset_top : nid → Z;                              (* [$(n).offset().top] *)
  position_top : nid → Z                             (* [$(n).position().top] *)
}.

Definition _getScrollTop (l : layout) (s : scroller) : Z :=
  match s with Window => pageYOffset l | Scrolled n => scrollTop l n end.
(** A window has no [scrollHeight]. *)
Definition _getScrollHeight (l : layout) (s : scroller) : Z :=
  let all := Z.max (body_scrollHeight l) (html_scrollHeight l) in
  match s with Window => all | Scrolled n => if scrollHeight l n =? 0 then all else scrollHeight l n end.
Definition _getOffsetHeight (l : layout) (s : scroller) : Z :=
  match s with Window => innerHeight l | Scrolled n => (rect_size l n).2 end.

Definition set_spy (s : spy) (o : object) : object := Object (_element o) (_scrollElement o) (_config o) s.

Section spy.
Context `{B : Browser, C : CssText} (draws : dom → list string).

Definition this (o : nat) : spyM object := λ p,
  match objects p !! o with Some x => (p, Ret x) | None => (p, Throw TypeError) end.

(** Identifiers in the document. *)
Definition id_in_use (d : dom) (i : string) : bool := existsb (λ n, Dom.sel_id i d n) (all_nodes d).
Definition id_of (d : dom) (n : nid) : string := match d !! n with Some e => elId e | None => "" end.

(** Lines 3440 to 3449. *)
Definition target_text (t : target_option) : spyM string :=
  match t with
  | TString s => mret s
  | _ =>
      known ← mget (λ p, match t with TElement n => id_of (sdoc p) n | _ => "" end);
      if negb (bool_decide (known = "")) then mret ("#" +:+ known)
      else
        uid ← mget (λ p, Util.getUID (id_in_use (sdoc p)) "scrollspy" (draws (sdoc p)));
        match uid with
        | None => mthrow (ErrorMsg "getUID does not return")
        | Some i =>
            _ ← match t with TElement n => mupdate (on_sdoc (Dom.setId i n)) | _ => mret () end;
            mret ("#" +:+ i)
        end
  end.
Definition _getConfig (given : options) : spyM config :=
  let offset := default (Util.ONum 10) (g_offset given) in
  let method := default (Util.OStr "auto") (g_method given) in
  target ← target_text (default (TString "") (g_target given));
  let checked := Util.typeCheckConfig "scrollspy"
    (list_to_map [("offset", offset); ("method", method); ("target", Util.OStr target)]) DefaultType in
  match checked, offset, method with
  | Ret _, Util.ONum z, Util.OStr m => mret (Config z m target)
  | Throw e, _, _ => mthrow e
  | Ret _, _, _ => mthrow TypeError
  end.

(** ** The links of a spy, line 3367 *)

Definition LINK : Dom.selector :=
  Dom.sel_or (Dom.sel_class "nav-link") (Dom.sel_or (Dom.sel_class "list-group-item") (Dom.sel_class "dropdown-item")).
(** [$(this._selector)] for a target without a comma: the links inside an
    element that the target selects; [None] if it is no selector. *)
Definition inside (d : dom) (a n : nid) : bool :=
  match Dom.parent d n with
  | Some q => bool_decide (is_Some (Dom.closest (λ _ m, bool_decide (m = a)) d q))
  | None => false
  end.
Definition links (target : string) (d : dom) : option (list nid) :=
  if bool_decide (target = "") then Some (filter (λ n, LINK d n = true) (all_nodes d))
  else
    ts ← query d target;
    Some (filter (λ n, LINK d n && existsb (λ a, inside d a n) ts = true) (all_nodes d)).
Definition spy_links (target : string) (d : dom) : list nid := default [] (links target d).

(** ** Refreshing, lines 3384 to 3421 *)

(** Lines 3387 and 3388. *)
Definition offset_method (o : object) : string :=
  if bool_decide (c_method (_config o) = "auto")
  then match _scrollElement o with Window => "offset" | Scrolled _ => "position" end
  else c_method (_config o).
(** Line 3389. *)
Definition offset_base (l : layout) (o : object) : Z :=
  if bool_decide (offset_method o = "position") then _getScrollTop l (_scrollElement o) else 0.
(** Line 3407; a method that jQuery does not have throws. *)
Definition method_top (m : string) (l : layout) (n : nid) : option Z :=
  if bool_decide (m = "offset") then Some (offset_top l n)
  else if bool_decide (m = "position") then Some (position_top l n) else None.
(** Lines 3395 to 3411. *)
Definition item (l : layout) (o : object) (d : dom) (link : nid) : outcome (option (Z * string)) :=
  match Util.getSelectorFromElement d link with
  | None => Ret None
  | Some selector =>
      match (if bool_decide (selector = "") then None else Util.first d selector) with
      | None => Ret None
      | Some target =>
          if ((rect_size l target).1 =? 0) && ((rect_size l target).2 =? 0) then Ret None
          else match method_top (offset_method o) l target with
               | Some y => Ret (Some (y + offset_base l o, selector))
               | None => Throw TypeError
               end
      end
  end.
Fixpoint items (l : layout) (o : object) (d : dom) (ns : list nid) : outcome (list (option (Z * string))) :=
  match ns with
  | [] => Ret []
  | n :: ns =>
      match item l o d n with
      | Throw e => Throw e
      | Ret x => match items l o d ns with Ret xs => Ret (x :: xs) | Throw e => Throw e end
      end
  end.

Definition upd_spy (f : spy → spy) (o : nat) : spyM () :=
  mupdate (on_objects (alter (λ x, set_spy (f (_spy x)) x) o)).
Definition view_of (l : layout) (o : object) (ls : list (option (Z * string))) : view :=
  View (_getScrollTop l (_scrollElement o)) (_getScrollHeight l (_scrollElement o))
    (_getOffsetHeight l (_scrollElement o)) ls.

Definition refresh (l : layout) (o : nat) : spyM () :=
  x ← this o;
  _ ← upd_spy (ScrollSpy.refresh (view_of l x [])) o;
  d ← mget sdoc;
  match links (c_target (_config x)) d with
  | None => mthrow SyntaxError
  | Some ns =>
      match items l x d ns with
      | Throw e => mthrow e
      | Ret ls => upd_spy (ScrollSpy.refresh (view_of l x ls)) o
      end
  end.

(** ** Scrolling, lines 3467 to 3538 *)

(** What a choice of the spy does: lines 3505 to 3534 and 3489 to 3491. *)
Definition perform (o : nat) (x : object) (e : effect) : spyM () :=
  let target := c_target (_config x) in
  match e with
  | Activated t =>
      _ ← upd_spy (set_active (Target t)) o;
      r ← mget (λ p, ScrollSpy._activate (spy_links target) (default "undefined" t) (sdoc p));
      _ ← mupdate (on_sdoc (λ _, r.1));
      match r.2 with
      | Ret _ => mupdate (add_activation (_scrollElement x, t))
      | Throw e => mthrow e
      end
  | Cleared =>
      _ ← upd_spy (set_active Null) o;
      mupdate (on_sdoc (ScrollSpy._clear (spy_links target)))
  end.
Definition _process (l : layout) (o : nat) : spyM () :=
  x ← this o;
  _ ← mguard (negb (_scrollHeight (_spy x) =? _getScrollHeight l (_scrollElement x))) (refresh l o);
  x ← this o;
  meach (perform o x) (ScrollSpy._process (view_of l x []) (_spy x)).2.

(** The event scroll. *)
Definition on_scroll (l : layout) (s : scroller) : spyM () :=
  os ← mget (λ p, snd <$> filter (λ w, w.1 = s) (listeners p));
  meach (_process l) os.

(** ** Objects, lines 3361 to 3378 and 3423 to 3434 *)

Definition is_body (d : dom) (n : nid) : bool :=
  match d !! n with Some e => bool_decide (Util.upper (tagName e) = "BODY") | None => false end.
Definition construct (l : layout) (el : nid) (given : options) : spyM nat :=
  body ← mget (λ p, is_body (sdoc p) el);
  let s := if (body : bool) then Window else Scrolled el in
  c ← _getConfig given;
  o ← mget sfresh;
  _ ← mupdate sbump;
  _ ← mupdate (on_objects <[o := Object el s c (MkSpy (c_offset c) [] [] Null 0)]>);
  _ ← mupdate (on_listeners (λ ls, ls ++ [(s, o)]));
  _ ← refresh l o;
  _ ← _process l o;
  mret o.

Definition dispose (o : nat) : spyM () :=
  x ← this o;
  _ ← mupdate (set_sdata (delete (_element x)));
  _ ← mupdate (on_listeners (filter (λ w, w.1 ≠ _scrollElement x)));
  mupdate (on_objects (delete o)).

(** ** The interface, lines 3541 to 3560 and 3582 to 3590 *)

Definition interface_on (l : layout) (given : options) (method : option string) (el : nid) : spyM () :=
  known ← mget (λ p, sdata p !! el);
  o ← match known with
      | Some o => mret o
      | None => o ← construct l el given; _ ← mupdate (set_sdata <[el := o]>); mret o
      end;
  match method with
  | None => mret ()
  | Some m =>
      if bool_decide (m = "refresh") then refresh l o
      else if bool_decide (m = "dispose") then dispose o
      else mthrow TypeError
  end.
Definition _jQueryInterface (l : layout) (given : options) (method : option string) (els : list nid) : spyM () :=
  meach (interface_on l given method) els.

Definition DATA_SPY : Dom.selector := Dom.sel_attr "data-spy" "scroll".
(** The elements are taken from the last to the first. *)
Definition on_load (data_of : dom → nid → options) (l : layout) : spyM () :=
  spies ← mget (λ p, Dom.query (all_nodes (sdoc p)) DATA_SPY (sdoc p));
  meach (λ el, given ← mget (λ p, data_of (sdoc p) el); _jQueryInterface l given None [el]) (reverse spies).

End spy.

(** ** Which links a spy marks *)

Import DomClass.
Abbreviation steady P := (ignores "active" P).

Lemma steady_class c : c ≠ "active" → steady (Dom.sel_class c).
Proof. apply alike_class. Qed.
#[local] Hint Resolve steady_class : core.

Section walk.
Context (d d' : dom) (H : alike "active" d d').

Lemma steady_parents P n : steady P → parents P d n = parents P d' n.
Proof.
  intros HP. unfold parents. rewrite (alike_size _ d d' H).
  assert (E : ∀ f n, ancestors f d n = ancestors f d' n).
  { induction f as [|f IH]; intros m; [done|]. cbn [ancestors]. rewrite (alike_parent _ d d' H m m eq_refl).
    case_match; [by rewrite IH|done]. }
  rewrite E. by apply (alike_filter "active").
Qed.
Lemma steady_prev P n : steady P → prev P d n = prev P d' n.
Proof.
  intros HP. unfold prev. rewrite (alike_parent _ d d' H n n eq_refl). destruct (Dom.parent d' n) as [q|]; [|done].
  simpl. rewrite (alike_children _ d d' H q q eq_refl). case_match; [|done].
  by rewrite (HP d d' H _ _ eq_refl).
Qed.
Lemma steady_inside a n : inside d a n = inside d' a n.
Proof.
  unfold inside. rewrite (alike_parent _ d d' H n n eq_refl). case_match; [|done].
  by rewrite (alike_closest "active" (λ _ m, bool_decide (m = a)) d d') by (done || solve_proper).
Qed.
End walk.

(** The links that are marked for the links of a target: lines 3518 to 3529. *)
Definition trail (link : list nid) (d : dom) : list nid :=
  if Dom.anyHasClass d link "dropdown-item" then
    link ++ (link ≫= λ n, match Dom.closest (Dom.sel_class "dropdown") d n with
                          | Some m => Dom.find (Dom.sel_class "dropdown-toggle") d m
                          | None => []
                          end)
  else
    let groups := link ≫= parents NAV_LIST_GROUP d in
    link ++ (groups ≫= prev LINKS d) ++
    (groups ≫= (λ g, prev (Dom.sel_class "nav-item") d g ≫= (λ i,
       filter (λ m, Dom.hasClass d m "nav-link" = true) (Dom.children d i)))).

Lemma list_bind_ext {A C} (f g : A → list C) l : (∀ x, f x = g x) → l ≫= f = l ≫= g.
Proof. intros E. induction l as [|x l IH]; [done|]. cbn. by rewrite E, IH. Qed.

Lemma steady_groups link d d' :
  alike "active" d d' → link ≫= parents NAV_LIST_GROUP d = link ≫= parents NAV_LIST_GROUP d'.
Proof. intros H. apply list_bind_ext. intros n. apply steady_parents; [done|]. apply ignores_or; auto. Qed.
Lemma steady_heads groups d d' : alike "active" d d' → groups ≫= prev LINKS d = groups ≫= prev LINKS d'.
Proof. intros H. apply list_bind_ext. intros n. apply steady_prev; [done|]. apply ignores_or; auto. Qed.
Lemma steady_items groups d d' : alike "active" d d' →
  groups ≫= (λ g, prev (Dom.sel_class "nav-item") d g ≫= (λ i,
    filter (λ m, Dom.hasClass d m "nav-link" = true) (Dom.children d i))) =
  groups ≫= (λ g, prev (Dom.sel_class "nav-item") d' g ≫= (λ i,
    filter (λ m, Dom.hasClass d' m "nav-link" = true) (Dom.children d' i))).
Proof.
  intros H. apply list_bind_ext. intros g. rewrite (steady_prev d d') by auto. apply list_bind_ext. intros i.
  rewrite (alike_children _ d d' H i i eq_refl). by apply (alike_filter "active" (Dom.sel_class "nav-link")); auto.
Qed.
Lemma steady_any link d d' : alike "active" d d' →
  Dom.anyHasClass d link "dropdown-item" = Dom.anyHasClass d' link "dropdown-item".
Proof.
  intros H. unfold Dom.anyHasClass. induction link as [|n link IH]; [done|]. simpl. rewrite IH. f_equal.
  by apply (steady_class "dropdown-item").
Qed.
Lemma steady_trail link d d' : alike "active" d d' → trail link d = trail link d'.
Proof.
  intros H. unfold trail. rewrite (steady_any link d d' H). case_match.
  - f_equal. apply list_bind_ext. intros n. rewrite (alike_closest "active" _ d d') by auto. case_match; [|done].
    apply (alike_find "active"); auto.
  - by rewrite (steady_groups link d d' H), (steady_heads _ d d' H), (steady_items _ d d' H).
Qed.

(** Marking adds the trail to what is marked. *)
Lemma mark_links_alike link d : alike "active" d (mark_links link d).
Proof.
  assert (E : ∀ ns d, alike "active" d (Dom.each (Dom.addClass "active") ns d))
    by (intros; apply alike_each, alike_addClass).
  unfold mark_links. case_match; repeat (etrans; [|apply E]); done.
Qed.
Lemma mark_links_iff link d n :
  Dom.hasClass (mark_links link d) n "active" = true ↔
    (n ∈ trail link d ∧ is_Some (d !! n)) ∨ Dom.hasClass d n "active" = true.
Proof.
  assert (E : ∀ ns d, alike "active" d (Dom.each (Dom.addClass "active") ns d))
    by (intros; apply alike_each, alike_addClass).
  unfold mark_links, trail. case_match.
  - rewrite !each_add_iff, <- (alike_present "active" _ _ _ (E _ _)). set_solver.
  - set (d1 := Dom.each (Dom.addClass "active") link d). assert (H1 : alike "active" d d1) by apply E.
    rewrite (steady_groups link d d1 H1). set (groups := link ≫= _).
    set (d2 := Dom.each (Dom.addClass "active") (groups ≫= prev LINKS d1) d1).
    assert (H2 : alike "active" d d2) by (etrans; [exact H1|apply E]).
    rewrite (steady_heads groups d d1 H1), (steady_items groups d d2 H2).
    pose proof (each_add_iff "active" link d n) as I1. pose proof (each_add_iff "active" (groups ≫= prev LINKS d1) d1 n) as I2.
    fold d1 in I1. fold d2 in I2. rewrite each_add_iff, I2, I1.
    rewrite <- (alike_present "active" d d2 n H2), <- (alike_present "active" d d1 n H1), !elem_of_app. tauto.
Qed.

(** The choices of a spy say what its active target is. *)
Definition after (a : active) (e : effect) : active :=
  match e with Activated t => Target t | Cleared => Null end.

Lemma loop_tracks st i r s a :
  r.1 = set_active (foldl after a r.2) s →
  (spy_loop st i r).1 = set_active (foldl after a (spy_loop st i r).2) s.
Proof.
  revert r; induction i as [|i IH]; intros r Hr; [done|]. cbn [spy_loop]. apply IH. case_match; [|done].
  unfold activate. cbn [fst snd]. rewrite foldl_app. cbn. by rewrite Hr.
Qed.
Lemma process_tracks v s :
  _scrollHeight s = v_scrollHeight v →
  (ScrollSpy._process v s).1 = set_active (foldl after (_activeTarget s) (ScrollSpy._process v s).2) s.
Proof.
  intros Hh. unfold ScrollSpy._process. rewrite Hh, Z.eqb_refl. assert (Hs : s = set_active (_activeTarget s) s) by by destruct s.
  repeat case_match; try done; by apply loop_tracks.
Qed.

(** What the loop and the handler choose among. *)
Definition of_spy (s : spy) (e : effect) : Prop :=
  match e with Activated t => ∃ i, t = _targets s !! i | Cleared => True end.
Lemma loop_chooses st i r s :
  _targets r.1 = _targets s → Forall (of_spy s) r.2 → Forall (of_spy s) (spy_loop st i r).2.
Proof.
  revert r; induction i as [|i IH]; intros r Ht Hr; [done|]. cbn [spy_loop]. case_match; [|by apply IH].
  apply IH; [done|]. unfold activate. cbn [snd]. apply Forall_app. split; [done|]. repeat constructor.
  exists i. by rewrite Ht.
Qed.
Lemma process_chooses v s : _scrollHeight s = v_scrollHeight v → Forall (of_spy s) (ScrollSpy._process v s).2.
Proof.
  intros Hh. unfold ScrollSpy._process. rewrite Hh, Z.eqb_refl. repeat case_match; cbn [snd activate app].
  all: first [by apply loop_chooses | by repeat constructor | repeat constructor; by eexists].
Qed.

(** A text without given characters; a plain one is without quotes, backslashes,
    line ends and null characters. *)
Fixpoint without (cs : list nat) (s : string) : bool :=
  match s with EmptyString => true | String c s' => bool_decide (Ascii.nat_of_ascii c ∉ cs) && without cs s' end.
Definition plain : string → bool := without [34; 92; 10; 12; 13; 0]%nat.
(** An identifier with a [#] before it. *)
Definition identifier (s : string) : bool := String.prefix "#" s && without [0%nat] s.
Lemma identifier_prefix s : identifier s = true → String.prefix "#" s = true.
Proof. intros H. by apply andb_true_iff in H as [H _]. Qed.
Lemma plain_identifier s : plain s = true → identifier s = String.prefix "#" s.
Proof.
  intros H. unfold identifier. assert (without [0%nat] s = true) as ->; [|by rewrite andb_true_r].
  revert H. unfold plain. induction s as [|c s IH]; [done|]. cbn [without].
  intros [Hc%bool_decide_eq_true Hs]%andb_true_iff. rewrite (IH Hs), bool_decide_true; [done|]. set_solver.
Qed.

Lemma meach_app_ret {S A} (f : A → jsM S ()) xs ys p p' :
  meach f xs p = (p', Ret ()) → meach f (xs ++ ys) p = meach f ys p'.
Proof.
  revert p. induction xs as [|x xs IH]; intros p; cbn [meach app]; [by intros [= ->]|].
  unfold mbind, jsM_bind. destruct (f x p) as [q [[]|]]; [apply IH|done].
Qed.

Section marks.
Context `{B : Browser, C : CssText} (draws : dom → list string).
Hypothesis nodes_steady : ∀ d d', alike "active" d d' → all_nodes d = all_nodes d'.
Hypothesis nodes_present : ∀ d n, n ∈ all_nodes d → is_Some (d !! n).
(** A plain text stands for itself, and [$.escapeSelector] is undone. *)
Hypothesis css_plain : ∀ s, plain s = true → css_string s = Some s.
Hypothesis css_escaped : ∀ s, identifier s = true → css_string (Util.escapeId s) = Some s.

(** A selector that does not ask for the class active, such as an identifier. *)
Definition steady_query (s : string) : Prop := s = "" ∨ ∀ d d', alike "active" d d' → query d s = query d' s.

Section target.
Context (target : string) (Hq : steady_query target).

Lemma steady_links d d' : alike "active" d d' → links target d = links target d'.
Proof.
  intros H. assert (HL : steady LINK) by (do 2 (apply ignores_or; [auto|]); auto).
  unfold links. rewrite (nodes_steady d d' H). case_bool_decide as He.
  - f_equal. by apply (alike_filter "active").
  - destruct Hq as [|Hq']; [done|]. rewrite (Hq' d d' H). destruct (query d' target) as [ts|]; [|done]. simpl. f_equal.
    apply list_filter_iff. intros n.
    rewrite (HL d d' H n n eq_refl). f_equiv. f_equal. induction ts as [|a ts IH]; [done|]. simpl.
    by rewrite IH, (steady_inside d d' H).
Qed.
Lemma steady_spy_links d d' : alike "active" d d' → spy_links target d = spy_links target d'.
Proof. intros H. unfold spy_links. by rewrite (steady_links d d' H). Qed.
Lemma steady_link_of v d d' :
  alike "active" d d' → link_of (spy_links target) v d = link_of (spy_links target) v d'.
Proof.
  intros H. unfold link_of. rewrite (steady_spy_links d d' H). apply list_filter_iff. intros n.
  by rewrite !(alike_attribute _ d d' H n n eq_refl _ _ eq_refl).
Qed.
Lemma links_present d n : n ∈ spy_links target d → is_Some (d !! n).
Proof.
  unfold spy_links, links. intros Hn. apply nodes_present. case_match; simpl in Hn.
  - by apply list_elem_of_filter in Hn as [_ Hn].
  - destruct (query d target); simpl in Hn; [by apply list_elem_of_filter in Hn as [_ Hn]|by apply elem_of_nil in Hn].
Qed.

(** The marked links are exactly those of the target. *)
Definition marked (t : option string) (d : dom) : Prop :=
  ∃ v, css_string (default "undefined" t) = Some v ∧
    ∀ n, n ∈ spy_links target d → Dom.hasClass d n "active" = true ↔ n ∈ trail (link_of (spy_links target) v d) d.
Definition settled (a : active) (d : dom) : Prop :=
  match a with Null => True | Target t => marked t d end.

Lemma clear_alike d : alike "active" d (_clear (spy_links target) d).
Proof. apply alike_each, alike_removeClass. Qed.
Lemma clear_none d n : n ∈ spy_links target d → Dom.hasClass (_clear (spy_links target) d) n "active" = false.
Proof.
  intros Hn. unfold _clear. rewrite Dom.each_removeClass. destruct (Dom.hasClass d n "active") eqn:E; [|by rewrite andb_false_r].
  rewrite bool_decide_true; [done|]. by apply list_elem_of_filter.
Qed.
Lemma activate_marked t d :
  is_Some (css_string (default "undefined" t)) →
  ∃ d', ScrollSpy._activate (spy_links target) (default "undefined" t) d = (d', Ret ()) ∧ marked t d' ∧ alike "active" d d'.
Proof.
  intros [v Hv]. unfold ScrollSpy._activate. set (d1 := _clear _ d). rewrite Hv. set (lk := link_of _ _ d1). set (d2 := mark_links lk d1).
  assert (H1 : alike "active" d d1) by apply clear_alike.
  assert (H : alike "active" d1 d2) by apply mark_links_alike.
  exists d2. split; [done|]. split; [|by etrans]. exists v. split; [done|]. intros n.
  rewrite <- (steady_spy_links d1 d2 H), <- (steady_link_of _ d1 d2 H), <- (steady_trail _ d1 d2 H).
  fold lk. intros Hn. assert (Hp : is_Some (d1 !! n)) by (by eapply links_present).
  assert (Hf : Dom.hasClass d1 n "active" = false).
  { apply clear_none. by rewrite (steady_spy_links d d1). }
  unfold d2. rewrite mark_links_iff, Hf. naive_solver.
Qed.

(** A link whose target is written as an identifier is one of its own target. *)
Lemma link_marked d t n :
  marked t d → n ∈ spy_links target d → identifier (Util.written d n) = true →
  t = Some (Util.escapeId (Util.written d n)) → Dom.hasClass d n "active" = true.
Proof.
  intros (v & Hv & Hm) Hn Hp ->. change (css_string (Util.escapeId (Util.written d n)) = Some v) in Hv.
  rewrite css_escaped in Hv by done. injection Hv as <-. apply identifier_prefix in Hp.
  apply Hm; [done|]. assert (Hl : n ∈ link_of (spy_links target) (Util.written d n) d).
  { apply list_elem_of_filter. split; [|done]. revert Hp. unfold Util.written.
    destruct (Dom.getAttribute d n "data-target") as [s|]; cbn [default].
    - case_bool_decide; [|case_bool_decide]; cbn [orb]; [| |by left];
        (destruct (Dom.getAttribute d n "href"); cbn; [by right|done]).
    - cbn. destruct (Dom.getAttribute d n "href"); cbn; [by right|done]. }
  unfold trail. case_match; apply elem_of_app; by left.
Qed.
End target.

(** ** Events at one spy *)

Lemma upd_spy_run f o x p : objects p !! o = Some x →
  upd_spy f o p = (on_objects <[o := set_spy (f (_spy x)) x]> p, Ret ()).
Proof.
  intros H. unfold upd_spy, mupdate, on_objects. repeat f_equal. apply map_eq. intros k.
  rewrite lookup_alter, lookup_insert. case_decide; [subst; by rewrite H|done].
Qed.

(** Options with which measuring and marking do not throw: the selector of the
    links is valid and steady, and the targets of the links are written as
    identifiers or plain texts. *)
Record usable (c : config) (d : dom) : Prop := {
  us_method : c_method c ∈ ["auto"; "offset"; "position"];
  us_valid : is_Some (links (c_target c) d);
  us_steady : steady_query (c_target c);
  us_written n : n ∈ spy_links (c_target c) d →
    identifier (Util.written d n) = true ∨ plain (Util.written d n) = true
}.
Definition readable (t : string) : Prop := is_Some (css_string t).

(** The state of a spy between events. *)
Record sound (d0 : dom) (o : nat) (x : object) (p : page) : Prop := {
  so_object : objects p !! o = Some x;
  so_usable : usable (_config x) d0;
  so_alike : alike "active" d0 (sdoc p);
  so_targets : Forall readable (_targets (_spy x));
  so_sorted : sorted (_offsets (_spy x));
  so_offset : _offset (_spy x) = c_offset (_config x);
  so_marks : settled (c_target (_config x)) (_activeTarget (_spy x)) (sdoc p)
}.

Lemma of_spy_readable s t : Forall readable (_targets s) → of_spy s (Activated t) → readable (default "undefined" t).
Proof.
  intros Hr [i ->]. destruct (_targets s !! i) as [t'|] eqn:E; cbn [default].
  - rewrite Forall_lookup in Hr. by eapply Hr.
  - exists "undefined". by apply css_plain.
Qed.

Lemma perform_sound d0 o y x e p :
  _config y = _config x → sound d0 o x p → of_spy (_spy x) e →
  ∃ p', perform o y e p = (p', Ret ()) ∧
    sound d0 o (set_spy (set_active (after (_activeTarget (_spy x)) e) (_spy x)) x) p'.
Proof.
  intros Hy [Ho Hu Ha Ht Hs Hof Hm] He. unfold perform. rewrite Hy. destruct e as [t|].
  - rewrite (bind_ret _ _ _ _ _ (upd_spy_run _ _ _ _ Ho)).
    destruct (activate_marked (c_target (_config x)) (us_steady _ _ Hu) t (sdoc p)) as (d' & E & Hm' & Ha').
    { by apply (of_spy_readable (_spy x)). }
    erewrite bind_ret by reflexivity. cbn [on_objects sdoc]. rewrite E. erewrite bind_ret by reflexivity. cbn [fst snd].
    eexists. split; [reflexivity|]. split; cbn; try done; [by rewrite lookup_insert_eq|by etrans].
  - rewrite (bind_ret _ _ _ _ _ (upd_spy_run _ _ _ _ Ho)). eexists. split; [reflexivity|].
    split; cbn; try done; [by rewrite lookup_insert_eq|]. etrans; [exact Ha|apply clear_alike].
Qed.
Lemma set_active_twice a b s : set_active a (set_active b s) = set_active a s.
Proof. done. Qed.
Lemma performs_sound d0 o y x es p :
  _config y = _config x → sound d0 o x p → Forall (of_spy (_spy x)) es →
  ∃ p', meach (perform o y) es p = (p', Ret ()) ∧
    sound d0 o (set_spy (set_active (foldl after (_activeTarget (_spy x)) es) (_spy x)) x) p'.
Proof.
  revert x p; induction es as [|e es IH]; intros x p Hy Hx Hes.
  { exists p. split; [done|]. cbn [foldl]. by destruct x as [? ? ? []]. }
  apply Forall_cons in Hes as [He Hes]. destruct (perform_sound d0 o y x e p Hy Hx He) as (p1 & E1 & S1).
  destruct (IH (set_spy _ x) p1 Hy S1 Hes) as (p2 & E2 & S2). exists p2. cbn [meach]. rewrite (bind_ret _ _ _ _ _ E1). done.
Qed.

Lemma items_known l o d ns :
  c_method (_config o) ∈ ["auto"; "offset"; "position"] → ∃ ls, items l o d ns = Ret ls.
Proof.
  intros Hm. assert (Ht : ∀ n, is_Some (method_top (offset_method o) l n)).
  { intros n. unfold offset_method, method_top.
    repeat (apply elem_of_cons in Hm as [Hm|Hm]); [rewrite Hm..|by apply elem_of_nil in Hm]; simpl; [|by eexists..].
    destruct (_scrollElement o); simpl; by eexists. }
  induction ns as [|n ns [ls IH]]; [by eexists|]. cbn [items]. rewrite IH. unfold item.
  repeat case_match; simplify_eq; try (by eexists).
  match goal with H : method_top _ _ ?m = None |- _ => destruct (Ht m); congruence end.
Qed.

(** The targets that are found can be read back. *)
Lemma item_readable l o d n z s :
  identifier (Util.written d n) = true ∨ plain (Util.written d n) = true →
  item l o d n = Ret (Some (z, s)) → readable s.
Proof.
  intros Hn. unfold item, Util.getSelectorFromElement. set (w := Util.written d n) in *.
  set (sel := if String.prefix "#" w then Util.escapeId w else w). intros Hi.
  assert (Hs : s = sel) by (repeat (case_match; simplify_eq/=; try done)). subst s.
  unfold sel, readable. destruct Hn as [Hn|Hn].
  - rewrite (identifier_prefix w Hn), css_escaped by done. by eexists.
  - destruct (String.prefix "#" w) eqn:E; [rewrite css_escaped by (by rewrite plain_identifier)|rewrite css_plain by done]; by eexists.
Qed.
Lemma items_readable l o d ns ls :
  (∀ n, n ∈ ns → identifier (Util.written d n) = true ∨ plain (Util.written d n) = true) →
  items l o d ns = Ret ls → Forall readable (omap id ls).*2.
Proof.
  revert ls. induction ns as [|n ns IH]; intros ls Hn Hls; cbn [items] in Hls; [by injection Hls as <-|].
  destruct (item l o d n) as [x|] eqn:Ei; [|done]. destruct (items l o d ns) as [xs|] eqn:Ens; [|done]. injection Hls as <-.
  specialize (IH xs (λ m Hm, Hn m (list_elem_of_further _ _ _ Hm)) eq_refl). destruct x as [[z s]|]; cbn; [|done].
  constructor; [|done]. eapply item_readable; [apply Hn; by left|exact Ei].
Qed.
Lemma steady_written d d' n : alike "active" d d' → Util.written d n = Util.written d' n.
Proof. intros H. unfold Util.written. by rewrite !(alike_attribute _ d d' H n n eq_refl _ _ eq_refl). Qed.

Lemma refresh_run d0 l o x p : sound d0 o x p →
  ∃ s p', refresh l o p = (p', Ret ()) ∧ sound d0 o (set_spy s x) p' ∧
    _activeTarget s = _activeTarget (_spy x) ∧ _scrollHeight s = _getScrollHeight l (_scrollElement x).
Proof.
  intros [Ho Hu Ha Ht Hs Hof Hm]. pose proof Hu as [Hu1 [ns Hns] Hu3 Hu4].
  rewrite (steady_links _ Hu3 d0 (sdoc p) Ha) in Hns.
  destruct (items_known l x (sdoc p) ns Hu1) as [ls Hls].
  assert (Hr : Forall readable (omap id ls).*2).
  { eapply items_readable; [|exact Hls]. intros n Hn. rewrite <- (steady_written d0 (sdoc p)) by done. apply Hu4.
    rewrite (steady_spy_links _ Hu3 d0 (sdoc p) Ha). unfold spy_links. by rewrite Hns. }
  unfold refresh. erewrite bind_ret by (unfold this; by rewrite Ho). rewrite (bind_ret _ _ _ _ _ (upd_spy_run _ _ _ _ Ho)).
  erewrite bind_ret by reflexivity. cbn [on_objects sdoc]. rewrite Hns, Hls.
  rewrite (upd_spy_run _ _ (set_spy (ScrollSpy.refresh (view_of l x []) (_spy x)) x)) by (cbn; by rewrite lookup_insert_eq).
  exists (ScrollSpy.refresh (view_of l x ls) (ScrollSpy.refresh (view_of l x []) (_spy x))). eexists.
  split; [reflexivity|]. split; [|split; reflexivity].
  split; [cbn; by rewrite lookup_insert_eq|done|done| |apply sort_items_sorted|exact Hof|exact Hm].
  cbn. by rewrite (sort_items_perm (omap id ls)).
Qed.

Lemma process_run d0 l o x p : sound d0 o x p →
  ∃ x' p', _process l o p = (p', Ret ()) ∧ sound d0 o x' p' ∧ _config x' = _config x ∧ _scrollElement x' = _scrollElement x ∧
    ∀ k, let top := _getScrollTop l (_scrollElement x) in
      section_at (top + c_offset (_config x)) (_spy x') k →
      top < _getScrollHeight l (_scrollElement x) - _getOffsetHeight l (_scrollElement x) →
      _activeTarget (_spy x') = Target (_targets (_spy x') !! k).
Proof.
  intros Hx. unfold _process. erewrite bind_ret by (unfold this; by rewrite (so_object _ _ _ _ Hx)).
  set (h := _getScrollHeight l (_scrollElement x)).
  assert (∃ s p1, (mguard (negb (_scrollHeight (_spy x) =? h)) (refresh l o)) p = (p1, Ret ()) ∧
    sound d0 o (set_spy s x) p1 ∧ _scrollHeight s = h) as (s & p1 & E1 & Hx1 & Hh).
  { destruct (Z.eqb_spec (_scrollHeight (_spy x)) h) as [Eh|Eh]; cbn [negb mguard].
    - exists (_spy x), p. split; [done|]. split; [by destruct x|done].
    - destruct (refresh_run d0 l o x p Hx) as (s & p1 & E1 & Hx1 & _ & Hh). by exists s, p1. }
  rewrite (bind_ret _ _ _ _ _ E1). erewrite bind_ret by (unfold this; by rewrite (so_object _ _ _ _ Hx1)).
  cbn [set_spy _spy]. set (v := view_of l (set_spy s x) []).
  assert (Hv : _scrollHeight s = v_scrollHeight v) by exact Hh.
  pose proof (process_tracks v s Hv) as Ht. pose proof (process_section v s) as Hsec. pose proof (process_chooses v s Hv) as Hch.
  destruct (ScrollSpy._process v s) as [s' es]. cbn [fst snd] in Ht, Hch |- *.
  destruct (performs_sound d0 o (set_spy s x) (set_spy s x) es p1 eq_refl Hx1 Hch) as (p3 & E3 & S3).
  cbn [set_spy _spy] in S3. rewrite <- Ht in S3.
  exists (set_spy s' x), p3. split; [exact E3|]. split; [exact S3|]. split; [done|]. split; [done|].
  cbn zeta. intros k Hk Hmax. cbn [set_spy _spy] in *. rewrite Ht in Hk.
  pose proof (so_offset _ _ _ _ Hx1) as Hof1. cbn [set_spy _spy _config] in Hof1.
  specialize (Hsec k Hv (so_sorted _ _ _ _ Hx1) ltac:(exact Hmax)). rewrite Hof1 in Hsec.
  specialize (Hsec Hk). injection Hsec as -> _. done.
Qed.

Lemma construct_run l el given c p0 p1 :
  _getConfig draws given p0 = (p1, Ret c) → usable c (sdoc p1) →
  ∃ o x p, construct draws l el given p0 = (p, Ret o) ∧ sound (sdoc p1) o x p ∧ _config x = c ∧
    _scrollElement x = if is_body (sdoc p0) el then Window else Scrolled el.
Proof.
  intros Hc Hu. unfold construct. erewrite bind_ret by reflexivity. rewrite (bind_ret _ _ _ _ _ Hc).
  do 4 (erewrite bind_ret by reflexivity). set (s := if is_body _ _ then Window else Scrolled el).
  set (o := sfresh p1). set (x := Object el s c (MkSpy (c_offset c) [] [] Null 0)).
  match goal with |- context [(refresh l o ≫= _) ?q] => set (p2 := q) end.
  assert (Hx : sound (sdoc p1) o x p2).
  { split; [cbn; by rewrite lookup_insert_eq|done|done|constructor|intros i j a b _ Ha; done|done|exact I]. }
  destruct (refresh_run _ l o x p2 Hx) as (s1 & p3 & E3 & Hx3 & _). rewrite (bind_ret _ _ _ _ _ E3).
  destruct (process_run _ l o _ p3 Hx3) as (x4 & p4 & E4 & Hx4 & Hc4 & Hs4 & _). rewrite (bind_ret _ _ _ _ _ E4).
  exists o, x4, p4. split; [done|]. split; [done|]. by rewrite Hc4, Hs4.
Qed.

(** The user scrolls, the page calls [refresh]; each with the layout it finds. *)
Inductive event := Scroll (l : layout) | Refresh (l : layout).
Definition handle (o : nat) (e : event) : spyM () := match e with Scroll l => _process l o | Refresh l => refresh l o end.

Lemma events_sound d0 o x p es : sound d0 o x p →
  ∃ x' p', meach (handle o) es p = (p', Ret ()) ∧ sound d0 o x' p' ∧ _config x' = _config x ∧ _scrollElement x' = _scrollElement x.
Proof.
  revert x p; induction es as [|e es IH]; intros x p Hx; [by exists x, p|]. cbn [meach].
  assert (∃ x1 p1, handle o e p = (p1, Ret ()) ∧ sound d0 o x1 p1 ∧ _config x1 = _config x ∧ _scrollElement x1 = _scrollElement x)
    as (x1 & p1 & E1 & H1 & Hc & Hs).
  { destruct e as [l|l]; cbn [handle].
    - destruct (process_run d0 l o x p Hx) as (x' & p' & -> & H' & Hc & Hs & _). by exists x', p'.
    - destruct (refresh_run d0 l o x p Hx) as (s & p' & -> & H' & _). by eexists _, p'. }
  rewrite (bind_ret _ _ _ _ _ E1). destruct (IH x1 _ H1) as (x2 & p2 & E2 & H2 & Hc2 & Hs2). exists x2, p2. by rewrite Hc2, Hs2.
Qed.

(** C16. A scroll spy with a known method, whose links are selected by a selector
    that does not ask for the class active and have their targets written as
    identifiers, or as texts without quotes and backslashes, is always made, and
    whatever scrolling and refreshing happens at whatever layouts, no event
    throws.  When the page is then scrolled to a section, the target of that
    section is the active one, and among the links of the spy exactly those that
    have it as an attribute, unescaped, and the ones above them in the navigation
    are marked active; so the link is that led to it, if its target is written
    as an identifier. *)
Theorem scroll_marks_section given c p0 p1 el l0 es l :
  _getConfig draws given p0 = (p1, Ret c) → usable c (sdoc p1) →
  ∃ o p, construct draws l0 el given p0 = (p, Ret o) ∧
    ∃ x p', meach (handle o) (es ++ [Scroll l]) p = (p', Ret ()) ∧ objects p' !! o = Some x ∧
      ∀ k, let top := _getScrollTop l (_scrollElement x) in let t := _targets (_spy x) !! k in
        section_at (top + c_offset c) (_spy x) k →
        top < _getScrollHeight l (_scrollElement x) - _getOffsetHeight l (_scrollElement x) →
        _activeTarget (_spy x) = Target t ∧ marked (c_target c) t (sdoc p') ∧
        ∀ n, n ∈ spy_links (c_target c) (sdoc p') → identifier (Util.written (sdoc p') n) = true →
          t = Some (Util.escapeId (Util.written (sdoc p') n)) → Dom.hasClass (sdoc p') n "active" = true.
Proof.
  intros Hc Hu. destruct (construct_run l0 el given c p0 p1 Hc Hu) as (o & x & p & E & Hx & Hxc & _).
  exists o, p. split; [done|]. destruct (events_sound _ o x p es Hx) as (x1 & q & Eq & Hx1 & Hc1 & Hs1).
  destruct (process_run _ l o x1 _ Hx1) as (x2 & p' & E2 & Hx2 & Hc2 & Hs2 & Hk). exists x2, p'. split.
  { rewrite (meach_app_ret _ _ _ _ _ Eq). cbn [meach handle]. by rewrite (bind_ret _ _ _ _ _ E2). }
  split; [apply Hx2|]. cbn zeta in *. rewrite Hs2. intros k Hsec Hmax.
  rewrite Hc1, Hxc in Hk. specialize (Hk k Hsec Hmax). split; [done|].
  pose proof (so_marks _ _ _ _ Hx2) as Hm. rewrite Hk, Hc2, Hc1, Hxc in Hm. split; [exact Hm|].
  intros n. by apply link_marked.
Qed.

(** Disposing a spy ends it: the element forgets it, and scrolling does nothing
    any more. *)
Lemma dispose_silent o x l p :
  objects p !! o = Some x →
  ∃ p', dispose o p = (p', Ret ()) ∧ sdata p' !! _element x = None ∧ sdoc p' = sdoc p ∧
    on_scroll l (_scrollElement x) p' = (p', Ret ()).
Proof.
  intros Ho. unfold dispose. erewrite bind_ret by (unfold this; by rewrite Ho).
  do 2 (erewrite bind_ret by reflexivity). eexists. split; [reflexivity|]. cbn. split; [by rewrite lookup_delete_eq|].
  split; [done|]. unfold on_scroll. erewrite bind_ret by reflexivity. unfold on_listeners, on_objects, set_sdata. cbn.
  rewrite list_filter_filter.
  assert (filter (λ w : scroller * nat, w.1 = _scrollElement x ∧ w.1 ≠ _scrollElement x) (listeners p) = []) as ->; [|done].
  induction (listeners p) as [|w ws IH]; [done|]. rewrite filter_cons_False by naive_solver. done.
Qed.

(** What [refresh] finds for a scrolled element does not depend on how far it is
    scrolled. *)
Lemma items_scrolled l l' o d ns :
  offset_method o = "position" →
  (∀ n, position_top l' n + _getScrollTop l' (_scrollElement o) = position_top l n + _getScrollTop l (_scrollElement o)) →
  (∀ n, rect_size l' n = rect_size l n) → items l' o d ns = items l o d ns.
Proof.
  intros Hm Ht Hr. induction ns as [|n ns IH]; [done|]. cbn [items]. rewrite IH.
  assert (item l' o d n = item l o d n) as ->; [|done]. unfold item, offset_base, method_top. rewrite Hm, (bool_decide_false ("position" = "offset")), !(bool_decide_true ("position" = "position")) by done.
  case_match; [|done]. case_match; [|done]. rewrite Hr, Ht. done.
Qed.

End marks.

(** ** A page with two sections *)

(** Escaping and reading back, with a backslash before every character that is
    neither a letter or digit nor one of [_] and [-]. *)
Definition word_char (c : Ascii.ascii) : bool :=
  let n := Ascii.nat_of_ascii c in
  ((48 <=? n) && (n <=? 57) || (65 <=? n) && (n <=? 90) || (97 <=? n) && (n <=? 122) || (n =? 95) || (n =? 45) || (128 <=? n))%nat.
Definition backslash : Ascii.ascii := Ascii.ascii_of_nat 92.
Definition quote : Ascii.ascii := Ascii.ascii_of_nat 34.
Fixpoint sample_escape (s : string) : string :=
  match s with
  | EmptyString => ""
  | String c s' => if word_char c then String c (sample_escape s') else String backslash (String c (sample_escape s'))
  end.
Fixpoint sample_css (s : string) : option string :=
  match s with
  | EmptyString => Some ""
  | String c s' =>
      if bool_decide (c = quote) then None
      else if bool_decide (c = backslash) then
        match s' with EmptyString => None | String c' s'' => String c' <$> sample_css s'' end
      else String c <$> sample_css s'
  end.
Lemma sample_escaped s : sample_css (sample_escape s) = Some s.
Proof.
  induction s as [|c s IH]; [done|]. cbn [sample_escape]. destruct (word_char c) eqn:E.
  - cbn [sample_css]. rewrite !bool_decide_false by (intros ->; vm_compute in E; discriminate). by rewrite IH.
  - cbn [sample_css]. rewrite bool_decide_false by (by vm_compute). rewrite bool_decide_true by done. by rewrite IH.
Qed.
Lemma sample_plain s : plain s = true → sample_css s = Some s.
Proof.
  unfold plain. induction s as [|c s IH]; [done|]. cbn [without sample_css]. intros [Hc%bool_decide_eq_true Hs]%andb_true_iff.
  rewrite !bool_decide_false by (intros ->; apply Hc; vm_compute; repeat constructor). by rewrite IH.
Qed.
Lemma substring_all s n : String.length s = n → String.substring 0 n s = s.
Proof. intros <-. induction s as [|c s IH]; [done|]. cbn. by rewrite IH. Qed.

Definition sample_nodes : list nid := [1; 2; 3; 4; 5; 6]%nat.
(** [#id] selects the element with this identifier. *)
Definition sample_browser : Browser := {|
  query d s := Some match sample_css s with
    | Some (String _ i) => filter (λ n, Dom.sel_id i d n = true) sample_nodes | _ => [] end;
  all_nodes d := filter (λ n, is_Some (d !! n)) sample_nodes;
  escapeSelector := sample_escape;
  prevents _ _ _ := false;
  supportsTransitionEnd := true
|}.
Lemma sample_undone s : identifier s = true → sample_css (Util.escapeId (B:=sample_browser) s) = Some s.
Proof.
  intros Hs%identifier_prefix. destruct s as [|c s]; [done|]. cbn [String.prefix] in Hs. destruct (Ascii.ascii_dec _ c) as [<-|]; [|done].
  assert (Hi : Util.escapeId (B:=sample_browser) (String (Ascii.ascii_of_nat 35) s) = String (Ascii.ascii_of_nat 35) (sample_escape s)).
  { unfold Util.escapeId, Util.substr1. change (escapeSelector (Browser:=sample_browser) _) with
      (String backslash (String (Ascii.ascii_of_nat 35) (sample_escape s))).
    cbn [String.length Nat.sub String.substring]. f_equal. by apply substring_all. }
  etrans; [by apply (f_equal sample_css)|]. cbn. by rewrite sample_escaped.
Qed.

Definition sample_link (s : string) : elem :=
  Elem "a" "" ["nav-link"] {[ "href" := s ]} ∅ (Some 2%nat) [].
Definition sample_doc : dom := {[
  1%nat := Elem "body" "" [] ∅ ∅ None [2%nat; 5%nat; 6%nat];
  2%nat := Elem "nav" "menu" ["nav"] ∅ ∅ (Some 1%nat) [3%nat; 4%nat];
  3%nat := sample_link "#sec.1";
  4%nat := sample_link "#sec.2";
  5%nat := Elem "section" "sec.1" [] ∅ ∅ (Some 1%nat) [];
  6%nat := Elem "section" "sec.2" [] ∅ ∅ (Some 1%nat) []
]}.
Definition sample_layout (y : Z) : layout :=
  Layout y 400 2000 2000 (λ _, 0) (λ _, 0) (λ _, (100, 500)) (λ n, if bool_decide (n = 6%nat) then 500 else 0) (λ _, 0).
Definition sample_page : page := Page sample_doc ∅ ∅ [] [] 0.
Definition sample_options : options := Options None None (Some (TString "#menu")).

Lemma sample_query s d d' : alike "active" d d' → query (Browser:=sample_browser) d s = query (Browser:=sample_browser) d' s.
Proof.
  intros H. cbn [query sample_browser]. destruct (sample_css s) as [[|c i]|]; [done| |done]. f_equal. apply list_filter_iff. intros n. unfold Dom.sel_id.
  pose proof (alike_elem "active" elId d d' n ltac:(done) H) as E.
  destruct (d !! n), (d' !! n); simpl in *; simplify_eq; try done. by rewrite E.
Qed.
Lemma sample_usable : usable (B:=sample_browser) (Config 10 "auto" "#menu") sample_doc.
Proof.
  split.
  - by left.
  - vm_compute. by eexists.
  - right. intros d d'. apply sample_query.
  - intros n Hn. left. assert (Hl : spy_links (B:=sample_browser) "#menu" sample_doc = [3; 4]%nat) by (vm_compute; reflexivity).
    cbn [c_target] in Hn. rewrite Hl in Hn. each_of Hn; vm_compute; reflexivity.
Qed.

Lemma scroll_marks_section_witness :
  let B := sample_browser in let C := sample_css in
  ∃ o p, construct (C:=C) (λ _, []) (sample_layout 0) 1 sample_options sample_page = (p, Ret o) ∧
    ∃ x p', meach (handle (C:=C) o) [Scroll (sample_layout 100); Refresh (sample_layout 250); Scroll (sample_layout 600)] p = (p', Ret ()) ∧
      _activeTarget (_spy x) = Target (Some "#sec\.2") ∧ marked (C:=C) "#menu" (Some "#sec\.2") (sdoc p') ∧
      spy_links "#menu" (sdoc p') = [3; 4]%nat ∧ Dom.hasClass (sdoc p') 4 "active" = true.
Proof.
  intros B C.
  destruct (scroll_marks_section (B:=sample_browser) (C:=sample_css) (λ _, [])
    (λ d d' H, list_filter_iff _ _ _ (λ n, alike_present "active" d d' n H))
    (λ d n H, proj1 (proj1 (list_elem_of_filter _ _ _) H)) sample_plain sample_undone sample_options
    (Config 10 "auto" "#menu") sample_page sample_page
    1 (sample_layout 0) [Scroll (sample_layout 100); Refresh (sample_layout 250)] (sample_layout 600))
    as (o & p & E & x & p' & E' & Ho & Hk).
  - vm_compute. reflexivity.
  - apply sample_usable.
  - exists o, p. split; [exact E|]. exists x, p'. split; [exact E'|].
    vm_compute in E. injection E as <- <-. vm_compute in E'. injection E' as <-. vm_compute in Ho. injection Ho as <-.
    specialize (Hk 1%nat). cbv zeta in Hk.
    match type of Hk with ?A → ?C → _ => assert (HA : A); [|assert (HC : C); [cbn; lia|specialize (Hk HA HC)]] end.
    { split; [exists 500; split; [reflexivity|cbn; lia]|]. intros [|[|j]] z Hj Hz; [lia|lia|done]. }
    split; [exact (proj1 Hk)|]. split; [exact (proj1 (proj2 Hk))|]. split; vm_compute; reflexivity.
Defined.

End ScrollSpyPage.
