(* ===== verification/Tab.v ===== *)
(** * Tab, bootstrap.js lines 3615 to 3853

    Showing a tab deactivates the active link of its list and the active pane
    beside its target, then activates its own; the panes may fade. *)

From S2P Require Import Prelude Dom Bs.
Local Open Scope string_scope.
Local Open Scope list_scope.

Module Tab.

(** The end of [show], lines 3710 to 3719: the previous tab and the new one. *)
Record shown := Shown { sh_previous : option nid; sh_tab : nid }.

(** The callback that waits for a pane to fade out. *)
Inductive kont := TransitionComplete (element : nid) (active : nid) (callback : shown).
Abbreviation tabM := (bsM () kont).

Section tab.
Context `{B : Browser}.

Definition NAV_LIST_GROUP : Dom.selector := Dom.sel_or (Dom.sel_class "nav") (Dom.sel_class "list-group").
Definition ACTIVE : Dom.selector := Dom.sel_class "active".

(** [find('> li > .active')] *)
Definition active_ul (d : dom) (n : nid) : list nid :=
  Dom.children d n ≫= λ li,
    if Dom.sel_tag "li" d li then filter (λ m, ACTIVE d m = true) (Dom.children d li) else [].
Definition is_ul (d : dom) (n : nid) : bool := Dom.sel_tag "ul" d n.

(** [find('> .dropdown-menu .active')] *)
Definition dropdown_active (d : dom) (n : nid) : list nid :=
  Dom.children d n ≫= λ m,
    if Dom.hasClass d m "dropdown-menu" then Dom.find ACTIVE d m else [].

Definition has_role_tab (d : dom) (n : nid) : bool := bool_decide (Dom.getAttribute d n "role" = Some "tab").

(** Lines 3760 to 3771. *)
Definition deactivate (active : nid) (d : dom) : dom :=
  let d := Dom.removeClass "active" active (Dom.removeClass "show" active d) in
  let d := match Dom.parent d active with
           | Some p => match head (dropdown_active d p) with
                       | Some c => Dom.removeClass "active" c d
                       | None => d
                       end
           | None => d
           end in
  if has_role_tab d active then Dom.setAttribute "aria-selected" "false" active d else d.

(** Lines 3773 to 3790. *)
Definition activate_element (element : nid) (d : dom) : dom :=
  let d := Dom.addClass "active" element d in
  let d := if has_role_tab d element then Dom.setAttribute "aria-selected" "true" element d else d in
  let d := Dom.addClass "show" element d in
  match Dom.parent d element with
  | Some p =>
      if Dom.hasClass d p "dropdown-menu" then
        let d := match Dom.closest (Dom.sel_class "dropdown") d element with
                 | Some m => Dom.each (Dom.addClass "active") (Dom.find (Dom.sel_class "dropdown-toggle") d m) d
                 | None => d
                 end in
        Dom.setAttribute "aria-expanded" "true" element d
      else d
  | None => d
  end.

(** Lines 3710 to 3719. *)
Definition complete (s : shown) : tabM () :=
  _ ← trigger_opt "hidden.bs.tab" [("relatedTarget", ANode (Some (sh_tab s)))] (sh_previous s);
  _ ← trigger "shown.bs.tab" [("relatedTarget", ANode (sh_previous s))] (sh_tab s);
  mret ().

(** Lines 3759 to 3795. *)
Definition _transitionComplete (element : nid) (active : option nid) (callback : option shown) : tabM () :=
  _ ← doc_op (λ d, match active with Some a => deactivate a d | None => d end);
  _ ← doc_op (activate_element element);
  match callback with Some s => complete s | None => mret () end.

(** Lines 3739 to 3745. *)
Definition active_in (d : dom) (container : nid) : option nid :=
  head (if is_ul d container then active_ul d container
        else filter (λ m, ACTIVE d m = true) (Dom.children d container)).

(** Lines 3734 to 3757; reading a missing container throws. *)
Definition _activate (element : nid) (container : option nid) (callback : option shown) : tabM () :=
  match container with
  | None => mthrow TypeError
  | Some c =>
      active ← mget (λ p, active_in (pdoc p) c);
      fade ← mget (λ p, match active with Some a => Dom.hasClass (pdoc p) a "fade" | None => false end);
      match active, callback with
      | Some a, Some s => if supportsTransitionEnd && fade
                          then one a TRANSITION_END (TransitionComplete element a s)
                          else _transitionComplete element active callback
      | _, _ => _transitionComplete element active callback
      end
  end.

(** Lines 3669 to 3726. *)
Definition show (el : nid) : tabM () :=
  d ← mget pdoc;
  if (bool_decide (is_Some (Dom.parent d el)) && Dom.hasClass d el "active") || Dom.hasClass d el "disabled"
  then mret ()
  else
    let listElement := Dom.closest NAV_LIST_GROUP d el in
    let previous := match listElement with
                    | Some l => last (if is_ul d l then active_ul d l else Dom.find ACTIVE d l)
                    | None => None
                    end in
    hidePrevented ← trigger_opt "hide.bs.tab" [("relatedTarget", ANode (Some el))] previous;
    showPrevented ← trigger "show.bs.tab" [("relatedTarget", ANode previous)] el;
    if showPrevented || hidePrevented then mret ()
    else
      let target := Util.target_of d el in
      _ ← _activate el listElement None;
      match target with
      | Some t =>
          q ← mget (λ p, Dom.parent (pdoc p) t);
          _activate t q (Some (Shown previous el))
      | None => complete (Shown previous el)
      end.

(** Lines 3728 to 3731. *)
Definition dispose (el : nid) : tabM () := mupdate (drop_data el).

(** Lines 3798 to 3816. *)
Definition _jQueryInterface (config : string) (els : list nid) : tabM () :=
  meach (λ el,
    _ ← mupdate (λ p, match pdata p !! el with Some _ => p | None => set_data el () p end);
    if bool_decide (config = "") then mret ()
    else if bool_decide (config = "show") then show el
    else if bool_decide (config = "dispose") then dispose el
    else mthrow TypeError) els.

(** Lines 3833 to 3837. *)
Definition on_click (el : nid) : tabM () := _jQueryInterface "show" [el].

Definition resume (k : kont) : tabM () :=
  match k with TransitionComplete e a s => _transitionComplete e (Some a) (Some s) end.

(** ** One active member *)

(** Only [a] of the members is active. *)
Definition only_active (d : dom) (members : list nid) (a : nid) : Prop :=
  ∀ m, m ∈ members → Dom.hasClass d m "active" = bool_decide (m = a).

Lemma class_if_attr (b : bool) a v n d m c :
  Dom.hasClass (if b then Dom.setAttribute a v n d else d) m c = Dom.hasClass d m c.
Proof. destruct b; [apply Dom.hasClass_setAttribute|done]. Qed.

(** Deactivating only takes the class away, and from [a] for sure. *)
Lemma remove_mono x c d m y : Dom.hasClass (Dom.removeClass c x d) m y = true → Dom.hasClass d m y = true.
Proof. rewrite Dom.hasClass_removeClass. by intros [_ ?]%andb_true_iff. Qed.

Lemma deactivate_mono a d m y : Dom.hasClass (deactivate a d) m y = true → Dom.hasClass d m y = true.
Proof.
  unfold deactivate. rewrite class_if_attr. intros H.
  assert (H1 : Dom.hasClass (Dom.removeClass "active" a (Dom.removeClass "show" a d)) m y = true).
  { repeat case_match; try done. by eapply remove_mono. }
  by apply remove_mono, remove_mono in H1.
Qed.
Lemma deactivate_self a d : Dom.hasClass (deactivate a d) a "active" = false.
Proof.
  unfold deactivate. rewrite class_if_attr.
  destruct (Dom.parent _ a) as [q|]; [|apply Dom.hasClass_remove_same].
  destruct (head _) as [c|]; [|apply Dom.hasClass_remove_same].
  rewrite Dom.hasClass_removeClass, Dom.hasClass_remove_same. apply andb_false_r.
Qed.
(** Without a dropdown beside [a], nothing else loses the class. *)
Lemma deactivate_other a d m :
  m ≠ a → (∀ q c, Dom.parent d a = Some q → c ∈ Dom.children d q → Dom.hasClass d c "dropdown-menu" = false) →
  Dom.hasClass (deactivate a d) m "active" = Dom.hasClass d m "active".
Proof.
  intros Hne Hdd. unfold deactivate. rewrite class_if_attr.
  set (d1 := Dom.removeClass "active" a (Dom.removeClass "show" a d)).
  assert (H1 : Dom.hasClass d1 m "active" = Dom.hasClass d m "active")
    by (unfold d1; by rewrite !Dom.hasClass_remove_other by auto).
  assert (Hp : ∀ x, Dom.parent d1 x = Dom.parent d x) by (intros; unfold d1; by rewrite !Dom.parent_removeClass).
  assert (Hc : ∀ x, Dom.children d1 x = Dom.children d x) by (intros; unfold d1; by rewrite !Dom.children_removeClass).
  rewrite Hp. destruct (Dom.parent d a) as [q|]; [|done].
  replace (dropdown_active d1 q) with (@nil nid); [done|]. symmetry. unfold dropdown_active. rewrite Hc.
  specialize (Hdd q). induction (Dom.children d q) as [|c cs IH]; [done|]. rewrite bind_cons.
  unfold d1 at 1. rewrite !Dom.hasClass_remove_other by (right; done).
  rewrite Hdd by (done || by left). cbn. apply IH. intros x Hq Hx. apply Hdd; [done|by right].
Qed.

Lemma activate_classes e d m :
  is_Some (d !! e) → (∀ q, Dom.parent d e = Some q → Dom.hasClass d q "dropdown-menu" = false) →
  Dom.hasClass (activate_element e d) m "active" = bool_decide (m = e) || Dom.hasClass d m "active".
Proof.
  intros Hp Hdd. unfold activate_element.
  set (d1 := Dom.addClass "active" e d).
  set (d2 := if has_role_tab d1 e then Dom.setAttribute "aria-selected" "true" e d1 else d1).
  set (d3 := Dom.addClass "show" e d2).
  assert (Hc : ∀ x c, c ≠ "show" → c ≠ "active" → Dom.hasClass d3 x c = Dom.hasClass d x c).
  { intros x c H1 H2. unfold d3, d2. rewrite Dom.hasClass_add_other, class_if_attr by (by right).
    unfold d1. by rewrite Dom.hasClass_add_other by (by right). }
  assert (Hpar : Dom.parent d3 e = Dom.parent d e).
  { unfold d3, d2, d1. rewrite Dom.parent_addClass.
    destruct (has_role_tab _ _); by rewrite ?Dom.parent_setAttribute, Dom.parent_addClass. }
  assert (Ha : Dom.hasClass d3 m "active" = bool_decide (m = e) || Dom.hasClass d m "active").
  { unfold d3, d2. rewrite Dom.hasClass_add_other, class_if_attr by (by right). unfold d1.
    rewrite Dom.hasClass_addClass. f_equal. apply bool_decide_ext. naive_solver. }
  rewrite Hpar. destruct (Dom.parent d e) as [q|] eqn:Eq; [|done]. rewrite Hc by done. by rewrite Hdd.
Qed.

(** Switching keeps the tree and the other classes. *)
Lemma deactivate_tree a d x :
  Dom.parent (deactivate a d) x = Dom.parent d x ∧ Dom.children (deactivate a d) x = Dom.children d x ∧
  (is_Some (deactivate a d !! x) ↔ is_Some (d !! x)).
Proof.
  unfold deactivate. set (d1 := Dom.removeClass "active" a (Dom.removeClass "show" a d)).
  assert (H1 : Dom.parent d1 x = Dom.parent d x ∧ Dom.children d1 x = Dom.children d x ∧
               (is_Some (d1 !! x) ↔ is_Some (d !! x))).
  { unfold d1. by rewrite !Dom.parent_removeClass, !Dom.children_removeClass, !Dom.present_removeClass. }
  set (d2 := match Dom.parent d1 a with Some _ => _ | None => d1 end).
  assert (H2 : Dom.parent d2 x = Dom.parent d x ∧ Dom.children d2 x = Dom.children d x ∧
               (is_Some (d2 !! x) ↔ is_Some (d !! x))).
  { unfold d2. repeat case_match; rewrite ?Dom.parent_removeClass, ?Dom.children_removeClass, ?Dom.present_removeClass; done. }
  destruct (has_role_tab d2 a); [|done].
  by rewrite Dom.parent_setAttribute, Dom.children_setAttribute, Dom.present_setAttribute.
Qed.

Lemma deactivate_class a d x c : c ≠ "active" → c ≠ "show" → Dom.hasClass (deactivate a d) x c = Dom.hasClass d x c.
Proof.
  intros H1 H2. unfold deactivate. rewrite class_if_attr.
  repeat case_match; rewrite ?Dom.hasClass_remove_other by (by right); done.
Qed.

(** Lines 3734 to 3795 on documents: a container with one active member gets
    another one. *)
Definition switch (element : nid) (active : option nid) (d : dom) : dom :=
  activate_element element (match active with Some a => deactivate a d | None => d end).

(** When a pane or link of a container in which at most one member is active
    is shown, it becomes the only active member of the container. *)
Theorem switch_exclusive d members container element :
  Dom.children d container = members → is_ul d container = false →
  element ∈ members → is_Some (d !! element) →
  (∀ m, m ∈ members → Dom.parent d m = Some container) →
  Dom.hasClass d container "dropdown-menu" = false →
  (∀ a b, a ∈ members → b ∈ members → Dom.hasClass d a "active" = true → Dom.hasClass d b "active" = true → a = b) →
  only_active (switch element (active_in d container) d) members element.
Proof.
  intros Hch Hul He Hpres Hpar Hdd Hone m Hm. unfold switch.
  set (d1 := match active_in d container with Some a => deactivate a d | None => d end).
  assert (Htree : ∀ x, Dom.parent d1 x = Dom.parent d x ∧ (is_Some (d1 !! x) ↔ is_Some (d !! x)) ∧
    ∀ c, c ≠ "active" → c ≠ "show" → Dom.hasClass d1 x c = Dom.hasClass d x c).
  { intros x. unfold d1. destruct (active_in d container) as [a|]; [|done].
    destruct (deactivate_tree a d x) as (-> & _ & ->). split_and!; [done|done|]. intros. by apply deactivate_class. }
  assert (Hnone : Dom.hasClass d1 m "active" = false).
  { unfold d1, active_in. rewrite Hul, Hch.
    destruct (filter (λ m, ACTIVE d m = true) members) as [|a l] eqn:E; simpl.
    - destruct (Dom.hasClass d m "active") eqn:Ha; [|done].
      assert (m ∈ filter (λ m, ACTIVE d m = true) members) as Hin by (by apply list_elem_of_filter).
      rewrite E in Hin. by apply elem_of_nil in Hin.
    - assert (a ∈ filter (λ m, ACTIVE d m = true) members) as Hin by (rewrite E; by left).
      apply list_elem_of_filter in Hin as [Ha Hin].
      destruct (Dom.hasClass (deactivate a d) m "active") eqn:Hd; [|done].
      rewrite (Hone m a) in Hd; [by rewrite deactivate_self in Hd|done|done|by eapply deactivate_mono|done]. }
  rewrite activate_classes, Hnone, orb_false_r; [done|by apply Htree|].
  intros q Hq. destruct (Htree element) as (Hp & _). rewrite Hp, Hpar in Hq by done. simplify_eq.
  destruct (Htree q) as (_ & _ & Hcl). by rewrite Hcl.
Qed.

(** The handler does nothing else to the document. *)
Lemma transitionComplete_doc e a cb p : pdoc (_transitionComplete e a cb p).1 = switch e a (pdoc p).
Proof.
  unfold _transitionComplete, switch. run. destruct cb as [[prev tab]|]; [|done].
  unfold complete. run. destruct prev; done.
Qed.

(** The events of a completed switch come in order: the previous tab is
    hidden before the new one is shown, each naming the other. *)
Theorem complete_events e a prev tab p :
  plog (_transitionComplete e a (Some (Shown (Some prev) tab)) p).1 =
    plog p ++ [Ev prev "hidden.bs.tab" [("relatedTarget", ANode (Some tab))];
               Ev tab "shown.bs.tab" [("relatedTarget", ANode (Some prev))]].
Proof. unfold _transitionComplete, complete. run. cbn. by rewrite <- app_assoc. Qed.

(** A tab that is in no list, so that there is nothing to switch, makes the
    handler throw a TypeError after its show event has been announced. *)
Theorem show_outside_list el p :
  Dom.hasClass (pdoc p) el "active" = false → Dom.hasClass (pdoc p) el "disabled" = false →
  Dom.closest NAV_LIST_GROUP (pdoc p) el = None → prevents (pdoc p) el "show.bs.tab" = false →
  (show el p).2 = Throw TypeError ∧
  plog (show el p).1 = plog p ++ [Ev el "show.bs.tab" [("relatedTarget", ANode None)]].
Proof.
  intros Ha Hd Hc Hpr.
  assert (E : show el p = (add_log (Ev el "show.bs.tab" [("relatedTarget", ANode None)]) p, Throw TypeError)).
  { unfold show. run. rewrite Ha, Hd, andb_false_r. run. rewrite Hc. run. by rewrite Hpr. }
  by rewrite E.
Qed.

End tab.

Lemma switch_exclusive_witness :
  let d : dom := {[ 1%nat := Elem "div" "" ["tab-content"] ∅ ∅ None [2%nat; 3%nat];
                    2%nat := Elem "div" "a" ["tab-pane"; "active"; "show"] ∅ ∅ (Some 1%nat) [];
                    3%nat := Elem "div" "b" ["tab-pane"] ∅ ∅ (Some 1%nat) [] ]} in
  only_active (switch 3 (active_in d 1) d) [2; 3]%nat 3.
Proof.
  intros d. apply (switch_exclusive d [2; 3]%nat 1%nat 3%nat);
    [reflexivity|reflexivity|by_evaluation|by eexists| |reflexivity|].
  - intros m [->|[->|Hm%elem_of_nil]%elem_of_cons]%elem_of_cons; done.
  - intros a b [->|[->|Ha%elem_of_nil]%elem_of_cons]%elem_of_cons [->|[->|Hb%elem_of_nil]%elem_of_cons]%elem_of_cons; done.
Defined.

Lemma show_outside_list_witness :
  let p : bpage () kont := BPage {[ 1%nat := Elem "a" "" [] ∅ ∅ None [] ]} [] [] ∅ 0 in
  (show (B:=plain_browser) 1 p).2 = Throw TypeError ∧
  plog (show (B:=plain_browser) 1 p).1 = plog p ++ [Ev 1 "show.bs.tab" [("relatedTarget", ANode None)]].
Proof. intros p. apply (show_outside_list (B:=plain_browser) 1 p); vm_compute; reflexivity. Defined.

End Tab.
