(* ===== verification/TabLife.v ===== *)
(** * Tab: a set of tabs

    The links of a list and the panes beside each other, as a machine: the link
    that is chosen, the panes that are open, and the panes that are to be closed
    when their transition has ended, each with the pane that follows it.  The
    handlers of Tab refine it.  If the user waits for the transitions, one pane
    is open, that of the last link; if not, panes are left open. *)

From S2P Require Import Prelude Dom DomMarks Bs Tab.
Local Open Scope string_scope.
Local Open Scope list_scope.

Module TabLife.
Import DomMarks Tab.

(** ** Documents up to what tabs change *)

Definition classes : list string := ["active"; "show"].
Definition attrs : list string := ["aria-selected"; "aria-expanded"].
Abbreviation alike := (alike classes attrs).

Definition mark (c : string) : Prop := c = "active" ∨ c = "show".
Lemma mark_classes c : mark c ↔ c ∈ classes.
Proof. unfold mark, classes. set_solver. Qed.
Lemma alike_add c n d : mark c → alike d (Dom.addClass c n d).
Proof. intros Hc%mark_classes. by apply marks_add. Qed.
Lemma alike_remove c n d : mark c → alike d (Dom.removeClass c n d).
Proof. intros Hc%mark_classes. by apply marks_remove. Qed.
Lemma alike_attr a v n d : a = "aria-selected" ∨ a = "aria-expanded" → alike d (Dom.setAttribute a v n d).
Proof. intros Ha. apply marks_set. unfold attrs. set_solver. Qed.
Lemma other_class c d d' n : ¬ mark c → alike d d' → Dom.hasClass d' n c = Dom.hasClass d n c.
Proof. intros Hc H. apply (marks_class classes attrs); [done|]. by rewrite <- mark_classes. Qed.
Lemma alike_nav d d' n : alike d d' → Dom.closest NAV_LIST_GROUP d' n = Dom.closest NAV_LIST_GROUP d n.
Proof.
  intros H. apply (marks_closest classes attrs); [done|]. intros m. unfold NAV_LIST_GROUP, Dom.sel_or, Dom.sel_class.
  by rewrite !(other_class _ d d') by (done || by intros []).
Qed.

(** ** Switching *)

Lemma deactivate_alike a d : alike d (deactivate a d).
Proof.
  unfold deactivate. cbv zeta. set (d1 := Dom.removeClass "active" a (Dom.removeClass "show" a d)).
  assert (H1 : alike d d1) by (etrans; [apply (alike_remove "show"); by right|apply alike_remove; by left]).
  set (d2 := match Dom.parent d1 a with Some _ => _ | None => d1 end).
  assert (H2 : alike d d2). { unfold d2. repeat case_match; try done. etrans; [exact H1|apply alike_remove; by left]. }
  case_match; [|done]. etrans; [exact H2|apply alike_attr; by left].
Qed.
Lemma activate_alike e d : alike d (activate_element e d).
Proof.
  unfold activate_element. cbv zeta. set (d1 := Dom.addClass "active" e d).
  set (d2 := if has_role_tab d1 e then _ else d1). set (d3 := Dom.addClass "show" e d2).
  assert (H3 : alike d d3).
  { unfold d3, d2. etrans; [apply (alike_add "active" e); by left|]. fold d1. case_match; [|apply alike_add; by right].
    etrans; [apply (alike_attr "aria-selected"); by left|apply alike_add; by right]. }
  repeat case_match; try done; (etrans; [exact H3|]); [|apply alike_attr; by right].
  etrans; [|apply alike_attr; by right]. apply marks_each_node. intros ??. apply alike_add. by left.
Qed.

(** No menu among the elements beside [n], and none around it. *)
Definition no_menu (d : dom) (n : nid) : Prop :=
  ∀ q, Dom.parent d n = Some q → Dom.hasClass d q "dropdown-menu" = false ∧
    ∀ c, c ∈ Dom.children d q → Dom.hasClass d c "dropdown-menu" = false.
Lemma not_mark_menu : ¬ mark "dropdown-menu".
Proof. by intros []. Qed.
Lemma no_menu_alike d d' n : alike d d' → no_menu d n → no_menu d' n.
Proof.
  intros H Hn q Hq. rewrite (marks_parent classes attrs d d') in Hq by done. destruct (Hn q Hq) as [H1 H2].
  rewrite (other_class _ d d') by (done || apply not_mark_menu). split; [done|]. intros c Hc.
  rewrite (marks_children classes attrs d d') in Hc by done. rewrite (other_class _ d d') by (done || apply not_mark_menu). auto.
Qed.
Lemma no_dropdown_child d n q : no_menu d n → Dom.parent d n = Some q → dropdown_active d q = [].
Proof.
  intros Hn Hq. destruct (Hn q Hq) as [_ H]. unfold dropdown_active.
  induction (Dom.children d q) as [|c cs IH]; [done|]. rewrite bind_cons, H by (by left). apply IH. intros x Hx. apply H. by right.
Qed.

Lemma deactivate_marks a d m c :
  mark c → no_menu d a → Dom.hasClass (deactivate a d) m c = negb (bool_decide (m = a)) && Dom.hasClass d m c.
Proof.
  intros Hc Hn. unfold deactivate. cbv zeta. rewrite class_if_attr.
  set (d1 := Dom.removeClass "active" a (Dom.removeClass "show" a d)).
  assert (Ha : alike d d1) by (etrans; [apply (alike_remove "show"); by right|apply alike_remove; by left]).
  assert (H1 : Dom.hasClass d1 m c = negb (bool_decide (m = a)) && Dom.hasClass d m c).
  { unfold d1. rewrite !Dom.hasClass_removeClass. destruct (decide (m = a)) as [->|Hm].
    - rewrite !(bool_decide_true (a = a)) by done. cbn. destruct Hc as [->| ->]; [by rewrite bool_decide_true|].
      rewrite (bool_decide_true (a = a ∧ "show" = "show")) by done. by rewrite andb_false_r.
    - by rewrite !bool_decide_false by naive_solver. }
  destruct (Dom.parent d1 a) as [q|] eqn:Eq; [|done]. by rewrite (no_dropdown_child d1 a q) by (done || by eapply no_menu_alike).
Qed.
Lemma activate_marks e d m c :
  mark c → is_Some (d !! e) → no_menu d e → Dom.hasClass (activate_element e d) m c = bool_decide (m = e) || Dom.hasClass d m c.
Proof.
  intros Hc He Hn. unfold activate_element. cbv zeta. set (d1 := Dom.addClass "active" e d).
  set (d2 := if has_role_tab d1 e then _ else d1). set (d3 := Dom.addClass "show" e d2).
  assert (Ha : alike d d3).
  { unfold d3, d2. etrans; [apply (alike_add "active" e); by left|]. fold d1. case_match; [|apply alike_add; by right].
    etrans; [apply (alike_attr "aria-selected"); by left|apply alike_add; by right]. }
  assert (H3 : Dom.hasClass d3 m c = bool_decide (m = e) || Dom.hasClass d m c).
  { unfold d3, d2. rewrite Dom.hasClass_addClass, class_if_attr. unfold d1. rewrite Dom.hasClass_addClass.
    assert (Hp : is_Some (d2 !! m) ↔ is_Some (d !! m)).
    { unfold d2, d1. case_match; by rewrite ?Dom.present_setAttribute, Dom.present_addClass. }
    fold d1. fold d2. apply eq_iff_eq_true. rewrite !orb_true_iff, !bool_decide_eq_true, Hp. destruct Hc as [->| ->]; naive_solver. }
  destruct (Dom.parent d3 e) as [q|] eqn:Eq; [|done]. rewrite (marks_parent classes attrs d d3) in Eq by done.
  rewrite (other_class _ d d3) by (done || apply not_mark_menu). by rewrite (proj1 (Hn q Eq)).
Qed.
Lemma switch_alike e a d : alike d (switch e a d).
Proof. unfold switch. etrans; [|apply activate_alike]. destruct a; [apply deactivate_alike|done]. Qed.
Lemma switch_marks e a d m c :
  mark c → is_Some (d !! e) → no_menu d e → (∀ x, a = Some x → no_menu d x) →
  Dom.hasClass (switch e a d) m c = bool_decide (m = e) || (negb (bool_decide (a = Some m)) && Dom.hasClass d m c).
Proof.
  intros Hc He Hn Ha. unfold switch. destruct a as [a|].
  - rewrite activate_marks, deactivate_marks; [|done|by apply Ha|done| |].
    + do 3 f_equal. apply bool_decide_ext. naive_solver.
    + by rewrite (marks_present classes attrs d) by apply deactivate_alike.
    + eapply no_menu_alike; [apply deactivate_alike|done].
  - rewrite activate_marks by done. by rewrite (bool_decide_false (None = Some m)).
Qed.

(** ** The machine *)

(** The number of the chosen link, those of the open panes, and the pairs of a
    pane that will be closed and the one that will be opened then. *)
Record tabs := MkTabs { chosen : option nat; opened : gset nat; leaving : list (nat * nat) }.

(** One pane closes and another opens. *)
Definition exchange (a : option nat) (j : nat) (s : gset nat) : gset nat :=
  {[j]} ∪ match a with Some a => s ∖ {[a]} | None => s end.

Section machine.
(** The panes, those that fade, and the switches that a listener prevents. *)
Context (n : nat) (slow : nat → bool) (held : option nat → nat → bool).

Definition first_open (s : gset nat) : option nat := head (filter (.∈ s) (seq 0 n)).
Definition click (j : nat) (s : tabs) : tabs :=
  if bool_decide (chosen s = Some j) || held (chosen s) j then s
  else match first_open (opened s) with
       | Some a => if slow a then MkTabs (Some j) (opened s) (leaving s ++ [(a, j)])
                   else MkTabs (Some j) (exchange (Some a) j (opened s)) (leaving s)
       | None => MkTabs (Some j) (exchange None j (opened s)) (leaving s)
       end.
Definition ended (a : nat) (s : tabs) : tabs :=
  MkTabs (chosen s) (foldl (λ o x, exchange (Some a) x.2 o) (opened s) (filter (λ x, x.1 = a) (leaving s)))
    (filter (λ x, x.1 ≠ a) (leaving s)).

Inductive step := Click (j : nat) | Ended (a : nat).
Definition do_step (s : tabs) (x : step) : tabs := match x with Click j => click j s | Ended a => ended a s end.
Definition in_range (x : step) : Prop := match x with Click j => j < n | Ended a => a < n end.
End machine.

(** ** A list of links and their panes *)

Lemma filter_index {A} (P : A → Prop) (Q : nat → Prop) `{∀ x, Decision (P x), ∀ i, Decision (Q i)} (l : list A) (f : nat → option A) k :
  (∀ i x, l !! i = Some x → f (k + i) = Some x ∧ (P x ↔ Q (k + i))) →
  filter P l = omap f (filter Q (seq k (length l))).
Proof.
  revert k. induction l as [|x l IH]; intros k Hf; [done|]. cbn [length seq]. destruct (Hf 0 x eq_refl) as [H1 H2].
  rewrite Nat.add_0_r in *. rewrite !filter_cons. rewrite (IH (S k)).
  - destruct (decide (P x)), (decide (Q k)); try tauto. cbn. by rewrite H1.
  - intros i y Hy. replace (S k + i) with (k + S i) by lia. by apply Hf.
Qed.
Lemma sole_head {A} (P : A → Prop) `{∀ x, Decision (P x)} (l : list A) m :
  m ∈ l → P m → (∀ x, x ∈ l → P x → x = m) → head (filter P l) = Some m.
Proof.
  intros Hm HP Hu. destruct (filter P l) as [|x k] eqn:E.
  - assert (Hin : m ∈ filter P l) by (by apply list_elem_of_filter). rewrite E in Hin. by apply elem_of_nil in Hin.
  - assert (Hin : x ∈ filter P l) by (rewrite E; by left). apply list_elem_of_filter in Hin as [H1 H2]. cbn. f_equal. by apply Hu.
Qed.

Definition members (d : dom) (n : nid) : list nid :=
  if is_ul d n then Dom.children d n ≫= λ li, if Dom.sel_tag "li" d li then Dom.children d li else []
  else Dom.children d n.
Lemma active_in_members d n : active_in d n = head (filter (λ m, ACTIVE d m = true) (members d n)).
Proof.
  unfold active_in, members, active_ul. destruct (is_ul d n); [|done]. f_equal.
  induction (Dom.children d n) as [|li l IH]; [done|]. rewrite !bind_cons, filter_app. rewrite IH. by destruct (Dom.sel_tag "li" d li).
Qed.
Lemma members_alike d d' n : alike d d' → members d' n = members d n.
Proof.
  intros H. unfold members, is_ul. rewrite (marks_tag classes attrs d d'), (marks_children classes attrs d d') by done. case_match; [|done].
  induction (Dom.children d n) as [|li l IH]; [done|]. rewrite !bind_cons, IH. by rewrite (marks_tag classes attrs d d'), (marks_children classes attrs d d').
Qed.

Section tabset.
Context `{B : Browser}.
Context (d0 : dom) (lst box : nid) (links panes : list nid).

Record tabset : Prop := {
  t_nav t : t ∈ links → Dom.closest NAV_LIST_GROUP d0 t = Some lst;
  t_links : members d0 lst = links;
  t_panes : members d0 box = panes;
  t_box x : x ∈ panes → Dom.parent d0 x = Some box;
  t_length : length links = length panes;
  t_nodup_links : NoDup links;
  t_nodup_panes : NoDup panes;
  t_apart x : x ∈ links → x ∉ panes;
  t_present x : x ∈ links ++ panes → is_Some (d0 !! x);
  t_no_menu x : x ∈ links ++ panes → no_menu d0 x;
  t_enabled t : t ∈ links → Dom.hasClass d0 t "disabled" = false;
  t_parent t : t ∈ links → is_Some (Dom.parent d0 t);
  t_list n : is_ul d0 lst = false → n ∈ links → n ∈ Dom.descendants d0 lst;
  t_outside x : is_ul d0 lst = false → x ∈ panes → x ∉ Dom.descendants d0 lst;
  t_target i t x d : links !! i = Some t → panes !! i = Some x → alike d0 d → Util.target_of d t = Some x
}.
Hypothesis T : tabset.
(** What listeners prevent does not depend on the marks. *)
Hypothesis steady : ∀ d n e, alike d0 d → prevents d n e = prevents d0 n e.

Definition blocked (c : option nat) (j : nat) : bool :=
  match links !! j with Some t => prevents d0 t "show.bs.tab" | None => false end ||
  match c ≫= (links !!.) with Some q => prevents d0 q "hide.bs.tab" | None => false end.
Definition fades (i : nat) : bool :=
  supportsTransitionEnd && match panes !! i with Some x => Dom.hasClass d0 x "fade" | None => false end.
(** In a list that is no [ul] nothing but the links is ever active. *)
Definition others (d : dom) : Prop :=
  is_ul d0 lst = false → ∀ n, n ∈ Dom.descendants d0 lst → n ∉ links → Dom.hasClass d n "active" = false.
Definition marks (d : dom) (c : option nat) (o : gset nat) : Prop :=
  ((∀ i t, links !! i = Some t → Dom.hasClass d t "active" = bool_decide (c = Some i)) ∧ others d) ∧
  (∀ i x m, panes !! i = Some x → mark m → Dom.hasClass d x m = bool_decide (i ∈ o)).
Definition waits (x : nat * nat) (w : nid * string * kont) : Prop :=
  ∃ a y s, panes !! x.1 = Some a ∧ panes !! x.2 = Some y ∧ w = (a, TRANSITION_END, TransitionComplete y a s).

(** The page is in the state [s] of the machine. *)
Definition represents (s : tabs) (p : bpage () kont) : Prop :=
  ∃ d w, page_at d w (λ _, True) p ∧ alike d0 d ∧ marks d (chosen s) (opened s) ∧ Forall2 waits (leaving s) w.

Lemma no_menu_at x d : x ∈ links ++ panes → alike d0 d → no_menu d x.
Proof. intros Hx H. eapply no_menu_alike; [exact H|by apply (t_no_menu T)]. Qed.
Lemma present_at x d : x ∈ links ++ panes → alike d0 d → is_Some (d !! x).
Proof. intros Hx H. rewrite (marks_present classes attrs d0 d) by done. by apply (t_present T). Qed.
Lemma in_links i t : links !! i = Some t → t ∈ links ++ panes.
Proof. intros H. apply elem_of_app. left. by eapply list_elem_of_lookup_2. Qed.
Lemma in_panes i t : panes !! i = Some t → t ∈ links ++ panes.
Proof. intros H. apply elem_of_app. right. by eapply list_elem_of_lookup_2. Qed.
Lemma link_not_pane i j t x : links !! i = Some t → panes !! j = Some x → t ≠ x.
Proof. intros Ht Hx ->. apply (t_apart T x); by eapply list_elem_of_lookup_2. Qed.

Lemma first_open_lookup o i : first_open (length panes) o = Some i → is_Some (panes !! i).
Proof.
  intros Ei. assert (Hin : i ∈ filter (.∈ o) (seq 0 (length panes))).
  { unfold first_open in Ei. destruct (filter _ _); [done|]. injection Ei as ->. by left. }
  apply list_elem_of_filter in Hin as [_ Hin]. apply elem_of_seq in Hin. apply lookup_lt_is_Some. lia.
Qed.
Lemma active_link d c o t : alike d0 d → marks d c o → active_in d lst = Some t → ∃ i, links !! i = Some t ∧ c = Some i.
Proof.
  intros H [[Hm _] _]. rewrite active_in_members, (members_alike d0 d), (t_links T) by done. intros Ht.
  assert (Hin : t ∈ filter (λ m, ACTIVE d m = true) links).
  { destruct (filter _ links) as [|y k]; [done|]. injection Ht as ->. by left. }
  apply list_elem_of_filter in Hin as [Ha Hin]. apply list_elem_of_lookup_1 in Hin as [i Hi]. exists i. split; [done|].
  unfold ACTIVE, Dom.sel_class in Ha. rewrite (Hm i t Hi) in Ha. by apply bool_decide_eq_true in Ha.
Qed.
Lemma active_pane d c o :
  alike d0 d → marks d c o → active_in d box = first_open (length panes) o ≫= (panes !!.).
Proof.
  intros H [_ Hm]. rewrite active_in_members, (members_alike d0 d), (t_panes T) by done. unfold first_open.
  rewrite (filter_index (λ m, ACTIVE d m = true) (.∈ o) panes (panes !!.) 0).
  - pose proof (first_open_lookup o) as Hr. unfold first_open in Hr.
    destruct (filter (.∈ o) (seq 0 (length panes))) as [|i k]; [done|]. destruct (Hr i eq_refl) as [x Hx]. cbn. by rewrite Hx.
  - intros i x Hx. split; [done|]. unfold ACTIVE, Dom.sel_class. rewrite (Hm i x) by (done || by left).
    by rewrite bool_decide_eq_true.
Qed.

Lemma previous_chosen d c o : alike d0 d → marks d c o →
  last (if is_ul d lst then active_ul d lst else Dom.find ACTIVE d lst) = c ≫= (links !!.).
Proof.
  intros H Hm. set (l := if is_ul d lst then _ else _).
  assert (Hl : ∀ x, x ∈ l ↔ ∃ i, c = Some i ∧ links !! i = Some x).
  { assert (Ha : ∀ x, x ∈ links ∧ Dom.hasClass d x "active" = true ↔ ∃ i, c = Some i ∧ links !! i = Some x).
    { intros x. split.
      - intros [[i Hi]%list_elem_of_lookup_1 Hx]. exists i. by rewrite (proj1 (proj1 Hm) i x Hi), bool_decide_eq_true in Hx.
      - intros (i & -> & Hi). split; [by eapply list_elem_of_lookup_2|]. rewrite (proj1 (proj1 Hm) i x Hi). by apply bool_decide_eq_true. }
    intros x. rewrite <- Ha. unfold l. destruct (is_ul d lst) eqn:Eu.
    - rewrite <- (t_links T), <- (members_alike d0 d) by done. unfold members. rewrite Eu. unfold active_ul. split.
      + intros (li & Hx & Hli)%list_elem_of_bind. case_match eqn:Et; [|by apply elem_of_nil in Hx].
        apply list_elem_of_filter in Hx as [Hx Hc]. split; [|done]. apply list_elem_of_bind. exists li. by rewrite Et.
      + intros [(li & Hx & Hli)%list_elem_of_bind Hc]. apply list_elem_of_bind. exists li. split; [|done].
        case_match; [|done]. by apply list_elem_of_filter.
    - assert (Eu0 : is_ul d0 lst = false) by (unfold is_ul in *; by rewrite <- (marks_tag classes attrs d0 d)).
      unfold Dom.find. rewrite list_elem_of_filter, (marks_descendants classes attrs d0 d H), Is_true_true. unfold ACTIVE, Dom.sel_class. split.
      + intros [Hx Hd]. split; [|done]. destruct (decide (x ∈ links)) as [|Hn]; [done|]. by rewrite (proj2 (proj1 Hm) Eu0 x Hd Hn) in Hx.
      + intros [Hx Hc]. split; [done|]. by apply (t_list T). }
  destruct (last l) as [y|] eqn:El.
  - apply last_Some_elem_of, Hl in El as (i & -> & Hi). done.
  - apply last_None in El. destruct c as [i|]; [|done]. cbn. destruct (links !! i) as [y|] eqn:Ei; [|done].
    assert (Hy : y ∈ l) by (apply Hl; eauto). rewrite El in Hy. by apply elem_of_nil in Hy.
Qed.
Lemma link_switched j t d c o :
  alike d0 d → marks d c o → links !! j = Some t → marks (switch t (active_in d lst) d) (Some j) o.
Proof.
  intros H Hm Ht. assert (Hsw : ∀ m x, mark x →
    Dom.hasClass (switch t (active_in d lst) d) m x =
      bool_decide (m = t) || (negb (bool_decide (active_in d lst = Some m)) && Dom.hasClass d m x)).
  { intros m x Hx. apply switch_marks; [done|by eapply present_at, H; eapply in_links|by eapply no_menu_at, H; eapply in_links|].
    intros a Ha. destruct (active_link d c o a H Hm Ha) as (i & Hi & _). by eapply no_menu_at, H; eapply in_links. }
  split; [split|].
  - intros i u Hu. rewrite Hsw by (by left). destruct (decide (i = j)) as [->|Hij].
    { rewrite (bool_decide_true (u = t)), (bool_decide_true (Some j = Some j)) by congruence. done. }
    rewrite (bool_decide_false (u = t)), (bool_decide_false (Some j = Some i)); [|congruence|].
    2: { intros ->. apply Hij. by eapply NoDup_lookup; [apply (t_nodup_links T)|..]. }
    cbn [orb]. rewrite (proj1 (proj1 Hm) i u Hu). destruct (decide (c = Some i)) as [Hc|Hc]; [rewrite (bool_decide_true (c = Some i)) by done|].
    2: { rewrite (bool_decide_false (c = Some i)) by done. by rewrite andb_false_r. }
    rewrite andb_true_r, negb_false_iff.
    apply bool_decide_eq_true. rewrite active_in_members, (members_alike d0 d), (t_links T) by done.
    apply sole_head; [by eapply list_elem_of_lookup_2| |].
    + unfold ACTIVE, Dom.sel_class. rewrite (proj1 (proj1 Hm) i u Hu). by apply bool_decide_eq_true.
    + intros x [k Hk]%list_elem_of_lookup_1. unfold ACTIVE, Dom.sel_class. rewrite (proj1 (proj1 Hm) k x Hk), bool_decide_eq_true. congruence.
  - intros Hul n Hn Hnl. rewrite Hsw by (by left). rewrite (proj2 (proj1 Hm) Hul n Hn Hnl), andb_false_r, orb_false_r.
    apply bool_decide_eq_false. intros ->. apply Hnl. by eapply list_elem_of_lookup_2.
  - intros i x m Hx Hmk. rewrite Hsw by done. rewrite (bool_decide_false (x = t)) by (symmetry; by eapply link_not_pane).
    rewrite (proj2 Hm i x m Hx Hmk), bool_decide_false; [done|]. intros Ha. destruct (active_link d c o x H Hm Ha) as (k & Hk & _).
    by eapply link_not_pane.
Qed.
Lemma pane_switched a j y d c o :
  alike d0 d → marks d c o → panes !! j = Some y → (∀ i, a = Some i → is_Some (panes !! i)) →
  marks (switch y (a ≫= (panes !!.)) d) c (exchange a j o).
Proof.
  intros H Hm Hy Ha. assert (Hax : ∀ x, a ≫= (panes !!.) = Some x → ∃ i, a = Some i ∧ panes !! i = Some x).
  { intros x. destruct a as [i|]; [|done]. cbn. eauto. }
  assert (Hsw : ∀ m x, mark x → Dom.hasClass (switch y (a ≫= (panes !!.)) d) m x =
      bool_decide (m = y) || (negb (bool_decide (a ≫= (panes !!.) = Some m)) && Dom.hasClass d m x)).
  { intros m x Hx. apply switch_marks; [done|by eapply present_at, H; eapply in_panes|by eapply no_menu_at, H; eapply in_panes|].
    intros z (i & _ & Hz)%Hax. by eapply no_menu_at, H; eapply in_panes. }
  split; [split|].
  - intros i t Ht. rewrite Hsw by (by left). rewrite (bool_decide_false (t = y)), (proj1 (proj1 Hm) i t Ht) by (by eapply link_not_pane).
    rewrite bool_decide_false; [done|]. intros (k & _ & Hk)%Hax. by eapply (link_not_pane i k t t).
  - intros Hul n Hn Hnl. rewrite Hsw by (by left). rewrite (proj2 (proj1 Hm) Hul n Hn Hnl), andb_false_r, orb_false_r.
    apply bool_decide_eq_false. intros ->. apply (t_outside T y Hul); [by eapply list_elem_of_lookup_2|done].
  - intros i x m Hx Hmk. rewrite Hsw, (proj2 Hm i x m Hx Hmk) by done. apply eq_iff_eq_true.
    rewrite orb_true_iff, andb_true_iff, negb_true_iff, bool_decide_eq_false, !bool_decide_eq_true. unfold exchange.
    assert (Hxy : x = y ↔ i = j). { split; [intros ->; by eapply NoDup_lookup; [apply (t_nodup_panes T)|..]|congruence]. }
    rewrite elem_of_union, elem_of_singleton, Hxy. destruct a as [k|]; cbn; [|naive_solver].
    rewrite elem_of_difference, elem_of_singleton.
    assert (Hk : panes !! k = Some x ↔ i = k). { split; [intros; by eapply NoDup_lookup; [apply (t_nodup_panes T)|..]|congruence]. }
    rewrite Hk. naive_solver.
Qed.
(** ** The handlers *)

Lemma transitionComplete_at y a cb d w R :
  triple (page_at d w R) (_transitionComplete y a cb) (λ _, page_at (switch y a d) w R).
Proof.
  unfold _transitionComplete. do 2 (eapply triple_seq; [apply page_doc|]). destruct cb as [sh|]; [|apply triple_ret].
  unfold complete. apply page_trigger_opt_bind, page_trigger_bind, triple_ret.
Qed.

(** Lines 3734 to 3757, for a link. *)
Lemma activate_link_at t d w R :
  triple (page_at d w R) (_activate t (Some lst) None) (λ _, page_at (switch t (active_in d lst) d) w R).
Proof.
  unfold _activate. apply (page_get_seq (λ d, active_in d lst)).
  apply (page_get_seq (λ d', match active_in d lst with Some a => Dom.hasClass d' a "fade" | None => false end)).
  destruct (active_in d lst); apply transitionComplete_at.
Qed.
(** For a pane. *)
Lemma activate_pane_at y sh d w R c o :
  alike d0 d → marks d c o →
  triple (page_at d w R) (_activate y (Some box) (Some sh)) (λ _,
    match first_open (length panes) o with
    | Some i => if fades i then match panes !! i with
                                | Some a => page_at d (w ++ [(a, TRANSITION_END, TransitionComplete y a sh)]) R
                                | None => λ _, False
                                end
                else page_at (switch y (Some i ≫= (panes !!.)) d) w R
    | None => page_at (switch y None d) w R
    end).
Proof.
  intros H Hm. unfold _activate. apply (page_get_seq (λ d, active_in d box)).
  apply (page_get_seq (λ d', match active_in d box with Some a => Dom.hasClass d' a "fade" | None => false end)).
  rewrite (active_pane d c o) by done. destruct (first_open (length panes) o) as [i|] eqn:Ei; [|apply transitionComplete_at].
  destruct (first_open_lookup o i Ei) as [a Ha]. unfold fades. cbn [mbind option_bind]. rewrite Ha.
  rewrite (other_class "fade" d0 d) by (done || by intros []).
  destruct (supportsTransitionEnd && Dom.hasClass d0 a "fade"); [apply page_one|apply transitionComplete_at].
Qed.

(** The state after a switch that nobody prevents. *)
Definition switched (j : nat) (s : tabs) : tabs :=
  match first_open (length panes) (opened s) with
  | Some a => if fades a then MkTabs (Some j) (opened s) (leaving s ++ [(a, j)])
              else MkTabs (Some j) (exchange (Some a) j (opened s)) (leaving s)
  | None => MkTabs (Some j) (exchange None j (opened s)) (leaving s)
  end.
Lemma activate_represents j t x sh s d w :
  links !! j = Some t → panes !! j = Some x →
  alike d0 d → marks d (chosen s) (opened s) → Forall2 waits (leaving s) w →
  triple (page_at d w (λ _, True))
    (_ ← _activate t (Some lst) None; q ← mget (λ p, Dom.parent (pdoc p) x); _activate x q (Some sh))
    (λ _, represents (switched j s)).
Proof.
  intros Ht Hx H Hm Hw. eapply triple_seq; [apply activate_link_at|].
  pose proof (link_switched j t d _ _ H Hm Ht) as Hm1. set (d1 := switch t (active_in d lst) d) in *.
  assert (H1 : alike d0 d1) by (etrans; [exact H|apply switch_alike]).
  apply (page_get_seq (λ d, Dom.parent d x)).
  rewrite (marks_parent classes attrs d0 d1), (t_box T x) by (done || by eapply list_elem_of_lookup_2).
  eapply triple_conseq; [by apply (activate_pane_at x sh d1 w (λ _, True) (Some j) (opened s))|done|].
  intros ? q Hq. unfold switched. destruct (first_open (length panes) (opened s)) as [i|] eqn:Ei.
  - destruct (fades i).
    + destruct (panes !! i) as [b|] eqn:Eb; [|done]. eexists _, _. split; [exact Hq|]. split_and!; [done..|].
      apply Forall2_app; [done|]. constructor; [|constructor]. by exists b, x, sh.
    + eexists _, _. split; [exact Hq|]. split_and!; [etrans; [exact H1|apply switch_alike]| |done].
      apply pane_switched; [done..|]. intros k [= <-]. by eapply first_open_lookup.
  - eexists _, _. split; [exact Hq|]. split_and!; [etrans; [exact H1|apply switch_alike]| |done].
    apply (pane_switched None); [done..|]. done.
Qed.
Lemma show_represents j t s :
  links !! j = Some t → triple (represents s) (show t) (λ _, represents (click (length panes) fades blocked j s)).
Proof.
  intros Ht. assert (Htl : t ∈ links) by (by eapply list_elem_of_lookup_2).
  assert (Hj : j < length panes) by (rewrite <- (t_length T); by eapply lookup_lt_Some).
  apply lookup_lt_is_Some in Hj as [x Hx].
  intros p (d & w & Hp & H & Hm & Hw). revert p Hp. unfold click. fold (switched j s).
  assert (Hsame : ∀ p, page_at d w (λ _, True) p → ∃ a p', (mret () : tabM ()) p = (p', Ret a) ∧ represents s p').
  { intros p Hp. exists tt, p. split; [done|]. by exists d, w. }
  assert (Hsh : triple (page_at d w (λ _, True)) (show t) (λ _, represents
    (if bool_decide (chosen s = Some j) || blocked (chosen s) j then s else switched j s))); [|exact Hsh].
  unfold show. apply (page_get_seq id). unfold id. rewrite (proj1 (proj1 Hm) j t Ht), (marks_parent classes attrs d0 d) by done.
  rewrite (bool_decide_true (is_Some _)) by (by apply (t_parent T)).
  rewrite (other_class "disabled" d0 d), (t_enabled T t), orb_false_r by (done || by intros []). cbn [andb].
  destruct (bool_decide (chosen s = Some j)); [exact Hsame|]. cbn [orb].
  rewrite (alike_nav d0 d), (t_nav T t) by done. set (prev := last _).
  apply page_trigger_opt_bind, page_trigger_bind. rewrite (steady d t) by done.
  assert (Hbl : prevents d0 t "show.bs.tab" || match prev with Some q => prevents d q "hide.bs.tab" | None => false end = blocked (chosen s) j).
  { unfold prev, blocked. rewrite (previous_chosen d (chosen s) (opened s) H Hm), Ht.
    destruct (chosen s ≫= (links !!.)); [by rewrite (steady d)|done]. }
  rewrite Hbl. destruct (blocked (chosen s) j); [exact Hsame|].
  rewrite (t_target T j t x d) by done. by apply activate_represents.
Qed.
Lemma click_represents j t s :
  links !! j = Some t → triple (represents s) (on_click t) (λ _, represents (click (length panes) fades blocked j s)).
Proof.
  intros Ht. unfold on_click, _jQueryInterface. cbn [meach]. eapply triple_seq; [|apply triple_ret].
  eapply triple_seq; [|cbn; by apply show_represents]. apply triple_update. intros p (d & w & (Hd & Hw & _) & Hr).
  exists d, w. split; [|done]. by case_match.
Qed.

Lemma waits_filter i a l w :
  panes !! i = Some a → Forall2 waits l w →
  Forall2 waits (filter (λ x, x.1 = i) l) (filter (λ x, x.1.1 = a ∧ x.1.2 = TRANSITION_END) w) ∧
  Forall2 waits (filter (λ x, x.1 ≠ i) l) (filter (λ x, ¬ (x.1.1 = a ∧ x.1.2 = TRANSITION_END)) w).
Proof.
  intros Ha. induction 1 as [|x v l w Hv _ [IH1 IH2]]; [done|]. pose proof Hv as (b & y & sh & Hb & Hy & ->).
  rewrite !filter_cons. destruct (decide (x.1 = i)) as [<-|Hne].
  - rewrite Hb in Ha. injection Ha as <-. rewrite !decide_True, !decide_False by naive_solver. split; [by constructor|done].
  - assert (Hab : b ≠ a). { intros ->. apply Hne. by eapply NoDup_lookup; [apply (t_nodup_panes T)|..]. }
    rewrite !decide_False, !decide_True by naive_solver. split; [done|by constructor].
Qed.
Lemma resume_all i a l ks c o r :
  panes !! i = Some a → Forall2 waits l ks → Forall (λ x, x.1 = i) l →
  triple (represents (MkTabs c o r)) (meach resume (snd <$> ks))
    (λ _, represents (MkTabs c (foldl (λ o x, exchange (Some i) x.2 o) o l) r)).
Proof.
  intros Ha Hl. revert o. induction Hl as [|x v l ks (b & y & sh & Hb & Hy & ->) _ IH]; intros o Hi; [apply triple_ret|].
  inversion Hi as [|?? Hx Hl]; subst. rewrite Hb in Ha. injection Ha as <-. cbn [fmap list_fmap meach foldl snd].
  eapply triple_seq; [|by apply IH]. cbn [resume]. intros p (d & w & Hp & H & Hm & Hw). revert p Hp.
  eapply triple_conseq; [apply transitionComplete_at|done|]. intros ? q Hq. eexists _, _. split; [exact Hq|].
  split_and!; [etrans; [exact H|apply switch_alike]| |done]. cbn [chosen opened].
  pose proof (pane_switched (Some x.1) x.2 y d c o H Hm Hy) as Hsw. cbn [mbind option_bind] in Hsw. rewrite Hb in Hsw.
  apply Hsw. intros k [= <-]. by eexists.
Qed.
Definition on_transition_end (a : nid) : tabM () := fire resume a TRANSITION_END.
Lemma ended_represents i a s :
  panes !! i = Some a → triple (represents s) (on_transition_end a) (λ _, represents (ended i s)).
Proof.
  intros Ha p (d & w & (Hd & Hw & HR) & H & Hm & Hl). destruct (waits_filter i a _ w Ha Hl) as [Hl1 Hl2].
  unfold on_transition_end, fire, mbind at 1 2, jsM_bind at 1 2, mget, mupdate, waiting. rewrite Hw.
  apply (resume_all i a _ _ (chosen s) (opened s) (filter (λ x, x.1 ≠ i) (leaving s)) Ha Hl1).
  - apply Forall_forall. by intros x [Hx _]%list_elem_of_filter.
  - exists d, (filter (λ x, ¬ (x.1.1 = a ∧ x.1.2 = TRANSITION_END)) w). split_and!; [|done..]. split_and!; [done| |done].
    unfold drop_wait. cbn. by rewrite Hw.
Qed.

Definition perform (x : step) : tabM () :=
  match x with
  | Click j => match links !! j with Some t => on_click t | None => mret () end
  | Ended i => match panes !! i with Some a => on_transition_end a | None => mret () end
  end.
Definition performs (xs : list step) : tabM () := meach perform xs.

Lemma performs_represents s xs :
  Forall (in_range (length panes)) xs →
  triple (represents s) (performs xs) (λ _, represents (foldl (do_step (length panes) fades blocked) s xs)).
Proof.
  revert s. induction xs as [|x xs IH]; intros s Hx; [apply triple_ret|]. inversion Hx as [|?? H1 H2]; subst.
  unfold performs. cbn [meach foldl]. eapply triple_seq; [|by apply IH]. destruct x as [j|i]; cbn [perform do_step in_range] in *.
  - rewrite <- (t_length T) in H1. apply lookup_lt_is_Some in H1 as [t Ht]. rewrite Ht. by apply click_represents.
  - apply lookup_lt_is_Some in H1 as [a Ha]. rewrite Ha. by apply ended_represents.
Qed.
End tabset.
(** ** Sessions *)

(** The user who waits: a click, then the end of the transition of the pane
    that was open. *)
Fixpoint visits (i : nat) (js : list nat) : list step :=
  match js with [] => [] | j :: js' => Click j :: Ended i :: visits j js' end.
(** The user who does not. *)
Definition burst (i : nat) (js : list nat) : list step := (Click <$> js) ++ [Ended i].
Definition settled (i : nat) : tabs := MkTabs (Some i) {[i]} [].

Lemma first_open_single n i : i < n → first_open n {[i]} = Some i.
Proof. intros Hi. apply sole_head; [apply elem_of_seq; lia|set_solver|set_solver]. Qed.
Lemma exchange_single i j : exchange (Some i) j {[i]} = {[j]}.
Proof. unfold exchange. set_solver. Qed.
Section free.
Context (n : nat) (slow : nat → bool) (held : option nat → nat → bool).
Hypothesis free : ∀ c j, held c j = false.
Lemma visit_settled i j : i < n → ended i (click n slow held j (settled i)) = settled j.
Proof.
  intros Hi. unfold click. cbn [chosen opened leaving settled]. rewrite free, orb_false_r. case_bool_decide as Hc; [by simplify_eq|].
  rewrite first_open_single by done. unfold ended, settled.
  destruct (slow i); cbn [opened leaving chosen app].
  - rewrite filter_cons_True, filter_cons_False by (cbn; naive_solver). cbn. by rewrite exchange_single.
  - cbn. by rewrite exchange_single.
Qed.
Lemma visits_settled i js :
  i < n → Forall (λ j, j < n) js → foldl (do_step n slow held) (settled i) (visits i js) = settled (default i (last js)).
Proof.
  intros Hi Hjs. revert i Hi. induction Hjs as [|j js Hj _ IH]; intros i Hi; [done|]. cbn [visits foldl do_step].
  rewrite visit_settled, IH by done. rewrite last_cons. by destruct (last js).
Qed.

(** Clicks while the pane [i] fades out; the pairs that wait name the clicked
    panes, in order, and no others. *)
Lemma burst_leaving i js :
  i < n → slow i = true → i ∉ js →
  ∃ l, foldl (do_step n slow held) (settled i) (Click <$> js) = MkTabs (Some (default i (last js))) {[i]} l ∧
       Forall (λ x, x.1 = i) l ∧ ∀ j, j ∈ l.*2 ↔ j ∈ js.
Proof.
  intros Hi Hs. induction js as [|j js IH] using rev_ind; intros Hni; [by exists []|].
  destruct IH as (l & E & H1 & H2); [set_solver|]. rewrite fmap_app, foldl_app, E, last_snoc. cbn [fmap list_fmap foldl do_step default].
  unfold click. cbn [chosen opened leaving]. rewrite free, orb_false_r. case_bool_decide as Hc.
  - injection Hc as Hc. exists l. rewrite Hc. split_and!; [done..|]. intros k. rewrite H2.
    destruct (last js) eqn:El; cbn in Hc; [|set_solver]. apply last_Some_elem_of in El. set_solver.
  - rewrite first_open_single, Hs by done. exists (l ++ [(i, j)]). split_and!; [done| |].
    + apply Forall_app. split; [done|]. by constructor.
    + intros k. by rewrite fmap_app, !elem_of_app, H2.
Qed.
Lemma exchange_all i (l : list (nat * nat)) o :
  i ∉ l.*2 → l ≠ [] → foldl (λ o x, exchange (Some i) x.2 o) o l = (o ∖ {[i]}) ∪ list_to_set l.*2.
Proof.
  induction l as [|x l IH] using rev_ind; intros Hi Hne; [done|]. rewrite foldl_app. cbn [foldl]. rewrite fmap_app in Hi |- *.
  cbn [fmap list_fmap] in *. rewrite list_to_set_app_L. cbn. destruct (decide (l = [])) as [->|Hl].
  - cbn. unfold exchange. set_solver.
  - rewrite IH by set_solver. unfold exchange. set_solver.
Qed.
Lemma filter_other (i : nat) (l : list (nat * nat)) : Forall (λ x, x.1 = i) l →
  filter (λ x, x.1 = i) l = l ∧ filter (λ x, x.1 ≠ i) l = [].
Proof.
  induction 1 as [|x l Hx _ [IH1 IH2]]; [done|]. rewrite filter_cons_True, filter_cons_False by naive_solver. by rewrite IH1, IH2.
Qed.
Lemma burst_opens i js :
  i < n → slow i = true → i ∉ js → js ≠ [] →
  foldl (do_step n slow held) (settled i) (burst i js) = MkTabs (last js) (list_to_set js) [].
Proof.
  intros Hi Hs Hni Hne. destruct (burst_leaving i js Hi Hs Hni) as (l & E & H1 & H2).
  unfold burst. rewrite foldl_app, E. cbn [foldl do_step]. unfold ended. cbn [chosen opened leaving].
  destruct (filter_other i l H1) as [-> ->]. destruct (last js) as [j|] eqn:Ej; [|by apply last_None in Ej].
  assert (Hj : j ∈ l.*2) by (apply H2; by apply last_Some_elem_of). f_equal. rewrite exchange_all.
  - apply set_eq. intros k. rewrite elem_of_union, !elem_of_list_to_set, H2. set_solver.
  - by rewrite H2.
  - intros ->. by apply elem_of_nil in Hj.
Qed.
End free.

Section session.
Context `{B : Browser} (d0 : dom) (lst box : nid) (links panes : list nid).
Hypothesis T : tabset d0 lst box links panes.
Hypothesis steady : ∀ d n e, alike d0 d → prevents d n e = prevents d0 n e.
Abbreviation n := (length panes).

(** C5. The handlers of Tab refine the machine of links and panes: whatever links
    are clicked, whenever the transitions of panes end and whichever switches
    listeners of the page prevent, no handler throws, and the page is in the state
    the machine reaches: one link is active, the one chosen last, the panes that carry the classes are the open ones, and the
    callbacks that wait are the pairs of panes that are still to be exchanged. *)
Theorem tabs_refine s xs p :
  represents d0 lst links panes s p → Forall (in_range n) xs →
  ∃ p', performs links panes xs p = (p', Ret ()) ∧
        represents d0 lst links panes (foldl (do_step n (fades d0 panes) (blocked d0 links)) s xs) p'.
Proof.
  intros Hp Hxs. destruct (performs_represents d0 lst box links panes T steady s xs Hxs p Hp) as ([] & p' & E & H'). eauto.
Qed.

(** C6. A user who waits for the transitions sees one pane, that of the link
    clicked last, whether panes fade or not and however many links are clicked, if
    nobody prevents the switches:
    no handler throws, that link alone is active, and its pane alone has the
    classes active and show. *)
Theorem tabs_settle i js p :
  (∀ c j, blocked d0 links c j = false) →
  represents d0 lst links panes (settled i) p → i < n → Forall (λ j, j < n) js →
  ∃ p', performs links panes (visits i js) p = (p', Ret ()) ∧
        represents d0 lst links panes (settled (default i (last js))) p'.
Proof.
  intros Hfree Hp Hi Hjs. assert (Hr : Forall (in_range n) (visits i js)).
  { clear Hp. revert i Hi. induction Hjs as [|j js Hj _ IH]; intros i Hi; constructor; [done|]. constructor; [done|]. by apply IH. }
  destruct (performs_represents d0 lst box links panes T steady (settled i) _ Hr p Hp) as ([] & p' & E & H').
  rewrite visits_settled in H' by done. eauto.
Qed.

(** C40. A user who clicks several links before the open pane has faded out leaves
    all their panes open: when its transition ends the link clicked last is the
    only active one, but every pane whose link was clicked in the meantime has
    the class active, and no callback is left that would close them. *)
Theorem quick_clicks i js p :
  (∀ c j, blocked d0 links c j = false) →
  represents d0 lst links panes (settled i) p → i < n → fades d0 panes i = true →
  Forall (λ j, j < n) js → i ∉ js → js ≠ [] →
  ∃ p', performs links panes (burst i js) p = (p', Ret ()) ∧ pwait p' = [] ∧
    (∀ k t, links !! k = Some t → Dom.hasClass (pdoc p') t "active" = bool_decide (last js = Some k)) ∧
    (∀ k x, panes !! k = Some x → Dom.hasClass (pdoc p') x "active" = bool_decide (k ∈ js)).
Proof.
  intros Hfree Hp Hi Hf Hjs Hni Hne. assert (Hr : Forall (in_range n) (burst i js)).
  { unfold burst. apply Forall_app. split; [by apply Forall_fmap|by constructor]. }
  destruct (performs_represents d0 lst box links panes T steady (settled i) _ Hr p Hp) as ([] & p' & E & H').
  rewrite burst_opens in H' by done. destruct H' as (d & w & (Hd & Hw & _) & _ & [[Hm1 _] Hm2] & Hl). cbn in Hm1, Hm2, Hl.
  exists p'. split; [done|]. rewrite Hd, Hw. split; [by inversion Hl|]. split; [done|].
  intros k x Hx. rewrite (Hm2 k x) by (done || by left). apply bool_decide_ext. by rewrite elem_of_list_to_set.
Qed.
End session.

(** ** A page with three links and three fading panes *)

Definition sample_doc : dom :=
  {[ 1%nat := Elem "ul" "" ["nav"; "nav-tabs"] ∅ ∅ None [2%nat; 3%nat; 4%nat];
     2%nat := Elem "li" "" ["nav-item"] ∅ ∅ (Some 1%nat) [5%nat];
     3%nat := Elem "li" "" ["nav-item"] ∅ ∅ (Some 1%nat) [6%nat];
     4%nat := Elem "li" "" ["nav-item"] ∅ ∅ (Some 1%nat) [7%nat];
     5%nat := Elem "a" "" ["nav-link"; "active"] {[ "href" := "#p1"; "role" := "tab" ]} ∅ (Some 2%nat) [];
     6%nat := Elem "a" "" ["nav-link"] {[ "href" := "#p2"; "role" := "tab" ]} ∅ (Some 3%nat) [];
     7%nat := Elem "a" "" ["nav-link"] {[ "href" := "#p3"; "role" := "tab" ]} ∅ (Some 4%nat) [];
     8%nat := Elem "div" "" ["tab-content"] ∅ ∅ None [9%nat; 10%nat; 11%nat];
     9%nat := Elem "div" "p1" ["tab-pane"; "fade"; "show"; "active"] ∅ ∅ (Some 8%nat) [];
     10%nat := Elem "div" "p2" ["tab-pane"; "fade"] ∅ ∅ (Some 8%nat) [];
     11%nat := Elem "div" "p3" ["tab-pane"; "fade"] ∅ ∅ (Some 8%nat) [] ]}.
Definition sample_page : bpage () kont := BPage sample_doc [] [] ∅ 0.

(** A reference to an identifier names the same element in documents that are
    alike. *)
Lemma plain_query d d' s x : alike d d' → query (Browser:=plain_browser) d s = Some [x] → query (Browser:=plain_browser) d' s = Some [x].
Proof.
  intros H. cbn. destruct (String.prefix "#" s); [|done]. intros [= E]. f_equal. apply Permutation_singleton_r.
  rewrite <- E. rewrite (marks_keys classes attrs d d' H). rewrite (list_filter_iff _ (λ n, Dom.sel_id (String.substring 1 (String.length s) s) d n = true)); [done|].
  intros n. by rewrite (marks_id classes attrs d d').
Qed.
Lemma plain_target d d' t s x :
  alike d d' → Util.getSelectorFromElement (B:=plain_browser) d t = Some s →
  query (Browser:=plain_browser) d s = Some [x] → Util.target_of (B:=plain_browser) d' t = Some x.
Proof.
  intros H. unfold Util.target_of, Util.first, Util.getSelectorFromElement, Util.written.
  rewrite !(marks_attribute classes attrs d d') by (done || by_evaluation). set (sel := if String.prefix "#" _ then _ else _).
  intros Hs Hq. assert (Hsel : sel = s). { repeat case_match; congruence. } rewrite Hsel.
  rewrite (plain_query d d' s x H Hq). cbn [mbind option_bind]. by rewrite (plain_query d d' s x H Hq).
Qed.


Lemma sample_tabset : tabset (B:=plain_browser) sample_doc 1 8 [5; 6; 7] [9; 10; 11].
Proof.
  split; cbn [app].
  - intros t Ht. each_of Ht.
  - vm_compute. reflexivity.
  - vm_compute. reflexivity.
  - intros x Hx. each_of Hx.
  - reflexivity.
  - by_evaluation.
  - by_evaluation.
  - intros x Hx. each_of Hx; by_evaluation.
  - intros x Hx. each_of Hx; eexists; vm_compute; reflexivity.
  - intros x Hx. each_of Hx; intros q Hq; vm_compute in Hq; injection Hq as <-; (split; [vm_compute; reflexivity|]);
      intros c Hc; vm_compute in Hc; each_of Hc.
  - intros t Ht. each_of Ht.
  - intros t Ht. each_of Ht; eexists; vm_compute; reflexivity.
  - done.
  - done.
  - intros i t x d Ht Hx Hd. each_at Ht i; injection Hx as <-;
      (eapply plain_target; [exact Hd|vm_compute; reflexivity|vm_compute; reflexivity]).
Qed.
Lemma sample_represents : represents sample_doc 1 [5; 6; 7] [9; 10; 11] (settled 0) sample_page.
Proof.
  exists sample_doc, []. split_and!; [done..| |constructor]. split; [split; [|done]|].
  - intros i t Ht. each_at Ht i; vm_compute; reflexivity.
  - intros i x m Hx [->| ->]; each_at Hx i; vm_compute; reflexivity.
Qed.

Lemma sample_free c j : blocked (B:=plain_browser) sample_doc [5; 6; 7] c j = false.
Proof. unfold blocked. cbn. by repeat case_match. Qed.

Lemma tabs_refine_witness : ∃ p',
  performs (B:=plain_browser) [5; 6; 7] [9; 10; 11] [Click 1; Click 2; Ended 0; Click 0] sample_page = (p', Ret ()) ∧
  represents sample_doc 1 [5; 6; 7] [9; 10; 11] (MkTabs (Some 0) {[1; 2]} [(1, 0)]) p'.
Proof.
  apply (tabs_refine (B:=plain_browser) sample_doc 1 8 [5; 6; 7] [9; 10; 11] sample_tabset (λ _ _ _ _, eq_refl) (settled 0)
    [Click 1; Click 2; Ended 0; Click 0] sample_page sample_represents).
  repeat constructor.
Defined.
Lemma tabs_settle_witness : ∃ p',
  performs (B:=plain_browser) [5; 6; 7] [9; 10; 11] (visits 0 [1; 2; 2; 1]) sample_page = (p', Ret ()) ∧
  represents sample_doc 1 [5; 6; 7] [9; 10; 11] (settled 1) p'.
Proof.
  apply (tabs_settle (B:=plain_browser) sample_doc 1 8 [5; 6; 7] [9; 10; 11] sample_tabset (λ _ _ _ _, eq_refl) 0
    [1; 2; 2; 1] sample_page sample_free sample_represents); [cbn; lia|repeat constructor].
Defined.
Lemma quick_clicks_witness : ∃ p',
  performs (B:=plain_browser) [5; 6; 7] [9; 10; 11] (burst 0 [1; 2]) sample_page = (p', Ret ()) ∧ pwait p' = [] ∧
    (∀ k t, [5; 6; 7]%nat !! k = Some t → Dom.hasClass (pdoc p') t "active" = bool_decide (Some 2%nat = Some k)) ∧
    (∀ k x, [9; 10; 11]%nat !! k = Some x → Dom.hasClass (pdoc p') x "active" = bool_decide (k ∈ [1; 2]%nat)).
Proof.
  apply (quick_clicks (B:=plain_browser) sample_doc 1 8 [5; 6; 7] [9; 10; 11] sample_tabset (λ _ _ _ _, eq_refl) 0
    [1; 2] sample_page sample_free sample_represents); [cbn; lia|vm_compute; reflexivity|repeat constructor| |done].
  by_evaluation.
Defined.

End TabLife.
