(* ===== verification/PopperDom.v ===== *)
(** * Popper, measuring the page: bootstrap.bundle.js lines 1490 to 2156

    What Popper reads from the page before it places anything: the scroll and
    offset parents of an element, rectangles relative to another element, the
    boundaries, the offsets for a placement.  The page is a snapshot of one
    document, an instance of [Page] with the properties the code reads.

    Numbers are exact rationals or NaN, which the code meets where it reads a
    missing property; layout positions are multiples of 1/64 pixel, on which
    sums, differences and halves of doubles are exact. *)

From S2P Require Import Prelude.
From Stdlib Require Export QArith Qround Qabs Lqa.
Local Open Scope string_scope.

(** ** Numbers *)

Abbreviation num := (option Q).
Abbreviation NaN := (@None Q).
Declare Scope num_scope.
Delimit Scope num_scope with num.

Definition num_of_Z (z : Z) : num := Some (inject_Z z).
Definition lift2 (f : Q → Q → Q) (x y : num) : num :=
  match x, y with Some a, Some b => Some (f a b) | _, _ => NaN end.
(** [a < b] is false when one of them is NaN. *)
Definition num_lt (x y : num) : bool :=
  match x, y with Some a, Some b => negb (Qle_bool b a) | _, _ => false end.
Definition num_le (x y : num) : bool :=
  match x, y with Some a, Some b => Qle_bool a b | _, _ => false end.
Definition truthy (x : num) : bool :=
  match x with Some a => negb (Qeq_bool a 0) | None => false end.
(** [x || y] *)
Definition num_or (x y : num) : num := if truthy x then x else y.
Definition Qmax_js (a b : Q) : Q := if Qle_bool a b then b else a.
Definition Qmin_js (a b : Q) : Q := if Qle_bool a b then a else b.
Definition num_max : num → num → num := lift2 Qmax_js.
Definition num_min : num → num → num := lift2 Qmin_js.
Definition floor (x : num) : num := match x with Some a => Some (inject_Z (Qfloor a)) | None => NaN end.
Definition round (x : num) : num :=
  match x with Some a => Some (inject_Z (Qfloor (a + (1 # 2)))) | None => NaN end.

Infix "+" := (lift2 Qplus) : num_scope.
Infix "-" := (lift2 Qminus) : num_scope.
Infix "*" := (lift2 Qmult) : num_scope.
Infix "<?" := num_lt : num_scope.
Infix "<=?" := num_le : num_scope.
Notation half x := (lift2 Qmult x (Some (1 # 2))).
Notation zero := (num_of_Z 0).

(** ** Strings *)

Fixpoint includes (needle s : string) : bool :=
  String.prefix needle s ||
  match s with EmptyString => false | String _ s' => includes needle s' end.

(** [s.split('-')] *)
Fixpoint split_dash (s : string) : list string :=
  match s with
  | EmptyString => [""]
  | String c s' =>
      if Ascii.eqb c (Ascii.ascii_of_nat 45) then "" :: split_dash s'
      else match split_dash s' with
           | w :: ws => String c w :: ws
           | [] => [String c ""]
           end
  end.
Definition base_of (placement : string) : string := default "" (split_dash placement !! 0%nat).
Definition variation_of (placement : string) : option string := split_dash placement !! 1%nat.

(** ** Rectangles *)

Record rect := Rect {
  r_left : num; r_top : num; r_right : num; r_bottom : num; r_width : num; r_height : num
}.

(** [r[name]]; a property that is not there counts as NaN wherever the code
    computes or compares with it. *)
Definition get (r : rect) (name : string) : num :=
  if name =? "left" then r_left r else if name =? "top" then r_top r
  else if name =? "right" then r_right r else if name =? "bottom" then r_bottom r
  else if name =? "width" then r_width r else if name =? "height" then r_height r else NaN.
Definition set (name : string) (v : num) (r : rect) : rect :=
  let '(Rect l t rt b w h) := r in
  if name =? "left" then Rect v t rt b w h else if name =? "top" then Rect l v rt b w h
  else if name =? "right" then Rect l t v b w h else if name =? "bottom" then Rect l t rt v w h
  else if name =? "width" then Rect l t rt b v h else if name =? "height" then Rect l t rt b w v else r.

(** ** The page *)

Class Page := {
  nodeName : nat → string;
  parentNode : nat → option nat;
  host : nat → option nat;
  offsetParent : nat → option nat;
  firstElementChild : nat → option nat;
  documentElement : nat;
  body : nat;
  scrollingElement : option nat;
  following : nat → nat → bool;              (* document order *)
  overflow : nat → string; overflowX : nat → string; overflowY : nat → string;
  position : nat → string;
  style_num : nat → string → num;            (* [parseFloat] of a computed style *)
  bounding : nat → rect;                     (* [element.getBoundingClientRect()] *)
  clientWidth : nat → num; clientHeight : nat → num;
  offsetWidth : nat → num; offsetHeight : nat → num;
  scrollWidth : nat → num; scrollHeight : nat → num;
  scrollTop : nat → num; scrollLeft : nat → num;
  innerWidth : num; innerHeight : num;
  isIE10 : bool;
  tree_fuel : nat                            (* more than the depth of the tree *)
}.

Module PopperDom.

Section page.
Context `{PG : Page}.

(** Lines 1506 to 1511. *)
Definition getParentNode (n : nat) : option nat :=
  if nodeName n =? "HTML" then Some n
  else match parentNode n with Some p => Some p | None => host n end.

Definition scrolls (n : nat) : bool :=
  let s := overflow n +:+ overflowY n +:+ overflowX n in includes "auto" s || includes "scroll" s.

(** Lines 1520 to 1546; the recursion climbs the tree. *)
Fixpoint getScrollParent (fuel : nat) (element : option nat) : option nat :=
  match fuel with
  | O => None
  | S f =>
      match element with
      | None => Some body
      | Some n =>
          if (nodeName n =? "HTML") || (nodeName n =? "BODY") || (nodeName n =? "#document")
          then Some body
          else if scrolls n then Some n
          else getScrollParent f (getParentNode n)
      end
  end.

(** Lines 1555 to 1575. *)
Fixpoint getOffsetParent (fuel : nat) (element : option nat) : option nat :=
  match fuel with
  | O => None
  | S f =>
      match element ≫= offsetParent with
      | None => Some documentElement
      | Some o =>
          if (nodeName o =? "BODY") || (nodeName o =? "HTML") then Some documentElement
          else if ((nodeName o =? "TD") || (nodeName o =? "TABLE")) && (position o =? "static")
          then getOffsetParent f (Some o)
          else Some o
      end
  end.

(** Lines 1577 to 1584. *)
Definition isOffsetContainer (n : nat) : bool :=
  if nodeName n =? "BODY" then false
  else (nodeName n =? "HTML") ||
       bool_decide (getOffsetParent tree_fuel (firstElementChild n) = Some n).

(** A node and its ancestors, up to the root of its tree. *)
Fixpoint path (fuel : nat) (n : nat) : list nat :=
  match fuel with
  | O => []
  | S f => n :: match parentNode n with Some p => path f p | None => [] end
  end.
Definition inclusive_ancestors (n : nat) : list nat := path tree_fuel n.
(** Lines 1593 to 1599. *)
Definition getRoot (n : nat) : nat := List.last (inclusive_ancestors n) n.
Definition contains (a n : nat) : bool := bool_decide (a ∈ inclusive_ancestors n).
(** [range.commonAncestorContainer]; a range over two trees collapses to its
    end. *)
Definition commonAncestorContainer (s e : nat) : nat :=
  default e (List.find (λ a, contains a e) (inclusive_ancestors s)).

(** Lines 1609 to 1643.  The recursion leaves one shadow tree per call. *)
Fixpoint findCommonOffsetParent (fuel : nat) (element1 element2 : option nat) : option nat :=
  match fuel with
  | O => None
  | S f =>
      match element1, element2 with
      | Some e1, Some e2 =>
          let '(s, e) := if following e1 e2 then (e1, e2) else (e2, e1) in
          let c := commonAncestorContainer s e in
          if (negb (bool_decide (e1 = c)) && negb (bool_decide (e2 = c))) || contains s e then
            if isOffsetContainer c then Some c else getOffsetParent tree_fuel (Some c)
          else
            match host (getRoot e1) with
            | Some h => findCommonOffsetParent f (Some h) element2
            | None => findCommonOffsetParent f element1 (host (getRoot e2))
            end
      | _, _ => Some documentElement
      end
  end.

(** Lines 1653 to 1666. *)
Definition getScroll (n : nat) (side : string) : num :=
  let at_ m := if side =? "top" then scrollTop m else scrollLeft m in
  if (nodeName n =? "BODY") || (nodeName n =? "HTML") then at_ (default documentElement scrollingElement)
  else at_ n.

(** Lines 1677 to 1688. *)
Definition includeScroll (r : rect) (n : nat) (subtract : bool) : rect :=
  let m := num_of_Z (if subtract then -1 else 1) in
  let st := (getScroll n "top" * m)%num in let sl := (getScroll n "left" * m)%num in
  Rect (r_left r + sl)%num (r_top r + st)%num (r_right r + sl)%num (r_bottom r + st)%num
    (r_width r) (r_height r).

(** Lines 1700 to 1705. *)
Definition getBordersSize (n : nat) (axis : string) : num :=
  let '(sideA, sideB) := if axis =? "x" then ("Left", "Right") else ("Top", "Bottom") in
  (style_num n ("border" +:+ sideA +:+ "Width") + style_num n ("border" +:+ sideB +:+ "Width"))%num.

(** Lines 1722 to 1724.  In Internet Explorer 10 the last argument is a number
    with two lengths in pixels appended, which is no number. *)
Definition getSize (offset scroll client : nat → num) : num :=
  num_max (offset body) (num_max (scroll body) (num_max (client documentElement)
    (num_max (offset documentElement) (num_max (scroll documentElement)
      (if isIE10 then NaN else zero))))).
(** Lines 1726 to 1735. *)
Definition getWindowSizes : num * num :=
  (getSize offsetHeight scrollHeight clientHeight, getSize offsetWidth scrollWidth clientWidth).

(** Lines 1801 to 1806. *)
Definition getClientRect (r : rect) : rect :=
  Rect (r_left r) (r_top r) (r_left r + r_width r)%num (r_top r + r_height r)%num (r_width r) (r_height r).

(** Lines 1815 to 1862. *)
Definition getBoundingClientRect (n : nat) : rect :=
  let b := bounding n in
  let b := if isIE10 then
             let st := getScroll n "top" in let sl := getScroll n "left" in
             Rect (r_left b + sl)%num (r_top b + st)%num (r_right b + sl)%num (r_bottom b + st)%num
               (r_width b) (r_height b)
           else b in
  let w := (r_right b - r_left b)%num in let h := (r_bottom b - r_top b)%num in
  let sizes := if nodeName n =? "HTML" then getWindowSizes else (NaN, NaN) in
  (* [result.right] and [result.bottom] are not set *)
  let width := num_or sizes.2 (num_or (clientWidth n) NaN) in
  let height := num_or sizes.1 (num_or (clientHeight n) NaN) in
  let horizScrollbar := (offsetWidth n - width)%num in
  let vertScrollbar := (offsetHeight n - height)%num in
  let '(w, h) :=
    if truthy horizScrollbar || truthy vertScrollbar then
      ((w - (horizScrollbar - getBordersSize n "x"))%num, (h - (vertScrollbar - getBordersSize n "y"))%num)
    else (w, h) in
  getClientRect (Rect (r_left b) (r_top b) NaN NaN w h).

(** A rectangle with the margins of its parent. *)
Record offset_rect := OffsetRect { o_rect : rect; marginTop : num; marginLeft : num }.

(** Lines 1864 to 1907. *)
Definition getOffsetRectRelativeToArbitraryNode (children parent : nat) : offset_rect :=
  let isHTML := nodeName parent =? "HTML" in
  let childrenRect := getBoundingClientRect children in
  let parentRect := getBoundingClientRect parent in
  let scrollParent := getScrollParent tree_fuel (Some children) in
  let bt := style_num parent "borderTopWidth" in
  let bl := style_num parent "borderLeftWidth" in
  let offsets := getClientRect (Rect (r_left childrenRect - r_left parentRect - bl)%num
    (r_top childrenRect - r_top parentRect - bt)%num NaN NaN (r_width childrenRect) (r_height childrenRect)) in
  let o :=
    if negb isIE10 && isHTML then
      let mt := style_num parent "marginTop" in
      let ml := style_num parent "marginLeft" in
      let '(Rect l t r b w h) := offsets in
      OffsetRect (Rect (l - (bl - ml))%num (t - (bt - mt))%num (r - (bl - ml))%num (b - (bt - mt))%num w h) mt ml
    else OffsetRect offsets zero zero in
  if (if isIE10 then match scrollParent with Some s => contains parent s | None => false end
      else bool_decide (scrollParent = Some parent) && negb (nodeName parent =? "BODY"))
  then OffsetRect (includeScroll (o_rect o) parent false) (marginTop o) (marginLeft o)
  else o.

(** Lines 1909 to 1926. *)
Definition getViewportOffsetRectRelativeToArtbitraryNode (n : nat) : rect :=
  let html := documentElement in
  let rel := getOffsetRectRelativeToArbitraryNode n html in
  let width := num_max (clientWidth html) (num_or innerWidth zero) in
  let height := num_max (clientHeight html) (num_or innerHeight zero) in
  getClientRect (Rect (getScroll html "left" - r_left (o_rect rel) + marginLeft rel)%num
    (getScroll html "top" - r_top (o_rect rel) + marginTop rel)%num NaN NaN width height).

(** Lines 1936 to 1945; reading the name of a missing parent throws. *)
Fixpoint isFixed (fuel : nat) (n : nat) : option bool :=
  match fuel with
  | O => None
  | S f =>
      if (nodeName n =? "BODY") || (nodeName n =? "HTML") then Some false
      else if position n =? "fixed" then Some true
      else match getParentNode n with Some p => isFixed f p | None => None end
  end.

(** [boundariesElement] is one of three words, another text or an element. *)
Inductive boundary := Viewport | ScrollParent | Window | BoundaryElement (n : nat) | BoundaryText (s : string).
Definition boundary_text (s : string) : boundary :=
  if s =? "viewport" then Viewport else if s =? "scrollParent" then ScrollParent
  else if s =? "window" then Window else BoundaryText s.

(** Lines 1957 to 2004; measuring a text throws. *)
Definition getBoundaries (popper : nat) (reference : option nat) (padding : num)
    (boundariesElement : boundary) : option rect :=
  offsetParent ← findCommonOffsetParent tree_fuel (Some popper) reference;
  boundaries ← match boundariesElement with
    | Viewport => Some (getViewportOffsetRectRelativeToArtbitraryNode offsetParent)
    | _ =>
        boundariesNode ← match boundariesElement with
          | ScrollParent =>
              s ← getScrollParent tree_fuel (reference ≫= getParentNode);
              Some (if nodeName s =? "BODY" then documentElement else s)
          | BoundaryElement n => Some n
          | BoundaryText _ => None
          | _ => Some documentElement
          end;
        let offsets := getOffsetRectRelativeToArbitraryNode boundariesNode offsetParent in
        fixed ← (if nodeName boundariesNode =? "HTML" then isFixed tree_fuel offsetParent else Some true);
        Some (if (fixed : bool) then o_rect offsets
              else let '(height, width) := getWindowSizes in
                   let o := o_rect offsets in
                   Rect (r_left o - marginLeft offsets)%num (r_top o - marginTop offsets)%num
                     (width + r_left o)%num (height + r_top o)%num NaN NaN)
    end;
  Some (Rect (r_left boundaries + padding)%num (r_top boundaries + padding)%num
    (r_right boundaries - padding)%num (r_bottom boundaries - padding)%num
    (r_width boundaries) (r_height boundaries)).

(** Lines 2082 to 2085. *)
Definition getReferenceOffsets (popper reference : nat) : option rect :=
  p ← findCommonOffsetParent tree_fuel (Some popper) (Some reference);
  Some (o_rect (getOffsetRectRelativeToArbitraryNode reference p)).

(** Lines 2094 to 2103. *)
Definition getOuterSizes (n : nat) : num * num :=
  let x := (style_num n "marginTop" + style_num n "marginBottom")%num in
  let y := (style_num n "marginLeft" + style_num n "marginRight")%num in
  ((offsetWidth n + y)%num, (offsetHeight n + x)%num).

End page.

End PopperDom.
