(* ===== verification/PopperOffset.v ===== *)
(** * Popper, the offset option: bootstrap.bundle.js lines 2443 to 2445 and
    2952 to 3069

    The [offset] option is a number or a text such as 10, "10%, 5" or
    "10 - 5vh + 3%": sums of lengths, one for each axis. *)

From S2P Require Import Prelude JsString JsNum PopperDom.
Local Open Scope Z_scope.

Module PopperOffset.

(** The value of a double; infinities count as NaN, as [isNumeric] refuses
    both. *)
Definition num_of_double (d : double) : num :=
  match d with
  | SpecFloat.S754_zero _ => Some 0%Q
  | SpecFloat.S754_finite s m e =>
      let v := (inject_Z (Z.pos m) * (if 0 <=? e then inject_Z (2 ^ e) else / inject_Z (2 ^ - e)))%Q in
      Some (if s then (- v)%Q else v)
  | _ => NaN
  end.

(** The operands: a length in pixels, or a text that is none. *)
Inductive frag := FNum (x : num) | FStr (s : jsstring).

(** Lines 2443 to 2445.  Where the whole text is a number, [parseFloat] fails
    only on white space. *)
Definition isNumeric (f : frag) : bool :=
  match f with
  | FNum x => bool_decide (is_Some x)
  | FStr s => negb (bool_decide (trim s = [])) && bool_decide (is_Some (num_of_double (toNumber s)))
  end.
Definition number_of (f : frag) : num :=
  match f with FNum x => x | FStr s => num_of_double (toNumber s) end.

Definition c_plus : Z := 43.
Definition c_dot : Z := 46.
Definition c_comma : Z := 44.
Definition c_percent : Z := 37.
Definition is_sign (c : Z) : bool := (c =? c_plus) || (c =? c_minus).

Fixpoint span (P : Z → bool) (s : jsstring) : jsstring * jsstring :=
  match s with
  | c :: s' => if P c then let '(a, b) := span P s' in (c :: a, b) else ([], s)
  | [] => ([], [])
  end.

(** The two groups of the expression of line 2954: sign, digits, dot, digits,
    and the rest of the line. *)
Definition match_value (str : jsstring) : jsstring * jsstring :=
  let '(sign, s) := match str with c :: s' => if is_sign c then ([c], s') else ([], str) | [] => ([], []) end in
  let '(ds, s) := span is_digit s in
  let '(dot, s) := match s with c :: s' => if c =? c_dot then ([c], s') else ([], s) | [] => ([], []) end in
  let '(fs, s) := span is_digit s in
  (sign ++ ds ++ dot ++ fs, (span (λ c, negb (bool_decide (c ∈ [10; 13; 8232; 8233]))) s).1).

Section page.
Context `{PG : Page}.

Definition percent_of (x value : num) : num := (x * Some (1 # 100) * value)%num.

(** Lines 2952 to 2991. *)
Definition toValue (measurement : string) (popper reference : rect) (str : jsstring) : frag :=
  let '(digits, unit) := match_value str in
  let value := num_of_double (toNumber digits) in
  if negb (truthy value) then FStr str
  else if match unit with c :: _ => c =? c_percent | [] => false end then
    let element := if bool_decide (unit = js "%p") then popper else reference in
    FNum (percent_of (get (PopperDom.getClientRect element) measurement) value)
  else if bool_decide (unit = js "vh") then
    FNum (percent_of (num_max (clientHeight documentElement) (num_or innerHeight zero)) value)
  else if bool_decide (unit = js "vw") then
    FNum (percent_of (num_max (clientWidth documentElement) (num_or innerWidth zero)) value)
  else FNum value.

(** [offset.split(/(\+|\-)/)]: the pieces and, between them, the signs. *)
Fixpoint split_signs (s : jsstring) : list jsstring :=
  match s with
  | [] => [[]]
  | c :: s' =>
      if is_sign c then [] :: [c] :: split_signs s'
      else match split_signs s' with w :: ws => (c :: w) :: ws | [] => [[c]] end
  end.

Definition has_divider (s : jsstring) : bool := existsb (λ c, (c =? c_comma) || is_space c) s.

(** What follows a match of [/\s*,\s*|\s+/] at the start of [s]. *)
Definition after_separator (s : jsstring) : option jsstring :=
  match trim_start s with
  | c :: t => if c =? c_comma then Some (trim_start t)
              else if is_space (default 0 (head s)) then Some (c :: t) else None
  | [] => if bool_decide (s = []) then None else Some []
  end.
Fixpoint cut (s : jsstring) : jsstring * option jsstring :=
  match after_separator s, s with
  | Some r, _ => ([], Some r)
  | None, c :: s' => let '(w, r) := cut s' in (c :: w, r)
  | None, [] => ([], None)
  end.
(** [s.split(/\s*,\s*|\s+/)[0]] and [[1]] *)
Definition first_piece (s : jsstring) : jsstring := (cut s).1.
Definition second_piece (s : jsstring) : jsstring := default (js "undefined") ((λ r, (cut r).1) <$> (cut s).2).

(** Lines 3041 to 3053: a sign that follows an empty piece is part of the next
    value. *)
Definition merge_step (st : list jsstring * bool) (b : jsstring) : list jsstring * bool :=
  let '(a, mergeWithPrevious) := st in
  if bool_decide (last a = Some []) && bool_decide (b ∈ [[c_plus]; [c_minus]])
  then (removelast a ++ [b], true)
  else if mergeWithPrevious then (removelast a ++ [default [] (last a) ++ b], false)
  else (a ++ [b], false).
Definition merge_signs (op : list jsstring) : list jsstring := (foldl merge_step ([], false) op).1.

(** Lines 3061 to 3067. *)
Fixpoint sum_from (prev : option frag) (op : list frag) (acc : num) : num :=
  match op with
  | [] => acc
  | f :: op' =>
      let sgn := match prev with Some (FStr s) => if bool_decide (s = [c_minus]) then -1 else 1 | _ => 1 end in
      sum_from (Some f) op' (if isNumeric f then (acc + number_of f * num_of_Z sgn)%num else acc)
  end.

(** Lines 3004 to 3069. *)
Definition parseOffset (offset : jsstring) (popper reference : rect) (basePlacement : string) : num * num :=
  let useHeight := bool_decide (basePlacement ∈ ["right"; "left"]%string) in
  let fragments := trim <$> split_signs offset in
  let ops := match list_find has_divider fragments with
             | Some (d, w) => (take d fragments ++ [first_piece w], Some (second_piece w :: drop (S d) fragments))
             | None => (fragments, None)
             end in
  let value (index1 : bool) (op : list jsstring) : num :=
    let measurement := (if (if index1 then negb useHeight else useHeight) then "height" else "width")%string in
    sum_from None (toValue measurement popper reference <$> merge_signs op) zero in
  (value false ops.1, match ops.2 with Some op => value true op | None => zero end).

End page.

End PopperOffset.
