(* ===== verification/Popper.v ===== *)
(** * Popper, placing an element: bootstrap.bundle.js lines 2006 to 2071,
    2112 to 2296 and 2548 to 3260

    Popper places an element, the popper, beside another one, the reference.
    An update measures both, chooses a placement and runs a list of modifiers
    over the data of the update: each may move the popper, change the
    placement or add styles.  The modifiers are those of the library, with
    their options, or others given as functions. *)

From S2P Require Import Prelude JsString JsNum PopperDom PopperOffset.
Local Open Scope string_scope.

Module Popper.
Import PopperDom.

(** ** Placements *)

(** Lines 2112 to 2117: the sides at the start of a text, with their
    opposites. *)
Definition side_at (s : string) : option (nat * string) :=
  if String.prefix "left" s then Some (4%nat, "right")
  else if String.prefix "right" s then Some (5%nat, "left")
  else if String.prefix "bottom" s then Some (6%nat, "top")
  else if String.prefix "top" s then Some (3%nat, "bottom") else None.
Fixpoint replace_sides (skip : nat) (s : string) : string :=
  match s with
  | EmptyString => ""
  | String c s' =>
      match skip with
      | S k => replace_sides k s'
      | O => match side_at s with
             | Some (n, o) => o +:+ replace_sides (Nat.pred n) s'
             | None => String c (replace_sides O s')
             end
      end
  end.
Definition getOppositePlacement (placement : string) : string := replace_sides O placement.

(** Lines 2752 to 2759. *)
Definition getOppositeVariation (variation : string) : string :=
  if variation =? "end" then "start" else if variation =? "start" then "end" else variation.

(** Lines 2792 and 2795. *)
Definition placements : list string :=
  ["auto-start"; "auto"; "auto-end"; "top-start"; "top"; "top-end"; "right-start"; "right"; "right-end";
   "bottom-end"; "bottom"; "bottom-start"; "left-end"; "left"; "left-start"].
Definition validPlacements : list string := drop 3 placements.

(** [arr.slice(from)] and [arr.slice(0, to)]: a negative index counts from the
    end. *)
Definition slice_to {A} (i : Z) (l : list A) : list A :=
  if (i <? 0)%Z then take (length l - Z.to_nat (- i)) l else take (Z.to_nat i) l.
Definition slice_from {A} (i : Z) (l : list A) : list A :=
  if (i <? 0)%Z then drop (length l - Z.to_nat (- i)) l else drop (Z.to_nat i) l.
Fixpoint indexOf_from (i : Z) (P : string → bool) (l : list string) : Z :=
  match l with
  | [] => -1
  | x :: l' => if P x then i else indexOf_from (i + 1) P l'
  end%Z.
Definition indexOf (x : string) (l : list string) : Z := indexOf_from 0 (String.eqb x) l.

(** Lines 2807 to 2813. *)
Definition clockwise (placement : string) (counter : bool) : list string :=
  let index := indexOf placement validPlacements in
  let arr := (slice_from (index + 1) validPlacements ++ slice_to index validPlacements)%list in
  if counter then reverse arr else arr.

(** [placement + (variation ? '-' + variation : '')] *)
Definition with_variation (placement variation : string) : string :=
  if variation =? "" then placement else placement +:+ "-" +:+ variation.

(** ** Offsets of a placement *)

(** Lines 2129 to 2156; [right] and [bottom] are not set. *)
Definition getPopperOffsets (sizes : num * num) (reference : rect) (placement : string) : rect :=
  let placement := base_of placement in
  let r := Rect NaN NaN NaN NaN sizes.1 sizes.2 in
  let isHoriz := bool_decide (placement ∈ ["right"; "left"]) in
  let mainSide := if isHoriz then "top" else "left" in
  let secondarySide := if isHoriz then "left" else "top" in
  let measurement := if isHoriz then "height" else "width" in
  let secondaryMeasurement := if isHoriz then "width" else "height" in
  let r := set mainSide (get reference mainSide + half (get reference measurement) - half (get r measurement))%num r in
  set secondarySide
    (if placement =? secondarySide then (get reference secondarySide - get r secondaryMeasurement)%num
     else get reference (getOppositePlacement secondarySide)) r.

(** Lines 2006 to 2071. *)
Record area := Area { key : string; a_width : num; a_height : num }.
Definition getArea (a : area) : num := (a_width a * a_height a)%num.
(** [b.area - a.area] puts the larger area first and keeps the order of equal
    ones; NaN compares as equal. *)
Fixpoint insert_area (a : area) (l : list area) : list area :=
  match l with
  | [] => [a]
  | b :: l' => if num_lt (getArea b) (getArea a) then a :: l else b :: insert_area a l'
  end.
Definition sort_areas (l : list area) : list area := foldl (λ acc a, insert_area a acc) [] l.

Definition rects (boundaries refRect : rect) : list area :=
  [Area "top" (r_width boundaries) (r_top refRect - r_top boundaries)%num;
   Area "right" (r_right boundaries - r_right refRect)%num (r_height boundaries);
   Area "bottom" (r_width boundaries) (r_bottom boundaries - r_bottom refRect)%num;
   Area "left" (r_left refRect - r_left boundaries)%num (r_height boundaries)].

(** [width >= popper.clientWidth && height >= popper.clientHeight] *)
Definition fits (client : num * num) (a : area) : bool :=
  num_le client.1 (a_width a) && num_le client.2 (a_height a).
Definition choose_area (client : num * num) (l : list area) : string :=
  let sorted := sort_areas l in
  match filter (λ a, fits client a = true) sorted with
  | a :: _ => key a
  | [] => match sorted with a :: _ => key a | [] => "" end
  end.

Definition auto_placement (placement : string) (refRect : rect) (client : num * num)
    (boundaries : rect) : string :=
  with_variation (choose_area client (rects boundaries refRect)) (default "" (variation_of placement)).

Section page.
Context `{PG : Page}.

Definition computeAutoPlacement (placement : string) (refRect : rect) (popper : nat)
    (reference : nat) (boundariesElement : boundary) (padding : num) : option string :=
  if negb (includes "auto" placement) then Some placement
  else
    boundaries ← getBoundaries popper (Some reference) padding boundariesElement;
    Some (auto_placement placement refRect (clientWidth popper, clientHeight popper) boundaries).
End page.

(** ** The data of an update *)

Inductive sval := SNum (x : num) | SText (s : string) | STranslate (left top : num).
Inductive aval := AText (s : string) | AFalse.

(** A style property as it is written on an element, with its unit. *)
Inductive cval := CPx (v : sval) | CVal (v : sval).
Record rendered := Rendered {
  el_style : gmap (nat * string) cval;
  el_attr : gmap (nat * string) string
}.

Record data := Data {
  placement : string;
  originalPlacement : string;
  flipped : bool;
  d_popper : rect;                       (* [offsets.popper] *)
  d_reference : rect;                    (* [offsets.reference] *)
  d_arrow : gmap string sval;            (* [offsets.arrow] *)
  arrowElement : option nat;
  d_hide : option bool;
  styles : gmap string sval;
  arrowStyles : gmap string sval;
  d_attributes : gmap string aval;
  (* [options.boundaries] of the modifier preventOverflow *)
  po_boundaries : option rect;
  d_doc : rendered                       (* inline styles and attributes on the page *)
}.

Definition set_popper (r : rect) (d : data) : data :=
  Data (placement d) (originalPlacement d) (flipped d) r (d_reference d) (d_arrow d) (arrowElement d)
    (d_hide d) (styles d) (arrowStyles d) (d_attributes d) (po_boundaries d) (d_doc d).
Definition set_offsets (p r : rect) (a : gmap string sval) (d : data) : data :=
  Data (placement d) (originalPlacement d) (flipped d) p r a (arrowElement d)
    (d_hide d) (styles d) (arrowStyles d) (d_attributes d) (po_boundaries d) (d_doc d).
Definition set_placement (p : string) (d : data) : data :=
  Data p (originalPlacement d) (flipped d) (d_popper d) (d_reference d) (d_arrow d) (arrowElement d)
    (d_hide d) (styles d) (arrowStyles d) (d_attributes d) (po_boundaries d) (d_doc d).
Definition set_flipped (p : string) (r : rect) (d : data) : data :=
  Data p (originalPlacement d) true r (d_reference d) (d_arrow d) (arrowElement d)
    (d_hide d) (styles d) (arrowStyles d) (d_attributes d) (po_boundaries d) (d_doc d).
Definition set_boundaries (b : rect) (d : data) : data :=
  Data (placement d) (originalPlacement d) (flipped d) (d_popper d) (d_reference d) (d_arrow d)
    (arrowElement d) (d_hide d) (styles d) (arrowStyles d) (d_attributes d) (Some b) (d_doc d).
Definition set_arrow (el : nat) (a : gmap string sval) (d : data) : data :=
  Data (placement d) (originalPlacement d) (flipped d) (d_popper d) (d_reference d) a (Some el)
    (d_hide d) (styles d) (arrowStyles d) (d_attributes d) (po_boundaries d) (d_doc d).
Definition set_hide (h : bool) (v : aval) (d : data) : data :=
  Data (placement d) (originalPlacement d) (flipped d) (d_popper d) (d_reference d) (d_arrow d)
    (arrowElement d) (Some h) (styles d) (arrowStyles d) (<["x-out-of-boundaries" := v]> (d_attributes d))
    (po_boundaries d) (d_doc d).
Definition set_styles (s a : gmap string sval) (attrs : gmap string aval) (d : data) : data :=
  Data (placement d) (originalPlacement d) (flipped d) (d_popper d) (d_reference d) (d_arrow d)
    (arrowElement d) (d_hide d) s a attrs (po_boundaries d) (d_doc d).
Definition set_doc (r : rendered) (d : data) : data :=
  Data (placement d) (originalPlacement d) (flipped d) (d_popper d) (d_reference d) (d_arrow d)
    (arrowElement d) (d_hide d) (styles d) (arrowStyles d) (d_attributes d) (po_boundaries d) r.
(** Before every modifier both rectangles get their [right] and [bottom]. *)
Definition complete_rects (d : data) : data :=
  Data (placement d) (originalPlacement d) (flipped d) (getClientRect (d_popper d))
    (getClientRect (d_reference d)) (d_arrow d) (arrowElement d)
    (d_hide d) (styles d) (arrowStyles d) (d_attributes d) (po_boundaries d) (d_doc d).

(** ** Modifiers *)

(** Lines 3172 to 3196; for a variation that is neither start nor end nothing
    changes. *)
Definition shift (d : data) : data :=
  let basePlacement := base_of (placement d) in
  match variation_of (placement d) with
  | None => d
  | Some v =>
      let isVertical := bool_decide (basePlacement ∈ ["bottom"; "top"]) in
      let side := if isVertical then "left" else "top" in
      let measurement := if isVertical then "width" else "height" in
      if v =? "start" then set_popper (set side (get (d_reference d) side) (d_popper d)) d
      else if v =? "end" then
        set_popper (set side (get (d_reference d) side + get (d_reference d) measurement
                              - get (d_popper d) measurement)%num (d_popper d)) d
      else d
  end.

(** Lines 3080 to 3112; the option is a number or a text. *)
Inductive offset_option := OffsetNumber (x : Q) | OffsetText (s : jsstring).
Definition move_by (basePlacement : string) (o : num * num) (p : rect) : rect :=
  let add side x := set side (get p side + x)%num in
  let sub side x := set side (get p side - x)%num in
  if basePlacement =? "left" then sub "left" o.2 (add "top" o.1 p)
  else if basePlacement =? "right" then add "left" o.2 (add "top" o.1 p)
  else if basePlacement =? "top" then sub "top" o.2 (add "left" o.1 p)
  else if basePlacement =? "bottom" then add "top" o.2 (add "left" o.1 p)
  else p.

(** Lines 3121 to 3163: one side at a time, in the order of the option
    [priority]. *)
Definition check_side (escapeWithReference : bool) (boundaries : rect) (popper : rect) (side : string) : rect :=
  if bool_decide (side ∈ ["left"; "top"]) then
    set side (if num_lt (get popper side) (get boundaries side) && negb escapeWithReference
              then num_max (get popper side) (get boundaries side) else get popper side) popper
  else
    let mainSide := if side =? "right" then "left" else "top" in
    set mainSide
      (if num_lt (get boundaries side) (get popper side) && negb escapeWithReference
       then num_min (get popper mainSide)
              (get boundaries side - get popper (if side =? "right" then "width" else "height"))%num
       else get popper mainSide) popper.
Definition keep_inside (priority : list string) (escapeWithReference : bool) (boundaries popper : rect) : rect :=
  foldl (check_side escapeWithReference boundaries) popper priority.

(** Lines 2918 to 2938. *)
Definition keepTogether (d : data) : data :=
  let isVertical := bool_decide (base_of (placement d) ∈ ["top"; "bottom"]) in
  let side := if isVertical then "right" else "bottom" in
  let opSide := if isVertical then "left" else "top" in
  let measurement := if isVertical then "width" else "height" in
  let ref := d_reference d in
  let p := d_popper d in
  let p := if num_lt (get p side) (floor (get ref opSide))
           then set opSide (floor (get ref opSide) - get p measurement)%num p else p in
  let p := if num_lt (floor (get ref side)) (get p opSide)
           then set opSide (floor (get ref side)) p else p in
  set_popper p d.

(** Lines 3243 to 3260. *)
Definition inner (d : data) : data :=
  let basePlacement := base_of (placement d) in
  let isHoriz := bool_decide (basePlacement ∈ ["left"; "right"]) in
  let subtractLength := negb (bool_decide (basePlacement ∈ ["top"; "left"])) in
  let p := set (if isHoriz then "left" else "top")
             (get (d_reference d) basePlacement
              - (if subtractLength then get (d_popper d) (if isHoriz then "width" else "height") else zero))%num
             (d_popper d) in
  set_placement (getOppositePlacement (placement d)) (set_popper (getClientRect p) d).

Inductive behavior := Flip | Clockwise | Counterclockwise | Order (l : list string).
Record flip_options := FlipOptions {
  f_behavior : behavior; f_padding : num; f_boundaries : boundary; flipVariations : bool
}.
Record prevent_options := PreventOptions {
  priority : list string; p_padding : num; p_boundaries : option boundary; escapeWithReference : bool
}.
(** The arrow is named by a selector, with the element it finds in the popper,
    or given as an element. *)
Inductive arrow_option := ArrowSelector (found : option nat) | ArrowElement (n : nat).
Record style_options := StyleOptions { gpuAcceleration : bool; opt_x : string; opt_y : string }.

(** The functions of modifiers, with their options; [applyStyle] may carry a
    deprecated option of [computeStyle]. *)
Inductive modifier_fn :=
  | FnShift
  | FnOffset (o : offset_option)
  | FnPreventOverflow (o : prevent_options)
  | FnKeepTogether
  | FnArrow (o : arrow_option)
  | FnFlip (o : flip_options)
  | FnInner
  | FnHide
  | FnComputeStyle (o : style_options)
  | FnApplyStyle (legacy : option bool)
  | FnCustom (name : string) (f : data → option data).
Record modifier := Modifier { order : Z; enabled : bool; fn : modifier_fn }.
Definition name (m : modifier) : string :=
  match fn m with
  | FnShift => "shift" | FnOffset _ => "offset" | FnPreventOverflow _ => "preventOverflow"
  | FnKeepTogether => "keepTogether" | FnArrow _ => "arrow" | FnFlip _ => "flip" | FnInner => "inner"
  | FnHide => "hide" | FnComputeStyle _ => "computeStyle" | FnApplyStyle _ => "applyStyle"
  | FnCustom n _ => n
  end.

(** Lines 2290 to 2296. *)
Definition isModifierEnabled (ms : list modifier) (n : string) : bool :=
  existsb (λ m, enabled m && (name m =? n)) ms.
(** Lines 2167 to 2175 and 2186 to 2199. *)
Definition find (check : modifier → bool) (ms : list modifier) : option modifier :=
  head (filter (λ m, check m = true) ms).
Definition findIndex (ms : list modifier) (n : string) : Z := indexOf n (name <$> ms).
(** Lines 2645 to 2661. *)
Definition isModifierRequired (ms : list modifier) (requestingName requestedName : string) : bool :=
  match find (λ m, name m =? requestingName) ms with
  | None => false
  | Some r => existsb (λ m, (name m =? requestedName) && enabled m && (order m <? order r)%Z) ms
  end.

(** Lines 3205 to 3234; reading the sides of boundaries that were never
    computed throws. *)
Definition out_of (refRect bound : rect) : bool :=
  num_lt (r_bottom refRect) (r_top bound) || num_lt (r_right bound) (r_left refRect) ||
  num_lt (r_bottom bound) (r_top refRect) || num_lt (r_right refRect) (r_left bound).
Definition hide (ms : list modifier) (d : data) : option data :=
  if negb (isModifierRequired ms "hide" "preventOverflow") then Some d
  else
    bound ← po_boundaries d;
    Some (if out_of (d_reference d) bound then
            if bool_decide (d_hide d = Some true) then d else set_hide true (AText "") d
          else
            if bool_decide (d_hide d = Some false) then d else set_hide false AFalse d).

(** One turn of the loop of [flip], lines 2861 to 2907: [placement] and
    [variation] are the variables of the function, [nested] runs the modifiers
    before [flip], [sizes] are those of the popper. *)
Record flip_state := FlipState { f_placement : string; f_variation : string; f_data : data }.
Definition overlaps (placement : string) (p ref : rect) : bool :=
  ((placement =? "left") && num_lt (floor (r_left ref)) (floor (r_right p))) ||
  ((placement =? "right") && num_lt (floor (r_left p)) (floor (r_right ref))) ||
  ((placement =? "top") && num_lt (floor (r_top ref)) (floor (r_bottom p))) ||
  ((placement =? "bottom") && num_lt (floor (r_top p)) (floor (r_bottom ref))).
Definition overflows (side : string) (p b : rect) : bool :=
  if bool_decide (side ∈ ["left"; "top"]) then num_lt (floor (get p side)) (floor (get b side))
  else num_lt (floor (get b side)) (floor (get p side)).
Definition overflows_at (placement : string) (p b : rect) : bool :=
  bool_decide (placement ∈ ["left"; "right"; "top"; "bottom"]) && overflows placement p b.
Definition flips_variation (placement variation : string) (p b : rect) : bool :=
  let isVertical := bool_decide (placement ∈ ["top"; "bottom"]) in
  (isVertical && (variation =? "start") && overflows "left" p b) ||
  (isVertical && (variation =? "end") && overflows "right" p b) ||
  (negb isVertical && (variation =? "start") && overflows "top" p b) ||
  (negb isVertical && (variation =? "end") && overflows "bottom" p b).
(** [_extends({}, popper, offsets)] *)
Definition extend_offsets (p o : rect) : rect :=
  Rect (r_left o) (r_top o) (r_right p) (r_bottom p) (r_width o) (r_height o).

Definition flip_step (nested : data → option data) (sizes : num * num) (o : flip_options)
    (boundaries : rect) (flipOrder : list string) (st : flip_state) (index : nat) (step : string) :
    option flip_state :=
  if negb (f_placement st =? step) || bool_decide (length flipOrder = S index) then Some st
  else
    let d := f_data st in
    let pl := base_of (placement d) in
    let moves := overlaps pl (d_popper d) (d_reference d) || overflows_at pl (d_popper d) boundaries in
    let turns := flipVariations o && flips_variation pl (f_variation st) (d_popper d) boundaries in
    if moves || turns then
      let pl := if moves then default "undefined" (flipOrder !! S index) else pl in
      let v := if turns then getOppositeVariation (f_variation st) else f_variation st in
      let placement' := with_variation pl v in
      d' ← nested (set_flipped placement'
             (extend_offsets (d_popper d) (getPopperOffsets sizes (d_reference d) placement')) d);
      Some (FlipState pl v d')
    else Some (FlipState pl (f_variation st) d).
Fixpoint flip_loop (step : flip_state → nat → string → option flip_state) (i : nat) (l : list string)
    (st : flip_state) : option flip_state :=
  match l with
  | [] => Some st
  | x :: l' => st' ← step st i x; flip_loop step (S i) l' st'
  end.

Definition flip_order (b : behavior) (placement : string) : list string :=
  match b with
  | Flip => [placement; getOppositePlacement placement]
  | Clockwise => clockwise placement false
  | Counterclockwise => clockwise placement true
  | Order l => l
  end.

(** Lines 2828 to 2909, for boundaries that have been measured. *)
Definition flip_within (nested : data → option data) (sizes : num * num) (ms : list modifier)
    (o : flip_options) (measure : option rect) (d : data) : option data :=
  if isModifierEnabled ms "inner" then Some d
  else if flipped d && (placement d =? originalPlacement d) then Some d
  else
    boundaries ← measure;
    let pl := base_of (placement d) in
    let l := flip_order (f_behavior o) pl in
    f_data <$> flip_loop (flip_step nested sizes o boundaries l) 0 l
                 (FlipState pl (default "" (variation_of (placement d))) d).

(** Lines 2455 to 2464; the empty text removes a property. *)
Definition css_value (prop : string) (v : sval) : cval :=
  let numeric := match v with
                 | SNum x => PopperOffset.isNumeric (PopperOffset.FNum x)
                 | SText s => PopperOffset.isNumeric (PopperOffset.FStr (js s))
                 | STranslate _ _ => false
                 end in
  if bool_decide (prop ∈ ["width"; "height"; "top"; "right"; "bottom"; "left"]) && numeric
  then CPx v else CVal v.
Definition setStyles (el : nat) (s : gmap string sval) (r : rendered) : rendered :=
  Rendered (map_fold (λ prop v acc,
      match v with SText "" => delete (el, prop) acc | _ => <[(el, prop) := css_value prop v]> acc end)
    (el_style r) s) (el_attr r).
(** Lines 2474 to 2483. *)
Definition setAttributes (el : nat) (a : gmap string aval) (r : rendered) : rendered :=
  Rendered (el_style r) (map_fold (λ prop v acc,
      match v with AText t => <[(el, prop) := t]> acc | AFalse => delete (el, prop) acc end) (el_attr r) a).
(** Lines 2494 to 2511. *)
Definition applyStyle (popper : nat) (d : data) : data :=
  let r := setAttributes popper (d_attributes d) (setStyles popper (styles d) (d_doc d)) in
  set_doc (match arrowElement d with
           | Some a => if bool_decide (arrowStyles d = ∅) then r else setStyles a (arrowStyles d) r
           | None => r
           end) d.

(** Lines 2305 to 2317: the loop stops before the last prefix.  [supported]
    tells which names the style of the body has. *)
Definition getSupportedPropertyName (supported : string → bool) (property upperProp : string) : option string :=
  List.find supported (property :: ((λ p, p +:+ upperProp) <$> ["ms"; "Webkit"; "Moz"])).

(** Lines 3283 to 3584: the default list; the arrow is looked up in the
    popper. *)
Definition default_flip : flip_options := FlipOptions Flip (num_of_Z 5) Viewport false.
Definition default_modifiers (x_arrow : option nat) : list modifier :=
  [Modifier 100 true FnShift;
   Modifier 200 true (FnOffset (OffsetNumber 0));
   Modifier 300 true (FnPreventOverflow (PreventOptions ["left"; "right"; "top"; "bottom"] (num_of_Z 5)
                        (Some ScrollParent) false));
   Modifier 400 true FnKeepTogether;
   Modifier 500 true (FnArrow (ArrowSelector x_arrow));
   Modifier 600 true (FnFlip default_flip);
   Modifier 700 false FnInner;
   Modifier 800 true FnHide;
   Modifier 850 true (FnComputeStyle (StyleOptions true "bottom" "right"));
   Modifier 900 true (FnApplyStyle None)].

Section modifiers.
Context `{PG : Page} (supported : string → bool) (popper reference : nat) (ms : list modifier).

Definition offset (o : offset_option) (d : data) : data :=
  let basePlacement := base_of (placement d) in
  let offsets := match o with
                 | OffsetNumber x => (Some x, zero)
                 | OffsetText s =>
                     match PopperOffset.num_of_double (toNumber s) with
                     | Some x => (Some x, zero)
                     | None => PopperOffset.parseOffset s (d_popper d) (d_reference d) basePlacement
                     end
                 end in
  set_popper (move_by basePlacement offsets (d_popper d)) d.

(** Lines 3121 to 3163. *)
Definition preventOverflow (o : prevent_options) (d : data) : option data :=
  b ← match p_boundaries o with
      | Some b => Some b
      | None => BoundaryElement <$> getOffsetParent tree_fuel (Some popper)
      end;
  b ← match b with
      | BoundaryElement n => if bool_decide (n = reference)
                             then BoundaryElement <$> getOffsetParent tree_fuel (Some n) else Some b
      | _ => Some b
      end;
  boundaries ← getBoundaries popper (Some reference) (p_padding o) b;
  Some (set_popper (keep_inside (priority o) (escapeWithReference o) boundaries (d_popper d))
          (set_boundaries boundaries d)).

(** Lines 2670 to 2743. *)
Definition sized (wh : num * num) (len : string) : num := if len =? "height" then wh.2 else wh.1.
Definition attach_arrow (isVertical : bool) (size : num) (ref p : rect) : rect :=
  let side := if isVertical then "top" else "left" in
  let opSide := if isVertical then "bottom" else "right" in
  let p := if num_lt (get ref opSide - size)%num (get p side)
           then set side (get p side - (get p side - (get ref opSide - size)))%num p else p in
  let p := if num_lt (get p opSide) (get ref side + size)%num
           then set side (get p side + (get ref side + size - get p opSide))%num p else p in
  getClientRect p.
Definition arrow_position (isVertical : bool) (size margin border : num) (ref p : rect) : num :=
  let side := if isVertical then "top" else "left" in
  let len := if isVertical then "height" else "width" in
  let center := (get ref side + half (get ref len) - half size)%num in
  let sideValue := (center - get p side - margin - border)%num in
  round (num_max (num_min (get p len - size) sideValue) zero)%num.
Definition arrow (o : arrow_option) (d : data) : data :=
  if negb (isModifierRequired ms "arrow" "keepTogether") then d
  else
    match match o with
          | ArrowSelector found => found
          | ArrowElement n => if contains popper n then Some n else None
          end with
    | None => d
    | Some el =>
        let isVertical := bool_decide (base_of (placement d) ∈ ["left"; "right"]) in
        let len := if isVertical then "height" else "width" in
        let Side := if isVertical then "Top" else "Left" in
        let side := if isVertical then "top" else "left" in
        let altSide := if isVertical then "left" else "top" in
        let size := sized (getOuterSizes el) len in
        let p := attach_arrow isVertical size (d_reference d) (d_popper d) in
        let v := arrow_position isVertical size (style_num popper ("margin" +:+ Side))
                   (style_num popper ("border" +:+ Side +:+ "Width")) (d_reference d) p in
        set_arrow el {[ side := SNum v; altSide := SText "" ]} (set_popper p d)
    end.

(** Lines 2548 to 2633; without [applyStyle] the code throws. *)
Definition computeStyle (o : style_options) (d : data) : option data :=
  a ← find (λ m, name m =? "applyStyle") ms;
  let gpu := match fn a with FnApplyStyle (Some g) => g | _ => gpuAcceleration o end in
  op ← getOffsetParent tree_fuel (Some popper);
  let opr := getBoundingClientRect op in
  let p := d_popper d in
  let sideA := if opt_x o =? "bottom" then "top" else "bottom" in
  let sideB := if opt_y o =? "right" then "left" else "right" in
  let top := if sideA =? "bottom" then (zero - r_height opr + floor (r_bottom p))%num else floor (r_top p) in
  let left := if sideB =? "right" then (zero - r_width opr + floor (r_right p))%num else floor (r_left p) in
  let st : gmap string sval := {[ "position" := SText "absolute" ]} in
  let prefixedProperty := getSupportedPropertyName supported "transform" "Transform" in
  let st :=
    match prefixedProperty, gpu with
    | Some prop, true =>
        <["willChange" := SText "transform"]> (<[sideB := SNum zero]> (<[sideA := SNum zero]>
          (<[prop := STranslate left top]> st)))
    | _, _ =>
        <["willChange" := SText (sideA +:+ ", " +:+ sideB)]>
          (<[sideB := SNum (left * num_of_Z (if sideB =? "right" then -1 else 1))%num]>
            (<[sideA := SNum (top * num_of_Z (if sideA =? "bottom" then -1 else 1))%num]> st))
    end in
  Some (set_styles (styles d ∪ st) (arrowStyles d ∪ d_arrow d)
          (d_attributes d ∪ {[ "x-placement" := AText (placement d) ]}) d).

(** Lines 2828 to 2909. *)
Definition flip (nested : data → option data) (o : flip_options) (d : data) : option data :=
  flip_within nested (getOuterSizes popper) ms o
    (getBoundaries popper (Some reference) (f_padding o) (f_boundaries o)) d.

(** Lines 2211 to 2232.  [flip] runs the modifiers before itself again, none of
    which is [flip]. *)
Definition apply_fn (nested : data → option data) (m : modifier) (d : data) : option data :=
  match fn m with
  | FnShift => Some (shift d)
  | FnOffset o => Some (offset o d)
  | FnPreventOverflow o => preventOverflow o d
  | FnKeepTogether => Some (keepTogether d)
  | FnArrow o => Some (arrow o d)
  | FnFlip o => flip nested o d
  | FnInner => Some (inner d)
  | FnHide => hide ms d
  | FnComputeStyle o => computeStyle o d
  | FnApplyStyle _ => Some (applyStyle popper d)
  | FnCustom _ f => f d
  end.
Fixpoint run_list (nested : data → option data) (l : list modifier) (d : data) : option data :=
  match l with
  | [] => Some d
  | m :: l' => d' ← (if enabled m then apply_fn nested m (complete_rects d) else Some d); run_list nested l' d'
  end.
Definition run_before_flip : data → option data := run_list Some (slice_to (findIndex ms "flip") ms).
Definition runModifiers : data → option data := run_list run_before_flip ms.

(** Lines 2241 to 2282, for an instance that is not destroyed: the data handed
    to the callback. *)
Definition update (option_placement : string) (fo : flip_options) (doc : rendered) (po : option rect) : option data :=
  ref ← getReferenceOffsets popper reference;
  pl ← computeAutoPlacement option_placement ref popper reference (f_boundaries fo) (f_padding fo);
  runModifiers (Data pl pl false (getPopperOffsets (getOuterSizes popper) ref pl) ref ∅ None None ∅ ∅ ∅ po doc).

End modifiers.

End Popper.
