(* ===== verification/PopperSpec.v ===== *)
(** * Popper: where the popper ends up

    Theorems on the placement code of Popper: the offsets of each placement,
    the choice of an automatic one, keeping the popper inside its boundaries
    and together with its reference, the arrow, and flipping. *)

From Stdlib Require Import Sorted.
From S2P Require Import Prelude JsString JsNum PopperDom PopperOffset Popper.
Local Open Scope string_scope.

Module PopperSpec.
Import PopperDom Popper.

(** ** Numbers *)

Lemma num_lt_Some (a b : Q) : num_lt (Some a) (Some b) = true ↔ (a < b)%Q.
Proof.
  simpl. rewrite negb_true_iff. split; intros H.
  - apply Qnot_le_lt. intros Hle. apply Qle_bool_iff in Hle. congruence.
  - apply not_true_iff_false. rewrite Qle_bool_iff. lra.
Qed.
Lemma num_lt_false (a b : Q) : num_lt (Some a) (Some b) = false ↔ (b <= a)%Q.
Proof. simpl. by rewrite negb_false_iff, Qle_bool_iff. Qed.
Lemma num_le_Some (a b : Q) : num_le (Some a) (Some b) = true ↔ (a <= b)%Q.
Proof. apply Qle_bool_iff. Qed.

(** Case analysis on the comparisons of a goal. *)
Ltac compare_nums :=
  repeat match goal with
  | |- context [num_lt (Some ?a) (Some ?b)] =>
      let H := fresh "H" in
      destruct (num_lt (Some a) (Some b)) eqn:H; [apply num_lt_Some in H|apply num_lt_false in H]
  | |- context [Qle_bool ?a ?b] =>
      let H := fresh "H" in
      destruct (Qle_bool a b) eqn:H;
      [apply Qle_bool_iff in H|apply not_true_iff_false in H; rewrite Qle_bool_iff in H]
  end.

(** ** Rectangles with finite sides *)

(** A rectangle as [getClientRect] completes it. *)
Definition box (l t w h : Q) : rect :=
  Rect (Some l) (Some t) (Some (l + w)%Q) (Some (t + h)%Q) (Some w) (Some h).

(** ** preventOverflow *)

(** Where one coordinate ends up: the nearest position inside. *)
Definition clamp (lo hi size x : Q) : Q :=
  if Qle_bool lo x then if Qle_bool (x + size) hi then x else (hi - size)%Q else lo.

Lemma clamp_inside lo hi size x :
  (lo + size <= hi)%Q → (lo <= clamp lo hi size x)%Q ∧ (clamp lo hi size x + size <= hi)%Q.
Proof. intros H. unfold clamp. compare_nums; lra. Qed.

Lemma clamp_nearest lo hi size x y :
  (lo <= y)%Q → (y + size <= hi)%Q → (Qabs (clamp lo hi size x - x) <= Qabs (y - x))%Q.
Proof.
  intros H1 H2. unfold clamp. compare_nums.
  - rewrite (Qabs_pos (x - x)) by lra. pose proof (Qabs_nonneg (y - x)). lra.
  - rewrite !Qabs_neg by lra. lra.
  - rewrite !Qabs_pos by lra. lra.
Qed.

Definition lo_step (lo x : Q) : Q := if Qle_bool lo x then x else lo.
Definition hi_step (hi size far x : Q) : Q :=
  if Qle_bool far hi then x else if Qle_bool x (hi - size) then x else (hi - size)%Q.

Definition sides : list string := ["left"; "right"; "top"; "bottom"].

Lemma check_side_axes bl bt br bb bw bh x y R B w h side :
  side ∈ sides →
  check_side false (Rect (Some bl) (Some bt) (Some br) (Some bb) bw bh)
    (Rect (Some x) (Some y) (Some R) (Some B) (Some w) (Some h)) side =
  Rect (Some (if side =? "left" then lo_step bl x else if side =? "right" then hi_step br w R x else x))
    (Some (if side =? "top" then lo_step bt y else if side =? "bottom" then hi_step bb h B y else y))
    (Some R) (Some B) (Some w) (Some h).
Proof.
  unfold sides. rewrite !elem_of_cons, elem_of_nil.
  intros [->|[->|[->|[->|[]]]]]; unfold check_side, lo_step, hi_step; cbn -[Qle_bool];
    unfold Qmax_js, Qmin_js; rewrite andb_true_r; compare_nums; simpl; try done; lra.
Qed.

(** One coordinate along the list of sides: it is at its final position or has
    not moved, and then no side seen so far needed it to move. *)
Definition settling (lo hi size x0 : Q) (near far : string) (seen : list string) (x : Q) : Prop :=
  x = clamp lo hi size x0 ∨
  x = x0 ∧ (near ∈ seen → (lo <= x0)%Q) ∧ (far ∈ seen → (x0 + size <= hi)%Q).

Lemma settling_end lo hi size x0 near far seen x :
  near ∈ seen → far ∈ seen → settling lo hi size x0 near far seen x → x = clamp lo hi size x0.
Proof.
  intros Hn Hf [->|(-> & H1 & H2)]; [done|]. specialize (H1 Hn). specialize (H2 Hf).
  unfold clamp. compare_nums; [done|lra..].
Qed.

Lemma settling_step lo hi size x0 near far seen x side :
  near ≠ far → (lo + size <= hi)%Q → settling lo hi size x0 near far seen x →
  settling lo hi size x0 near far (seen ++ [side])
    (if side =? near then lo_step lo x else if side =? far then hi_step hi size (x0 + size) x else x).
Proof.
  intros Hne Hfit H. pose proof (clamp_inside lo hi size x0 Hfit) as [Hlo Hhi].
  unfold settling. rewrite !elem_of_app, !list_elem_of_singleton. destruct H as [->|(-> & H1 & H2)].
  - left. unfold lo_step, hi_step. case_match; [compare_nums; [done|lra]|].
    case_match; compare_nums; [done|done|lra|done].
  - unfold lo_step, hi_step.
    destruct (String.eqb_spec side near) as [->|]; [|destruct (String.eqb_spec side far) as [->|]].
    + compare_nums; [right; naive_solver|left; unfold clamp; compare_nums; [lra..|done]].
    + compare_nums; [right; naive_solver|lra|left; unfold clamp; compare_nums; [lra|done|lra]].
    + right. naive_solver.
Qed.

Lemma keep_inside_settling bl bt br bb bw bh l t w h seen todo x y :
  (bl + w <= br)%Q → (bt + h <= bb)%Q → Forall (.∈ sides) todo →
  settling bl br w l "left" "right" seen x → settling bt bb h t "top" "bottom" seen y →
  ∃ x' y',
    foldl (check_side false (Rect (Some bl) (Some bt) (Some br) (Some bb) bw bh))
      (Rect (Some x) (Some y) (Some (l + w)%Q) (Some (t + h)%Q) (Some w) (Some h)) todo =
      Rect (Some x') (Some y') (Some (l + w)%Q) (Some (t + h)%Q) (Some w) (Some h) ∧
    settling bl br w l "left" "right" (seen ++ todo) x' ∧ settling bt bb h t "top" "bottom" (seen ++ todo) y'.
Proof.
  intros Hw Hh Hall. revert seen x y; induction Hall as [|side todo Hs _ IH]; intros seen x y Hx Hy; simpl.
  - rewrite app_nil_r. eauto.
  - rewrite check_side_axes by done. rewrite cons_middle, app_assoc. apply IH; by apply settling_step.
Qed.

Lemma keep_inside_nearest prio bl bt br bb bw bh l t w h :
  Forall (.∈ sides) prio → sides ⊆ prio → (bl + w <= br)%Q → (bt + h <= bb)%Q →
  let p := keep_inside prio false (Rect (Some bl) (Some bt) (Some br) (Some bb) bw bh) (box l t w h) in
  r_left p = Some (clamp bl br w l) ∧ r_top p = Some (clamp bt bb h t) ∧
  r_width p = Some w ∧ r_height p = Some h.
Proof.
  intros Hall Hsub Hw Hh p.
  destruct (keep_inside_settling bl bt br bb bw bh l t w h [] prio l t) as (x & y & Heq & Hx & Hy);
    [done..|right; set_solver|right; set_solver|].
  assert (Hin : ∀ s, s ∈ sides → s ∈ prio) by set_solver.
  apply settling_end in Hx; [|apply Hin; unfold sides; set_solver..].
  apply settling_end in Hy; [|apply Hin; unfold sides; set_solver..].
  subst p. unfold keep_inside, box. rewrite Heq. simpl. by subst x y.
Qed.

Section page.
Context `{PG : Page}.

(** C11. Preventing overflow: for every order of priority that names all four
    sides, a popper that is no larger than the boundaries measured is moved to
    the nearest place inside them, on both axes. *)
Theorem prevent_overflow_nearest popper reference o d d' bl bt br bb bw bh l t w h :
  preventOverflow popper reference o d = Some d' →
  po_boundaries d' = Some (Rect (Some bl) (Some bt) (Some br) (Some bb) bw bh) →
  escapeWithReference o = false → Forall (.∈ sides) (priority o) → sides ⊆ priority o →
  d_popper d = box l t w h → (bl + w <= br)%Q → (bt + h <= bb)%Q →
  ∃ l' t', r_left (d_popper d') = Some l' ∧ r_top (d_popper d') = Some t' ∧
    r_width (d_popper d') = Some w ∧ r_height (d_popper d') = Some h ∧
    (bl <= l')%Q ∧ (l' + w <= br)%Q ∧ (bt <= t')%Q ∧ (t' + h <= bb)%Q ∧
    (∀ x, (bl <= x)%Q → (x + w <= br)%Q → (Qabs (l' - l) <= Qabs (x - l))%Q) ∧
    (∀ y, (bt <= y)%Q → (y + h <= bb)%Q → (Qabs (t' - t) <= Qabs (y - t))%Q).
Proof.
  unfold preventOverflow. intros Hrun Hb Hesc Hall Hsub Hp Hw Hh.
  apply bind_Some in Hrun as (b1 & _ & Hrun). apply bind_Some in Hrun as (b2 & _ & Hrun).
  apply bind_Some in Hrun as (b & _ & [= <-]). simpl in Hb. injection Hb as ->. rewrite Hesc, Hp. simpl.
  destruct (keep_inside_nearest (priority o) bl bt br bb bw bh l t w h) as (-> & -> & -> & ->); [done..|].
  destruct (clamp_inside bl br w l Hw), (clamp_inside bt bb h t Hh).
  eexists _, _. repeat split; try done; intros; by apply clamp_nearest.
Qed.

(** ** Automatic placement *)

Definition larger (a b : area) : Prop := num_le (getArea b) (getArea a) = true.
Definition has_area (a : area) : Prop := is_Some (getArea a).

Lemma larger_total a b : has_area a → has_area b → num_lt (getArea b) (getArea a) = false → larger b a.
Proof.
  unfold larger. intros [x ->] [y ->] H. apply num_le_Some. by apply num_lt_false in H.
Qed.
Lemma larger_lt a b : num_lt (getArea b) (getArea a) = true → larger a b.
Proof.
  unfold larger. destruct (getArea a), (getArea b); try done. intros H%num_lt_Some. apply num_le_Some. lra.
Qed.
#[local] Instance larger_trans : Transitive larger.
Proof.
  unfold larger. intros a b c. destruct (getArea a), (getArea b), (getArea c); try done.
  rewrite !num_le_Some. lra.
Qed.

Lemma insert_area_perm a l : insert_area a l ≡ₚ a :: l.
Proof. induction l as [|b l IH]; simpl; [done|]. case_match; [done|]. rewrite IH. constructor. Qed.

Lemma insert_area_sorted a l :
  has_area a → Forall has_area l → StronglySorted larger l → StronglySorted larger (insert_area a l).
Proof.
  intros Ha Hl. induction 1 as [|b l Hs IH Hb]; simpl; [repeat constructor|].
  apply Forall_cons in Hl as [Hb' Hl]. destruct (num_lt _ _) eqn:E.
  - apply larger_lt in E. constructor; [by constructor|]. constructor; [done|].
    eapply Forall_impl; [exact Hb|]. intros c Hc. by etrans.
  - constructor; [by apply IH|]. rewrite insert_area_perm. constructor; [|done]. by apply larger_total.
Qed.

Lemma sort_areas_spec l :
  Forall has_area l → sort_areas l ≡ₚ l ∧ StronglySorted larger (sort_areas l).
Proof.
  unfold sort_areas. induction l as [|a l IH] using rev_ind; intros Hl; simpl; [by repeat constructor|].
  apply Forall_app in Hl as [Hl Ha]. rewrite Forall_singleton in Ha. destruct (IH Hl) as [Hp Hs].
  rewrite foldl_app. simpl. split.
  - rewrite insert_area_perm, Hp. by rewrite (Permutation_app_comm l [a]).
  - apply insert_area_sorted; [done|by rewrite Hp|done].
Qed.

(** The head of a sorted list after a filter. *)
Lemma sorted_filter_head (P : area → bool) l a rest :
  StronglySorted larger l → Forall has_area l → filter (λ a, P a = true) l = a :: rest →
  a ∈ l ∧ P a = true ∧ ∀ b, b ∈ l → P b = true → larger a b.
Proof.
  induction 1 as [|c l Hs IH Hc]; intros Hl Hf; [done|]. apply Forall_cons in Hl as [Hca Hl].
  rewrite filter_cons in Hf. case_decide as HP.
  - injection Hf as -> <-. split; [set_solver|]. split; [done|]. intros b [->|Hb]%elem_of_cons _.
    + destruct Hca as [q Hq]. unfold larger. rewrite Hq. apply num_le_Some. lra.
    + rewrite Forall_forall in Hc. by apply Hc.
  - destruct (IH Hl Hf) as (? & ? & Hbest). split; [set_solver|]. split; [done|].
    intros b [->|Hb]%elem_of_cons HPb; [done|by apply Hbest].
Qed.

Lemma choose_area_best client l :
  l ≠ [] → Forall has_area l →
  ∃ a, a ∈ l ∧ choose_area client l = key a ∧
    if existsb (fits client) l then fits client a = true ∧ ∀ b, b ∈ l → fits client b = true → larger a b
    else ∀ b, b ∈ l → larger a b.
Proof.
  intros Hne Hl. destruct (sort_areas_spec l Hl) as [Hp Hs].
  assert (Hl' : Forall has_area (sort_areas l)) by by rewrite Hp.
  assert (Hin : ∀ a, a ∈ sort_areas l ↔ a ∈ l) by (intros a; by rewrite Hp).
  unfold choose_area. destruct (filter _ (sort_areas l)) as [|a rest] eqn:Hf.
  - replace (existsb (fits client) l) with false; last first.
    { symmetry. apply not_true_iff_false. intros (x & Hx & Hfx)%existsb_exists. apply list_elem_of_In, Hin in Hx.
      assert (x ∈ filter (λ a, fits client a = true) (sort_areas l)) as Hx' by by apply list_elem_of_filter.
      rewrite Hf in Hx'. set_solver. }
    destruct (sort_areas l) as [|a rest] eqn:E; [apply Permutation_nil in Hp; done|].
    destruct (sorted_filter_head (λ _, true) (a :: rest) a rest) as (? & _ & Hbest); [done..| |].
    { by rewrite filter_all. }
    exists a. split; [by apply Hin|]. split; [done|]. intros b Hb. apply Hbest; [by apply Hin|done].
  - destruct (sorted_filter_head (fits client) (sort_areas l) a rest) as (Ha & Hfa & Hbest); [done..|].
    exists a. split; [by apply Hin|]. split; [done|].
    replace (existsb (fits client) l) with true; last first.
    { symmetry. apply existsb_exists. exists a. split; [by apply list_elem_of_In, Hin|done]. }
    split; [done|]. intros b Hb Hfb. apply Hbest; [by apply Hin|done].
Qed.

(** C29. An automatic placement goes to the side with the largest free area
    among those the popper fits into, and to the largest of all sides if it
    fits into none; the variation asked for is kept. *)
Theorem auto_placement_best placement ref popper reference bd padding b :
  includes "auto" placement = true → getBoundaries popper (Some reference) padding bd = Some b →
  Forall has_area (rects b ref) →
  let client := (clientWidth popper, clientHeight popper) in
  ∃ a, a ∈ rects b ref ∧
    computeAutoPlacement placement ref popper reference bd padding =
      Some (with_variation (key a) (default "" (variation_of placement))) ∧
    if existsb (fits client) (rects b ref)
    then fits client a = true ∧ ∀ c, c ∈ rects b ref → fits client c = true → larger a c
    else ∀ c, c ∈ rects b ref → larger a c.
Proof.
  intros Hauto Hb Hl client. destruct (choose_area_best client (rects b ref)) as (a & Ha & Hc & Hbest); [done..|].
  exists a. split; [done|]. split; [|done].
  transitivity (Some (auto_placement placement ref client b));
    [unfold computeAutoPlacement; by rewrite Hauto, Hb|unfold auto_placement; by rewrite Hc].
Qed.

(** Boundaries without a width and a height leave nothing to compare. *)
Lemma choose_area_unmeasured client b ref :
  r_width b = NaN → r_height b = NaN → choose_area client (rects b ref) = "top".
Proof.
  unfold rects. intros -> ->.
  generalize (r_top ref - r_top b)%num, (r_right b - r_right ref)%num, (r_bottom b - r_bottom ref)%num,
    (r_left ref - r_left b)%num.
  intros h w h' w'. destruct h, w, h', w', client as [[cw|] [ch|]]; cbv -[Qle_bool Qmult];
    repeat match goal with |- context [Qle_bool ?x ?y] => destruct (Qle_bool x y) end; reflexivity.
Qed.

Lemma window_boundaries popper reference padding p :
  nodeName documentElement = "HTML" →
  findCommonOffsetParent tree_fuel (Some popper) (Some reference) = Some p →
  isFixed tree_fuel p = Some false →
  ∃ b, getBoundaries popper (Some reference) padding Window = Some b ∧ r_width b = NaN ∧ r_height b = NaN.
Proof.
  intros Hname Hp Hfix. unfold getBoundaries. rewrite Hp. simpl. rewrite Hname. simpl. rewrite Hfix. simpl.
  eexists. split; [reflexivity|done].
Qed.

(** The rectangle of the window has no width and no height, so that an
    automatic placement within the window is always the top one, wherever the
    reference is and however little space there is above it. *)
Theorem auto_window_top placement ref popper reference padding p :
  includes "auto" placement = true → nodeName documentElement = "HTML" →
  findCommonOffsetParent tree_fuel (Some popper) (Some reference) = Some p →
  isFixed tree_fuel p = Some false →
  computeAutoPlacement placement ref popper reference Window padding =
    Some (with_variation "top" (default "" (variation_of placement))).
Proof.
  intros Hauto Hname Hp Hfix.
  destruct (window_boundaries popper reference padding p Hname Hp Hfix) as (b & Hb & Hw & Hh).
  unfold computeAutoPlacement. rewrite Hauto, Hb. cbn [mbind option_bind negb].
  unfold auto_placement. by rewrite choose_area_unmeasured.
Qed.

(** ** Flipping *)

Lemma indexOf_from_spec i x l :
  (indexOf_from i (String.eqb x) l = -1 ∧ x ∉ l)%Z ∨
  ∃ k, indexOf_from i (String.eqb x) l = (i + Z.of_nat k)%Z ∧ l !! k = Some x.
Proof.
  revert i; induction l as [|y l IH]; intros i; simpl; [left; set_solver|].
  destruct (String.eqb_spec x y) as [->|Hne].
  - right. exists 0%nat. split; [lia|done].
  - destruct (IH (i + 1)%Z) as [[-> Hx]|(k & -> & Hk)]; [left; set_solver|].
    right. exists (S k). split; [lia|done].
Qed.

Lemma validPlacements_nodup : NoDup validPlacements.
Proof. apply (bool_decide_unpack _). by vm_compute. Qed.

(** The placements that follow a given one do not include it. *)
Lemma clockwise_excludes placement counter : placement ∉ clockwise placement counter.
Proof.
  unfold clockwise. intros Hin.
  assert (placement ∈ (slice_from (indexOf placement validPlacements + 1) validPlacements ++
                       slice_to (indexOf placement validPlacements) validPlacements)%list) as Hin'
    by (destruct counter; [by rewrite elem_of_reverse in Hin|done]).
  clear Hin. unfold indexOf in Hin'.
  destruct (indexOf_from_spec 0 placement validPlacements) as [[Hi Hx]|(k & Hi & Hk)]; rewrite Hi in Hin'.
  - apply Hx. apply elem_of_app in Hin' as [H|H]; [done|]. by eapply subseteq_take, H.
  - apply elem_of_app in Hin' as [H|H]; unfold slice_from, slice_to in H.
    + rewrite (proj2 (Z.ltb_ge _ _)) in H by lia. apply list_elem_of_lookup_1 in H as [j Hj].
      rewrite lookup_drop in Hj. pose proof (NoDup_lookup _ _ _ _ validPlacements_nodup Hk Hj). lia.
    + rewrite (proj2 (Z.ltb_ge _ _)) in H by lia. apply list_elem_of_lookup_1 in H as [j Hj].
      apply lookup_take_Some in Hj as [Hj Hlt].
      pose proof (NoDup_lookup _ _ _ _ validPlacements_nodup Hk Hj). lia.
Qed.

Lemma flip_loop_skip nested sizes o b order i l st :
  f_placement st ∉ l → flip_loop (flip_step nested sizes o b order) i l st = Some st.
Proof.
  revert i; induction l as [|x l IH]; intros i Hl; [done|]. simpl.
  replace (flip_step nested sizes o b order st i x) with (Some st).
  - simpl. apply IH. set_solver.
  - unfold flip_step. by rewrite (proj2 (String.eqb_neq _ _)) by set_solver.
Qed.

(** With the behavior clockwise or counterclockwise the modifier never
    flips anything: the placements it tries start after the current one, which
    is therefore never found in the list. *)
Theorem clockwise_never_flips nested popper reference ms o d :
  f_behavior o = Clockwise ∨ f_behavior o = Counterclockwise →
  is_Some (getBoundaries popper (Some reference) (f_padding o) (f_boundaries o)) →
  flip popper reference ms nested o d = Some d.
Proof.
  intros Hb [b Hbd]. unfold flip, flip_within. rewrite Hbd. simpl.
  repeat (case_match; [done|]). rewrite flip_loop_skip; [done|]. simpl.
  destruct Hb as [-> | ->]; apply clockwise_excludes.
Qed.

End page.

(** ** The offsets of a placement *)

(** The popper at [(x, y)] of size [w] by [h] touches the reference at [(l, t)]
    of size [rw] by [rh] on the side of the placement, and its variation aligns
    it with the start, the end or the middle of the reference. *)
Definition touches (base : string) (x y w h l t rw rh : Q) : Prop :=
  if base =? "top" then (y + h == t)%Q else if base =? "bottom" then (y == t + rh)%Q
  else if base =? "left" then (x + w == l)%Q else (x == l + rw)%Q.
Definition aligned (variation : option string) (start len rstart rlen : Q) : Prop :=
  match variation with
  | Some v => if v =? "start" then (start == rstart)%Q else (start + len == rstart + rlen)%Q
  | None => (start + len * (1 # 2) == rstart + rlen * (1 # 2))%Q
  end.
Definition vertical (base : string) : bool := (base =? "top") || (base =? "bottom").

(** For each of the twelve placements, the offsets computed for it and
    shifted by its variation put the popper outside the reference, touching it
    on that side, and aligned with its start, its end or its middle. *)
Theorem placement_geometry pl w h l t rw rh arrow arrowEl hidden st ast attrs po doc :
  pl ∈ validPlacements →
  let ref := box l t rw rh in
  let d := Data pl pl false (getPopperOffsets (Some w, Some h) ref pl) ref arrow arrowEl hidden st ast attrs po doc in
  ∃ x y, getClientRect (d_popper (shift (complete_rects d))) = box x y w h ∧
    touches (base_of pl) x y w h l t rw rh ∧
    if vertical (base_of pl) then aligned (variation_of pl) x w l rw
    else aligned (variation_of pl) y h t rh.
Proof.
  intros Hpl. cbv zeta. unfold validPlacements, placements in Hpl. cbn [drop] in Hpl.
  repeat (apply elem_of_cons in Hpl as [->|Hpl]; [eexists _, _; split; [reflexivity|];
    cbv -[Qplus Qminus Qmult Qeq]; split; lra|]). by apply elem_of_nil in Hpl.
Qed.

(** ** keepTogether *)

(** One axis: the popper neither ends before the reference starts nor starts
    after it ends, in whole pixels. *)
Definition together (x w l rw : Q) : Prop :=
  (x <= inject_Z (Qfloor (l + rw)))%Q ∧ (inject_Z (Qfloor l) <= x + w)%Q.
Definition pull (x w l rw : Q) : Q :=
  if Qle_bool (inject_Z (Qfloor l)) (x + w) then
    if Qle_bool x (inject_Z (Qfloor (l + rw))) then x else inject_Z (Qfloor (l + rw))
  else (inject_Z (Qfloor l) - w)%Q.

Lemma floor_mono (a b : Q) : (a <= b)%Q → (inject_Z (Qfloor a) <= inject_Z (Qfloor b))%Q.
Proof. intros H. rewrite <-Zle_Qle. by apply Qfloor_resp_le. Qed.

Lemma pull_together x w l rw : (0 <= w)%Q → (0 <= rw)%Q → together (pull x w l rw) w l rw.
Proof.
  intros Hw Hrw. pose proof (floor_mono l (l + rw) ltac:(lra)). unfold pull, together.
  compare_nums; split; lra.
Qed.
Lemma pull_stays x w l rw : together x w l rw → pull x w l rw = x.
Proof. intros [H1 H2]. unfold pull. compare_nums; [done|lra..]. Qed.

Lemma keepTogether_pull d x y w h l t rw rh :
  d_popper d = box x y w h → d_reference d = box l t rw rh → (0 <= w)%Q → (0 <= h)%Q → (0 <= rw)%Q → (0 <= rh)%Q →
  r_left (d_popper (keepTogether d)) = Some (if vertical (base_of (placement d)) then pull x w l rw else x) ∧
  r_top (d_popper (keepTogether d)) = Some (if vertical (base_of (placement d)) then y else pull y h t rh).
Proof.
  intros Hp Hr Hw Hh Hrw Hrh. pose proof (floor_mono l (l + rw) ltac:(lra)).
  pose proof (floor_mono t (t + rh) ltac:(lra)).
  unfold keepTogether. rewrite Hp, Hr.
  replace (bool_decide (base_of (placement d) ∈ ["top"; "bottom"])) with (vertical (base_of (placement d))).
  - destruct (vertical _); simpl; unfold pull; compare_nums; simpl; compare_nums; try done; simpl in *; lra.
  - apply eq_iff_eq_true. unfold vertical. rewrite orb_true_iff, !String.eqb_eq, bool_decide_eq_true. set_solver.
Qed.

(** Keeping together: afterwards the popper neither ends before the
    reference starts nor starts after it ends, along the side it is placed on;
    across that side it does not move, and a popper that was with its reference
    does not move at all. *)
Theorem keep_together d x y w h l t rw rh :
  d_popper d = box x y w h → d_reference d = box l t rw rh →
  (0 <= w)%Q → (0 <= h)%Q → (0 <= rw)%Q → (0 <= rh)%Q →
  ∃ x' y', r_left (d_popper (keepTogether d)) = Some x' ∧ r_top (d_popper (keepTogether d)) = Some y' ∧
    if vertical (base_of (placement d))
    then together x' w l rw ∧ y' = y ∧ (together x w l rw → x' = x)
    else together y' h t rh ∧ x' = x ∧ (together y h t rh → y' = y).
Proof.
  intros Hp Hr Hw Hh Hrw Hrh.
  destruct (keepTogether_pull d x y w h l t rw rh) as [-> ->]; [done..|]. eexists _, _.
  split; [reflexivity|]. split; [reflexivity|].
  destruct (vertical _); (split; [by apply pull_together|split; [done|apply pull_stays]]).
Qed.

(** ** arrow *)

(** The two sides of an axis. *)
Lemma attach_arrow_axis (v : bool) size (x w l rw : Q) y h t rh :
  (0 <= size)%Q → (size <= if v then h else w)%Q → (size <= if v then rh else rw)%Q →
  let p := attach_arrow v (Some size) (box l t rw rh) (box x y w h) in
  ∃ x' y', p = box x' y' w h ∧
    if v then (y' + size <= t + rh)%Q ∧ (t + size <= y' + h)%Q ∧ x' = x
    else (x' + size <= l + rw)%Q ∧ (l + size <= x' + w)%Q ∧ y' = y.
Proof.
  intros H0 Hs Hr p. subst p. unfold attach_arrow.
  destruct v; simpl; compare_nums; simpl; compare_nums; eexists _, _; (split; [reflexivity|]); repeat split;
    simpl in *; try done; lra.
Qed.

Lemma max_min_range (len q : Q) :
  (0 <= len)%Q → (0 <= Qmax_js (Qmin_js len q) (inject_Z 0))%Q ∧ (Qmax_js (Qmin_js len q) (inject_Z 0) <= len)%Q.
Proof. intros H. unfold Qmin_js, Qmax_js. change (inject_Z 0) with 0%Q. compare_nums; lra. Qed.

Lemma round_range (len z : Q) :
  (0 <= z)%Q → (z <= len)%Q →
  (0 <= inject_Z (Qfloor (z + (1 # 2))))%Q ∧ (inject_Z (Qfloor (z + (1 # 2))) <= len + (1 # 2))%Q.
Proof.
  intros H0 H1. pose proof (floor_mono 0 (z + (1 # 2)) ltac:(lra)) as Hf.
  pose proof (Qfloor_le (z + (1 # 2))). change (inject_Z (Qfloor 0)) with 0%Q in Hf. lra.
Qed.

Lemma arrow_position_range (v : bool) size m b l t rw rh x y w h :
  (size <= if v then h else w)%Q →
  ∃ a : Z, arrow_position v (Some size) (Some m) (Some b) (box l t rw rh) (box x y w h) =
      Some (inject_Z a) ∧
    (0 <= inject_Z a)%Q ∧ (inject_Z a <= (if v then h else w) - size + (1 # 2))%Q.
Proof.
  intros Hs. destruct v; eexists; (split; [reflexivity|]); apply round_range;
    apply max_min_range; simpl; lra.
Qed.

Section arrow.
Context `{PG : Page}.

(** C38. The arrow: when it is no longer than the popper and the reference, the
    popper is moved along its side until both share at least the length of the
    arrow, and the arrow is given a whole position within the popper, up to
    half a pixel. *)
Theorem arrow_attached popper ms el d x y w h l t rw rh size m b (v : bool) :
  isModifierRequired ms "arrow" "keepTogether" = true →
  v = bool_decide (base_of (placement d) ∈ ["left"; "right"]) →
  sized (getOuterSizes el) (if v then "height" else "width") = Some size →
  style_num popper ("margin" +:+ (if v then "Top" else "Left")) = Some m →
  style_num popper ("border" +:+ (if v then "Top" else "Left") +:+ "Width") = Some b →
  d_popper d = box x y w h → d_reference d = box l t rw rh →
  (0 <= size)%Q → (size <= if v then h else w)%Q → (size <= if v then rh else rw)%Q →
  let d' := arrow popper ms (ArrowSelector (Some el)) d in
  arrowElement d' = Some el ∧
  (∃ x' y', d_popper d' = box x' y' w h ∧
    if v then (y' + size <= t + rh)%Q ∧ (t + size <= y' + h)%Q ∧ x' = x
    else (x' + size <= l + rw)%Q ∧ (l + size <= x' + w)%Q ∧ y' = y) ∧
  ∃ a : Z, d_arrow d' !! (if v then "top" else "left") = Some (SNum (Some (inject_Z a))) ∧
    (0 <= inject_Z a)%Q ∧ (inject_Z a <= (if v then h else w) - size + (1 # 2))%Q.
Proof.
  intros Hreq Hv Hsize Hm Hb Hp Hr H0 Hs1 Hs2 d'. subst d'. unfold arrow. rewrite Hreq, <-Hv, Hp, Hr. simpl.
  rewrite Hsize, Hm, Hb.
  destruct (attach_arrow_axis v size x w l rw y h t rh H0 Hs1 Hs2) as (x' & y' & Heq & Hax).
  split; [done|]. split; [by eexists _, _|]. rewrite Heq.
  destruct (arrow_position_range v size m b l t rw rh x' y' w h Hs1) as (a & -> & Ha).
  exists a. split; [|done]. destruct v; [by rewrite lookup_insert_eq|].
  by rewrite lookup_insert_eq.
Qed.

End arrow.

(** ** A page

    A document of 1000 by 800 pixels; the popper, node 2, is 200 by 100 pixels,
    the reference, node 3, is 80 by 30 pixels near the right edge; node 4 is an
    arrow of 10 by 10 pixels in the popper. *)
Definition sample_size (n : nat) : Q * Q :=
  match n with 2%nat => (200, 100) | 3%nat => (80, 30) | 4%nat => (10, 10) | _ => (1000, 800) end%Q.
#[local] Instance sample_page : Page := {|
  nodeName n := match n with 0%nat => "HTML" | 1%nat => "BODY" | 5%nat => "#document" | _ => "DIV" end;
  parentNode n := match n with 0%nat => Some 5%nat | 1%nat => Some 0%nat | 4%nat => Some 2%nat
                             | 5%nat => None | _ => Some 1%nat end;
  host _ := None;
  offsetParent n := match n with 0%nat | 1%nat | 5%nat => None | 4%nat => Some 2%nat | _ => Some 1%nat end;
  firstElementChild n := match n with 0%nat => Some 1%nat | 1%nat => Some 2%nat | 2%nat => Some 4%nat
                                    | 5%nat => Some 0%nat | _ => None end;
  documentElement := 0%nat;
  body := 1%nat;
  scrollingElement := Some 0%nat;
  following a b := (a <? b)%nat;
  overflow _ := "visible"; overflowX _ := "visible"; overflowY _ := "visible";
  position _ := "static";
  style_num _ _ := Some 0%Q;
  bounding n := match n with
                | 3%nat => Rect (Some 900%Q) (Some 50%Q) (Some 980%Q) (Some 80%Q) (Some 80%Q) (Some 30%Q)
                | _ => box 0 0 (sample_size n).1 (sample_size n).2
                end;
  clientWidth n := Some (sample_size n).1; clientHeight n := Some (sample_size n).2;
  offsetWidth n := Some (sample_size n).1; offsetHeight n := Some (sample_size n).2;
  scrollWidth n := Some (sample_size n).1; scrollHeight n := Some (sample_size n).2;
  scrollTop _ := Some 0%Q; scrollLeft _ := Some 0%Q;
  innerWidth := Some 1000%Q; innerHeight := Some 800%Q;
  isIE10 := false;
  tree_fuel := 6
|}.

Definition sample_data (pl : string) (x y : Q) : data :=
  Data pl pl false (box x y 200 100) (box 900 50 80 30) ∅ None None ∅ ∅ ∅ None (Rendered ∅ ∅).
Definition sample_prevent : prevent_options :=
  PreventOptions ["left"; "right"; "top"; "bottom"] (num_of_Z 5) (Some ScrollParent) false.

(** The default modifiers on this page: the popper, placed below, is moved left
    into the boundaries; its position ends up in a transform. *)
Example update_sample :
  (λ d, (placement d, el_style (d_doc d) !! (2%nat, "transform"), el_attr (d_doc d) !! (2%nat, "x-placement"),
         el_style (d_doc d) !! (4%nat, "left")))
    <$> update (λ _, true) 2 3 (default_modifiers (Some 4%nat)) "bottom" default_flip (Rendered ∅ ∅) None =
  Some ("bottom", Some (CVal (STranslate (Some 795%Q) (Some 80%Q))), Some "bottom", Some (CPx (SNum (Some 140%Q)))).
Proof. vm_compute. reflexivity. Qed.

Lemma prevent_overflow_nearest_witness :
  ∃ d' l' t', preventOverflow 2 3 sample_prevent (sample_data "bottom" 850 80) = Some d' ∧
    r_left (d_popper d') = Some l' ∧ r_top (d_popper d') = Some t' ∧ (5 <= l')%Q ∧ (l' + 200 <= 995)%Q.
Proof.
  destruct (preventOverflow 2 3 sample_prevent (sample_data "bottom" 850 80)) as [d'|] eqn:E;
    [|exfalso; vm_compute in E; discriminate].
  assert (Hb : po_boundaries d' = Some (Rect (Some 5%Q) (Some 5%Q) (Some 995%Q) (Some 795%Q) NaN NaN))
    by (vm_compute in E; injection E as <-; reflexivity).
  destruct (prevent_overflow_nearest 2 3 sample_prevent (sample_data "bottom" 850 80) d' 5 5 995 795 NaN NaN
    850 80 200 100) as (l' & t' & ? & ? & _ & _ & ? & ? & _);
    [exact E|exact Hb|reflexivity|repeat constructor; set_solver|set_solver|reflexivity|lra|lra|].
  by exists d', l', t'.
Defined.

Lemma auto_placement_best_witness :
  ∃ a, a ∈ rects (Rect (Some 5) (Some 5) (Some 995) (Some 795) (Some 1000) (Some 800))%Q (box 900 50 80 30) ∧
    computeAutoPlacement "auto-end" (box 900 50 80 30) 2 3 Viewport (num_of_Z 5) =
      Some (with_variation (key a) "end").
Proof.
  destruct (auto_placement_best "auto-end" (box 900 50 80 30) 2 3 Viewport (num_of_Z 5)
    (Rect (Some 5) (Some 5) (Some 995) (Some 795) (Some 1000) (Some 800))%Q) as (a & Ha & Heq & _);
    [reflexivity|vm_compute; reflexivity|repeat constructor; by eexists|].
  exists a. split; [exact Ha|exact Heq].
Defined.

Lemma auto_window_top_witness :
  computeAutoPlacement "auto" (box 900 50 80 30) 2 3 Window (num_of_Z 5) = Some "top".
Proof.
  apply (auto_window_top "auto" (box 900 50 80 30) 2 3 (num_of_Z 5) 0%nat); [reflexivity..].
Defined.

Lemma clockwise_never_flips_witness :
  flip 2 3 (default_modifiers None) Some (FlipOptions Clockwise (num_of_Z 5) Viewport false)
    (sample_data "right" 980 15) = Some (sample_data "right" 980 15).
Proof.
  apply (clockwise_never_flips Some 2 3 (default_modifiers None)
    (FlipOptions Clockwise (num_of_Z 5) Viewport false)); [by left|vm_compute; by eexists].
Defined.

Lemma placement_geometry_witness :
  ∃ x y, getClientRect (d_popper (shift (complete_rects
      (Data "bottom-end" "bottom-end" false (getPopperOffsets (Some 200%Q, Some 100%Q) (box 900 50 80 30) "bottom-end")
        (box 900 50 80 30) ∅ None None ∅ ∅ ∅ None (Rendered ∅ ∅))))) = box x y 200 100 ∧ (y == 80)%Q ∧ (x + 200 == 980)%Q.
Proof.
  destruct (placement_geometry "bottom-end" 200 100 900 50 80 30 ∅ None None ∅ ∅ ∅ None (Rendered ∅ ∅))
    as (x & y & Heq & Ht & Ha); [unfold validPlacements, placements; set_solver|].
  exists x, y. split; [exact Heq|]. cbv -[Qplus Qminus Qmult Qeq] in Ht, Ha. split; lra.
Defined.

Lemma keep_together_witness :
  ∃ x' y', r_left (d_popper (keepTogether (sample_data "bottom" 300 80))) = Some x' ∧
    r_top (d_popper (keepTogether (sample_data "bottom" 300 80))) = Some y' ∧ together x' 200 900 80.
Proof.
  destruct (keep_together (sample_data "bottom" 300 80) 300 80 200 100 900 50 80 30) as (x' & y' & ? & ? & H & _);
    [reflexivity..|lra|lra|lra|lra|]. exists x', y'. split; [done|split; [done|exact H]].
Defined.

Lemma arrow_attached_witness :
  ∃ a : Z, d_arrow (arrow 2 (default_modifiers (Some 4%nat)) (ArrowSelector (Some 4%nat)) (sample_data "bottom" 795 80))
      !! "left" = Some (SNum (Some (inject_Z a))) ∧ (0 <= inject_Z a)%Q.
Proof.
  destruct (arrow_attached 2 (default_modifiers (Some 4%nat)) 4 (sample_data "bottom" 795 80)
    795 80 200 100 900 50 80 30 10 0 0 false) as (_ & _ & a & ? & ? & _);
    [reflexivity..|lra|lra|lra|]. by exists a.
Defined.

End PopperSpec.
