(* ===== verification/PopperLife.v ===== *)
(** * Popper, the life of an instance: bootstrap.bundle.js lines 1431 to 1456,
    2241 to 2282, 2324 to 2434 and 3679 to 3805

    An instance updates its popper when it is created, when it is told to and
    when the page is scrolled or resized.  Updates are put off to a microtask,
    or to an animation frame and then a microtask; what happens in between is
    a sequence of steps. *)

From S2P Require Import Prelude PopperDom PopperOffset Popper PopperSpec.
Local Open Scope string_scope.

Module PopperLife.
Import PopperDom Popper.

(** The targets of listeners: the window or an element. *)
Inductive target := TWindow | TNode (n : nat).
#[global] Instance target_eq_dec : EqDecision target.
Proof. solve_decision. Defined.
#[global] Instance target_countable : Countable target.
Proof.
  refine (inj_countable' (λ t, match t with TWindow => None | TNode n => Some n end)
    (λ o, match o with None => TWindow | Some n => TNode n end) _). by intros [].
Defined.

(** The two callbacks of the options. *)
Inductive callback := OnCreate (d : data) | OnUpdate (d : data).

Record instance := Instance {
  isDestroyed : bool;
  isCreated : bool;
  eventsEnabled : bool;
  scrollParents : list target;
  listeners : gset (target * string);   (* those of the instance, on the page *)
  called : bool;                        (* a microtask for [update] is waiting *)
  frames : nat;                         (* animation frames requested *)
  callbacks : list callback;
  doc : rendered;
  boundaries : option rect;             (* kept by preventOverflow *)
  attached : bool                       (* the popper is in the document *)
}.

Definition set_listeners (b : bool) (ts : list target) (l : gset (target * string)) (i : instance) : instance :=
  Instance (isDestroyed i) (isCreated i) b ts l (called i) (frames i) (callbacks i) (doc i) (boundaries i) (attached i).
Definition set_called (b : bool) (i : instance) : instance :=
  Instance (isDestroyed i) (isCreated i) (eventsEnabled i) (scrollParents i) (listeners i) b (frames i)
    (callbacks i) (doc i) (boundaries i) (attached i).
Definition set_frames (n : nat) (i : instance) : instance :=
  Instance (isDestroyed i) (isCreated i) (eventsEnabled i) (scrollParents i) (listeners i) (called i) n
    (callbacks i) (doc i) (boundaries i) (attached i).
Definition set_updated (c : callback) (d : data) (i : instance) : instance :=
  Instance (isDestroyed i) true (eventsEnabled i) (scrollParents i) (listeners i) (called i) (frames i)
    (callbacks i ++ [c])%list (d_doc d) (po_boundaries d) (attached i).
Definition set_doc (d : rendered) (i : instance) : instance :=
  Instance (isDestroyed i) (isCreated i) (eventsEnabled i) (scrollParents i) (listeners i) (called i) (frames i)
    (callbacks i) d (boundaries i) (attached i).
Definition set_destroyed (i : instance) : instance :=
  Instance true (isCreated i) (eventsEnabled i) (scrollParents i) (listeners i) (called i) (frames i)
    (callbacks i) (doc i) (boundaries i) (attached i).
Definition set_attached (b : bool) (i : instance) : instance :=
  Instance (isDestroyed i) (isCreated i) (eventsEnabled i) (scrollParents i) (listeners i) (called i) (frames i)
    (callbacks i) (doc i) (boundaries i) b.

Section popper.
Context (supported : string → bool) (popper reference : nat) (ms : list modifier).
Context (option_placement : string) (flip_opts : flip_options) (option_events removeOnDestroy : bool).

(** Lines 1431 to 1443, the debounced [update], and lines 3694 to 3696. *)
Definition call_update (i : instance) : instance := if called i then i else set_called true i.
Definition scheduleUpdate (i : instance) : instance := set_frames (S (frames i)) i.

(** Lines 2356 to 2365: the scroll parents of the reference, outermost first. *)
Fixpoint attachToScrollParents `{PG : Page} (fuel : nat) (scrollParent : nat) : option (list target) :=
  match fuel with
  | O => None
  | S f =>
      if nodeName scrollParent =? "BODY" then Some [TWindow]
      else
        n ← getScrollParent tree_fuel (parentNode scrollParent);
        outer ← attachToScrollParents f n;
        Some (outer ++ [TNode scrollParent])%list
  end.

(** Lines 2373 to 2397; adding a listener twice adds it once. *)
Definition enableEventListeners `{PG : Page} (i : instance) : option instance :=
  if eventsEnabled i then Some i
  else
    s ← getScrollParent tree_fuel (Some reference);
    ts ← attachToScrollParents tree_fuel s;
    Some (set_listeners true (scrollParents i ++ ts)%list
            (listeners i ∪ {[ (TWindow, "resize") ]} ∪ list_to_set ((λ t, (t, "scroll")) <$> ts)) i).

(** Lines 2405 to 2434; [cancelAnimationFrame] is given a function and cancels
    nothing. *)
Definition disableEventListeners (i : instance) : instance :=
  if eventsEnabled i then
    set_listeners false []
      (listeners i ∖ {[ (TWindow, "resize") ]} ∖ list_to_set ((λ t, (t, "scroll")) <$> scrollParents i)) i
  else i.

(** Lines 2241 to 2282, run by the microtask. *)
Definition run_update `{PG : Page} (i : instance) : option instance :=
  let i := set_called false i in
  if isDestroyed i then Some i
  else
    d ← update supported popper reference ms option_placement flip_opts (doc i) (boundaries i);
    Some (set_updated (if isCreated i then OnUpdate d else OnCreate d) d i).

(** Lines 2324 to 2344. *)
Definition clear_styles (r : rendered) : rendered :=
  let st := delete (popper, "top") (delete (popper, "position") (delete (popper, "left") (el_style r))) in
  Rendered (match getSupportedPropertyName supported "transform" "Transform" with
            | Some p => delete (popper, p) st
            | None => st
            end) (delete (popper, "x-placement") (el_attr r)).
Definition destroy (i : instance) : instance :=
  let i := set_destroyed i in
  let i := if isModifierEnabled ms "applyStyle" then set_doc (clear_styles (doc i)) i else i in
  let i := disableEventListeners i in
  if removeOnDestroy then set_attached false i else i.

(** Lines 2523 to 2539, the [onLoad] function of [applyStyle]. *)
Definition applyStyleOnLoad `{PG : Page} (r : rendered) : option rendered :=
  ref ← getReferenceOffsets popper reference;
  pl ← computeAutoPlacement option_placement ref popper reference (f_boundaries flip_opts) (f_padding flip_opts);
  Some (setStyles popper {[ "position" := SText "absolute" ]}
    (Rendered (el_style r) (<[(popper, "x-placement") := pl]> (el_attr r)))).

(** Lines 3688 to 3752: the constructor, for modifiers that are sorted. *)
Definition construct `{PG : Page} (r : rendered) : option instance :=
  r ← (if isModifierEnabled ms "applyStyle" then applyStyleOnLoad r else Some r);
  let i := call_update (Instance false false false [] ∅ false 0 [] r None true) in
  if option_events then enableEventListeners i else Some i.

(** What can happen to an instance; a page that has changed is a new snapshot.
    Handlers that throw leave the instance as it was. *)
Inductive step :=
  | Microtask (pg : Page)               (* the waiting update runs *)
  | Frame                               (* an animation frame runs *)
  | Scroll (t : target) | Resize
  | CallUpdate | CallSchedule
  | Enable (pg : Page) | Disable | Destroy.

Definition run_step (i : instance) (s : step) : instance :=
  match s with
  | Microtask pg => if called i then default (set_called false i) (run_update (PG:=pg) i) else i
  | Frame => match frames i with S n => call_update (set_frames n i) | O => i end
  | Scroll t => if bool_decide ((t, "scroll") ∈ listeners i) then scheduleUpdate i else i
  | Resize => if bool_decide ((TWindow, "resize") ∈ listeners i) then scheduleUpdate i else i
  | CallUpdate => call_update i
  | CallSchedule => scheduleUpdate i
  | Enable pg => default i (enableEventListeners (PG:=pg) i)
  | Disable => disableEventListeners i
  | Destroy => destroy i
  end.

(** ** The invariant *)

Definition registered (ts : list target) : gset (target * string) :=
  {[ (TWindow, "resize") ]} ∪ list_to_set ((λ t, (t, "scroll")) <$> ts).
Definition is_update (c : callback) : Prop := match c with OnUpdate _ => True | OnCreate _ => False end.
Definition life_ok (i : instance) : Prop :=
  listeners i = (if eventsEnabled i then registered (scrollParents i) else ∅) ∧
  (eventsEnabled i = false → scrollParents i = []) ∧
  match callbacks i with
  | [] => isCreated i = false
  | c :: cs => isCreated i = true ∧ ¬ is_update c ∧ Forall is_update cs
  end.

Lemma enable_ok `{PG : Page} i i' : life_ok i → enableEventListeners i = Some i' → life_ok i'.
Proof.
  unfold enableEventListeners. intros Hok H. destruct (eventsEnabled i) eqn:E; [by simplify_eq|].
  destruct Hok as (Hl & Hs & Hc).
  apply bind_Some in H as (s & _ & H). apply bind_Some in H as (ts & _ & [= <-]).
  rewrite Hl, E, (Hs E). split; [|done]. simpl. unfold registered. set_solver.
Qed.

Lemma disable_ok i : life_ok i → life_ok (disableEventListeners i).
Proof.
  unfold disableEventListeners. intros H. destruct (eventsEnabled i) eqn:E; [|exact H].
  destruct H as (Hl & Hs & Hc). split; [|done]. simpl. rewrite Hl, E. unfold registered. set_solver.
Qed.

Lemma destroy_ok i : life_ok i → life_ok (destroy i).
Proof.
  intros H. unfold destroy. assert (Hd : life_ok (disableEventListeners
    (if isModifierEnabled ms "applyStyle" then set_doc (clear_styles (doc (set_destroyed i))) (set_destroyed i)
     else set_destroyed i))) by (apply disable_ok; by case_match).
  by destruct removeOnDestroy.
Qed.

Lemma run_update_ok `{PG : Page} i i' : life_ok i → run_update i = Some i' → life_ok i'.
Proof.
  unfold run_update. intros Hok H. simpl in H. destruct (isDestroyed i); [by simplify_eq|].
  destruct Hok as (Hl & Hs & Hc).
  apply bind_Some in H as (d & _ & [= <-]). split; [done|]. split; [done|]. simpl.
  destruct (callbacks i) as [|c cs]; simpl.
  - rewrite Hc. repeat split; [by intros []|constructor].
  - destruct Hc as (-> & Hn & Hf). repeat split; [done|]. apply Forall_app. split; [done|by constructor].
Qed.

Lemma run_step_ok i s : life_ok i → life_ok (run_step i s).
Proof.
  intros H. destruct s; simpl.
  - case_match; [|done]. destruct (run_update i) eqn:E; simpl; [by eapply run_update_ok|done].
  - case_match; [done|]. unfold call_update. simpl. by case_match.
  - by case_match.
  - by case_match.
  - unfold call_update. by case_match.
  - done.
  - destruct (enableEventListeners i) eqn:E; simpl; [by eapply enable_ok|done].
  - by apply disable_ok.
  - by apply destroy_ok.
Qed.

Definition run_steps : instance → list step → instance := foldl run_step.

Lemma run_steps_ok ss i : life_ok i → life_ok (run_steps i ss).
Proof. revert i; induction ss as [|s ss IH]; intros i H; simpl; [done|]. by apply IH, run_step_ok. Qed.

Lemma construct_ok `{PG : Page} r i : construct r = Some i → life_ok i.
Proof.
  unfold construct. intros H. apply bind_Some in H as (r' & _ & H).
  assert (Hi : life_ok (call_update (Instance false false false [] ∅ false 0 [] r' None true))) by done.
  destruct option_events; [by eapply enable_ok|by simplify_eq].
Qed.

(** C17. From its construction on, whatever events and calls follow, the
    listeners of an instance on the page are exactly those of its window and
    scroll parents while its events are enabled and none otherwise, and the
    callbacks are one onCreate followed by onUpdate calls only. *)
Theorem popper_life `{PG : Page} r i ss :
  construct r = Some i → life_ok (run_steps i ss).
Proof. intros H. by eapply run_steps_ok, construct_ok. Qed.

(** ** After the end *)

Definition frozen (i j : instance) : Prop :=
  isDestroyed j = true ∧ callbacks j = callbacks i ∧ doc j = doc i.

(** The properties [destroy] clears. *)
Definition cleared : list (nat * string) :=
  [(popper, "top"); (popper, "position"); (popper, "left")] ++
  match getSupportedPropertyName supported "transform" "Transform" with
  | Some p => [(popper, p)]
  | None => []
  end.

Lemma clear_styles_lookup r k :
  el_style (clear_styles r) !! k = (if bool_decide (k ∈ cleared) then None else el_style r !! k) ∧
  el_attr (clear_styles r) !! k = if bool_decide (k = (popper, "x-placement")) then None else el_attr r !! k.
Proof.
  unfold clear_styles, cleared. split; simpl.
  - case_match; rewrite !lookup_delete; repeat case_decide; case_bool_decide; set_solver.
  - rewrite lookup_delete. case_decide; case_bool_decide; naive_solver.
Qed.

Lemma clear_styles_idem r : clear_styles (clear_styles r) = clear_styles r.
Proof.
  assert (Hs : el_style (clear_styles (clear_styles r)) = el_style (clear_styles r)).
  { apply map_eq. intros k. rewrite (proj1 (clear_styles_lookup (clear_styles r) k)).
    case_bool_decide as H; [|done]. rewrite (proj1 (clear_styles_lookup r k)). by rewrite bool_decide_true. }
  assert (Ha : el_attr (clear_styles (clear_styles r)) = el_attr (clear_styles r)).
  { apply map_eq. intros k. rewrite (proj2 (clear_styles_lookup (clear_styles r) k)).
    case_bool_decide as H; [|done]. rewrite (proj2 (clear_styles_lookup r k)). by rewrite bool_decide_true. }
  destruct (clear_styles (clear_styles r)), (clear_styles r). simpl in *. by subst.
Qed.

Lemma disable_doc i :
  doc (disableEventListeners i) = doc i ∧ callbacks (disableEventListeners i) = callbacks i ∧
  isDestroyed (disableEventListeners i) = isDestroyed i.
Proof. unfold disableEventListeners. by case_match. Qed.

Lemma destroyed_effect i :
  isDestroyed (destroy i) = true ∧ callbacks (destroy i) = callbacks i ∧
  doc (destroy i) = if isModifierEnabled ms "applyStyle" then clear_styles (doc i) else doc i.
Proof.
  unfold destroy. destruct removeOnDestroy, (isModifierEnabled ms "applyStyle"); simpl;
    destruct (disable_doc (set_doc (clear_styles (doc i)) (set_destroyed i))) as (-> & -> & ->) ||
    destruct (disable_doc (set_destroyed i)) as (-> & -> & ->); done.
Qed.

Lemma frozen_step i j s :
  (isModifierEnabled ms "applyStyle" = true → clear_styles (doc i) = doc i) →
  frozen i j → frozen i (run_step j s).
Proof.
  intros Hc (Hd & Hcb & Hdoc). unfold frozen. destruct s; simpl.
  - case_match; [|done]. unfold run_update. simpl. by rewrite Hd.
  - case_match; [done|]. unfold call_update. by case_match.
  - by case_match.
  - by case_match.
  - unfold call_update. by case_match.
  - done.
  - unfold enableEventListeners. case_match; [done|]. destruct (getScrollParent _ _); [|done].
    simpl. by destruct (attachToScrollParents _ _).
  - destruct (disable_doc j) as (-> & -> & ->). done.
  - destruct (destroyed_effect j) as (-> & -> & ->). split; [done|]. split; [done|].
    rewrite Hdoc. case_match; [by apply Hc|done].
Qed.

Lemma destroyed_frozen i ss :
  isModifierEnabled ms "applyStyle" = true → frozen (destroy i) (run_steps (destroy i) ss).
Proof.
  intros Ha. destruct (destroyed_effect i) as (Hd & Hc & Hdoc). rewrite Ha in Hdoc.
  assert (H0 : frozen (destroy i) (destroy i)) by done. revert H0.
  generalize (destroy i) at 2 4. intros j. revert j; induction ss as [|s ss IH]; intros j H0; [done|].
  simpl. apply IH. apply frozen_step; [|done]. intros _. rewrite Hdoc. apply clear_styles_idem.
Qed.

(** C37. A destroyed popper is left alone: whatever microtasks, frames, events
    and calls are still to come, no callback runs and nothing of the page
    changes any more.  Of its inline styles exactly the position, left, top and
    transform are gone, and of its attributes the placement: will-change and
    the mark of a hidden reference stay on the element. *)
Theorem destroy_final i ss k :
  isModifierEnabled ms "applyStyle" = true →
  let j := run_steps (destroy i) ss in
  callbacks j = callbacks i ∧
  el_style (doc j) !! k = (if bool_decide (k ∈ cleared) then None else el_style (doc i) !! k) ∧
  el_attr (doc j) !! k = (if bool_decide (k = (popper, "x-placement")) then None else el_attr (doc i) !! k).
Proof.
  intros Ha j. destruct (destroyed_effect i) as (Hd & Hc & Hdoc). rewrite Ha in Hdoc.
  pose proof (destroyed_frozen i ss Ha) as Hf. fold j in Hf.
  destruct Hf as (_ & -> & ->). rewrite Hdoc. split; [done|]. apply clear_styles_lookup.
Qed.

End popper.

(** An instance on the page of [PopperSpec]: it is created, moved by a resize of
    the window and destroyed. *)
Definition sample_construct : option instance :=
  construct 2 3 (default_modifiers None) "bottom" default_flip true (PG:=PopperSpec.sample_page) (Rendered ∅ ∅).
Definition sample_run : instance → list step → instance :=
  run_steps (λ _, true) 2 3 (default_modifiers None) "bottom" default_flip false.
Definition sample_steps : list step :=
  [Microtask PopperSpec.sample_page; Resize; Frame; Microtask PopperSpec.sample_page].

(** The callbacks of this run, and what is left on the element at its end. *)
Example sample_life :
  (λ i, let j := sample_run i sample_steps in
        let k := destroy (λ _, true) 2 (default_modifiers None) false j in
        (length (callbacks j), bool_decide (listeners j = registered (scrollParents j)),
         el_style (doc j) !! (2%nat, "transform"), bool_decide (listeners k = ∅),
         el_style (doc k) !! (2%nat, "transform"), el_style (doc k) !! (2%nat, "willChange")))
    <$> sample_construct =
  Some (2%nat, true, Some (CVal (STranslate (Some 795%Q) (Some 80%Q))), true, None,
        Some (CVal (SText "transform"))).
Proof. vm_compute. reflexivity. Qed.

Lemma popper_life_witness :
  ∃ i, sample_construct = Some i ∧ life_ok (sample_run i (sample_steps ++ [Destroy])).
Proof.
  destruct sample_construct as [i|] eqn:E; [|exfalso; vm_compute in E; discriminate].
  exists i. split; [done|].
  apply (popper_life (λ _, true) 2 3 (default_modifiers None) "bottom" default_flip true false
    (PG:=PopperSpec.sample_page) (Rendered ∅ ∅)). exact E.
Defined.

Lemma destroy_final_witness :
  ∃ i, sample_construct = Some i ∧
    let j := sample_run i sample_steps in
    callbacks (sample_run (destroy (λ _, true) 2 (default_modifiers None) false j) sample_steps) = callbacks j.
Proof.
  destruct sample_construct as [i|] eqn:E; [|exfalso; vm_compute in E; discriminate].
  exists i. split; [done|]. intros j.
  apply (destroy_final (λ _, true) 2 3 (default_modifiers None) "bottom" default_flip false j sample_steps
    (2%nat, "left")). reflexivity.
Defined.

End PopperLife.
