(* ===== verification/Dropdown.v ===== *)
(** * Dropdown, bootstrap.js lines 1405 to 1865

    A toggle opens and closes a menu; its object lives on the toggle.  The class
    show is on the menu and on the parent of the toggle.  A menu outside a
    navbar is placed by a Popper instance, of which the object keeps the last
    one; the instances themselves are those of file PopperLife. *)

From S2P Require Import Prelude Dom Bs PopperDom PopperOffset Popper.
Local Open Scope string_scope.
Local Open Scope list_scope.

Module Dropdown.

(** The values of the options, with their types.  A function as offset gets the
    offsets of an update and answers some of them anew, or nothing. *)
Record offsets := Offsets {
  of_popper : PopperDom.rect;
  of_reference : PopperDom.rect;
  of_arrow : gmap string Popper.sval
}.
Record new_offsets := NewOffsets {
  new_popper : option PopperDom.rect;
  new_reference : option PopperDom.rect;
  new_arrow : option (gmap string Popper.sval)
}.
Abbreviation offset_function := (offsets → option new_offsets).
Inductive value := VUndefined | VNull | VBool (b : bool) | VNum (z : Z) | VStr (s : string) | VElement (n : nid)
  | VObject | VArray | VFunction (f : offset_function).
Abbreviation values := (gmap string value).
Definition to_optval (v : value) : Util.optval :=
  match v with
  | VUndefined => Util.OUndefined | VNull => Util.ONull | VBool b => Util.OBool b | VNum z => Util.ONum z
  | VStr s => Util.OStr s | VElement n => Util.OElement n | VObject => Util.OObject | VArray => Util.OArray
  | VFunction _ => Util.OFunction
  end.

(** Lines 1467 to 1476. *)
Definition Default : values :=
  list_to_map [("offset", VNum 0); ("flip", VBool true); ("boundary", VStr "scrollParent")].
Definition DefaultType : list (string * list string) :=
  [("offset", ["number"; "string"; "function"]); ("flip", ["boolean"]); ("boundary", ["string"; "element"])].

(** The options as the methods read them. *)
Inductive offset_setting := OffsetValue (o : Popper.offset_option) | OffsetFunction (f : offset_function).
Inductive boundary_setting := BoundaryName (s : string) | BoundaryNode (n : nid).
Record config := Config {
  c_offset : offset_setting;
  c_flip : bool;
  c_boundary : boundary_setting
}.
Definition offset_value (v : value) : option offset_setting :=
  match v with
  | VNum z => Some (OffsetValue (Popper.OffsetNumber (inject_Z z)))
  | VStr s => Some (OffsetValue (Popper.OffsetText (JsString.js s)))
  | VFunction f => Some (OffsetFunction f)
  | _ => None
  end.
Definition flip_value (v : value) : option bool := match v with VBool b => Some b | _ => None end.
Definition boundary_value (v : value) : option boundary_setting :=
  match v with
  | VStr s => Some (BoundaryName s)
  | VElement n => Some (BoundaryNode n)
  | _ => None
  end.
Definition read (c : values) : option config :=
  o ← c !! "offset" ≫= offset_value; f ← c !! "flip" ≫= flip_value; b ← c !! "boundary" ≫= boundary_value;
  Some (Config o f b).
(** Lines 1603 to 1607: the options of the call, those of the data attributes of
    the element and the defaults, checked. *)
Definition _getConfig (attributes given : values) : outcome config :=
  let c := given ∪ attributes ∪ Default in
  match Util.typeCheckConfig "dropdown" (to_optval <$> c) DefaultType with
  | Throw e => Throw e
  | Ret _ => match read c with Some c => Ret c | None => Throw TypeError end
  end.

(** Options that pass the check can be read: a call ends with the options or with
    the message of the check. *)
Lemma checked_value {A} (f : value → option A) (c : values) k types :
  (∀ v, existsb (λ t, Util.contains t (Util.toType (to_optval v))) types = true → is_Some (f v)) →
  existsb (λ t, Util.contains t "undefined") types = false →
  existsb (λ t, Util.contains t (Util.toType (default Util.OUndefined ((to_optval <$> c) !! k)))) types = true →
  is_Some (c !! k ≫= f).
Proof. rewrite lookup_fmap. intros Hf Hu. destruct (c !! k) as [v|]; intros H; [exact (Hf v H)|destruct (eq_true_false_abs _ H Hu)]. Qed.
Lemma getConfig_reads attributes given :
  match _getConfig attributes given with
  | Ret c => read (given ∪ attributes ∪ Default) = Some c
  | Throw e => ∃ text, e = ErrorMsg text
  end.
Proof.
  unfold _getConfig. set (c := given ∪ attributes ∪ Default).
  unfold DefaultType. cbn [Util.typeCheckConfig].
  destruct (existsb _ ["number"; "string"; "function"]) eqn:Ho; [|by eexists].
  destruct (existsb _ ["boolean"]) eqn:Hf; [|by eexists].
  destruct (existsb _ ["string"; "element"]) eqn:Hb; [|by eexists].
  apply (checked_value offset_value) in Ho as [o Ho]; [|intros [] H; first [vm_compute in H; discriminate H|eexists; reflexivity]|done].
  apply (checked_value flip_value) in Hf as [f Hf]; [|intros [] H; first [vm_compute in H; discriminate H|eexists; reflexivity]|done].
  apply (checked_value boundary_value) in Hb as [b Hb]; [|intros [] H; first [vm_compute in H; discriminate H|eexists; reflexivity]|done].
  unfold read. by rewrite Ho, Hf, Hb.
Qed.

(** A call of [new Popper]. *)
Record popper_call := PopperCall {
  pc_reference : nid;
  pc_popper : nid;
  pc_placement : string;
  pc_modifiers : list Popper.modifier
}.

Record dropdown := MkDropdown {
  _config : config;
  _menu : option nid;
  _inNavbar : bool;
  _popper : option popper_call;
  created : list popper_call             (* all instances made so far *)
}.

(** The empty listeners for touch devices. *)
Inductive kont := Noop.
Abbreviation ddM := (bsM dropdown kont).

(** ** Similar documents *)

(** What opening and closing menus changes of an element: the classes show and
    position-static and the attribute [aria-expanded].  Documents are similar if
    they differ in these only. *)
Definition marks : list string := ["show"; "position-static"].
Definition bare (e : elem) : elem :=
  Dom.with_attrs (delete "aria-expanded") (Dom.with_classes (filter (λ c, c ∉ marks)) e).
Definition similar (d d' : dom) : Prop := bare <$> d' = bare <$> d.

#[global] Instance similar_equivalence : Equivalence similar.
Proof. split; unfold similar; [by intros d|by intros d d'|intros d1 d2 d3; congruence]. Qed.

Lemma similar_alter f n d : (∀ e, bare (f e) = bare e) → similar d (alter f n d).
Proof.
  intros Hf. apply map_eq. intros m. rewrite !lookup_fmap, lookup_alter. case_decide; [subst|done].
  destruct (d !! m); simpl; [by rewrite Hf|done].
Qed.
Lemma similar_removeClass c n d : c ∈ marks → similar d (Dom.removeClass c n d).
Proof.
  intros Hc. apply similar_alter. intros [t i cs a st p ch]. unfold bare, Dom.with_classes, Dom.with_attrs; simpl. f_equal.
  unfold Dom.remove_from. rewrite list_filter_filter. apply list_filter_iff. intros x. split; [tauto|]. intros Hx. split; [done|]. congruence.
Qed.
Lemma similar_addClass c n d : c ∈ marks → similar d (Dom.addClass c n d).
Proof.
  intros Hc. apply similar_alter. intros [t i cs a st p ch]. unfold bare, Dom.with_classes, Dom.with_attrs; simpl. f_equal.
  unfold Dom.add_to. case_bool_decide; [done|]. rewrite filter_app, filter_cons_False by tauto. by rewrite app_nil_r.
Qed.
Lemma similar_toggleClass c n d : c ∈ marks → similar d (Dom.toggleClass c n d).
Proof. unfold Dom.toggleClass. case_match; [apply similar_removeClass|apply similar_addClass]. Qed.
Lemma similar_expanded v n d : similar d (Dom.setAttribute "aria-expanded" v n d).
Proof.
  apply similar_alter. intros [t i cs a st p ch]. unfold bare, Dom.with_classes, Dom.with_attrs; simpl. f_equal.
  apply delete_insert_eq.
Qed.

(** What does not ask for these is the same. *)
Lemma similar_elem {A} (f : elem → A) d d' n :
  (∀ e, f (bare e) = f e) → similar d d' → f <$> d' !! n = f <$> d !! n.
Proof.
  intros Hf H. assert (E : bare <$> d' !! n = bare <$> d !! n) by (rewrite <- !lookup_fmap; by rewrite H).
  destruct (d' !! n) as [e'|], (d !! n) as [e|]; simpl in *; try done. f_equal.
  rewrite <- (Hf e'), <- (Hf e). congruence.
Qed.
Lemma similar_present d d' n : similar d d' → is_Some (d' !! n) ↔ is_Some (d !! n).
Proof.
  intros H. pose proof (similar_elem (λ _, ()) d d' n ltac:(done) H) as E.
  rewrite <- (fmap_is_Some (λ _, ()) (d' !! n)), <- (fmap_is_Some (λ _, ()) (d !! n)). by rewrite E.
Qed.
Lemma similar_parent d d' n : similar d d' → Dom.parent d' n = Dom.parent d n.
Proof.
  intros H. unfold Dom.parent. pose proof (similar_elem (λ '(Elem _ _ _ _ _ q _), q) d d' n ltac:(by intros []) H).
  destruct (d' !! n) as [[]|], (d !! n) as [[]|]; simpl in *; congruence.
Qed.
Lemma similar_attribute d d' n a : similar d d' → a ≠ "aria-expanded" → Dom.getAttribute d' n a = Dom.getAttribute d n a.
Proof.
  intros H Ha. unfold Dom.getAttribute. pose proof (similar_elem (λ e, attributes e !! a) d d' n) as E.
  assert (Hf : ∀ e, attributes (bare e) !! a = attributes e !! a) by (intros e; apply lookup_delete_ne; congruence).
  specialize (E Hf H). destruct (d' !! n), (d !! n); simpl in *; congruence.
Qed.
Lemma similar_class d d' n c : similar d d' → c ∉ marks → Dom.hasClass d' n c = Dom.hasClass d n c.
Proof.
  intros H Hc. unfold Dom.hasClass. pose proof (similar_elem (λ e, bool_decide (c ∈ classList e)) d d' n) as E.
  assert (Hf : ∀ e, bool_decide (c ∈ classList (bare e)) = bool_decide (c ∈ classList e)).
  { intros e. apply bool_decide_ext. simpl. rewrite list_elem_of_filter. tauto. }
  specialize (E Hf H). destruct (d' !! n), (d !! n); simpl in *; congruence.
Qed.

Section dropdown.
Context `{B : Browser} (touch : bool) (body_children : dom → list nid).
(** [$(el).data()] *)
Context (data_of : dom → nid → values).

Definition DATA_TOGGLE : Dom.selector := Dom.sel_attr "data-toggle" "dropdown".
Definition VISIBLE_ITEMS : Dom.selector :=
  Dom.sel_desc (Dom.sel_class "dropdown-menu")
    (Dom.sel_and (Dom.sel_class "dropdown-item") (Dom.sel_not (Dom.sel_class "disabled"))).

Definition this {A} (el : nid) (f : dropdown → A) : ddM A :=
  c ← mget (λ p, pdata p !! el);
  match c with Some c => mret (f c) | None => mthrow TypeError end.

(** Lines 1743 to 1752. *)
Definition _getParentFromElement (d : dom) (element : nid) : option nid :=
  match Util.target_of d element with Some n => Some n | None => Dom.parent d element end.

(** Lines 1609 to 1617. *)
Definition _getMenuElement (d : dom) (element : nid) : option nid :=
  p ← _getParentFromElement d element; head (Dom.find (Dom.sel_class "dropdown-menu") d p).
(** Lines 1640 to 1642. *)
Definition _detectNavbar (d : dom) (element : nid) : bool :=
  bool_decide (is_Some (Dom.closest (Dom.sel_class "navbar") d element)).

(** Lines 1619 to 1638. *)
Definition menu_has (d : dom) (menu : option nid) (c : string) : bool :=
  match menu with Some m => Dom.hasClass d m c | None => false end.
Definition _getPlacement (d : dom) (element : nid) (menu : option nid) : string :=
  let up c := match Dom.parent d element with Some p => Dom.hasClass d p c | None => false end in
  if up "dropup" then if menu_has d menu "dropdown-menu-right" then "top-end" else "top-start"
  else if up "dropright" then "right-start"
  else if up "dropleft" then "left-start"
  else if menu_has d menu "dropdown-menu-right" then "bottom-end" else "bottom-start".

(** Lines 1649 to 1652: the function is put in the place of the modifier's own. *)
Definition call_offset (f : offset_function) (x : Popper.data) : Popper.data :=
  match f (Offsets (Popper.d_popper x) (Popper.d_reference x) (Popper.d_arrow x)) with
  | None => x
  | Some o =>
      Popper.set_offsets (default (Popper.d_popper x) (new_popper o)) (default (Popper.d_reference x) (new_reference o))
        (default (Popper.d_arrow x) (new_arrow o)) x
  end.
Definition offset_fn (o : offset_setting) : Popper.modifier_fn :=
  match o with
  | OffsetValue o => Popper.FnOffset o
  | OffsetFunction f => Popper.FnCustom "offset" (λ x, Some (call_offset f x))
  end.
Definition boundary_of (b : boundary_setting) : PopperDom.boundary :=
  match b with BoundaryName s => PopperDom.boundary_text s | BoundaryNode n => PopperDom.BoundaryElement n end.
(** Lines 1644 to 1671: the placement, and Popper's default modifiers with the
    options of the dropdown. *)
Definition _getPopperConfig (d : dom) (element : nid) (c : dropdown) (x_arrow : option nid) :
    string * list Popper.modifier :=
  (_getPlacement d element (_menu c),
   (λ m, match Popper.fn m with
         | Popper.FnOffset _ => Popper.Modifier (Popper.order m) (Popper.enabled m) (offset_fn (c_offset (_config c)))
         | Popper.FnFlip o => Popper.Modifier (Popper.order m) (c_flip (_config c)) (Popper.FnFlip o)
         | Popper.FnPreventOverflow o =>
             Popper.Modifier (Popper.order m) (Popper.enabled m)
               (Popper.FnPreventOverflow (Popper.PreventOptions (Popper.priority o) (Popper.p_padding o)
                  (Some (boundary_of (c_boundary (_config c)))) (Popper.escapeWithReference o)))
         | _ => m
         end) <$> Popper.default_modifiers x_arrow).

(** ** Closing the menus, lines 1695 to 1741 *)

Record event := Event { e_keyup : bool; e_which : Z; e_target : nid }.

Definition is_text_field (d : dom) (n : nid) : bool :=
  match d !! n with
  | Some e => Util.contains "INPUT" (Util.upper (tagName e)) || Util.contains "TEXTAREA" (Util.upper (tagName e))
  | None => false
  end.
(** [$.contains(p, n)] *)
Definition contains (d : dom) (p : option nid) (n : nid) : bool :=
  match p, Dom.parent d n with
  | Some p, Some q => bool_decide (is_Some (Dom.closest (λ _ m, bool_decide (m = p)) d q))
  | _, _ => false
  end.
(** Line 1722: events that leave the menu they are in open. *)
Definition stays_open (e : option event) (d : dom) (parent : option nid) : bool :=
  match e with
  | None => false
  | Some e =>
      ((negb (e_keyup e) && is_text_field d (e_target e)) || (e_keyup e && (e_which e =? 9)%Z)) &&
      contains d parent (e_target e)
  end.

Definition related (t : nid) : list (string * evarg) := [("relatedTarget", ANode (Some t))].

(** Lines 1557 to 1559 and 1733 to 1735. *)
Definition touch_on (parent : option nid) (p : bpage dropdown kont) : bpage dropdown kont :=
  let in_nav := match parent with
                | Some q => bool_decide (is_Some (Dom.closest (Dom.sel_class "navbar-nav") (pdoc p) q))
                | None => false
                end in
  if touch && negb in_nav then foldl (λ p n, add_wait n "mouseover" Noop p) p (body_children (pdoc p)) else p.
Definition touch_off (p : bpage dropdown kont) : bpage dropdown kont :=
  if touch then foldl (λ p n, drop_wait n "mouseover" p) p (body_children (pdoc p)) else p.

Definition clear_one (e : option event) (t : nid) : ddM () :=
  parent ← mget (λ p, _getParentFromElement (pdoc p) t);
  context ← mget (λ p, pdata p !! t);
  match context with
  | None => mret ()
  | Some c =>
      shown ← mget (λ p, menu_has (pdoc p) parent "show");
      stays ← mget (λ p, stays_open e (pdoc p) parent);
      if negb shown || stays then mret ()
      else
        prevented ← trigger_opt "hide.bs.dropdown" (related t) parent;
        if (prevented : bool) then mret ()
        else
          _ ← mupdate touch_off;
          _ ← doc_op (Dom.setAttribute "aria-expanded" "false" t);
          _ ← doc_opt (Dom.removeClass "show") (_menu c);
          _ ← doc_opt (Dom.removeClass "show") parent;
          _ ← trigger_opt "hidden.bs.dropdown" (related t) parent;
          mret ()
  end.

Definition _clearMenus (e : option event) : ddM () :=
  if match e with
     | Some e => (e_which e =? 3)%Z || (e_keyup e && negb (e_which e =? 9)%Z)
     | None => false
     end
  then mret ()
  else
    toggles ← mget (λ p, Dom.query (all_nodes (pdoc p)) DATA_TOGGLE (pdoc p));
    meach (clear_one e) toggles.

(** ** Opening a menu, lines 1501 to 1568 *)

Definition set_popper (c : popper_call) (x : dropdown) : dropdown :=
  MkDropdown (_config x) (_menu x) (_inNavbar x) (Some c) (created x ++ [c]).
Definition upd (f : dropdown → dropdown) (el : nid) : ddM () :=
  mupdate (λ p, BPage (pdoc p) (plog p) (pwait p) (alter f el (pdata p)) (pfresh p)).

(** Lines 1525 to 1552; Popper cannot be created for a menu that is missing. *)
Definition create_popper (el : nid) (parent : option nid) : ddM () :=
  c ← this el id;
  d ← mget pdoc;
  let element := match parent with
                 | Some p =>
                     if Dom.hasClass d p "dropup" &&
                        (menu_has d (_menu c) "dropdown-menu-left" || menu_has d (_menu c) "dropdown-menu-right")
                     then p else el
                 | None => el
                 end in
  _ ← mguard (match c_boundary (_config c) with BoundaryName s => negb (s =? "scrollParent") | _ => true end)
        (doc_opt (Dom.addClass "position-static") parent);
  match _menu c with
  | None => mthrow TypeError
  | Some m =>
      let '(placement, ms) := _getPopperConfig d el c (head (Dom.find (Dom.sel_has_attr "x-arrow") d m)) in
      upd (set_popper (PopperCall element m placement ms)) el
  end.

Definition is_disabled (d : dom) (el : nid) : bool := Dom.hasAttribute d el "disabled" || Dom.hasClass d el "disabled".
Definition focus (el : nid) : ddM () := mupdate (add_log (Ev el "focus" [])).

(** Lines 1501 to 1568. *)
Definition toggle (el : nid) : ddM () :=
  disabled ← mget (λ p, is_disabled (pdoc p) el);
  if (disabled : bool) then mret ()
  else
    parent ← mget (λ p, _getParentFromElement (pdoc p) el);
    menu ← this el _menu;
    isActive ← mget (λ p, menu_has (pdoc p) menu "show");
    _ ← _clearMenus None;
    if (isActive : bool) then mret ()
    else
      prevented ← trigger_opt "show.bs.dropdown" (related el) parent;
      if (prevented : bool) then mret ()
      else
        inNavbar ← this el _inNavbar;
        _ ← mguard (negb inNavbar) (create_popper el parent);
        _ ← mupdate (touch_on parent);
        _ ← focus el;
        _ ← doc_op (Dom.setAttribute "aria-expanded" "true" el);
        _ ← doc_opt (Dom.toggleClass "show") menu;
        _ ← doc_opt (Dom.toggleClass "show") parent;
        _ ← trigger_opt "shown.bs.dropdown" (related el) parent;
        mret ().

(** Lines 1487 to 1495; options of a wrong type throw before there is an
    object. *)
Definition construct (el : nid) (given : values) : ddM () :=
  checked ← mget (λ p, _getConfig (data_of (pdoc p) el) given);
  match checked with
  | Throw e => mthrow e
  | Ret c =>
      mupdate (λ p, set_data el (MkDropdown c (_getMenuElement (pdoc p) el) (_detectNavbar (pdoc p) el) None []) p)
  end.

(** Lines 1570 to 1581; calls on the instance of Popper are logged with the menu
    it places. *)
Definition call_popper (method : string) (x : option popper_call) : ddM () :=
  match x with Some c => mupdate (add_log (Ev (pc_popper c) method [])) | None => mret () end.
Definition dispose (el : nid) : ddM () :=
  x ← this el _popper;
  _ ← mupdate (drop_data el);
  call_popper "destroy" x.
(** Lines 1583 to 1589. *)
Definition set_navbar (b : bool) (c : dropdown) : dropdown :=
  MkDropdown (_config c) (_menu c) b (_popper c) (created c).
Definition update (el : nid) : ddM () :=
  inNavbar ← mget (λ p, _detectNavbar (pdoc p) el);
  _ ← upd (set_navbar inNavbar) el;
  x ← this el _popper;
  call_popper "scheduleUpdate" x.

(** Lines 1674 to 1693: a method name, or options. *)
Definition _jQueryInterface (given : values) (method : option string) (els : list nid) : ddM () :=
  meach (λ el,
    known ← mget (λ p, bool_decide (is_Some (pdata p !! el)));
    _ ← mguard (negb known) (construct el given);
    match method with
    | None => mret ()
    | Some m =>
        if bool_decide (m = "toggle") then toggle el
        else if bool_decide (m = "dispose") then dispose el
        else if bool_decide (m = "update") then update el
        else mthrow TypeError
    end) els.

(** ** Clicks, lines 1592 to 1601 and 1838 to 1845 *)

(** The elements an event passes on its way up. *)
Fixpoint path (fuel : nat) (d : dom) (n : nid) : list nid :=
  match fuel with
  | O => [n]
  | S f => n :: match Dom.parent d n with Some q => path f d q | None => [] end
  end.
Definition FORM_CHILD : Dom.selector := Dom.sel_desc (Dom.sel_class "dropdown") (Dom.sel_tag "form").
(** Lines 1592 to 1601: the elements with an object have a listener. *)
Definition first_listener (way : list nid) (p : bpage dropdown kont) : option nid :=
  List.find (λ n, bool_decide (is_Some (pdata p !! n))) way.
(** The listener of the first object on the way stops the event.  Otherwise it
    reaches the document, whose listeners for toggles and forms stop it at the
    first of these on the way, and else the menus are closed. *)
Definition on_click (which : Z) (target : nid) : ddM () :=
  d ← mget pdoc;
  let way := path (size d) d target in
  known ← mget (first_listener way);
  match known with
  | Some el => toggle el
  | None =>
      match List.find (λ n, DATA_TOGGLE d n || FORM_CHILD d n) way with
      | Some n => mguard (DATA_TOGGLE d n) (_jQueryInterface ∅ (Some "toggle") [n])
      | None => _clearMenus (Some (Event false which target))
      end
  end.
Definition on_keyup (which : Z) (target : nid) : ddM () := _clearMenus (Some (Event true which target)).

(** ** The keyboard, lines 1755 to 1811 *)

Definition ESCAPE : Z := 27.
Definition SPACE : Z := 32.
Definition ARROW_UP : Z := 38.
Definition ARROW_DOWN : Z := 40.

(** Line 1763; the expression [38|40|27] is searched for in the text of the
    key code. *)
Definition keydown_regexp (which : Z) : bool :=
  let s := pretty.pretty which in
  Util.contains "38" s || Util.contains "40" s || Util.contains "27" s.
Definition not_a_command (d : dom) (target : nid) (which : Z) : bool :=
  if is_text_field d target then
    (which =? SPACE)%Z ||
    (negb (which =? ESCAPE)%Z &&
     (negb (which =? ARROW_DOWN)%Z && negb (which =? ARROW_UP)%Z ||
      bool_decide (is_Some (Dom.closest (Dom.sel_class "dropdown-menu") d target))))
  else negb (keydown_regexp which).

(** Lines 1788 to 1810: the item that gets the focus. *)
Fixpoint indexOf (i : Z) (x : nid) (l : list nid) : Z :=
  match l with [] => -1 | y :: l' => if bool_decide (x = y) then i else indexOf (i + 1) x l' end%Z.
Definition next_index (which : Z) (index : Z) (n : Z) : Z :=
  (let index := if (which =? ARROW_UP) && (0 <? index) then index - 1 else index in
   let index := if (which =? ARROW_DOWN) && (index <? n - 1) then index + 1 else index in
   if index <? 0 then 0 else index)%Z.

Definition _dataApiKeydownHandler (el target : nid) (which : Z) : ddM () :=
  d ← mget pdoc;
  if not_a_command d target which || is_disabled d el then mret ()
  else
    let parent := _getParentFromElement d el in
    let isActive := menu_has d parent "show" in
    if (negb isActive && (negb (which =? ESCAPE)%Z || negb (which =? SPACE)%Z)) ||
       (isActive && ((which =? ESCAPE)%Z || (which =? SPACE)%Z)) then
      _ ← mguard (which =? ESCAPE)%Z
            match parent ≫= (λ p, head (Dom.find DATA_TOGGLE d p)) with Some t => focus t | None => mret () end;
      on_click 0 el
    else
      let items := default [] ((Dom.find VISIBLE_ITEMS d) <$> parent) in
      match items !! Z.to_nat (next_index which (indexOf 0 target items) (Z.of_nat (length items))) with
      | Some i => focus i
      | None => mret ()
      end.

(** Line 1838: the handler of the first toggle or menu on the way, which stops a
    key that is a command; for other keys no handler does anything. *)
Definition on_keydown (which : Z) (target : nid) : ddM () :=
  d ← mget pdoc;
  match List.find (λ n, DATA_TOGGLE d n || Dom.hasClass d n "dropdown-menu") (path (size d) d target) with
  | Some el => _dataApiKeydownHandler el target which
  | None => mret ()
  end.

(** ** Reasoning about pages *)

(** The selector of the target of a toggle.  It is steady if it does not ask for
    what opening and closing changes, as an identifier does not. *)
Definition selector_of (d : dom) (t : nid) : string :=
  let s := Util.written d t in if String.prefix "#" s then Util.escapeId s else s.
Definition steady (s : string) : Prop := ∀ d d', similar d d' → query d' s = query d s.
Definition steady_at (d : dom) (t : nid) : Prop := steady (selector_of d t).

Lemma selector_similar d d' t : similar d d' → selector_of d' t = selector_of d t.
Proof. intros H. unfold selector_of, Util.written. by rewrite !(similar_attribute d d') by done. Qed.
Lemma steady_similar d d' t : similar d d' → steady_at d t → steady_at d' t.
Proof. intros H. unfold steady_at. by rewrite (selector_similar d d'). Qed.
Lemma parent_similar d d' t :
  steady_at d t → similar d d' → _getParentFromElement d' t = _getParentFromElement d t.
Proof.
  intros Hs H. assert (E : Util.target_of d' t = Util.target_of d t).
  { unfold Util.target_of, Util.getSelectorFromElement. change (if String.prefix "#" (Util.written d' t) then _ else _) with (selector_of d' t).
    change (if String.prefix "#" (Util.written d t) then _ else _) with (selector_of d t).
    rewrite (selector_similar d d' t H), (Hs d d' H). destruct (query d (selector_of d t)) as [[|n ns]|]; [done| |done].
    cbn. unfold Util.first. by rewrite (Hs d d' H). }
  unfold _getParentFromElement. by rewrite E, (similar_parent d d').
Qed.

Section calm.
(** Nobody prevents that a menu is hidden. *)
Hypothesis calm : ∀ d n, prevents d n "hide.bs.dropdown" = false.

Definition toggles (d : dom) : list nid := Dom.query (all_nodes d) DATA_TOGGLE d.

(** Only shows fewer things. *)
Definition closes (d d' : dom) : Prop :=
  similar d d' ∧ ∀ n, Dom.hasClass d' n "show" = true → Dom.hasClass d n "show" = true.

#[local] Instance closes_preorder : PreOrder closes.
Proof.
  split; [done|]. intros d1 d2 d3 [H1 H2] [H1' H2']. split; [by etrans|]. by eauto.
Qed.

Lemma closes_hide n d : closes d (Dom.removeClass "show" n d).
Proof.
  split; [apply similar_removeClass; by left|]. intros m. rewrite Dom.hasClass_removeClass. by intros [_ H]%andb_true_iff.
Qed.
Lemma closes_expanded v n d : closes d (Dom.setAttribute "aria-expanded" v n d).
Proof.
  split; [apply similar_expanded|]. intros m. by rewrite Dom.hasClass_setAttribute.
Qed.

(** The waiting listeners matter to nobody. *)
Lemma touch_off_fields p : pdoc (touch_off p) = pdoc p ∧ pdata (touch_off p) = pdata p.
Proof.
  unfold touch_off. case_match; [|done]. generalize (body_children (pdoc p)). intros ns.
  revert p; induction ns as [|n ns IH]; intros p; [done|]. simpl. by destruct (IH (drop_wait n "mouseover" p)) as [-> ->].
Qed.
Lemma touch_on_fields par p : pdoc (touch_on par p) = pdoc p ∧ pdata (touch_on par p) = pdata p.
Proof.
  unfold touch_on. destruct (touch && _); [|done]. generalize (body_children (pdoc p)). intros ns.
  revert p; induction ns as [|n ns IH]; intros p; [done|]. simpl. by destruct (IH (add_wait n "mouseover" Noop p)) as [-> ->].
Qed.

(** Closing the menu of one toggle. *)
Lemma clear_one_run t p :
  ∃ p', clear_one None t p = (p', Ret ()) ∧ pdata p' = pdata p ∧ closes (pdoc p) (pdoc p') ∧
    (is_Some (pdata p !! t) → menu_has (pdoc p') (_getParentFromElement (pdoc p) t) "show" = false).
Proof.
  unfold clear_one. run. destruct (pdata p !! t) as [c|] eqn:Ec; [|eexists; by repeat split].
  destruct (_getParentFromElement (pdoc p) t) as [par|] eqn:Epar; cbn [menu_has stays_open].
  2: { run. eexists. by repeat split. }
  destruct (Dom.hasClass (pdoc p) par "show") eqn:Eshow; run.
  2: { eexists. by repeat split. }
  rewrite calm. run. destruct (touch_off_fields (add_log (Ev par "hide.bs.dropdown" (related t)) p)) as [Hd Hda].
  unfold add_log in Hd, Hda. cbn [pdoc pdata] in Hd, Hda.
  destruct (_menu c) as [m|]; run; eexists; (split; [reflexivity|]); cbn [pdoc pdata]; rewrite Hd, Hda.
  all: split; [done|]; split.
  1: etrans; [apply closes_expanded|]; etrans; [apply closes_hide|]; apply closes_hide.
  2: etrans; [apply closes_expanded|]; apply closes_hide.
  all: intros _; cbn; apply Dom.hasClass_remove_same.
Qed.


Lemma menu_has_closes d d' o : closes d d' → menu_has d o "show" = false → menu_has d' o "show" = false.
Proof.
  intros [_ H]. destruct o as [n|]; simpl; [|done]. intros Hn. apply not_true_iff_false. intros Hs.
  apply H in Hs. congruence.
Qed.

Lemma clear_all_run ts p :
  Forall (steady_at (pdoc p)) ts →
  ∃ p', meach (clear_one None) ts p = (p', Ret ()) ∧ pdata p' = pdata p ∧ closes (pdoc p) (pdoc p') ∧
    ∀ t, t ∈ ts → is_Some (pdata p !! t) → menu_has (pdoc p') (_getParentFromElement (pdoc p) t) "show" = false.
Proof.
  revert p; induction ts as [|t ts IH]; intros p Hst; [eexists; repeat split; try done; set_solver|].
  apply Forall_cons in Hst as [_ Hst]. destruct (clear_one_run t p) as (p1 & H1 & Hda1 & Hc1 & Ht).
  destruct (IH p1) as (p2 & H2 & Hda2 & Hc2 & Hts).
  { eapply Forall_impl; [exact Hst|]. intros t'. by apply steady_similar, Hc1. }
  exists p2. cbn [meach]. unfold mbind, jsM_bind. rewrite H1. split; [done|].
  split; [by rewrite Hda2|]. split; [by etrans|]. intros t' [->|Hin]%elem_of_cons Hd.
  - by eapply menu_has_closes, Ht.
  - rewrite Forall_forall in Hst. rewrite <-(parent_similar (pdoc p) (pdoc p1)); [|by apply Hst|apply Hc1].
    apply Hts; [done|by rewrite Hda1].
Qed.

Lemma clearMenus_run p :
  Forall (steady_at (pdoc p)) (toggles (pdoc p)) →
  ∃ p', _clearMenus None p = (p', Ret ()) ∧ pdata p' = pdata p ∧ closes (pdoc p) (pdoc p') ∧
    ∀ t, t ∈ toggles (pdoc p) → is_Some (pdata p !! t) →
      menu_has (pdoc p') (_getParentFromElement (pdoc p) t) "show" = false.
Proof.
  intros Hst. destruct (clear_all_run (toggles (pdoc p)) p Hst) as (p' & H & Hrest). exists p'. split; [|done].
  unfold _clearMenus. run. exact H.
Qed.

(** A dropdown that can be opened, on a page with steady targets on which nobody
    prevents that a menu is shown. *)
Hypothesis calm_show : ∀ d n, prevents d n "show.bs.dropdown" = false.
Record closed (el : nid) (c : dropdown) (m par : nid) (p : bpage dropdown kont) : Prop := {
  cl_data : pdata p !! el = Some c;
  cl_menu : _menu c = Some m;
  cl_parent : _getParentFromElement (pdoc p) el = Some par;
  cl_differ : par ≠ m;
  cl_toggle : el ∈ toggles (pdoc p);
  cl_steady : Forall (steady_at (pdoc p)) (toggles (pdoc p));
  cl_enabled : is_disabled (pdoc p) el = false;
  cl_hidden : Dom.hasClass (pdoc p) m "show" = false;
  cl_m : is_Some (pdoc p !! m);
  cl_par : is_Some (pdoc p !! par)
}.

Lemma alter_known {A} (f : A → A) (n : nid) (x : A) (m : gmap nid A) :
  m !! n = Some x → alter f n m = <[n := f x]> m.
Proof.
  intros H. apply map_eq. intros k. rewrite lookup_alter, lookup_insert. case_decide; [|done].
  subst. by rewrite H.
Qed.

(** Creating the Popper instance: one more is remembered. *)
Lemma create_popper_run el c m par p :
  pdata p !! el = Some c → _menu c = Some m →
  ∃ p' call, create_popper el (Some par) p = (p', Ret ()) ∧
    pdata p' = <[el := set_popper call c]> (pdata p) ∧ pc_popper call = m ∧ similar (pdoc p) (pdoc p') ∧
    ∀ n, Dom.hasClass (pdoc p') n "show" = Dom.hasClass (pdoc p) n "show".
Proof.
  intros Hc Hm. unfold create_popper, this, upd. run. rewrite Hc. run. unfold id. rewrite Hm.
  destruct (_getPopperConfig _ _ _ _) as [pl ms] eqn:E.
  destruct (match c_boundary (_config c) with BoundaryName s => _ | _ => _ end); run; eexists _, _; (split; [reflexivity|]); cbn [pdoc pdata];
    (split; [by apply alter_known|]); (split; [reflexivity|]).
  all: first [split; [reflexivity|done]|split; [apply similar_addClass; set_solver|]].
  all: intros k; apply Dom.hasClass_add_other; naive_solver.
Qed.


Lemma getAttribute_toggleClass c n d m a : Dom.getAttribute (Dom.toggleClass c n d) m a = Dom.getAttribute d m a.
Proof.
  unfold Dom.toggleClass. case_match; [apply Dom.getAttribute_removeClass|apply Dom.getAttribute_addClass].
Qed.

Lemma toggle_element el d : el ∈ toggles d → is_Some (d !! el).
Proof.
  unfold toggles, Dom.query. intros [H _]%list_elem_of_filter. unfold DATA_TOGGLE, Dom.sel_attr in H.
  apply bool_decide_unpack in H. unfold Dom.getAttribute in H. destruct (d !! el); [by eexists|done].
Qed.

Lemma toggle_run el c m par p :
  closed el c m par p →
  ∃ p' c', toggle el p = (p', Ret ()) ∧ pdata p' = <[el := c']> (pdata p) ∧
    length (created c') = (length (created c) + if _inNavbar c then 0 else 1)%nat ∧
    Dom.hasClass (pdoc p') m "show" = true ∧ Dom.hasClass (pdoc p') par "show" = true ∧
    Dom.getAttribute (pdoc p') el "aria-expanded" = Some "true" ∧
    ∀ t q, t ∈ toggles (pdoc p) → is_Some (pdata p !! t) → _getParentFromElement (pdoc p) t = Some q →
      q ≠ par → q ≠ m → Dom.hasClass (pdoc p') q "show" = false.
Proof.
  clear data_of.
  intros [Hdata Hmenu Hpar Hne Htog Hst Hen Hhid Hm Hp].
  destruct (clearMenus_run p Hst) as (p1 & Hclr & Hda & Hcl & Hall).
  assert (Hdata1 : pdata p1 !! el = Some c) by by rewrite Hda.
  set (p2 := add_log (Ev par "show.bs.dropdown" (related el)) p1).
  assert (∃ p3 c', (mguard (negb (_inNavbar c)) (create_popper el (Some par))) p2 = (p3, Ret ()) ∧
    pdata p3 = <[el := c']> (pdata p) ∧ similar (pdoc p1) (pdoc p3) ∧
    length (created c') = (length (created c) + if _inNavbar c then 0 else 1)%nat ∧
    ∀ n, Dom.hasClass (pdoc p3) n "show" = Dom.hasClass (pdoc p1) n "show")
    as (p3 & c' & H3 & Hda3 & Hsim3 & Hlen & Hcls3).
  { destruct (_inNavbar c); cbn [negb mguard].
    - exists p2, c. split; [done|]. cbn. rewrite Hda. split; [symmetry; by apply insert_id|]. repeat split; done || lia.
    - destruct (create_popper_run el c m par p2) as (p3 & call & H3 & Hd3 & _ & Hs3 & Hc3); [by cbn; rewrite Hda|done|].
      exists p3, (set_popper call c). split; [exact H3|]. split; [rewrite Hd3; cbn; by rewrite Hda|].
      split; [done|]. split; [cbn; rewrite length_app; done|done]. }
  destruct (touch_on_fields (Some par) p3) as [Ht1 Ht2].
  eexists _, c'. split.
  { unfold toggle, this, focus. run. rewrite Hen. run. rewrite Hpar, Hdata. run. rewrite Hmenu. cbn [menu_has].
    rewrite Hhid, Hclr, calm_show. run. rewrite Hdata1. run.
    unfold mguard, mret, jsM_ret, p2, add_log in H3. rewrite H3. run. reflexivity. }
  cbn [pdoc pdata]. rewrite Ht1, Ht2.
  split; [done|]. split; [done|].
  assert (Hpar1 : Dom.hasClass (pdoc p1) par "show" = false)
    by (pose proof (Hall el Htog ltac:(by eexists)) as H; by rewrite Hpar in H).
  assert (Hm1 : Dom.hasClass (pdoc p1) m "show" = false) by exact (menu_has_closes _ _ (Some m) Hcl Hhid).
  set (d := Dom.setAttribute "aria-expanded" "true" el (pdoc p3)).
  assert (Hsim : similar (pdoc p) d) by (etrans; [apply Hcl|]; etrans; [exact Hsim3|]; apply similar_expanded).
  assert (Hd : ∀ n, Dom.hasClass d n "show" = Dom.hasClass (pdoc p1) n "show")
    by (intros n; unfold d; by rewrite Dom.hasClass_setAttribute, Hcls3).
  assert (is_Some (d !! m)) by (by apply (similar_present _ _ _ Hsim)). assert (is_Some (d !! par)) by (by apply (similar_present _ _ _ Hsim)).
  split. { rewrite Dom.hasClass_toggle_other by naive_solver. by rewrite Dom.hasClass_toggle_same, Hd, Hm1. }
  split. { rewrite Dom.hasClass_toggle_same by (by rewrite Dom.present_toggleClass).
    rewrite Dom.hasClass_toggle_other by naive_solver. by rewrite Hd, Hpar1. }
  split. { rewrite !getAttribute_toggleClass. apply Dom.getAttribute_set_same.
    apply (similar_present _ _ _ Hsim3), (similar_present _ _ _ (proj1 Hcl)). by apply toggle_element. }
  intros t q Ht Hd' Hq Hqp Hqm. rewrite !Dom.hasClass_toggle_other by naive_solver. rewrite Hd.
  specialize (Hall t Ht Hd'). by rewrite Hq in Hall.
Qed.


(** Toggling a closed dropdown opens its menu and its parent and closes
    those of all other toggles, so that at most one menu is open; outside a
    navbar it creates one more Popper instance, and none of those created before
    is destroyed. *)
Theorem dropdown_exclusive el c m par p :
  closed el c m par p →
  let '(p', r) := toggle el p in
  r = Ret () ∧ Dom.hasClass (pdoc p') m "show" = true ∧ Dom.hasClass (pdoc p') par "show" = true ∧
  Dom.getAttribute (pdoc p') el "aria-expanded" = Some "true" ∧
  (∀ t q, t ∈ toggles (pdoc p) → is_Some (pdata p !! t) → _getParentFromElement (pdoc p) t = Some q →
    q ≠ par → q ≠ m → Dom.hasClass (pdoc p') q "show" = false) ∧
  (λ c', length (created c')) <$> pdata p' !! el =
    Some (length (created c) + if _inNavbar c then 0 else 1)%nat.
Proof.
  intros H. destruct (toggle_run el c m par p H) as (p' & c' & -> & Hd & Hlen & Hm & Hp & Ha & Hall).
  rewrite Hd, lookup_insert_eq. simpl. by rewrite Hlen.
Qed.

(** The test of line 1778 holds for every key, so that the escape key on the
    toggle of a closed dropdown opens its menu instead of leaving it closed. *)
Theorem escape_opens el c m par target p :
  closed el c m par p → Dom.hasClass (pdoc p) par "show" = false → is_text_field (pdoc p) target = false →
  let '(p', r) := _dataApiKeydownHandler el target ESCAPE p in
  r = Ret () ∧ Dom.hasClass (pdoc p') m "show" = true.
Proof.
  intros H Hpar Ht. pose proof H as [Hdata Hmenu Hpa Hne Htog Hst Hen Hhid Hm Hp].
  assert (∃ p1, closed el c m par p1 ∧ _dataApiKeydownHandler el target ESCAPE p = toggle el p1) as (p1 & H1 & ->).
  { unfold _dataApiKeydownHandler, not_a_command, on_click, first_listener. run. rewrite Ht, Hen. cbn [negb orb andb]. rewrite Hpa.
    cbn [menu_has]. rewrite Hpar. cbn [negb andb orb].
    change (keydown_regexp ESCAPE) with true. change (ESCAPE =? ESCAPE)%Z with true. cbn [negb orb].
    change (ESCAPE =? SPACE)%Z with false. cbn [negb orb mguard].
    assert (Hw : ∀ f, List.find (λ n, bool_decide (is_Some (pdata p !! n))) (path f (pdoc p) el) = Some el).
    { intros [|f]; cbn [path List.find]; rewrite Hdata; by rewrite bool_decide_true by (by eexists). }
    cbn [mbind option_bind]. destruct (head _) as [f|]; unfold focus; run; cbn [pdata pdoc]; rewrite Hw;
      eexists; (split; [|reflexivity]); [|done].
    by destruct H; split. }
  destruct (toggle_run el c m par p1 H1) as (p' & c' & -> & _ & _ & Hs & _). by rewrite Hs.
Qed.

End calm.

End dropdown.

(** ** Two dropdowns, the second one open *)

(** [#id] selects the element with this identifier. *)
Definition sample_browser : Browser := {|
  query d s := Some match s with
    | String _ i => filter (λ n, Dom.sel_id i d n = true) [1; 2; 3; 4; 5; 6]%nat | EmptyString => [] end;
  all_nodes _ := [1; 2; 3; 4; 5; 6]%nat;
  escapeSelector s := "\" +:+ s;
  prevents _ _ _ := false;
  supportsTransitionEnd := true
|}.
Definition toggle_attrs : gmap string string := {[ "data-toggle" := "dropdown" ]}.
Definition sample_doc : dom := {[
  1%nat := Elem "div" "" ["dropdown"] ∅ ∅ None [2%nat; 3%nat];
  2%nat := Elem "button" "" ["btn"] toggle_attrs ∅ (Some 1%nat) [];
  3%nat := Elem "div" "" ["dropdown-menu"] ∅ ∅ (Some 1%nat) [];
  4%nat := Elem "div" "second" ["dropdown"; "show"] ∅ ∅ None [5%nat; 6%nat];
  5%nat := Elem "button" "" ["btn"] (<["data-target" := "#second"]> toggle_attrs) ∅ (Some 4%nat) [];
  6%nat := Elem "div" "" ["dropdown-menu"; "show"] ∅ ∅ (Some 4%nat) []
]}.
Definition sample_config : config := Config (OffsetValue (Popper.OffsetNumber 0)) true (BoundaryName "scrollParent").
Definition sample_dropdown (menu : nid) : dropdown := MkDropdown sample_config (Some menu) false None [].
Definition sample_page : bpage dropdown kont :=
  BPage sample_doc [] [] {[ 2%nat := sample_dropdown 3; 5%nat := sample_dropdown 6 ]} 0.

Lemma sel_id_similar d d' i n : similar d d' → Dom.sel_id i d' n = Dom.sel_id i d n.
Proof.
  intros H. unfold Dom.sel_id. pose proof (similar_elem elId d d' n ltac:(done) H) as E.
  destruct (d' !! n), (d !! n); simpl in *; try done. injection E as E. by rewrite E.
Qed.
Lemma sample_steady s : steady (B:=sample_browser) s.
Proof.
  intros d d' H. cbn [query sample_browser]. destruct s as [|c i]; [done|]. f_equal. apply list_filter_iff. intros n. by rewrite (sel_id_similar d d').
Qed.
Lemma sample_closed : closed (B:=sample_browser) 2 (sample_dropdown 3) 3 1 sample_page.
Proof.
  split; [reflexivity|reflexivity|reflexivity|done| | |reflexivity|reflexivity|by eexists|by eexists].
  - apply (bool_decide_unpack _). vm_compute. done.
  - apply Forall_forall. intros t _. apply sample_steady.
Qed.

Lemma dropdown_exclusive_witness :
  let p' := (toggle (B:=sample_browser) false (λ _, []) 2 sample_page).1 in
  Dom.hasClass (pdoc p') 3 "show" = true ∧ Dom.hasClass (pdoc p') 4 "show" = false.
Proof.
  pose proof (dropdown_exclusive (B:=sample_browser) false (λ _, []) ltac:(done) ltac:(done)
    2 (sample_dropdown 3) 3 1 sample_page sample_closed) as H.
  destruct (toggle (B:=sample_browser) false (λ _, []) 2 sample_page) as [p' r].
  destruct H as (_ & H3 & _ & _ & Hall & _). split; [exact H3|].
  apply (Hall 5%nat 4%nat); [|by eexists|reflexivity|done|done].
  apply (bool_decide_unpack _). vm_compute. done.
Defined.

Lemma escape_opens_witness :
  let p' := (_dataApiKeydownHandler (B:=sample_browser) false (λ _, []) (λ _ _, ∅) 2 2 ESCAPE sample_page).1 in
  Dom.hasClass (pdoc p') 3 "show" = true.
Proof.
  pose proof (escape_opens (B:=sample_browser) false (λ _, []) (λ _ _, ∅) ltac:(done) ltac:(done)
    2 (sample_dropdown 3) 3 1 2 sample_page sample_closed eq_refl eq_refl) as H.
  destruct (_dataApiKeydownHandler (B:=sample_browser) false (λ _, []) (λ _ _, ∅) 2 2 ESCAPE sample_page) as [p' r].
  by destruct H.
Defined.

End Dropdown.
