(* ===== verification/DropdownLife.v ===== *)
(** * A page of dropdowns

    Whatever the user clicks and types, at most one menu is open: an invariant
    over all sequences of events, on pages on which nobody prevents that a menu is
    hidden and no menu is the parent of a toggle. *)

From S2P Require Import Prelude Dom Bs PopperDom PopperOffset Popper Dropdown.
Local Open Scope string_scope.
Local Open Scope list_scope.

Module DropdownLife.
Import Dropdown.

(** The test on which a handler branches. *)
Ltac branch :=
  match goal with
  | |- keeps _ (if ?b then _ else _) => destruct b eqn:?
  | |- keeps _ (match ?o with Some _ => _ | None => _ end) => destruct o eqn:?
  end.

Section life.
Context `{B : Browser} (touch : bool) (body_children : dom → list nid) (data_of : dom → nid → values).
(** The order of the nodes does not depend on classes and on [aria-expanded];
    every node is listed; nobody prevents that a menu is hidden. *)
Hypothesis nodes_similar : ∀ d d', similar d d' → all_nodes d' = all_nodes d.
Hypothesis nodes_all : ∀ d n, is_Some (d !! n) → n ∈ all_nodes d.
Hypothesis calm : ∀ d n, prevents d n "hide.bs.dropdown" = false.

Abbreviation page := (bpage dropdown kont).
Abbreviation parent_of d t := (_getParentFromElement d t).

(** ** What stays and what may change *)

Lemma toggles_similar d d' : similar d d' → toggles d' = toggles d.
Proof.
  intros H. unfold toggles, Dom.query. rewrite (nodes_similar d d' H). apply list_filter_iff. intros n.
  unfold DATA_TOGGLE, Dom.sel_attr. by rewrite (similar_attribute d d').
Qed.

(** [T] are the toggles of the page. *)
Context (T : list nid).

Record based (p : page) : Prop := {
  b_toggles : toggles (pdoc p) = T;
  b_steady : ∀ t, t ∈ T → steady_at (pdoc p) t;
  b_known : ∀ el c, pdata p !! el = Some c →
    el ∈ T ∧ ∀ m, _menu c = Some m → Dom.hasClass (pdoc p) m "dropdown-menu" = true;
  b_parents : ∀ t q, t ∈ T → parent_of (pdoc p) t = Some q → Dom.hasClass (pdoc p) q "dropdown-menu" = false
}.
(** An open menu: the parent of a toggle is shown. *)
Definition shown (p : page) (q : nid) : Prop :=
  ∃ t, t ∈ T ∧ parent_of (pdoc p) t = Some q ∧ Dom.hasClass (pdoc p) q "show" = true.
(** At most one is open, and an object can close it. *)
Record one_open (p : page) : Prop := {
  o_based : based p;
  o_one : ∀ q1 q2, shown p q1 → shown p q2 → q1 = q2;
  o_owner : ∀ q, shown p q → ∃ el, is_Some (pdata p !! el) ∧ parent_of (pdoc p) el = Some q
}.
(** While the menu of [el] is being opened. *)
Record opening (el : nid) (par menu : option nid) (p : page) : Prop := {
  n_based : based p;
  n_data : is_Some (pdata p !! el);
  n_parent : parent_of (pdoc p) el = par;
  n_menu : ∀ m, menu = Some m → Dom.hasClass (pdoc p) m "dropdown-menu" = true;
  n_only : ∀ q, shown p q → par = Some q
}.

Lemma menu_similar d d' n : similar d d' → Dom.hasClass d' n "dropdown-menu" = Dom.hasClass d n "dropdown-menu".
Proof. intros H. apply similar_class; [done|]. set_solver. Qed.
Lemma parents_similar p d' t :
  based p → t ∈ T → similar (pdoc p) d' → parent_of d' t = parent_of (pdoc p) t.
Proof. intros Hb Ht. apply parent_similar. by apply (b_steady _ Hb). Qed.
Lemma based_similar p p' : based p → similar (pdoc p) (pdoc p') → pdata p' = pdata p → based p'.
Proof.
  intros Hb Hs Hd. pose proof Hb as [H1 Hst H2 H3]. split.
  - by rewrite (toggles_similar _ _ Hs).
  - intros t Ht. eapply steady_similar; [exact Hs|by apply Hst].
  - intros el c Hc. rewrite Hd in Hc. destruct (H2 el c Hc) as [? Hmen]. split; [done|]. intros m.
    rewrite (menu_similar _ _ _ Hs). apply Hmen.
  - intros t q Ht. rewrite (menu_similar _ _ _ Hs), (parents_similar p _ t Hb Ht Hs). by apply H3.
Qed.
Lemma shown_less p p' q :
  based p → similar (pdoc p) (pdoc p') → (∀ n, Dom.hasClass (pdoc p') n "show" = true → Dom.hasClass (pdoc p) n "show" = true) →
  shown p' q → shown p q.
Proof. intros Hb Hs Hl (t & Ht & Hq & Hsh). exists t. rewrite (parents_similar p _ t Hb Ht Hs) in Hq. auto. Qed.

Lemma one_open_closes p p' : one_open p → closes (pdoc p) (pdoc p') → pdata p' = pdata p → one_open p'.
Proof.
  intros [H1 H2 H3] [Hs Hl] Hd. split.
  - by eapply based_similar.
  - intros q1 q2 Hq1 Hq2. apply H2; by eapply shown_less.
  - intros q Hq. destruct (H3 q ltac:(by eapply shown_less)) as (el & [c He] & Hp). exists el.
    rewrite Hd, He, (parents_similar p _ el H1) by (done || by eapply (b_known _ H1)). by split; [eexists|].
Qed.
Lemma opening_one el par menu p : opening el par menu p → one_open p.
Proof.
  intros [H1 H2 Hp H3 H4]. split; [done| |].
  - intros q1 q2 Hq1%H4 Hq2%H4. congruence.
  - intros q Hq%H4. exists el. split; [done|congruence].
Qed.

(** ** Closing *)

Lemma keeps_log e : keeps one_open (mupdate (add_log e)).
Proof. apply keeps_update. intros p Hp. by eapply one_open_closes. Qed.
Lemma keeps_fire e args o : keeps one_open (trigger_opt (D:=dropdown) (K:=kont) e args o).
Proof. destruct o; [|apply keeps_ret]. apply keeps_bind; [apply keeps_get|]. intros b. apply keeps_bind; [apply keeps_log|auto with js]. Qed.
Lemma keeps_closing f : (∀ d, closes d (f d)) → keeps one_open (doc_op (D:=dropdown) (K:=kont) f).
Proof. intros Hf. apply keeps_update. intros p Hp. by eapply one_open_closes; [|apply Hf|]. Qed.

Lemma keeps_clear e : keeps one_open (_clearMenus touch body_children e).
Proof.
  unfold _clearMenus. branch; [apply keeps_ret|]. apply keeps_bind; [apply keeps_get|]. intros ts.
  apply keeps_each. intros t. unfold clear_one. do 2 (apply keeps_bind; [apply keeps_get|]; intros).
  branch; [|apply keeps_ret]. do 2 (apply keeps_bind; [apply keeps_get|]; intros). branch; [apply keeps_ret|].
  apply keeps_bind; [apply keeps_fire|]. intros pr. branch; [apply keeps_ret|].
  apply keeps_bind; [apply keeps_update|intros _].
  { intros p Hp. destruct (touch_off_fields touch body_children p) as [E1 E2]. eapply one_open_closes; [done| |done].
    by rewrite E1. }
  apply keeps_bind; [apply keeps_closing; intros; apply closes_expanded|intros _].
  do 2 (apply keeps_bind; [unfold doc_opt; branch; [apply keeps_closing; intros; apply closes_hide|apply keeps_ret]|intros _]).
  apply keeps_bind; [apply keeps_fire|auto with js].
Qed.

(** ** Opening *)

Lemma opening_similar el par menu p p' :
  opening el par menu p → similar (pdoc p) (pdoc p') → pdata p' = pdata p →
  (∀ n, Dom.hasClass (pdoc p') n "show" = true →
    Dom.hasClass (pdoc p) n "show" = true ∨ Some n = menu ∨ Some n = par) →
  opening el par menu p'.
Proof.
  intros [H1 H2 Hp H3 H4] Hs Hd Hsh. split.
  - by eapply based_similar.
  - by rewrite Hd.
  - destruct H2 as [c Hc]. rewrite (parents_similar p _ el H1); [done| |done]. by eapply (b_known _ H1).
  - intros m. rewrite (menu_similar _ _ _ Hs). apply H3.
  - intros q (t & Ht & Hq & Hq'). rewrite (parents_similar p _ t H1 Ht Hs) in Hq.
    destruct (Hsh q Hq') as [Hold|[Hq2|Hq2]]; [apply H4; by exists t| |done].
    specialize (H3 q (eq_sym Hq2)). rewrite (b_parents _ H1 t q Ht Hq) in H3. done.
Qed.

Lemma opening_doc el par menu f :
  (∀ d, similar d (f d) ∧ ∀ n, Dom.hasClass (f d) n "show" = true →
    Dom.hasClass d n "show" = true ∨ Some n = menu ∨ Some n = par) →
  keeps (opening el par menu) (doc_op f).
Proof. intros Hf. apply keeps_update. intros p Hp. destruct (Hf (pdoc p)). by eapply opening_similar. Qed.
Lemma opening_log el par menu e : keeps (opening el par menu) (mupdate (add_log e)).
Proof. apply keeps_update. intros p Hp. eapply opening_similar; [done|done|done|by left]. Qed.
Lemma opening_fire el par menu e args o : keeps (opening el par menu) (trigger_opt e args o).
Proof.
  destruct o; [|apply keeps_ret]. apply keeps_bind; [apply keeps_get|]. intros b.
  apply keeps_bind; [apply opening_log|auto with js].
Qed.

Lemma opening_create el par menu q : keeps (opening el par menu) (create_popper el q).
Proof.
  unfold create_popper. apply keeps_bind; [unfold this; apply keeps_bind; [apply keeps_get|]; intros c; branch; auto with js|].
  intros c. apply keeps_bind; [apply keeps_get|]. intros d. apply keeps_bind; [apply keeps_guard|intros _].
  { unfold doc_opt. branch; [|apply keeps_ret]. apply opening_doc. intros d'. split; [apply similar_addClass; set_solver|].
    intros m. rewrite Dom.hasClass_add_other by (by right). by left. }
  branch; [|apply keeps_throw]. destruct (_getPopperConfig _ _ _ _) as [pl ms]. apply keeps_update.
  intros p [[H1 Hst H2 H3] H4 Hp H5 H6]. split; [split| | | |]; cbn [pdoc pdata]; try done.
  - intros el' c'. rewrite lookup_alter. case_decide; [subst|apply H2].
    intros (c0 & Hc0 & ->)%fmap_Some. by apply (H2 el' c0).
  - rewrite lookup_alter_eq. by apply fmap_is_Some.
Qed.

Lemma toggle_show n d m : Dom.hasClass (Dom.toggleClass "show" n d) m "show" = true → Dom.hasClass d m "show" = true ∨ m = n.
Proof.
  destruct (decide (m = n)) as [->|Hne]; [by right|]. rewrite Dom.hasClass_toggle_other by (left; congruence). by left.
Qed.

(** After [_clearMenus] nothing is shown. *)
Lemma cleared p : one_open p →
  ∃ p', _clearMenus touch body_children None p = (p', Ret ()) ∧ pdata p' = pdata p ∧ one_open p' ∧
    similar (pdoc p) (pdoc p') ∧ ∀ q, ¬ shown p' q.
Proof.
  intros Hp. destruct (clearMenus_run touch body_children calm p) as (p' & E & Hd & Hc & Hall).
  { rewrite (b_toggles _ (o_based _ Hp)). apply Forall_forall, (b_steady _ (o_based _ Hp)). }
  exists p'. split; [done|]. split; [done|]. split; [by eapply one_open_closes|]. split; [apply Hc|].
  intros q Hq. pose proof Hc as [Hs Hl]. pose proof (o_based _ Hp) as Hb.
  destruct (o_owner p Hp q) as (el & He & Hpar); [by eapply shown_less|].
  destruct He as [c Hel]. pose proof (proj1 (b_known _ (o_based _ Hp) el c Hel)) as Ht.
  rewrite <- (b_toggles _ (o_based _ Hp)) in Ht. specialize (Hall el Ht ltac:(by eexists)). rewrite Hpar in Hall.
  destruct Hq as (t & _ & _ & Hq). simpl in Hall. congruence.
Qed.

Lemma keeps_toggle el : keeps one_open (toggle touch body_children el).
Proof.
  intros p Hp. unfold toggle. erewrite bind_ret by reflexivity. destruct (is_disabled (pdoc p) el); [done|].
  erewrite bind_ret by reflexivity. destruct (pdata p !! el) as [c|] eqn:Ec.
  2: { unfold this, mbind, jsM_bind, mget, mthrow. by rewrite Ec. }
  erewrite bind_ret by (unfold this; erewrite bind_ret by reflexivity; by rewrite Ec).
  erewrite bind_ret by reflexivity. destruct (cleared p Hp) as (p1 & E1 & Hd1 & Hp1 & Hs1 & Hno).
  rewrite (bind_ret _ _ _ _ _ E1). destruct (menu_has (pdoc p) (_menu c) "show"); [done|].
  assert (Hpar : parent_of (pdoc p) el = parent_of (pdoc p1) el) by (symmetry; eapply parents_similar; [apply Hp|by eapply (b_known _ (o_based _ Hp))|done]).
  rewrite Hpar. set (par := parent_of (pdoc p1) el). set (menu := _menu c).
  assert (Hop : opening el par menu p1).
  { split; [apply Hp1|by rewrite Hd1, Ec|done| |by intros q []%Hno].
    intros m Hm. rewrite <- Hd1 in Ec. by apply (b_known _ (o_based _ Hp1) el c). }
  apply (opening_one el par menu).
  match goal with |- opening _ _ _ (?m p1).1 => enough (Hk : keeps (opening el par menu) m) by (by apply Hk) end.
  apply keeps_bind; [apply opening_fire|]. intros []; [apply keeps_ret|].
  apply keeps_bind; [unfold this; apply keeps_bind; [apply keeps_get|]; intros x; branch; auto with js|]. intros nav.
  apply keeps_bind; [apply keeps_guard, opening_create|intros _].
  apply keeps_bind; [apply keeps_update|intros _].
  { intros p2 Hp2. destruct (touch_on_fields touch body_children par p2) as [E2 D2].
    eapply opening_similar; [done| |done|]; rewrite E2; [done|by left]. }
  apply keeps_bind; [apply opening_log|intros _].
  apply keeps_bind; [apply opening_doc|intros _].
  { intros d. split; [apply similar_expanded|]. intros n. rewrite Dom.hasClass_setAttribute. by left. }
  assert (Ht : ∀ o, (o = menu ∨ o = par) → keeps (opening el par menu) (doc_opt (Dom.toggleClass "show") o)).
  { intros [n|] Ho; [|apply keeps_ret]. apply opening_doc. intros d. split; [apply similar_toggleClass; set_solver|].
    intros m [?| ->]%toggle_show; [by left|]. right. by destruct Ho; [left|right]. }
  apply keeps_bind; [apply Ht; by left|intros _]. apply keeps_bind; [apply Ht; by right|intros _].
  apply keeps_bind; [apply opening_fire|auto with js].
Qed.

(** ** Objects and events *)

Lemma keeps_object {A} el (f : dropdown → A) : keeps one_open (this el f).
Proof. apply keeps_bind; [apply keeps_get|]. intros c. branch; auto with js. Qed.

(** Objects with the same menus. *)
Lemma one_open_data p p' :
  one_open p → pdoc p' = pdoc p → (∀ el, is_Some (pdata p !! el) → is_Some (pdata p' !! el)) →
  (∀ el c, pdata p' !! el = Some c →
    el ∈ T ∧ ∀ m, _menu c = Some m → Dom.hasClass (pdoc p) m "dropdown-menu" = true) → one_open p'.
Proof.
  intros [[H1 Hst H2 H3] H4 H5] Hd Hk Hc. split.
  - split; rewrite ?Hd; done.
  - intros q1 q2. unfold shown. rewrite Hd. apply H4.
  - intros q. unfold shown. rewrite Hd. intros Hq. destruct (H5 q Hq) as (el & He & Hp). exists el. auto.
Qed.

Lemma keeps_construct el given : el ∈ T → keeps one_open (construct data_of el given).
Proof.
  intros Ht. apply keeps_bind; [apply keeps_get|]. intros [c|e]; [|apply keeps_throw]. apply keeps_update. intros p Hp. eapply one_open_data; [exact Hp|done| |]; cbn [set_data pdata].
  - intros el' He. rewrite lookup_insert. case_decide; [by eexists|done].
  - intros el' c'. rewrite lookup_insert. case_decide; [|apply Hp]. subst. intros [= <-]. split; [done|].
    intros m Hm. cbn in Hm. unfold _getMenuElement in Hm. apply bind_Some in Hm as (q & _ & Hm).
    apply head_Some in Hm as [l Hm]. assert (Hin : m ∈ Dom.find (Dom.sel_class "dropdown-menu") (pdoc p) q).
    { rewrite Hm. by left. }
    apply list_elem_of_filter in Hin as [Hin _]. apply Is_true_eq_true. exact Hin.
Qed.
Lemma keeps_upd f el : (∀ c, _menu (f c) = _menu c) → keeps one_open (upd f el).
Proof.
  intros Hf. apply keeps_update. intros p Hp. eapply one_open_data; [exact Hp|done| |]; cbn [pdata].
  - intros el' He. rewrite lookup_alter. case_decide; [subst; by apply fmap_is_Some|done].
  - intros el' c'. rewrite lookup_alter. case_decide; [subst|apply Hp]. intros (c & Hc & ->)%fmap_Some. rewrite Hf.
    by apply (b_known _ (o_based _ Hp)).
Qed.
Lemma keeps_popper m x : keeps one_open (call_popper m x).
Proof. destruct x; [apply keeps_log|apply keeps_ret]. Qed.

(** The methods other than dispose. *)
Lemma keeps_interface o method els :
  (∀ el, el ∈ els → el ∈ T) → method ≠ Some "dispose" →
  keeps one_open (_jQueryInterface touch body_children data_of o method els).
Proof.
  intros HT Hm. unfold _jQueryInterface. induction els as [|el els IH]; [apply keeps_ret|]. cbn [meach].
  apply keeps_bind; [|intros _; apply IH; set_solver].
  apply keeps_bind; [apply keeps_get|]. intros known. apply keeps_bind; [apply keeps_guard, keeps_construct; set_solver|intros _].
  destruct method as [m|]; [|apply keeps_ret]. branch; [apply keeps_toggle|]. branch.
  { match goal with H : bool_decide _ = true |- _ => apply bool_decide_eq_true in H; congruence end. }
  branch; [|apply keeps_throw]. apply keeps_bind; [apply keeps_get|]. intros b.
  apply keeps_bind; [by apply keeps_upd|intros _]. apply keeps_bind; [apply keeps_object|intros x; apply keeps_popper].
Qed.

(** A handler that starts by reading the document. *)
Lemma keeps_read {A} (f : dom → ddM A) : (∀ p, one_open p → keeps one_open (f (pdoc p))) → keeps one_open (d ← mget pdoc; f d).
Proof. intros Hf p Hp. erewrite bind_ret by reflexivity. by apply Hf. Qed.
Lemma toggle_listed p n : one_open p → DATA_TOGGLE (pdoc p) n = true → n ∈ T.
Proof.
  intros Hp Hn. rewrite <- (b_toggles _ (o_based _ Hp)). unfold toggles, Dom.query. apply list_elem_of_filter.
  split; [by rewrite Hn|]. apply nodes_all. unfold DATA_TOGGLE, Dom.sel_attr in Hn. apply bool_decide_eq_true in Hn.
  unfold Dom.getAttribute in Hn. destruct (pdoc p !! n); [by eexists|done].
Qed.

Lemma keeps_click which target : keeps one_open (on_click touch body_children data_of which target).
Proof.
  apply keeps_read. intros p Hp. apply keeps_bind; [apply keeps_get|]. intros known.
  destruct known as [el|]; [apply keeps_toggle|]. branch; [|apply keeps_clear].
  destruct (DATA_TOGGLE (pdoc p) n) eqn:E; [|apply keeps_ret]. apply keeps_interface; [|done].
  intros el ->%list_elem_of_singleton. by eapply toggle_listed.
Qed.
Lemma keeps_keydown which target : keeps one_open (on_keydown touch body_children data_of which target).
Proof.
  apply keeps_read. intros p Hp. branch; [|apply keeps_ret]. apply keeps_read. intros p' Hp'.
  branch; [apply keeps_ret|]. cbv zeta. branch.
  - apply keeps_bind; [apply keeps_guard; branch; [apply keeps_log|apply keeps_ret]|intros _; apply keeps_click].
  - branch; [apply keeps_log|apply keeps_ret].
Qed.

(** What happens to a page of dropdowns. *)
Inductive event :=
  | Click (which : Z) (target : nid)
  | Keydown (which : Z) (target : nid)
  | Keyup (which : Z) (target : nid)
  | Interface (given : values) (method : option string) (els : list nid).
Definition run_event (p : page) (e : event) : page :=
  (match e with
   | Click which target => on_click touch body_children data_of which target
   | Keydown which target => on_keydown touch body_children data_of which target
   | Keyup which target => on_keyup touch body_children which target
   | Interface given method els => _jQueryInterface touch body_children data_of given method els
   end p).1.
(** Calls are made on elements that are toggles by their attribute: the menus of
    others are not closed by [_clearMenus].  dispose, which leaves an open menu
    as it is, is left out. *)
Definition fair (e : event) : Prop :=
  match e with Interface _ method els => method ≠ Some "dispose" ∧ ∀ el, el ∈ els → el ∈ T | _ => True end.

(** C14. On a page on which no menu is open at first, no menu is the parent of a
    toggle and the targets of the toggles are given by selectors that ask neither
    for the classes show and position-static nor for aria-expanded, such as
    identifiers, and on which nobody prevents that a menu is hidden, at most one
    menu is open after any sequence of clicks and keys wherever they happen and
    of calls of the interface on toggles, dispose apart: two toggles whose
    parents are shown have the same parent. *)
Theorem one_menu_open p es :
  based p → pdata p = ∅ → (∀ q, ¬ shown p q) → Forall fair es →
  let p' := foldl run_event p es in ∀ q1 q2, shown p' q1 → shown p' q2 → q1 = q2.
Proof.
  intros Hb Hd Hn Hes p'. enough (one_open p') as H by apply H. subst p'.
  assert (Hp : one_open p) by (split; [done|intros q1 q2 []%Hn|intros q []%Hn]). clear Hb Hd Hn.
  revert p Hp. induction Hes as [|e es He Hes IH]; intros p Hp; [done|]. cbn [foldl]. apply IH.
  destruct e; cbn [run_event].
  - by apply keeps_click.
  - by apply keeps_keydown.
  - by apply keeps_clear.
  - destruct He. by apply keeps_interface.
Qed.

End life.

(** ** Two dropdowns, clicked one after the other *)

(** [#id] selects the element with this identifier; somebody prevents that a
    third dropdown is shown. *)
Definition life_browser : Browser := {|
  query d s := Some match s with
    | String _ i => filter (λ n, Dom.sel_id i d n = true) (elements (base.dom d : gset nid)) | EmptyString => [] end;
  all_nodes d := elements (base.dom d : gset nid);
  escapeSelector s := "\" +:+ s;
  prevents _ n e := bool_decide (n = 7%nat ∧ e = "show.bs.dropdown");
  supportsTransitionEnd := true
|}.
Definition life_doc : dom :=
  <[7%nat := Elem "div" "" ["dropdown"] ∅ ∅ None [8%nat; 9%nat]]>
  (<[8%nat := Elem "button" "" ["btn"] toggle_attrs ∅ (Some 7%nat) []]>
  (<[9%nat := Elem "div" "" ["dropdown-menu"] ∅ ∅ (Some 7%nat) []]>
  (Dom.removeClass "show" 4 (Dom.removeClass "show" 6 sample_doc)))).
Definition life_events : list event := [Click 1 2; Click 1 5; Keydown 40 5; Click 1 8; Interface ∅ (Some "toggle") [5%nat]].

Lemma life_nodes d d' : similar d d' → all_nodes (Browser:=life_browser) d' = all_nodes (Browser:=life_browser) d.
Proof. intros H. cbn. f_equal. apply set_eq. intros n. rewrite !elem_of_dom. by apply similar_present. Qed.
Lemma life_steady s : steady (B:=life_browser) s.
Proof.
  intros d d' H. cbn [query life_browser]. destruct s as [|c i]; [done|]. f_equal.
  pose proof (life_nodes d d' H) as E. cbn [all_nodes life_browser] in E. rewrite E. apply list_filter_iff.
  intros n. by rewrite (sel_id_similar d d').
Qed.
Abbreviation life_toggles := [8; 2; 5]%nat.

Lemma one_menu_open_witness :
  let p' := foldl (run_event (B:=life_browser) false (λ _, []) (λ _ _, ∅)) (BPage life_doc [] [] ∅ 0) life_events in
  (∀ q1 q2, shown (B:=life_browser) life_toggles p' q1 → shown (B:=life_browser) life_toggles p' q2 → q1 = q2) ∧
  shown (B:=life_browser) life_toggles p' 4.
Proof.
  split.
  - apply (one_menu_open (B:=life_browser) false (λ _, []) (λ _ _, ∅)).
    + apply life_nodes.
    + intros d n H. cbn. by apply elem_of_elements, elem_of_dom.
    + intros d n. cbn. apply bool_decide_eq_false. by intros [_ ?].
    + split; [vm_compute; reflexivity|intros t _; apply life_steady|done|].
      intros t q Ht. repeat (apply elem_of_cons in Ht as [->|Ht]); [..|by apply elem_of_nil in Ht];
        vm_compute; by intros [= <-].
    + done.
    + intros q (t & Ht & Hq & Hs). repeat (apply elem_of_cons in Ht as [->|Ht]); [..|by apply elem_of_nil in Ht];
        vm_compute in Hq; injection Hq as <-; vm_compute in Hs; done.
    + do 4 (constructor; [exact I|]). constructor; [|constructor]. split; [done|]. set_solver.
  - exists 5%nat. split; [set_solver|]. split; vm_compute; reflexivity.
Defined.

End DropdownLife.
