(* ===== verification/JsObject.v ===== *)
(** * JavaScript objects

    The object model that the helper functions of bootstrap.js and of Popper work
    with: a heap of objects with a prototype and an ordered list of properties,
    each with its attributes.  Reading goes along the chain of prototypes,
    assignment is that of strict mode.  The getters of the sources return a
    variable that is never assigned again, so a getter is kept as the value it
    returns; there are no setters.  The properties [length] and [name] of
    functions are left out, and the keys of properties are strings: the sources
    use no symbols, which [Object.assign] would copy and a [for] loop would not. *)

From S2P Require Import Prelude.
Local Open Scope string_scope.
Local Open Scope list_scope.

Module JsObject.

Notation loc := nat (only parsing).

Inductive val :=
  | Undef
  | Null
  | Bool (b : bool)
  | Num (n : Z)
  | Str (s : string)
  | Ref (l : loc).

#[export] Instance val_eq_dec : EqDecision val.
Proof. solve_decision. Defined.

Inductive prop :=
  | Data (v : val) (writable enumerable configurable : bool)
  | Getter (v : val) (enumerable configurable : bool).

Definition value_of (p : prop) : val := match p with Data v _ _ _ | Getter v _ _ => v end.
Definition enumerable (p : prop) : bool := match p with Data _ _ e _ | Getter _ e _ => e end.
Definition configurable (p : prop) : bool := match p with Data _ _ _ c | Getter _ _ c => c end.
Definition assignable (p : prop) : bool := match p with Data _ w _ _ => w | Getter _ _ _ => false end.

(** A function has the class and the name it is written with in the source. *)
Definition fn := (string * string)%type.
Record object := Object { proto : option loc; props : list (string * prop); code : option fn }.
Notation heap := (list object).

Fixpoint own (k : string) (ps : list (string * prop)) : option prop :=
  match ps with
  | [] => None
  | (k', p) :: ps' => if bool_decide (k = k') then Some p else own k ps'
  end.
(** A property keeps its place when it is changed; new ones come last. *)
Fixpoint put_own (k : string) (p : prop) (ps : list (string * prop)) : list (string * prop) :=
  match ps with
  | [] => [(k, p)]
  | (k', p') :: ps' => if bool_decide (k = k') then (k, p) :: ps' else (k', p') :: put_own k p ps'
  end.

Definition with_props (ps : list (string * prop)) (o : object) : object := Object (proto o) ps (code o).
Definition with_proto (l : loc) (o : object) : object := Object (Some l) (props o) (code o).

Definition get_own (h : heap) (l : loc) (k : string) : option prop := o ← h !! l; own k (props o).
Definition set_own (l : loc) (k : string) (p : prop) (h : heap) : heap :=
  alter (λ o, with_props (put_own k p (props o)) o) l h.

(** The object and its prototypes. *)
Fixpoint chain (fuel : nat) (h : heap) (l : loc) : list loc :=
  match fuel with
  | O => []
  | S f => l :: match h !! l ≫= proto with Some p => chain f h p | None => [] end
  end.
(** A prototype is older than the object, see [ordered]. *)
Definition protos (h : heap) (l : loc) : list loc := chain (S l) h l.

Fixpoint first_own (h : heap) (k : string) (ls : list loc) : option prop :=
  match ls with
  | [] => None
  | l :: ls' => match get_own h l k with Some p => Some p | None => first_own h k ls' end
  end.
Definition search (h : heap) (l : loc) (k : string) : option prop := first_own h k (protos h l).

(** [l[k]] *)
Definition get (l : loc) (k : string) : jsM heap val :=
  mget (λ h, from_option value_of Undef (search h l k)).

(** [l[k] = v] in strict mode *)
Definition put (l : loc) (k : string) (v : val) : jsM heap () := λ h,
  match get_own h l k with
  | Some (Data _ true e c) => (set_own l k (Data v true e c) h, Ret ())
  | Some _ => (h, Throw TypeError)
  | None =>
      if from_option assignable true (search h l k)
      then (set_own l k (Data v true true true) h, Ret ()) else (h, Throw TypeError)
  end.

(** ** [Object.defineProperty] *)

Record desc := Desc {
  d_value : option val;
  d_get : option val;
  d_writable : option bool;
  d_enumerable : option bool;
  d_configurable : option bool
}.

(** A property that may not be configured only accepts what does not change it;
    the getter of a descriptor is a new function, different from the old one. *)
Definition allowed (p : prop) (d : desc) : bool :=
  configurable p ||
  (negb (default false (d_configurable d)) &&
   bool_decide (default (enumerable p) (d_enumerable d) = enumerable p) &&
   match p with
   | Getter _ _ _ => match d_get d, d_value d, d_writable d with None, None, None => true | _, _, _ => false end
   | Data v w _ _ =>
       match d_get d with
       | Some _ => false
       | None => w || (negb (default false (d_writable d)) && bool_decide (default v (d_value d) = v))
       end
   end).

Definition new_prop (cur : option prop) (d : desc) : prop :=
  let e := default (from_option enumerable false cur) (d_enumerable d) in
  let c := default (from_option configurable false cur) (d_configurable d) in
  match cur, d_get d, d_value d, d_writable d with
  | _, Some g, _, _ => Getter g e c
  | Some (Getter g _ _), None, None, None => Getter g e c
  | Some (Data v w _ _), None, v', w' => Data (default v v') (default w w') e c
  | _, None, v', w' => Data (default Undef v') (default false w') e c
  end.

Definition defineProperty (target : val) (k : string) (d : desc) : jsM heap () := λ h,
  match target, d_get d, d_value d, d_writable d with
  | Ref _, Some _, Some _, _ | Ref _, Some _, _, Some _ => (h, Throw TypeError)
  | Ref l, _, _, _ =>
      let cur := get_own h l k in
      if from_option (λ p, allowed p d) true cur then (set_own l k (new_prop cur d) h, Ret ())
      else (h, Throw TypeError)
  | _, _, _, _ => (h, Throw TypeError)
  end.

(** ** Creating objects *)

Definition alloc (o : object) : jsM heap loc := λ h, (h ++ [o], Ret (length h)).
Definition as_loc (v : val) : jsM heap loc := match v with Ref l => mret l | _ => mthrow TypeError end.
(** [Object.create(v)] for an object [v] *)
Definition create (v : val) : jsM heap loc := l ← as_loc v; alloc (Object (Some l) [] None).

(** The assignment [l.__proto__ = p] throws when a cycle would come about. *)
Definition set_proto (l p : loc) : jsM heap () := λ h,
  if bool_decide (l ∈ protos h p) then (h, Throw TypeError) else (alter (with_proto p) l h, Ret ()).

(** [l instanceof C] *)
Definition instanceof (l c : loc) : jsM heap bool :=
  v ← get c "prototype"; p ← as_loc v; mget (λ h, bool_decide (p ∈ tail (protos h l))).

Section realm.
Context (object_proto function_proto : loc).

(** An object literal. *)
Definition literal (fields : list (string * val)) : jsM heap loc :=
  alloc (Object (Some object_proto) (foldl (λ ps kv, put_own kv.1 (Data kv.2 true true true) ps) [] fields) None).

(** A function comes with an object for its property [prototype]. *)
Definition new_function (c : fn) : jsM heap loc :=
  f ← alloc (Object (Some function_proto) [] (Some c));
  p ← alloc (Object (Some object_proto) [("constructor", Data (Ref f) true false true)] None);
  mupdate (set_own f "prototype" (Data (Ref p) true false false)) ;;
  mret f.

(** The object that [new C] gives to the constructor, before its body runs. *)
Definition new_object (c : loc) : jsM heap loc :=
  v ← get c "prototype";
  alloc (Object (Some (match v with Ref p => p | _ => object_proto end)) [] None).
End realm.

(** ** Enumeration *)

Definition own_keys (h : heap) (l : loc) : list string := from_option (λ o, (props o).*1) [] (h !! l).
Definition enumerable_in (h : heap) (l : loc) (k : string) : bool := from_option enumerable false (get_own h l k).

(** [for (k in l)]: the enumerable properties along the chain, without those
    that a nearer object has as well. *)
Fixpoint keys_along (h : heap) (seen : list string) (ls : list loc) : list string :=
  match ls with
  | [] => []
  | l :: ls' =>
      filter (λ k, enumerable_in h l k = true ∧ k ∉ seen) (own_keys h l) ++
      keys_along h (seen ++ own_keys h l) ls'
  end.
Definition keys_in (h : heap) (l : loc) : list string := keys_along h [] (protos h l).

(** [Object.assign(target, ...sources)] on properties with string keys; [None] is
    undefined. *)
Definition assign_one (target : loc) (source : option loc) : jsM heap () :=
  match source with
  | None => mret ()
  | Some s =>
      ks ← mget (λ h, own_keys h s);
      meach (λ k,
        b ← mget (λ h, enumerable_in h s k);
        mguard b (v ← get s k; put target k v)) ks
  end.
Definition assign (target : loc) (sources : list (option loc)) : jsM heap loc :=
  meach (assign_one target) sources ;; mret target.

(** ** Lemmas: properties *)

Lemma own_put k k' p ps : own k (put_own k' p ps) = if bool_decide (k = k') then Some p else own k ps.
Proof.
  induction ps as [|[k2 p2] ps IH]; simpl; [done|].
  repeat case_bool_decide; subst; simpl; repeat case_bool_decide; try done; congruence.
Qed.

Lemma own_in k ps : is_Some (own k ps) ↔ k ∈ ps.*1.
Proof.
  induction ps as [|[k' p] ps IH]; simpl.
  - split; [by intros [? ?]|by intros ?%elem_of_nil].
  - rewrite elem_of_cons, <- IH. case_bool_decide; split; eauto. naive_solver.
Qed.

Lemma get_own_in h l k : is_Some (get_own h l k) ↔ k ∈ own_keys h l.
Proof.
  unfold get_own, own_keys. destruct (h !! l) as [o|]; simpl; [apply own_in|].
  split; [by intros [? ?]|by intros ?%elem_of_nil].
Qed.

Lemma get_set_own h l k p l' k' :
  (l < length h)%nat →
  get_own (set_own l k p h) l' k' = if bool_decide (l' = l ∧ k' = k) then Some p else get_own h l' k'.
Proof.
  intros Hl. unfold get_own, set_own. destruct (decide (l' = l)) as [->|Hn].
  - rewrite list_lookup_alter, decide_True by done.
    destruct (lookup_lt_is_Some_2 h l Hl) as [o Ho]. rewrite Ho. simpl.
    rewrite own_put. repeat case_bool_decide; tauto.
  - rewrite list_lookup_alter_ne by done. by rewrite bool_decide_false by tauto.
Qed.

(** ** Lemmas: chains of prototypes *)

Definition ordered (h : heap) : Prop := ∀ l o p, h !! l = Some o → proto o = Some p → (p < l)%nat.

Lemma ordered_proto h l p : ordered h → h !! l ≫= proto = Some p → (p < l)%nat.
Proof. intros Ho. destruct (h !! l) as [o|] eqn:E; simpl; [by apply Ho|done]. Qed.

Lemma chain_fuel h f f' l : ordered h → (l < f)%nat → (l < f')%nat → chain f h l = chain f' h l.
Proof.
  intros Ho. revert f' l; induction f as [|f IH]; intros f' l Hf Hf'; [lia|].
  destruct f' as [|f']; [lia|]. simpl. f_equal. destruct (h !! l ≫= proto) as [p|] eqn:E; [|done].
  apply ordered_proto in E; [|done]. apply IH; lia.
Qed.

Lemma protos_step h l : ordered h → protos h l = l :: from_option (protos h) [] (h !! l ≫= proto).
Proof.
  intros Ho. unfold protos at 1. cbn [chain]. f_equal. destruct (h !! l ≫= proto) as [p|] eqn:E; [|done].
  apply ordered_proto in E; [|done]. apply chain_fuel; [done|lia..].
Qed.

(** Reading looks at the object first and then at its prototype. *)
Lemma search_step h l k :
  ordered h →
  search h l k = match get_own h l k with Some p => Some p | None => (h !! l ≫= proto) ≫= λ p, search h p k end.
Proof.
  intros Ho. unfold search at 1. rewrite protos_step by done. cbn [first_own].
  destruct (get_own h l k); [done|]. by destruct (h !! l ≫= proto).
Qed.

(** What is found at [l] depends on the objects up to [l] only. *)
Lemma search_below h h' l k :
  ordered h → ordered h' → (∀ l', l' ≤ l → h' !! l' = h !! l')%nat → search h' l k = search h l k.
Proof.
  intros Ho Ho'. induction l as [l IH] using lt_wf_ind. intros Hb.
  rewrite !search_step by done. unfold get_own. rewrite Hb by lia.
  destruct (h !! l ≫= λ o, own k (props o)); [done|]. destruct (h !! l ≫= proto) as [p|] eqn:E; [|done]. simpl.
  apply ordered_proto in E; [|done]. apply IH; [done|]. intros l' Hl'. apply Hb. lia.
Qed.

(** ** Lemmas: what a piece of program does to the heap

    Objects are never removed and functions stay what they are; objects that are
    not in [T] do not change at all. *)

Record evolves (T : list loc) (h h' : heap) : Prop := {
  ev_ordered : ordered h';
  ev_objects : ∀ l o, h !! l = Some o → ∃ o', h' !! l = Some o' ∧ code o' = code o ∧ (l ∉ T → o' = o)
}.

Lemma evolves_refl T h : ordered h → evolves T h h.
Proof. intros Ho. split; [done|]. naive_solver. Qed.
Lemma evolves_trans T h1 h2 h3 : evolves T h1 h2 → evolves T h2 h3 → evolves T h1 h3.
Proof.
  intros [_ H1] [Ho H2]. split; [done|]. intros l o Hl.
  destruct (H1 l o Hl) as (o2 & Hl2 & Hc2 & Hs2). destruct (H2 l o2 Hl2) as (o3 & Hl3 & Hc3 & Hs3).
  exists o3. split_and!; [done|congruence|]. intros Hn. rewrite Hs3, Hs2; done.
Qed.
Lemma evolves_weaken T T' h h' : (∀ l, l ∈ T → l ∈ T' ∨ (length h ≤ l)%nat) → evolves T h h' → evolves T' h h'.
Proof.
  intros HT [Ho H]. split; [done|]. intros l o Hl. destruct (H l o Hl) as (o' & ? & ? & Hs).
  exists o'. split_and!; [done..|]. intros Hn. apply Hs. intros [?|Hge]%HT; [done|].
  apply lookup_lt_Some in Hl. lia.
Qed.

Lemma evolves_length T h h' : evolves T h h' → (length h ≤ length h')%nat.
Proof.
  intros [_ H]. destruct (length h) as [|n] eqn:E; [lia|].
  destruct (lookup_lt_is_Some_2 h n) as [o Ho]; [lia|]. destruct (H n o Ho) as (o' & Hl & _).
  apply lookup_lt_Some in Hl. lia.
Qed.
Lemma evolves_same T h h' l : evolves T h h' → (l < length h)%nat → l ∉ T → h' !! l = h !! l.
Proof.
  intros [_ H] Hl Hn. destruct (lookup_lt_is_Some_2 h l Hl) as [o Ho]. rewrite Ho.
  destruct (H l o Ho) as (o' & Hl' & _ & Hs). by rewrite Hl', Hs.
Qed.
Lemma evolves_search T h h' l k :
  ordered h → evolves T h h' → (l < length h)%nat → (∀ l', l' ∈ T → (l < l')%nat) → search h' l k = search h l k.
Proof.
  intros Ho He Hl HT. apply search_below; [done|apply He|]. intros l' Hle. eapply evolves_same; [done|lia|].
  intros Hin%HT. lia.
Qed.

Lemma evolves_alloc T h o : ordered h → (∀ p, proto o = Some p → p < length h)%nat → evolves T h (h ++ [o]).
Proof.
  intros Ho Hp. split.
  - intros l o' p [Hl|[Hlen Hl]]%lookup_app_Some Hpr; [by eapply Ho|].
    destruct (l - length h)%nat eqn:E; [|done]. injection Hl as <-. specialize (Hp p Hpr). lia.
  - intros l o' Hl. exists o'. split; [by apply lookup_app_l_Some|done].
Qed.
Lemma evolves_alter T h l f :
  ordered h → l ∈ T → (∀ o, code (f o) = code o) →
  (∀ o p, h !! l = Some o → proto (f o) = Some p → (p < l)%nat) → evolves T h (alter f l h).
Proof.
  intros Ho Hin Hc Hp. split.
  - intros l' o' p Hl Hpr. rewrite list_lookup_alter in Hl. destruct (decide (l = l')) as [<-|]; [|by eapply Ho].
    destruct (h !! l) as [o|] eqn:E; [|done]. injection Hl as <-. by eapply Hp.
  - intros l' o Hl. rewrite list_lookup_alter. destruct (decide (l = l')) as [<-|]; rewrite Hl; simpl; [|eauto].
    exists (f o). split_and!; [done|apply Hc|done].
Qed.
Lemma evolves_set_own T h l k p : ordered h → l ∈ T → evolves T h (set_own l k p h).
Proof. intros Ho Hin. apply evolves_alter; [done..|]. intros o q Hl Hq. by eapply Ho. Qed.

End JsObject.
