(* ===== verification/BsNames.v ===== *)
(** * Bootstrap: the names of the plugins

    The constants at the head of each plugin of bootstrap.js: its name and
    version, the keys of its data and events, the events it triggers and listens
    to, and the classes and selectors it uses, as texts. *)

From S2P Require Import Prelude.
Local Open Scope string_scope.
Local Open Scope list_scope.

Module BsNames.

(** The double quote. *)
Definition dq : string := String (Ascii.ascii_of_nat 34) EmptyString.

Module Alert.
Definition NAME : string := "alert".
Definition VERSION : string := "4.0.0".
Definition DATA_KEY : string := "bs.alert".
Definition EVENT_KEY : string := "." +:+ DATA_KEY.
Definition DATA_API_KEY : string := ".data-api".
Definition Event : list (string * string) :=
  [("CLOSE", "close" +:+ EVENT_KEY);
   ("CLOSED", "closed" +:+ EVENT_KEY);
   ("CLICK_DATA_API", "click" +:+ EVENT_KEY +:+ DATA_API_KEY)].
Definition ClassName : list (string * string) :=
  [("ALERT", "alert");
   ("FADE", "fade");
   ("SHOW", "show")].
Definition Selector : list (string * string) :=
  [("DISMISS", "[data-dismiss=" +:+ dq +:+ "alert" +:+ dq +:+ "]")].
End Alert.

Module Button.
Definition NAME : string := "button".
Definition VERSION : string := "4.0.0".
Definition DATA_KEY : string := "bs.button".
Definition EVENT_KEY : string := "." +:+ DATA_KEY.
Definition DATA_API_KEY : string := ".data-api".
Definition Event : list (string * string) :=
  [("CLICK_DATA_API", "click" +:+ EVENT_KEY +:+ DATA_API_KEY);
   ("FOCUS_BLUR_DATA_API", "focus" +:+ EVENT_KEY +:+ DATA_API_KEY +:+ " " +:+ "blur" +:+ EVENT_KEY +:+ DATA_API_KEY)].
Definition ClassName : list (string * string) :=
  [("ACTIVE", "active");
   ("BUTTON", "btn");
   ("FOCUS", "focus")].
Definition Selector : list (string * string) :=
  [("DATA_TOGGLE_CARROT", "[data-toggle^=" +:+ dq +:+ "button" +:+ dq +:+ "]");
   ("DATA_TOGGLE", "[data-toggle=" +:+ dq +:+ "buttons" +:+ dq +:+ "]");
   ("INPUT", "input");
   ("ACTIVE", ".active");
   ("BUTTON", ".btn")].
End Button.

Module Carousel.
Definition NAME : string := "carousel".
Definition VERSION : string := "4.0.0".
Definition DATA_KEY : string := "bs.carousel".
Definition EVENT_KEY : string := "." +:+ DATA_KEY.
Definition DATA_API_KEY : string := ".data-api".
Definition Event : list (string * string) :=
  [("SLIDE", "slide" +:+ EVENT_KEY);
   ("SLID", "slid" +:+ EVENT_KEY);
   ("KEYDOWN", "keydown" +:+ EVENT_KEY);
   ("MOUSEENTER", "mouseenter" +:+ EVENT_KEY);
   ("MOUSELEAVE", "mouseleave" +:+ EVENT_KEY);
   ("TOUCHEND", "touchend" +:+ EVENT_KEY);
   ("LOAD_DATA_API", "load" +:+ EVENT_KEY +:+ DATA_API_KEY);
   ("CLICK_DATA_API", "click" +:+ EVENT_KEY +:+ DATA_API_KEY)].
Definition ClassName : list (string * string) :=
  [("CAROUSEL", "carousel");
   ("ACTIVE", "active");
   ("SLIDE", "slide");
   ("RIGHT", "carousel-item-right");
   ("LEFT", "carousel-item-left");
   ("NEXT", "carousel-item-next");
   ("PREV", "carousel-item-prev");
   ("ITEM", "carousel-item")].
Definition Selector : list (string * string) :=
  [("ACTIVE", ".active");
   ("ACTIVE_ITEM", ".active.carousel-item");
   ("ITEM", ".carousel-item");
   ("NEXT_PREV", ".carousel-item-next, .carousel-item-prev");
   ("INDICATORS", ".carousel-indicators");
   ("DATA_SLIDE", "[data-slide], [data-slide-to]");
   ("DATA_RIDE", "[data-ride=" +:+ dq +:+ "carousel" +:+ dq +:+ "]")].
End Carousel.

Module Collapse.
Definition NAME : string := "collapse".
Definition VERSION : string := "4.0.0".
Definition DATA_KEY : string := "bs.collapse".
Definition EVENT_KEY : string := "." +:+ DATA_KEY.
Definition DATA_API_KEY : string := ".data-api".
Definition Event : list (string * string) :=
  [("SHOW", "show" +:+ EVENT_KEY);
   ("SHOWN", "shown" +:+ EVENT_KEY);
   ("HIDE", "hide" +:+ EVENT_KEY);
   ("HIDDEN", "hidden" +:+ EVENT_KEY);
   ("CLICK_DATA_API", "click" +:+ EVENT_KEY +:+ DATA_API_KEY)].
Definition ClassName : list (string * string) :=
  [("SHOW", "show");
   ("COLLAPSE", "collapse");
   ("COLLAPSING", "collapsing");
   ("COLLAPSED", "collapsed")].
Definition Selector : list (string * string) :=
  [("ACTIVES", ".show, .collapsing");
   ("DATA_TOGGLE", "[data-toggle=" +:+ dq +:+ "collapse" +:+ dq +:+ "]")].
End Collapse.

Module Dropdown.
Definition NAME : string := "dropdown".
Definition VERSION : string := "4.0.0".
Definition DATA_KEY : string := "bs.dropdown".
Definition EVENT_KEY : string := "." +:+ DATA_KEY.
Definition DATA_API_KEY : string := ".data-api".
Definition Event : list (string * string) :=
  [("HIDE", "hide" +:+ EVENT_KEY);
   ("HIDDEN", "hidden" +:+ EVENT_KEY);
   ("SHOW", "show" +:+ EVENT_KEY);
   ("SHOWN", "shown" +:+ EVENT_KEY);
   ("CLICK", "click" +:+ EVENT_KEY);
   ("CLICK_DATA_API", "click" +:+ EVENT_KEY +:+ DATA_API_KEY);
   ("KEYDOWN_DATA_API", "keydown" +:+ EVENT_KEY +:+ DATA_API_KEY);
   ("KEYUP_DATA_API", "keyup" +:+ EVENT_KEY +:+ DATA_API_KEY)].
Definition ClassName : list (string * string) :=
  [("DISABLED", "disabled");
   ("SHOW", "show");
   ("DROPUP", "dropup");
   ("DROPRIGHT", "dropright");
   ("DROPLEFT", "dropleft");
   ("MENURIGHT", "dropdown-menu-right");
   ("MENULEFT", "dropdown-menu-left");
   ("POSITION_STATIC", "position-static")].
Definition Selector : list (string * string) :=
  [("DATA_TOGGLE", "[data-toggle=" +:+ dq +:+ "dropdown" +:+ dq +:+ "]");
   ("FORM_CHILD", ".dropdown form");
   ("MENU", ".dropdown-menu");
   ("NAVBAR_NAV", ".navbar-nav");
   ("VISIBLE_ITEMS", ".dropdown-menu .dropdown-item:not(.disabled)")].
End Dropdown.

Module Modal.
Definition NAME : string := "modal".
Definition VERSION : string := "4.0.0".
Definition DATA_KEY : string := "bs.modal".
Definition EVENT_KEY : string := "." +:+ DATA_KEY.
Definition DATA_API_KEY : string := ".data-api".
Definition Event : list (string * string) :=
  [("HIDE", "hide" +:+ EVENT_KEY);
   ("HIDDEN", "hidden" +:+ EVENT_KEY);
   ("SHOW", "show" +:+ EVENT_KEY);
   ("SHOWN", "shown" +:+ EVENT_KEY);
   ("FOCUSIN", "focusin" +:+ EVENT_KEY);
   ("RESIZE", "resize" +:+ EVENT_KEY);
   ("CLICK_DISMISS", "click.dismiss" +:+ EVENT_KEY);
   ("KEYDOWN_DISMISS", "keydown.dismiss" +:+ EVENT_KEY);
   ("MOUSEUP_DISMISS", "mouseup.dismiss" +:+ EVENT_KEY);
   ("MOUSEDOWN_DISMISS", "mousedown.dismiss" +:+ EVENT_KEY);
   ("CLICK_DATA_API", "click" +:+ EVENT_KEY +:+ DATA_API_KEY)].
Definition ClassName : list (string * string) :=
  [("SCROLLBAR_MEASURER", "modal-scrollbar-measure");
   ("BACKDROP", "modal-backdrop");
   ("OPEN", "modal-open");
   ("FADE", "fade");
   ("SHOW", "show")].
Definition Selector : list (string * string) :=
  [("DIALOG", ".modal-dialog");
   ("DATA_TOGGLE", "[data-toggle=" +:+ dq +:+ "modal" +:+ dq +:+ "]");
   ("DATA_DISMISS", "[data-dismiss=" +:+ dq +:+ "modal" +:+ dq +:+ "]");
   ("FIXED_CONTENT", ".fixed-top, .fixed-bottom, .is-fixed, .sticky-top");
   ("STICKY_CONTENT", ".sticky-top");
   ("NAVBAR_TOGGLER", ".navbar-toggler")].
End Modal.

Module Tooltip.
Definition NAME : string := "tooltip".
Definition VERSION : string := "4.0.0".
Definition DATA_KEY : string := "bs.tooltip".
Definition EVENT_KEY : string := "." +:+ DATA_KEY.
Definition Event : list (string * string) :=
  [("HIDE", "hide" +:+ EVENT_KEY);
   ("HIDDEN", "hidden" +:+ EVENT_KEY);
   ("SHOW", "show" +:+ EVENT_KEY);
   ("SHOWN", "shown" +:+ EVENT_KEY);
   ("INSERTED", "inserted" +:+ EVENT_KEY);
   ("CLICK", "click" +:+ EVENT_KEY);
   ("FOCUSIN", "focusin" +:+ EVENT_KEY);
   ("FOCUSOUT", "focusout" +:+ EVENT_KEY);
   ("MOUSEENTER", "mouseenter" +:+ EVENT_KEY);
   ("MOUSELEAVE", "mouseleave" +:+ EVENT_KEY)].
Definition ClassName : list (string * string) :=
  [("FADE", "fade");
   ("SHOW", "show")].
Definition Selector : list (string * string) :=
  [("TOOLTIP", ".tooltip");
   ("TOOLTIP_INNER", ".tooltip-inner");
   ("ARROW", ".arrow")].
End Tooltip.

Module Popover.
Definition NAME : string := "popover".
Definition VERSION : string := "4.0.0".
Definition DATA_KEY : string := "bs.popover".
Definition EVENT_KEY : string := "." +:+ DATA_KEY.
Definition Event : list (string * string) :=
  [("HIDE", "hide" +:+ EVENT_KEY);
   ("HIDDEN", "hidden" +:+ EVENT_KEY);
   ("SHOW", "show" +:+ EVENT_KEY);
   ("SHOWN", "shown" +:+ EVENT_KEY);
   ("INSERTED", "inserted" +:+ EVENT_KEY);
   ("CLICK", "click" +:+ EVENT_KEY);
   ("FOCUSIN", "focusin" +:+ EVENT_KEY);
   ("FOCUSOUT", "focusout" +:+ EVENT_KEY);
   ("MOUSEENTER", "mouseenter" +:+ EVENT_KEY);
   ("MOUSELEAVE", "mouseleave" +:+ EVENT_KEY)].
Definition ClassName : list (string * string) :=
  [("FADE", "fade");
   ("SHOW", "show")].
Definition Selector : list (string * string) :=
  [("TITLE", ".popover-header");
   ("CONTENT", ".popover-body")].
End Popover.

Module ScrollSpy.
Definition NAME : string := "scrollspy".
Definition VERSION : string := "4.0.0".
Definition DATA_KEY : string := "bs.scrollspy".
Definition EVENT_KEY : string := "." +:+ DATA_KEY.
Definition DATA_API_KEY : string := ".data-api".
Definition Event : list (string * string) :=
  [("ACTIVATE", "activate" +:+ EVENT_KEY);
   ("SCROLL", "scroll" +:+ EVENT_KEY);
   ("LOAD_DATA_API", "load" +:+ EVENT_KEY +:+ DATA_API_KEY)].
Definition ClassName : list (string * string) :=
  [("DROPDOWN_ITEM", "dropdown-item");
   ("DROPDOWN_MENU", "dropdown-menu");
   ("ACTIVE", "active")].
Definition Selector : list (string * string) :=
  [("DATA_SPY", "[data-spy=" +:+ dq +:+ "scroll" +:+ dq +:+ "]");
   ("ACTIVE", ".active");
   ("NAV_LIST_GROUP", ".nav, .list-group");
   ("NAV_LINKS", ".nav-link");
   ("NAV_ITEMS", ".nav-item");
   ("LIST_ITEMS", ".list-group-item");
   ("DROPDOWN", ".dropdown");
   ("DROPDOWN_ITEMS", ".dropdown-item");
   ("DROPDOWN_TOGGLE", ".dropdown-toggle")].
End ScrollSpy.

Module Tab.
Definition NAME : string := "tab".
Definition VERSION : string := "4.0.0".
Definition DATA_KEY : string := "bs.tab".
Definition EVENT_KEY : string := "." +:+ DATA_KEY.
Definition DATA_API_KEY : string := ".data-api".
Definition Event : list (string * string) :=
  [("HIDE", "hide" +:+ EVENT_KEY);
   ("HIDDEN", "hidden" +:+ EVENT_KEY);
   ("SHOW", "show" +:+ EVENT_KEY);
   ("SHOWN", "shown" +:+ EVENT_KEY);
   ("CLICK_DATA_API", "click" +:+ EVENT_KEY +:+ DATA_API_KEY)].
Definition ClassName : list (string * string) :=
  [("DROPDOWN_MENU", "dropdown-menu");
   ("ACTIVE", "active");
   ("DISABLED", "disabled");
   ("FADE", "fade");
   ("SHOW", "show")].
Definition Selector : list (string * string) :=
  [("DROPDOWN", ".dropdown");
   ("NAV_LIST_GROUP", ".nav, .list-group");
   ("ACTIVE", ".active");
   ("ACTIVE_UL", "> li > .active");
   ("DATA_TOGGLE", "[data-toggle=" +:+ dq +:+ "tab" +:+ dq +:+ "], [data-toggle=" +:+ dq +:+ "pill" +:+ dq +:+ "], [data-toggle=" +:+ dq +:+ "list" +:+ dq +:+ "]");
   ("DROPDOWN_TOGGLE", ".dropdown-toggle");
   ("DROPDOWN_ACTIVE_CHILD", "> .dropdown-menu .active")].
End Tab.

End BsNames.
