(* ===== verification/BsClasses.v ===== *)
(** * The classes of Bootstrap and Popper: how they are made

    The functions with which bootstrap.js (lines 15 to 53) and Popper
    (bootstrap.bundle.js, lines 1738 to 1793) make classes and merge objects, on
    the heap of [JsObject], and the classes of the plugins as they are declared
    with them: which function a method call reaches, what the getters answer,
    and which objects the options are copied from. *)

From S2P Require Import Prelude JsObject BsNames.
Local Open Scope string_scope.
Local Open Scope list_scope.

Module BsClasses.
Import JsObject.

(** ** The helper functions *)

(** A descriptor as the sources write it: [{key, value}] or [{key, get}]. *)
Record member := Member { m_key : string; m_value : option val; m_get : option val; m_enumerable : option bool }.

(** Lines 15 to 23. *)
Definition descriptor_of (m : member) : desc :=
  Desc (m_value m) (m_get m) (if m_value m then Some true else None)
    (Some (default false (m_enumerable m))) (Some true).
Definition _defineProperties (target : val) (ps : list member) : jsM heap () :=
  meach (λ m, defineProperty target (m_key m) (descriptor_of m)) ps.

(** Lines 25 to 29; [None] is null. *)
Definition _createClass (c : loc) (protoProps staticProps : option (list member)) : jsM heap loc :=
  match protoProps with Some ps => v ← get c "prototype"; _defineProperties v ps | None => mret () end ;;
  match staticProps with Some ps => _defineProperties (Ref c) ps | None => mret () end ;;
  mret c.

(** Lines 49 to 53. *)
Definition _inheritsLoose (subClass superClass : loc) : jsM heap () :=
  v ← get superClass "prototype";
  p ← create v;
  put subClass "prototype" (Ref p) ;;
  v ← get subClass "prototype";
  p ← as_loc v;
  put p "constructor" (Ref subClass) ;;
  set_proto subClass superClass.

(** Lines 31 to 47: [Object.assign] where the browser has it, a loop otherwise.
    A source may be undefined. *)
Definition copy_key (target source : loc) (k : string) : jsM heap () :=
  b ← mget (λ h, bool_decide (is_Some (get_own h source k)));
  mguard b (v ← get source k; put target k v).
Definition copy_loop (target : loc) (source : option loc) : jsM heap () :=
  match source with
  | None => mret ()
  | Some s => ks ← mget (λ h, keys_in h s); meach (copy_key target s) ks
  end.
Definition _extends (native : bool) (target : loc) (sources : list (option loc)) : jsM heap loc :=
  if native then assign target sources
  else meach (copy_loop target) sources ;; mret target.

(** *** The loop does what [Object.assign] does *)

Lemma put_other target k v h h' r l :
  l ≠ target → put target k v h = (h', r) → h' !! l = h !! l.
Proof.
  intros Hn. unfold put, set_own.
  destruct (get_own h target k) as [[? [] ? ?|? ? ?]|]; [..|case_match]; intros [= <- <-]; try done;
    by apply list_lookup_alter_ne.
Qed.

(** What both do with one key of a source that does not change. *)
Definition copy_of (o : object) (target : loc) (k : string) : jsM heap () :=
  match own k (props o) with
  | Some p => mguard (enumerable p) (put target k (value_of p))
  | None => mret ()
  end.

Lemma meach_source {f : string → jsM heap ()} {o source target} ks :
  source ≠ target →
  (∀ k h, k ∈ ks → h !! source = Some o → f k h = copy_of o target k h) →
  ∀ h, h !! source = Some o → meach f ks h = meach (copy_of o target) ks h.
Proof.
  intros Hn. induction ks as [|k ks IH]; intros Hf h Ho; [done|]. cbn [meach].
  unfold mbind, jsM_bind. rewrite Hf by (done || by left).
  destruct (copy_of o target k h) as [h' [[]|e]] eqn:E; [|done].
  apply IH; [intros k' h2 Hk; apply Hf; by right|]. rewrite <- Ho. unfold copy_of in E.
  destruct (own k (props o)) as [p|]; [|by injection E as <-].
  destruct (enumerable p); [by eapply put_other|by injection E as <-].
Qed.

Lemma get_here o h source k p :
  h !! source = Some o → own k (props o) = Some p → get source k h = (h, Ret (value_of p)).
Proof.
  intros Ho Hk. unfold get, mget, search, protos. cbn [chain first_own]. unfold get_own. rewrite Ho. simpl.
  by rewrite Hk.
Qed.

Lemma assign_one_copies target source o h :
  source ≠ target → h !! source = Some o →
  assign_one target (Some source) h = meach (copy_of o target) (props o).*1 h.
Proof.
  intros Hn Ho. unfold assign_one. erewrite bind_ret by done. unfold own_keys. rewrite Ho. simpl.
  apply (meach_source _ Hn); [|done]. intros k h' _ Ho'. erewrite bind_ret by done. unfold enumerable_in, get_own, copy_of.
  rewrite Ho'. simpl. destruct (own k (props o)) as [p|] eqn:Hk; [|done]. simpl. destruct (enumerable p); [|done].
  cbn [mguard]. by erewrite bind_ret by by eapply get_here.
Qed.

Lemma keys_along_unseen h seen ls k : k ∈ keys_along h seen ls → k ∉ seen.
Proof.
  revert seen; induction ls as [|l ls IH]; intros seen Hk; [by apply elem_of_nil in Hk|].
  apply elem_of_app in Hk as [[[_ Hk] _]%list_elem_of_filter|Hk%IH]; [done|set_solver].
Qed.

(** Keys without effect can be left out. *)
Lemma meach_skip (f : string → jsM heap ()) (P : string → Prop) `{∀ k, Decision (P k)} ks h :
  (∀ k, ¬ P k → f k = mret ()) → meach f (filter P ks) h = meach f ks h.
Proof.
  intros Hf. revert h; induction ks as [|k ks IH]; intros h; [done|]. destruct (decide (P k)) as [Hk|Hk].
  - rewrite filter_cons_True by done. cbn [meach]. unfold mbind, jsM_bind.
    destruct (f k h) as [h' [[]|e]]; [apply IH|done].
  - rewrite filter_cons_False by done. cbn [meach]. rewrite (Hf k Hk). apply IH.
Qed.
Lemma meach_nothing (f : string → jsM heap ()) ks h : (∀ k, k ∈ ks → f k = mret ()) → meach f ks h = (h, Ret ()).
Proof.
  induction ks as [|k ks IH]; intros Hf; [done|]. cbn [meach]. rewrite Hf by by left.
  apply IH. intros k' Hk. apply Hf. by right.
Qed.
Lemma meach_app (f : string → jsM heap ()) ks ks' h :
  meach f (ks ++ ks') h = (meach f ks ;; meach f ks') h.
Proof.
  revert h; induction ks as [|k ks IH]; intros h; [done|]. cbn [meach app]. unfold mbind, jsM_bind.
  destruct (f k h) as [h' [[]|e]]; [|done]. rewrite IH. done.
Qed.

Lemma copy_loop_copies target source o h :
  source ≠ target → h !! source = Some o →
  copy_loop target (Some source) h = meach (copy_of o target) (props o).*1 h.
Proof.
  intros Hn Ho. unfold copy_loop. erewrite bind_ret by done.
  assert (Hkeys : own_keys h source = (props o).*1) by (unfold own_keys; by rewrite Ho).
  assert (Hget : ∀ k, get_own h source k = own k (props o)) by (intros k; unfold get_own; by rewrite Ho).
  assert (Hin : ∀ k, k ∈ keys_in h source → enumerable_in h source k = true ∨ own k (props o) = None).
  { intros k Hk. unfold keys_in, protos in Hk. cbn [chain keys_along] in Hk.
    apply elem_of_app in Hk as [[[Hk _] _]%list_elem_of_filter|Hk%keys_along_unseen]; [by left|right].
    rewrite Hkeys in Hk. apply eq_None_not_Some. by rewrite own_in. }
  transitivity (meach (copy_of o target) (keys_in h source) h).
  - apply (meach_source _ Hn); [|done]. intros k h' Hk Ho'. unfold copy_key, copy_of. erewrite bind_ret by done.
    unfold get_own. rewrite Ho'. simpl. apply Hin in Hk. unfold enumerable_in in Hk. rewrite Hget in Hk.
    destruct (own k (props o)) as [p|] eqn:E; [|done]. simpl in Hk. destruct Hk as [->|?]; [|done].
    rewrite bool_decide_true by eauto. cbn [mguard]. by erewrite bind_ret by by eapply get_here.
  - unfold keys_in, protos. cbn [chain keys_along]. rewrite Hkeys, meach_app. unfold mbind, jsM_bind.
    rewrite meach_skip.
    + destruct (meach _ _ h) as [h' [[]|e]]; [|done]. apply meach_nothing. intros k Hk%keys_along_unseen.
      unfold copy_of. destruct (own k (props o)) eqn:E; [|done]. destruct Hk. apply own_in. eauto.
    + intros k Hk. unfold copy_of. unfold enumerable_in in Hk. rewrite Hget in Hk.
      destruct (own k (props o)) as [p|]; [|done]. simpl in Hk. destruct (enumerable p); [|done].
      destruct Hk. split; [done|]. by apply not_elem_of_nil.
Qed.

Lemma copy_loop_assign target source h :
  source ≠ Some target → copy_loop target source h = assign_one target source h.
Proof.
  intros Hn. destruct source as [s|]; [|done]. assert (s ≠ target) by congruence.
  destruct (h !! s) as [o|] eqn:Ho.
  - erewrite copy_loop_copies, assign_one_copies by done. done.
  - unfold copy_loop, assign_one, mbind, jsM_bind, mget, keys_in, protos, own_keys. cbn [chain keys_along]. unfold own_keys.
    by rewrite Ho.
Qed.

(** C34. The loop for browsers without [Object.assign] does what that function does,
    for every heap and all sources other than the target: the same properties of
    the target with the same values in the same order, inherited properties and
    those that are not enumerable left out, undefined sources skipped, and the same
    exception after the same work when a property cannot be assigned. *)
Theorem extends_equivalent native target sources h :
  Some target ∉ sources → _extends native target sources h = assign target sources h.
Proof.
  intros Hn. destruct native; [done|]. unfold _extends, assign.
  assert (He : meach (copy_loop target) sources h = meach (assign_one target) sources h);
    [|unfold mbind, jsM_bind; by rewrite He].
  revert h. induction sources as [|s sources IH]; intros h; [done|]. apply not_elem_of_cons in Hn as [Hs Hn].
  cbn [meach]. unfold mbind, jsM_bind. rewrite copy_loop_assign by congruence.
  destruct (assign_one target s h) as [h' [[]|e]]; [by apply IH|done].
Qed.

(** Options with a method inherited from a page's own addition to all objects. *)
Definition sample_options : heap :=
  [Object None [("added", Data (Bool true) true true true)] None;
   Object (Some 0%nat) [] None;
   Object (Some 0%nat) [("placement", Data (Str "top") true true true); ("hidden", Data (Num 1) true false true)] None].
Lemma extends_equivalent_witness :
  Some 1%nat ∉ [Some 2%nat; None] ∧
  _extends false 1 [Some 2%nat; None] sample_options = assign 1 [Some 2%nat; None] sample_options ∧
  keys_in sample_options 2 = ["placement"; "added"].
Proof. split; [by_evaluation|]. split; [apply extends_equivalent; by_evaluation|reflexivity]. Defined.

(** ** Classes

    A class of the sources: a constructor, the functions assigned to its prototype
    and to itself, and the getters given to [_createClass]. *)

Record class_text := Class {
  cname : string;
  cmethods : list string;
  cstatics : list string;
  cgetters : list (string * val)
}.

Section classes.
Context (object_proto function_proto : loc).

(** [target.k = function k(...) {...}] *)
Definition method (cls : string) (target : loc) (k : string) : jsM heap () :=
  f ← new_function object_proto function_proto (cls, k);
  put target k (Ref f).

Definition getter (kv : string * val) : member := Member kv.1 None (Some kv.2) None.

(** The part of a class after its constructor. *)
Definition class_body (x : class_text) (c : loc) : jsM heap () :=
  v ← get c "prototype";
  p ← as_loc v;
  meach (method (cname x) p) (cmethods x) ;;
  meach (method (cname x) c) (cstatics x) ;;
  _createClass c None (Some (getter <$> cgetters x)) ;;
  mret ().
Definition declare (x : class_text) : jsM heap loc :=
  c ← new_function object_proto function_proto (cname x, cname x);
  class_body x c ;;
  mret c.
Definition declare_sub (x : class_text) (super : loc) : jsM heap loc :=
  c ← new_function object_proto function_proto (cname x, cname x);
  _inheritsLoose c super ;;
  class_body x c ;;
  mret c.

(** *** What an object has: its own methods and its other properties *)

Inductive shown := Method (c : fn) | Fixed (p : prop).

Definition code_at (h : heap) (l : loc) : option fn := h !! l ≫= code.

Definition shows (h : heap) (x : option prop) (b : option shown) : Prop :=
  match b with
  | None => x = None
  | Some (Fixed p) => x = Some p
  | Some (Method c) => ∃ f e, x = Some (Data (Ref f) true e true) ∧ code_at h f = Some c
  end.
Definition holds (h : heap) (l pr : loc) (cd : option fn) (B : gmap string shown) : Prop :=
  ∃ o, h !! l = Some o ∧ proto o = Some pr ∧ code o = cd ∧ ∀ k, shows h (own k (props o)) (B !! k).

Lemma code_evolves T h h' l c : evolves T h h' → code_at h l = Some c → code_at h' l = Some c.
Proof.
  intros He. unfold code_at. destruct (h !! l) as [o|] eqn:E; [|done]. simpl.
  destruct (ev_objects _ _ _ He l o E) as (o' & -> & Hc & _). simpl. congruence.
Qed.
Lemma shows_evolves T h h' x b : evolves T h h' → shows h x b → shows h' x b.
Proof.
  intros He. destruct b as [[c|p]|]; [|done..]. intros (f & e & Hx & Hc). exists f, e. split; [done|].
  by eapply code_evolves.
Qed.
Lemma holds_evolves T h h' l pr cd B : evolves T h h' → l ∉ T → holds h l pr cd B → holds h' l pr cd B.
Proof.
  intros He Hn (o & Ho & Hp & Hc & Hk). exists o. split_and!; [|done..|].
  - erewrite evolves_same; [done..| |done]. by eapply lookup_lt_Some.
  - intros k. by eapply shows_evolves.
Qed.

Lemma holds_own h l pr cd B k : holds h l pr cd B → shows h (get_own h l k) (B !! k).
Proof. intros (o & Ho & _ & _ & Hk). unfold get_own. rewrite Ho. apply Hk. Qed.
Lemma holds_lt h l pr cd B : holds h l pr cd B → (l < length h)%nat.
Proof. intros (o & Ho & _). by eapply lookup_lt_Some. Qed.
Lemma holds_proto h l pr cd B : ordered h → holds h l pr cd B → (pr < l)%nat.
Proof. intros Ho (o & Hl & Hp & _). by eapply Ho. Qed.

(** Reading at such an object. *)
Lemma holds_search h l pr cd B k :
  ordered h → holds h l pr cd B →
  search h l k = match get_own h l k with Some p => Some p | None => search h pr k end.
Proof.
  intros Ho (o & Hl & Hp & _). rewrite search_step by done. rewrite Hl. simpl. by rewrite Hp.
Qed.

(** Changing one property. *)
Lemma holds_set h l pr cd B k p b :
  ordered h → holds h l pr cd B → (∀ T h', evolves T h h' → shows h' (Some p) (Some b)) →
  evolves [l] h (set_own l k p h) ∧ holds (set_own l k p h) l pr cd (<[k := b]> B).
Proof.
  intros Ho (o & Hl & Hp & Hc & Hk) Hb.
  assert (He : evolves [l] h (set_own l k p h)) by (apply evolves_set_own; [done|set_solver]).
  split; [done|]. exists (with_props (put_own k p (props o)) o). split_and!; [|done..|].
  - unfold set_own. rewrite list_lookup_alter, decide_True by done. by rewrite Hl.
  - intros k'. simpl. rewrite own_put. case_bool_decide as Hkk; [subst k'; rewrite lookup_insert_eq; by eapply Hb|].
    rewrite lookup_insert_ne by done. by eapply shows_evolves.
Qed.

(** *** Functions and methods *)

Definition realm (h : heap) : Prop :=
  ordered h ∧ (object_proto < length h)%nat ∧ (function_proto < length h)%nat.

Lemma realm_evolves T h h' : realm h → evolves T h h' → realm h'.
Proof. intros (Ho & H1 & H2) He. pose proof (evolves_length _ _ _ He). split_and!; [apply He|lia..]. Qed.

Definition function_shape (p : loc) : gmap string shown :=
  {[ "prototype" := Fixed (Data (Ref p) true false false) ]}.
Definition prototype_shape (c : loc) (e : bool) : gmap string shown :=
  {[ "constructor" := Fixed (Data (Ref c) true e true) ]}.

Lemma new_function_ret h c :
  realm h →
  ∃ h', new_function object_proto function_proto c h = (h', Ret (length h)) ∧ evolves [] h h' ∧
    holds h' (length h) function_proto (Some c) (function_shape (S (length h))) ∧
    holds h' (S (length h)) object_proto None (prototype_shape (length h) false).
Proof.
  intros (Ho & H1 & H2). set (n := length h).
  set (f := Object (Some function_proto) [("prototype", Data (Ref (S n)) true false false)] (Some c)).
  set (h1 := h ++ [f]).
  set (h' := h1 ++ [Object (Some object_proto) [("constructor", Data (Ref n) true false true)] None]).
  assert (E1 : evolves [] h h1) by (apply evolves_alloc; [done|by intros p [= <-]]).
  assert (L1 : length h1 = S n) by (unfold h1, n; rewrite length_app; simpl; lia).
  assert (Hn : h' !! n = Some f) by (unfold h', h1, n; rewrite <- (app_assoc h); apply lookup_app_exact).
  exists h'. split_and!.
  - unfold new_function, alloc, mbind, jsM_bind, mupdate, mret, jsM_ret. rewrite length_app. simpl.
    f_equal. unfold set_own, h', h1, f. rewrite <- !(app_assoc h). simpl. fold n. replace (n + 1)%nat with (S n) by lia.
    rewrite <- (Nat.add_0_r n) at 1. unfold n. by rewrite alter_app_r.
  - apply (evolves_trans _ _ _ _ E1), evolves_alloc; [apply E1|]. intros p [= <-]. lia.
  - exists f; split_and!; [exact Hn|done..|]. intros k. simpl. unfold function_shape.
    case_bool_decide; subst; [by rewrite lookup_singleton_eq|by rewrite lookup_singleton_ne].
  - eexists. split_and!; [fold n; rewrite <- L1; apply lookup_app_exact|done..|].
    intros k. simpl. unfold prototype_shape. case_bool_decide; subst; [by rewrite lookup_singleton_eq|by rewrite lookup_singleton_ne].
Qed.

(** A property may be assigned if the object has it as a method or another
    ordinary property, or if no prototype has it as one that is only to be read. *)
Definition may_assign (h : heap) (pr : loc) (b : option shown) (k : string) : Prop :=
  match b with
  | None => from_option assignable true (search h pr k) = true
  | Some (Method _) => True
  | Some (Fixed p) => ∃ v e, p = Data v true e true
  end.

Lemma put_ret h l pr cd B k f c :
  ordered h → holds h l pr cd B → may_assign h pr (B !! k) k → code_at h f = Some c →
  ∃ h', put l k (Ref f) h = (h', Ret ()) ∧ evolves [l] h h' ∧ holds h' l pr cd (<[k := Method c]> B).
Proof.
  intros Ho Hl Hm Hf.
  assert (Hset : ∀ e, evolves [l] h (set_own l k (Data (Ref f) true e true) h) ∧
    holds (set_own l k (Data (Ref f) true e true) h) l pr cd (<[k := Method c]> B)).
  { intros e. apply holds_set; [done..|]. intros T h' He. exists f, e. split; [done|]. by eapply code_evolves. }
  pose proof (holds_own _ _ _ _ _ k Hl) as Hk. unfold put. destruct (B !! k) as [[c'|p]|]; simpl in *.
  - destruct Hk as (f' & e & -> & _). eexists; split; [done|apply Hset].
  - destruct Hm as (v & e & ->). rewrite Hk. eexists; split; [done|apply Hset].
  - rewrite (holds_search _ _ _ _ _ k Ho Hl), Hk, Hm. eexists; split; [done|apply Hset].
Qed.

Lemma may_assign_evolves T h h' pr b k :
  ordered h → evolves T h h' → (pr < length h)%nat → (∀ l, l ∈ T → (pr < l)%nat) →
  may_assign h pr b k → may_assign h' pr b k.
Proof. intros Ho He Hpr HT. destruct b; [done|]. simpl. by rewrite (evolves_search T h h'). Qed.

Lemma method_ret h l pr cd B cls k :
  realm h → holds h l pr cd B → may_assign h pr (B !! k) k →
  ∃ h', method cls l k h = (h', Ret ()) ∧ evolves [l] h h' ∧ holds h' l pr cd (<[k := Method (cls, k)]> B).
Proof.
  intros Hr Hl Hm. destruct (new_function_ret h (cls, k) Hr) as (h1 & E1 & He1 & Hf & _).
  pose proof (holds_proto _ _ _ _ _ (proj1 Hr) Hl). pose proof (holds_lt _ _ _ _ _ Hl).
  destruct (put_ret h1 l pr cd B k (length h) (cls, k)) as (h2 & E2 & He2 & Hl2).
  - apply He1.
  - eapply holds_evolves; [done|apply not_elem_of_nil|done].
  - eapply may_assign_evolves; [apply Hr|done|lia| |done]. by intros ? ?%elem_of_nil.
  - destruct Hf as (o & Ho & _ & Hc & _). unfold code_at. by rewrite Ho.
  - exists h2. split_and!; [unfold method; by erewrite bind_ret by exact E1| |done].
    eapply evolves_trans; [|done]. eapply evolves_weaken; [|done]. by intros ? ?%elem_of_nil.
Qed.

Definition add_methods (cls : string) (ks : list string) (B : gmap string shown) : gmap string shown :=
  foldl (λ B k, <[k := Method (cls, k)]> B) B ks.
Lemma add_methods_lookup cls ks B k :
  add_methods cls ks B !! k = if bool_decide (k ∈ ks) then Some (Method (cls, k)) else B !! k.
Proof.
  revert B; induction ks as [|k' ks IH]; intros B; [done|]. simpl. rewrite IH.
  destruct (decide (k = k')) as [->|Hn].
  - rewrite lookup_insert_eq, (bool_decide_true (k' ∈ _ :: _)) by set_solver. by case_bool_decide.
  - rewrite lookup_insert_ne by done. repeat case_bool_decide; set_solver.
Qed.

Lemma methods_ret h l pr cd B cls ks :
  realm h → holds h l pr cd B → (∀ k, k ∈ ks → may_assign h pr (B !! k) k) →
  ∃ h', meach (method cls l) ks h = (h', Ret ()) ∧ evolves [l] h h' ∧ holds h' l pr cd (add_methods cls ks B).
Proof.
  revert h B; induction ks as [|k ks IH]; intros h B Hr Hl Hm.
  { exists h. split_and!; [done|by apply evolves_refl, Hr|done]. }
  destruct (method_ret h l pr cd B cls k Hr Hl) as (h1 & E1 & He1 & Hl1); [apply Hm; by left|].
  pose proof (holds_proto _ _ _ _ _ (proj1 Hr) Hl). pose proof (holds_lt _ _ _ _ _ Hl).
  destruct (IH h1 (<[k := Method (cls, k)]> B)) as (h2 & E2 & He2 & Hl2).
  - by eapply realm_evolves.
  - done.
  - intros k' Hk'. destruct (decide (k = k')) as [<-|Hn]; [by rewrite lookup_insert_eq|].
    rewrite lookup_insert_ne by done. eapply may_assign_evolves; [apply Hr|done|lia| |apply Hm; by right].
    by intros l' ->%list_elem_of_singleton.
  - exists h2. split_and!; [cbn [meach]; by erewrite bind_ret by exact E1|by eapply evolves_trans|done].
Qed.

(** *** Getters *)

Definition add_getters (gs : list (string * val)) (B : gmap string shown) : gmap string shown :=
  foldl (λ B kv, <[kv.1 := Fixed (Getter kv.2 false true)]> B) B gs.
Lemma add_getters_other gs B k : k ∉ gs.*1 → add_getters gs B !! k = B !! k.
Proof.
  revert B; induction gs as [|[k' v] gs IH]; intros B Hk; [done|]. simpl. apply not_elem_of_cons in Hk as [Hn Hk].
  rewrite IH by done. by apply lookup_insert_ne.
Qed.
Lemma add_getters_lookup gs B k v :
  NoDup gs.*1 → (k, v) ∈ gs → add_getters gs B !! k = Some (Fixed (Getter v false true)).
Proof.
  revert B; induction gs as [|[k' v'] gs IH]; intros B Hd Hk; [by apply elem_of_nil in Hk|].
  apply NoDup_cons in Hd as [Hn Hd]. simpl in *. apply elem_of_cons in Hk as [[= -> ->]|Hk]; [|by apply IH].
  rewrite add_getters_other by done. by apply lookup_insert_eq.
Qed.

Definition may_configure (b : option shown) : Prop :=
  match b with Some (Fixed p) => configurable p = true | _ => True end.

Lemma getter_ret h l pr cd B k v :
  ordered h → holds h l pr cd B → may_configure (B !! k) →
  ∃ h', defineProperty (Ref l) k (descriptor_of (getter (k, v))) h = (h', Ret ()) ∧ evolves [l] h h' ∧
    holds h' l pr cd (<[k := Fixed (Getter v false true)]> B).
Proof.
  intros Ho Hl Hc. pose proof (holds_own _ _ _ _ _ k Hl) as Hk. unfold defineProperty. simpl.
  assert (Ha : from_option (λ p, allowed p (descriptor_of (getter (k, v)))) true (get_own h l k) = true).
  { destruct (B !! k) as [[c|p]|]; simpl in *; [destruct Hk as (f & e & -> & _)|rewrite Hk|by rewrite Hk]; simpl.
    - done.
    - unfold allowed. by rewrite Hc. }
  rewrite Ha. assert (Hnew : new_prop (get_own h l k) (descriptor_of (getter (k, v))) = Getter v false true)
    by (unfold new_prop; simpl; by destruct (get_own h l k) as [[]|]).
  rewrite Hnew. eexists. split; [done|]. by apply holds_set.
Qed.

Lemma getters_ret h l pr cd B gs :
  ordered h → holds h l pr cd B → (∀ k, k ∈ gs.*1 → may_configure (B !! k)) →
  ∃ h', _defineProperties (Ref l) (getter <$> gs) h = (h', Ret ()) ∧ evolves [l] h h' ∧
    holds h' l pr cd (add_getters gs B).
Proof.
  revert h B; induction gs as [|[k v] gs IH]; intros h B Ho Hl Hc.
  { exists h. split_and!; [done|by apply evolves_refl|done]. }
  destruct (getter_ret h l pr cd B k v Ho Hl) as (h1 & E1 & He1 & Hl1); [apply Hc; by left|].
  destruct (IH h1 (<[k := Fixed (Getter v false true)]> B)) as (h2 & E2 & He2 & Hl2); [apply He1|done| |].
  - intros k' Hk'. destruct (decide (k = k')) as [<-|Hn]; [by rewrite lookup_insert_eq|].
    rewrite lookup_insert_ne by done. apply Hc. by right.
  - exists h2. split_and!; [|by eapply evolves_trans|done]. unfold _defineProperties. rewrite fmap_cons. cbn [meach].
    by erewrite bind_ret by exact E1.
Qed.

(** *** Subclasses *)

Lemma search_own h l k p : ordered h → get_own h l k = Some p → search h l k = Some p.
Proof. intros Ho Hk. rewrite search_step by done. by rewrite Hk. Qed.
Lemma get_own_ret h l k p : ordered h → get_own h l k = Some p → get l k h = (h, Ret (value_of p)).
Proof. intros Ho Hk. unfold get, mget. by rewrite (search_own h l k p). Qed.

Lemma protos_below h l l' : ordered h → l' ∈ protos h l → (l' ≤ l)%nat.
Proof.
  intros Ho. induction l as [l IH] using lt_wf_ind. rewrite protos_step by done.
  intros [->|Hin]%elem_of_cons; [done|]. destruct (h !! l ≫= proto) as [p|] eqn:E; [|by apply elem_of_nil in Hin].
  apply ordered_proto in E; [|done]. apply IH in Hin; lia.
Qed.

Lemma holds_fixed h l pr cd B k p : holds h l pr cd B → B !! k = Some (Fixed p) → get_own h l k = Some p.
Proof. intros Hl Hk. pose proof (holds_own _ _ _ _ _ k Hl) as Hs. by rewrite Hk in Hs. Qed.

Lemma create_ret h v :
  ordered h → (v < length h)%nat →
  ∃ h', create (Ref v) h = (h', Ret (length h)) ∧ evolves [] h h' ∧ holds h' (length h) v None ∅.
Proof.
  intros Ho Hv. exists (h ++ [Object (Some v) [] None]). split_and!; [done|by apply evolves_alloc; [|intros p [= <-]]|].
  eexists. split_and!; [apply lookup_app_exact|done..].
Qed.

Lemma holds_with_proto h c pr cd B super :
  ordered h → (super < c)%nat → holds h c pr cd B →
  ∃ h', set_proto c super h = (h', Ret ()) ∧ evolves [c] h h' ∧ holds h' c super cd B.
Proof.
  intros Ho Hlt (o & Hl & Hp & Hc & Hk).
  assert (He : evolves [c] h (alter (with_proto super) c h)).
  { apply evolves_alter; [done|set_solver|done|]. by intros o' p _ [= <-]. }
  exists (alter (with_proto super) c h). split_and!; [|done|].
  - unfold set_proto. rewrite bool_decide_false; [done|]. intros Hin%protos_below; [lia|done].
  - exists (with_proto super o). rewrite list_lookup_alter, decide_True, Hl by done. split_and!; [done..|].
    intros k. by eapply shows_evolves.
Qed.

(** A new property that no prototype forbids. *)
Lemma put_new_ret h l pr cd B k v :
  ordered h → holds h l pr cd B → B !! k = None → from_option assignable true (search h pr k) = true →
  ∃ h', put l k v h = (h', Ret ()) ∧ evolves [l] h h' ∧ holds h' l pr cd (<[k := Fixed (Data v true true true)]> B).
Proof.
  intros Ho Hl Hb Ha. pose proof (holds_own _ _ _ _ _ k Hl) as Hk. rewrite Hb in Hk. simpl in Hk.
  eexists. split; [|by apply holds_set]. unfold put. by rewrite (holds_search _ _ _ _ _ k Ho Hl), Hk, Ha.
Qed.

Lemma put_prototype_ret h c pr cd p0 p :
  ordered h → holds h c pr cd (function_shape p0) →
  ∃ h', put c "prototype" (Ref p) h = (h', Ret ()) ∧ evolves [c] h h' ∧ holds h' c pr cd (function_shape p).
Proof.
  intros Ho Hc. eexists. split.
  - unfold put. by rewrite (holds_fixed _ _ _ _ _ "prototype" (Data (Ref p0) true false false) Hc).
  - destruct (holds_set h c pr cd (function_shape p0) "prototype" (Data (Ref p) true false false)
      (Fixed (Data (Ref p) true false false)) Ho Hc) as [He Hc']; [done|]. split; [done|].
    unfold function_shape in Hc'. by rewrite insert_singleton_eq in Hc'.
Qed.

(** After [_inheritsLoose] the class has a new prototype object, whose prototype is
    that of the other class; its property [constructor] is enumerable. *)
Lemma inherits_ret h c super cd scd p0 sp pr spr BS :
  ordered h → (super < c)%nat → (sp < c)%nat → holds h c pr cd (function_shape p0) →
  holds h super spr scd BS → BS !! "prototype" = Some (Fixed (Data (Ref sp) true false false)) →
  from_option assignable true (search h sp "constructor") = true →
  ∃ h', _inheritsLoose c super h = (h', Ret ()) ∧ evolves [c] h h' ∧
    holds h' c super cd (function_shape (length h)) ∧
    holds h' (length h) sp None (prototype_shape c true).
Proof.
  intros Ho Hlt Hsp Hc Hs Hbs Ha. pose proof (holds_lt _ _ _ _ _ Hc) as Hcl. set (n := length h) in *.
  destruct (create_ret h sp Ho) as (h1 & E1 & He1 & Hp1); [lia|]. fold n in E1, Hp1.
  assert (Hc1 : holds h1 c pr cd (function_shape p0)) by (eapply holds_evolves; [done|set_solver|done]).
  destruct (put_prototype_ret h1 c pr cd p0 n (ev_ordered _ _ _ He1) Hc1) as (h2 & E2 & He2 & Hc2).
  assert (Hn : ∀ l, l ∈ [c] → n ≠ l) by (intros l ->%list_elem_of_singleton; lia).
  assert (Hp2 : holds h2 n sp None ∅) by (eapply holds_evolves; [done|naive_solver|done]).
  assert (H12 : evolves [c] h h2) by (eapply evolves_trans; [eapply evolves_weaken; [|done]; set_solver|done]).
  destruct (put_new_ret h2 n sp None ∅ "constructor" (Ref c)) as (h3 & E3 & He3 & Hp3); [apply He2|done..| |].
  { rewrite (evolves_search [c] h h2); [done..|lia|]. by intros l ->%list_elem_of_singleton. }
  assert (Hc3 : holds h3 c pr cd (function_shape n)).
  { eapply holds_evolves; [done| |done]. intros ?%list_elem_of_singleton. lia. }
  destruct (holds_with_proto h3 c pr cd _ super (ev_ordered _ _ _ He3) Hlt Hc3) as (h4 & E4 & He4 & Hc4).
  exists h4. split_and!; [| |done|].
  - unfold _inheritsLoose. erewrite bind_ret by (eapply get_own_ret; [done|by eapply holds_fixed]).
    cbn [value_of]. erewrite bind_ret by exact E1. erewrite bind_ret by exact E2.
    erewrite bind_ret by (eapply get_own_ret; [apply He2|by eapply holds_fixed]). cbn [value_of as_loc].
    erewrite bind_ret by done. by erewrite bind_ret by exact E3.
  - apply (evolves_weaken [c; n]); [intros l [->|Hl%list_elem_of_singleton]%elem_of_cons; [left; set_solver|right; lia]|].
    apply (evolves_trans _ _ h2); [|apply (evolves_trans _ _ h3)]; (eapply evolves_weaken; [|done]); set_solver.
  - eapply holds_evolves; [done|naive_solver|]. done.
Qed.

(** *** A whole class *)

(** A class [x] with constructor [c] and prototype object [p], made from the class
    with these prototypes. *)
Record class_at (h : heap) (x : class_text) (c p super sproto : loc) (e : bool) : Prop := {
  ca_below : (c < p)%nat;
  ca_class : holds h c super (Some (cname x, cname x))
    (add_getters (cgetters x) (add_methods (cname x) (cstatics x) (function_shape p)));
  ca_proto : holds h p sproto None (add_methods (cname x) (cmethods x) (prototype_shape c e))
}.

(** The names of a class go together with each other and with what it inherits. *)
Definition named (x : class_text) : Prop :=
  NoDup (cgetters x).*1 ∧ "prototype" ∉ (cgetters x).*1 ∧ "prototype" ∉ cstatics x.
Definition open_at (h : heap) (l : loc) (k : string) : Prop := from_option assignable true (search h l k) = true.
Record fits (h : heap) (x : class_text) (super sproto : loc) : Prop := {
  fit_names : named x;
  fit_methods : ∀ k, k ∈ cmethods x → open_at h sproto k;
  fit_statics : ∀ k, k ∈ cstatics x → open_at h super k
}.

Lemma fits_evolves T h h' x super sproto :
  ordered h → evolves T h h' → (super < length h)%nat → (sproto < length h)%nat →
  (∀ l, l ∈ T → (super < l)%nat ∧ (sproto < l)%nat) → fits h x super sproto → fits h' x super sproto.
Proof.
  intros Ho He H1 H2 HT [Hn Hm Hs].
  split; [done| |]; intros k Hk; unfold open_at in *; (rewrite (evolves_search T h h'); [by auto|done..|]); naive_solver.
Qed.

Lemma class_body_ret h x c p super sproto e :
  realm h → (c < p)%nat → fits h x super sproto →
  holds h c super (Some (cname x, cname x)) (function_shape p) →
  holds h p sproto None (prototype_shape c e) →
  ∃ h', class_body x c h = (h', Ret ()) ∧ evolves [c; p] h h' ∧ class_at h' x c p super sproto e.
Proof.
  intros Hr Hlt [(Hd & Hg & Hn) Hm Hs] Hc Hp. unfold open_at in *. pose proof (proj1 Hr) as Ho.
  pose proof (holds_proto _ _ _ _ _ Ho Hc). pose proof (holds_lt _ _ _ _ _ Hc).
  destruct (methods_ret h p sproto None (prototype_shape c e) (cname x) (cmethods x) Hr Hp) as (h1 & E1 & He1 & Hp1).
  { intros k Hk. unfold prototype_shape. destruct (decide (k = "constructor")) as [->|Hk'].
    - rewrite lookup_singleton_eq. by eexists _, _.
    - rewrite lookup_singleton_ne by done. by apply Hm. }
  assert (Hcp : c ∉ [p]) by (intros ?%list_elem_of_singleton; lia).
  assert (Hpc : p ∉ [c]) by (intros ?%list_elem_of_singleton; lia).
  destruct (methods_ret h1 c super (Some (cname x, cname x)) (function_shape p) (cname x) (cstatics x))
    as (h2 & E2 & He2 & Hc2); [by eapply realm_evolves|by eapply holds_evolves| |].
  { intros k Hk. unfold function_shape. rewrite lookup_singleton_ne by (by intros <-). simpl.
    rewrite (evolves_search [p] h h1); [by apply Hs|done..|lia|]. intros l ->%list_elem_of_singleton. lia. }
  destruct (getters_ret h2 c super (Some (cname x, cname x)) (add_methods (cname x) (cstatics x) (function_shape p))
    (cgetters x)) as (h3 & E3 & He3 & Hc3); [apply He2|done| |].
  { intros k Hk. rewrite add_methods_lookup. case_bool_decide; [done|]. unfold function_shape.
    rewrite lookup_singleton_ne by (by intros <-). done. }
  exists h3. split_and!.
  - unfold class_body. erewrite bind_ret by (eapply get_own_ret; [done|by eapply holds_fixed]). cbn [value_of as_loc].
    erewrite bind_ret by done. erewrite bind_ret by exact E1. erewrite bind_ret by exact E2.
    unfold _createClass. erewrite bind_ret; [done|]. cbn [mbind]. erewrite bind_ret by done. by erewrite bind_ret by exact E3.
  - apply (evolves_trans _ _ h1); [|apply (evolves_trans _ _ h2)]; (eapply evolves_weaken; [|done]); set_solver.
  - split; [done..|]. by do 2 (eapply holds_evolves; [done..|]).
Qed.

Lemma declare_ret h x :
  realm h → fits h x function_proto object_proto →
  ∃ h', declare x h = (h', Ret (length h)) ∧ evolves [] h h' ∧
    class_at h' x (length h) (S (length h)) function_proto object_proto false.
Proof.
  intros Hr Hf. pose proof (proj1 Hr) as Ho.
  destruct (new_function_ret h (cname x, cname x) Hr) as (h1 & E1 & He1 & Hc & Hp).
  destruct (class_body_ret h1 x (length h) (S (length h)) function_proto object_proto false)
    as (h2 & E2 & He2 & Hca); [by eapply realm_evolves|lia| |done..|].
  { eapply fits_evolves; [done|done|apply Hr..| |done]. by intros ? ?%elem_of_nil. }
  exists h2. split_and!; [| |done].
  - unfold declare. erewrite bind_ret by exact E1. by erewrite bind_ret by exact E2.
  - apply (evolves_weaken [length h; S (length h)]); [intros l Hl; right; set_solver by lia|].
    eapply evolves_trans; [|done]. eapply evolves_weaken; [|done]. by intros ? ?%elem_of_nil.
Qed.

Section at_class.
Context {h : heap} {x : class_text} {c p super sproto : loc} {e : bool}.
Hypothesis Hord : ordered h.
Hypothesis Hx : named x.
Hypothesis Hca : class_at h x c p super sproto e.

Lemma class_prototype : get_own h c "prototype" = Some (Data (Ref p) true false false).
Proof using Hx Hca.
  destruct Hca as [_ Hc _], Hx as (_ & Hg & Hs). eapply holds_fixed; [done|]. rewrite add_getters_other by done.
  by rewrite add_methods_lookup, bool_decide_false.
Qed.

(** Reading at the prototype object: the methods of the class, its constructor,
    and for other names what the prototype of the other class has. *)
Lemma class_method k :
  k ∈ cmethods x →
  ∃ f e', search h p k = Some (Data (Ref f) true e' true) ∧ code_at h f = Some (cname x, k).
Proof using Hord Hca.
  intros Hk. destruct Hca as [_ _ Hp]. pose proof (holds_own _ _ _ _ _ k Hp) as Ho.
  rewrite add_methods_lookup, bool_decide_true in Ho by done. destruct Ho as (f & e' & Ho & Hf).
  exists f, e'. split; [by apply search_own|done].
Qed.
Lemma class_constructor :
  "constructor" ∉ cmethods x → search h p "constructor" = Some (Data (Ref c) true e true).
Proof using Hord Hca.
  intros Hk. destruct Hca as [_ _ Hp]. apply search_own; [done|]. eapply holds_fixed; [done|].
  by rewrite add_methods_lookup, bool_decide_false.
Qed.
Lemma class_inherited k : k ∉ cmethods x → k ≠ "constructor" → search h p k = search h sproto k.
Proof using Hord Hca.
  intros Hk Hn. destruct Hca as [_ _ Hp]. rewrite (holds_search _ _ _ _ _ k Hord Hp).
  pose proof (holds_own _ _ _ _ _ k Hp) as Ho. rewrite add_methods_lookup, bool_decide_false in Ho by done.
  unfold prototype_shape in Ho. rewrite lookup_singleton_ne in Ho by done. simpl in Ho. by rewrite Ho.
Qed.

(** Reading at the class itself. *)
Lemma class_getter k v : (k, v) ∈ cgetters x → get_own h c k = Some (Getter v false true).
Proof using Hx Hca.
  intros Hk. destruct Hca as [_ Hc _], Hx as (Hd & _). eapply holds_fixed; [done|]. by apply add_getters_lookup.
Qed.
Lemma class_static k :
  k ∈ cstatics x → k ∉ (cgetters x).*1 →
  ∃ f e', search h c k = Some (Data (Ref f) true e' true) ∧ code_at h f = Some (cname x, k).
Proof using Hord Hca.
  intros Hk Hg. destruct Hca as [_ Hc _]. pose proof (holds_own _ _ _ _ _ k Hc) as Ho.
  rewrite add_getters_other, add_methods_lookup, bool_decide_true in Ho by done. destruct Ho as (f & e' & Ho & Hf).
  exists f, e'. split; [by apply search_own|done].
Qed.
Lemma class_static_inherited k :
  k ∉ cstatics x → k ∉ (cgetters x).*1 → k ≠ "prototype" → search h c k = search h super k.
Proof using Hord Hca.
  intros Hk Hg Hn. destruct Hca as [_ Hc _]. rewrite (holds_search _ _ _ _ _ k Hord Hc).
  pose proof (holds_own _ _ _ _ _ k Hc) as Ho. rewrite add_getters_other, add_methods_lookup, bool_decide_false in Ho by done.
  unfold function_shape in Ho. rewrite lookup_singleton_ne in Ho by done. simpl in Ho. by rewrite Ho.
Qed.

(** What the getters are worth: they can be read and not assigned. *)
Lemma class_getter_read k v w :
  (k, v) ∈ cgetters x → get c k h = (h, Ret v) ∧ put c k w h = (h, Throw TypeError).
Proof using Hord Hx Hca.
  intros Hk%class_getter. split; [by apply (get_own_ret _ _ _ _ Hord Hk)|]. unfold put. by rewrite Hk.
Qed.

(** A subclass may define again what the class has, its getters apart. *)
Lemma class_fits x' :
  named x' → (∀ k, k ∈ cmethods x' → open_at h sproto k) →
  (∀ k, k ∈ cstatics x' → k ∉ (cgetters x).*1 ∧ open_at h super k) → fits h x' c p.
Proof using Hord Hca.
  intros Hn Hm Hs. split; [done| |]; intros k Hk; unfold open_at.
  - destruct (decide (k ∈ cmethods x)) as [Hin|Hni].
    + by destruct (class_method k Hin) as (f & e' & -> & _).
    + destruct (decide (k = "constructor")) as [->|Hc]; [by rewrite class_constructor|].
      rewrite class_inherited by done. by apply Hm.
  - destruct (Hs k Hk) as [Hg Ho]. destruct (decide (k ∈ cstatics x)) as [Hin|Hni].
    + by destruct (class_static k Hin Hg) as (f & e' & -> & _).
    + rewrite class_static_inherited; [done..|]. intros ->. by destruct Hn as (_ & _ & []).
Qed.
End at_class.

Lemma class_evolves T h h' x c p super sproto e :
  evolves T h h' → c ∉ T → p ∉ T → class_at h x c p super sproto e → class_at h' x c p super sproto e.
Proof. intros He Hc Hp [Hlt H1 H2]. split; [done|by eapply holds_evolves..]. Qed.

Lemma declare_sub_ret h x' x c p super sproto e :
  realm h → named x → class_at h x c p super sproto e → "constructor" ∉ cmethods x → fits h x' c p →
  ∃ h' p', declare_sub x' c h = (h', Ret (length h)) ∧ evolves [] h h' ∧ class_at h' x' (length h) p' c p true.
Proof.
  intros Hr Hx Hca Hk Hf. pose proof (proj1 Hr) as Ho.
  pose proof (holds_lt _ _ _ _ _ (ca_class _ _ _ _ _ _ _ Hca)). pose proof (holds_lt _ _ _ _ _ (ca_proto _ _ _ _ _ _ _ Hca)).
  destruct (new_function_ret h (cname x', cname x') Hr) as (h1 & E1 & He1 & Hc & Hp).
  assert (Hca1 : class_at h1 x c p super sproto e) by (eapply class_evolves; [done|apply not_elem_of_nil..|done]).
  assert (Ho1 : ordered h1) by apply He1. pose proof (holds_lt _ _ _ _ _ Hc).
  destruct (inherits_ret h1 (length h) c (Some (cname x', cname x')) (Some (cname x, cname x)) (S (length h)) p
    function_proto super (add_getters (cgetters x) (add_methods (cname x) (cstatics x) (function_shape p))))
    as (h2 & E2 & He2 & Hc2 & Hp2); [done|lia|lia|done|apply Hca1| |by rewrite (class_constructor Ho1 Hca1)|].
  { destruct Hx as (_ & Hg & Hs). rewrite add_getters_other by done. by rewrite add_methods_lookup, bool_decide_false. }
  assert (H02 : evolves [length h] h h2) by (eapply evolves_trans; [eapply evolves_weaken; [|done]; set_solver|done]).
  destruct (class_body_ret h2 x' (length h) (length h1) c p true) as (h3 & E3 & He3 & Hca3);
    [by eapply realm_evolves|done| |done..|].
  { apply (fits_evolves [length h] h); [done..| |done]. intros l ->%list_elem_of_singleton. lia. }
  exists h3, (length h1). split_and!; [| |done].
  - unfold declare_sub. erewrite bind_ret by exact E1. erewrite bind_ret by exact E2. by erewrite bind_ret by exact E3.
  - apply (evolves_weaken [length h; length h1]); [intros l Hl; right; set_solver by lia|].
    eapply evolves_trans; [eapply evolves_weaken; [|done]; set_solver|done].
Qed.

(** *** Object literals and merges of them *)

Definition plain (v : val) : prop := Data v true true true.
Definition fields_of (fs : list (string * val)) : list (string * prop) := (λ kv, (kv.1, plain kv.2)) <$> fs.
Definition add_fields (fs : list (string * val)) (B : gmap string shown) : gmap string shown :=
  foldl (λ B kv, <[kv.1 := Fixed (plain kv.2)]> B) B fs.

Lemma put_own_fresh k p ps : k ∉ ps.*1 → put_own k p ps = ps ++ [(k, p)].
Proof.
  induction ps as [|[k' p'] ps IH]; [done|]. intros [Hn Hk]%not_elem_of_cons. simpl.
  rewrite bool_decide_false by done. by rewrite IH.
Qed.
Lemma literal_props fs ps :
  NoDup (ps.*1 ++ fs.*1) → foldl (λ ps kv, put_own kv.1 (Data kv.2 true true true) ps) ps fs = ps ++ fields_of fs.
Proof.
  revert ps; induction fs as [|[k v] fs IH]; intros ps Hd; [by rewrite app_nil_r|]. simpl in *.
  apply NoDup_app in Hd as Hd'. destruct Hd' as (_ & Hk & _).
  rewrite put_own_fresh by (intros Hin%Hk; set_solver). rewrite IH; [by rewrite <- (app_assoc ps)|].
  by rewrite fmap_app, <- (app_assoc ps.*1).
Qed.

Lemma own_fields fs k : own k (fields_of fs) = plain <$> (list_to_map fs : gmap string val) !! k.
Proof.
  induction fs as [|[k' v] fs IH]; [done|]. simpl. case_bool_decide as Hk.
  - subst. by rewrite lookup_insert_eq.
  - rewrite lookup_insert_ne by done. exact IH.
Qed.
Lemma add_fields_lookup fs B k :
  NoDup fs.*1 →
  add_fields fs B !! k = match (list_to_map fs : gmap string val) !! k with
                         | Some v => Some (Fixed (plain v)) | None => B !! k end.
Proof.
  revert B; induction fs as [|[k' v] fs IH]; intros B; [done|]. simpl. intros [Hn Hd]%NoDup_cons. rewrite IH by done.
  destruct (decide (k = k')) as [->|Hk].
  - rewrite !lookup_insert_eq. by rewrite (not_elem_of_list_to_map_1 fs k').
  - by rewrite !lookup_insert_ne by done.
Qed.

(** A literal is an object with its fields. *)
Definition literal_at (h : heap) (l : loc) (fs : list (string * val)) : Prop :=
  h !! l = Some (Object (Some object_proto) (fields_of fs) None).

Lemma literal_ret h fs :
  realm h → NoDup fs.*1 →
  ∃ h', literal object_proto fs h = (h', Ret (length h)) ∧ evolves [] h h' ∧ literal_at h' (length h) fs.
Proof.
  intros (Ho & Hp & _) Hd. unfold literal. rewrite (literal_props fs []) by done. eexists.
  split_and!; [done|by apply evolves_alloc; [|intros p [= <-]]|]. apply lookup_app_exact.
Qed.
Lemma literal_holds h l fs :
  NoDup fs.*1 → literal_at h l fs → holds h l object_proto None (add_fields fs ∅).
Proof.
  intros Hd Hl. eexists. split_and!; [exact Hl|done..|]. intros k. simpl. rewrite own_fields, add_fields_lookup by done.
  by destruct ((list_to_map fs : gmap string val) !! k).
Qed.

(** One source is copied into an object whose fields are all ordinary ones. *)
Lemma copy_fields h target B fs o :
  ordered h → holds h target object_proto None B →
  (∀ k s, B !! k = Some s → ∃ v, s = Fixed (plain v)) → (∀ k, k ∈ fs.*1 → open_at h object_proto k) →
  (∀ k v, (k, v) ∈ fs → own k (props o) = Some (plain v)) →
  ∃ h', meach (copy_of o target) fs.*1 h = (h', Ret ()) ∧ evolves [target] h h' ∧
    holds h' target object_proto None (add_fields fs B).
Proof.
  revert h B; induction fs as [|[k v] fs IH]; intros h B Ho Hl Hb Hopen Hown.
  { exists h. split_and!; [done|by apply evolves_refl|done]. }
  assert (Hput : put target k v h = (set_own target k (plain v) h, Ret ())).
  { unfold put. pose proof (holds_own _ _ _ _ _ k Hl) as Hk. destruct (B !! k) as [sh|] eqn:E; simpl in Hk.
    - destruct (Hb k sh E) as [v' ->]. simpl in Hk. by rewrite Hk.
    - rewrite (holds_search _ _ _ _ _ k Ho Hl), Hk, Hopen by by left. done. }
  destruct (holds_set h target object_proto None B k (plain v) (Fixed (plain v)) Ho Hl) as [He1 Hl1]; [done|].
  pose proof (holds_proto _ _ _ _ _ Ho Hl). pose proof (holds_lt _ _ _ _ _ Hl).
  destruct (IH (set_own target k (plain v) h) (<[k := Fixed (plain v)]> B)) as (h' & E & He & Hl').
  - apply He1.
  - done.
  - intros k' s. destruct (decide (k = k')) as [<-|]; [rewrite lookup_insert_eq; intros [= <-]; by exists v|].
    rewrite lookup_insert_ne by done. apply Hb.
  - intros k' Hk'. unfold open_at. rewrite (evolves_search [target] h); [by apply Hopen; right|done..|lia|].
    by intros l ->%list_elem_of_singleton.
  - intros k' v' Hk'. apply Hown. by right.
  - exists h'. split_and!; [|by eapply evolves_trans|done]. cbn [fmap list_fmap meach].
    erewrite bind_ret; [exact E|]. unfold copy_of. cbn [fst]. by rewrite (Hown k v) by by left.
Qed.

Definition copy_source (native : bool) : loc → option loc → jsM heap () := if native then assign_one else copy_loop.
Lemma copy_source_ret h native target B s fs :
  ordered h → holds h target object_proto None B →
  (∀ k b, B !! k = Some b → ∃ v, b = Fixed (plain v)) → (∀ k, k ∈ fs.*1 → open_at h object_proto k) →
  literal_at h s fs → NoDup fs.*1 → s ≠ target →
  ∃ h', copy_source native target (Some s) h = (h', Ret ()) ∧ evolves [target] h h' ∧
    holds h' target object_proto None (add_fields fs B).
Proof.
  intros Ho Hl Hb Hopen Hs Hd Hn.
  destruct (copy_fields h target B fs (Object (Some object_proto) (fields_of fs) None) Ho Hl Hb Hopen)
    as (h' & E & He & Hl').
  { intros k v Hk. simpl. rewrite own_fields. by erewrite elem_of_list_to_map_1. }
  exists h'. split_and!; [|done..]. unfold copy_source. rewrite <- E.
  assert (Hkeys : (fields_of fs).*1 = fs.*1) by (unfold fields_of; by rewrite <- list_fmap_compose).
  destruct native; [erewrite assign_one_copies by done|erewrite copy_loop_copies by done]; simpl; by rewrite Hkeys.
Qed.

(** [_extends({}, a, b)] for two literals: the fields of [b], and those of [a] that
    [b] does not have. *)
Lemma extends_two h native e a b fa fb :
  ordered h → literal_at h e [] → literal_at h a fa → literal_at h b fb → e ≠ a → e ≠ b →
  NoDup fa.*1 → NoDup fb.*1 → (∀ k, k ∈ fa.*1 ++ fb.*1 → open_at h object_proto k) →
  ∃ h', _extends native e [Some a; Some b] h = (h', Ret e) ∧ evolves [e] h h' ∧
    holds h' e object_proto None (add_fields fb (add_fields fa ∅)).
Proof.
  intros Ho He Ha Hb Hna Hnb Hda Hdb Hopen. assert (Hh : holds h e object_proto None ∅) by (apply (literal_holds h e []); [constructor|done]).
  pose proof (holds_proto _ _ _ _ _ Ho Hh). pose proof (holds_lt _ _ _ _ _ Hh).
  destruct (copy_source_ret h native e ∅ a fa) as (h1 & E1 & He1 & H1); [done..|set_solver|done|done|done|].
  destruct (copy_source_ret h1 native e (add_fields fa ∅) b fb) as (h2 & E2 & He2 & H2);
    [apply He1|done| | | |done|done|].
  - intros k s Hk. rewrite add_fields_lookup in Hk by done. destruct (_ !! k) as [v|]; [|done]. injection Hk as <-. by exists v.
  - intros k Hk. unfold open_at. rewrite (evolves_search [e] h h1); [apply Hopen; set_solver|done|done|lia|].
    by intros l ->%list_elem_of_singleton.
  - unfold literal_at. rewrite (evolves_same [e] h h1); [done..|by eapply lookup_lt_Some|set_solver].
  - exists h2. split_and!; [|by eapply evolves_trans|done].
    assert (Hx : ∀ h, _extends native e [Some a; Some b] h =
      (meach (copy_source native e) [Some a; Some b] ;; mret e) h) by by destruct native.
    rewrite Hx. cbn [meach]. erewrite bind_ret; [done|]. erewrite bind_ret by exact E1. by erewrite bind_ret by exact E2.
Qed.
End classes.
End BsClasses.
