(* ===== verification/PluginClasses.v ===== *)
(** * The classes of the Bootstrap plugins

    The classes of bootstrap.js as they are declared: the functions on their
    prototypes and on themselves, their getters with the constants behind them,
    and Popover as a subclass of Tooltip.  The bodies of the functions are
    modelled in the files of the plugins. *)

From S2P Require Import Prelude JsObject BsNames BsClasses.
Local Open Scope string_scope.
Local Open Scope list_scope.

Module PluginClasses.
Import JsObject BsClasses.

Ltac member := apply list_elem_of_In; simpl; tauto.

Definition dq := BsNames.dq.
Definition strings (l : list (string * string)) : list (string * val) := (λ kv, (kv.1, Str kv.2)) <$> l.
Definition version (v : string) : string * val := ("VERSION", Str v).

(** ** The plugins without a subclass *)

(** Lines 234 to 341. *)
Definition Alert_class : class_text :=
  Class "Alert"
    ["close"; "dispose"; "_getRootElement"; "_triggerCloseEvent"; "_removeElement"; "_destroyElement"]
    ["_jQueryInterface"; "_handleDismiss"]
    [version BsNames.Alert.VERSION].

(** Lines 408 to 492. *)
Definition Button_class : class_text :=
  Class "Button" ["toggle"; "dispose"] ["_jQueryInterface"] [version BsNames.Button.VERSION].

(** Lines 556 to 562 and 984 to 994. *)
Definition Carousel_Default : list (string * val) :=
  [("interval", Num 5000); ("keyboard", Bool true); ("slide", Bool false); ("pause", Str "hover"); ("wrap", Bool true)].
Definition Carousel_class (Default : loc) : class_text :=
  Class "Carousel"
    ["next"; "nextWhenVisible"; "prev"; "pause"; "cycle"; "to"; "dispose"; "_getConfig"; "_addEventListeners";
     "_keydown"; "_getItemIndex"; "_getItemByDirection"; "_triggerSlideEvent"; "_setActiveIndicatorElement"; "_slide"]
    ["_jQueryInterface"; "_dataApiClickHandler"]
    [version BsNames.Carousel.VERSION; ("Default", Ref Default)].

(** Lines 1049 to 1052 and 1345 to 1355. *)
Definition Collapse_Default : list (string * val) := [("toggle", Bool true); ("parent", Str "")].
Definition Collapse_class (Default : loc) : class_text :=
  Class "Collapse"
    ["toggle"; "show"; "hide"; "setTransitioning"; "dispose"; "_getConfig"; "_getDimension"; "_getParent";
     "_addAriaAndCollapsedClass"]
    ["_getTargetFromElement"; "_jQueryInterface"]
    [version BsNames.Collapse.VERSION; ("Default", Ref Default)].

(** Lines 1467 to 1476 and 1813 to 1828. *)
Definition Dropdown_Default : list (string * val) :=
  [("offset", Num 0); ("flip", Bool true); ("boundary", Str "scrollParent")].
Definition Dropdown_DefaultType : list (string * val) :=
  strings [("offset", "(number|string|function)"); ("flip", "boolean"); ("boundary", "(string|element)")].
Definition Dropdown_class (Default DefaultType : loc) : class_text :=
  Class "Dropdown"
    ["toggle"; "dispose"; "update"; "_addEventListeners"; "_getConfig"; "_getMenuElement"; "_getPlacement";
     "_detectNavbar"; "_getPopperConfig"]
    ["_jQueryInterface"; "_clearMenus"; "_getParentFromElement"; "_dataApiKeydownHandler"]
    [version BsNames.Dropdown.VERSION; ("Default", Ref Default); ("DefaultType", Ref DefaultType)].

(** Lines 1886 to 1891 and 2371 to 2381. *)
Definition Modal_Default : list (string * val) :=
  [("backdrop", Bool true); ("keyboard", Bool true); ("focus", Bool true); ("show", Bool true)].
Definition Modal_class (Default : loc) : class_text :=
  Class "Modal"
    ["toggle"; "show"; "hide"; "dispose"; "handleUpdate"; "_getConfig"; "_showElement"; "_enforceFocus";
     "_setEscapeEvent"; "_setResizeEvent"; "_hideModal"; "_removeBackdrop"; "_showBackdrop"; "_adjustDialog";
     "_resetAdjustments"; "_checkScrollbar"; "_setScrollbar"; "_resetScrollbar"; "_getScrollbarWidth"]
    ["_jQueryInterface"]
    [version BsNames.Modal.VERSION; ("Default", Ref Default)].

(** Lines 3316 to 3320 and 3562 to 3572. *)
Definition ScrollSpy_Default : list (string * val) := [("offset", Num 10); ("method", Str "auto"); ("target", Str "")].
Definition ScrollSpy_class (Default : loc) : class_text :=
  Class "ScrollSpy"
    ["refresh"; "dispose"; "_getConfig"; "_getScrollTop"; "_getScrollHeight"; "_getOffsetHeight"; "_process";
     "_activate"; "_clear"]
    ["_jQueryInterface"]
    [version BsNames.ScrollSpy.VERSION; ("Default", Ref Default)].

(** Lines 3657 to 3824. *)
Definition Tab_class : class_text :=
  Class "Tab" ["show"; "dispose"; "_activate"; "_transitionComplete"] ["_jQueryInterface"] [version BsNames.Tab.VERSION].

(** ** Tooltip and Popover *)

(** Lines 2460 to 2473. *)
Definition Tooltip_DefaultType : list (string * val) :=
  strings [("animation", "boolean"); ("template", "string"); ("title", "(string|element|function)");
    ("trigger", "string"); ("delay", "(number|object)"); ("html", "boolean"); ("selector", "(string|boolean)");
    ("placement", "(string|function)"); ("offset", "(number|string)"); ("container", "(string|element|boolean)");
    ("fallbackPlacement", "(string|array)"); ("boundary", "(string|element)")].
Definition tag (name attributes body : string) : string :=
  "<" +:+ name +:+ attributes +:+ ">" +:+ body +:+ "</" +:+ name +:+ ">".
Definition class_is (c : string) : string := " class=" +:+ dq +:+ c +:+ dq.
Definition role_is (r : string) : string := " role=" +:+ dq +:+ r +:+ dq.
(** Lines 2481 to 2494. *)
Definition Tooltip_Default : list (string * val) :=
  [("animation", Bool true);
   ("template", Str (tag "div" (class_is "tooltip" +:+ role_is "tooltip")
      (tag "div" (class_is "arrow") "" +:+ tag "div" (class_is "tooltip-inner") "")));
   ("trigger", Str "hover focus"); ("title", Str ""); ("delay", Num 0); ("html", Bool false); ("selector", Bool false);
   ("placement", Str "top"); ("offset", Num 0); ("container", Bool false); ("fallbackPlacement", Str "flip");
   ("boundary", Str "scrollParent")].
(** Lines 3125 to 3128, 3131. *)
Definition Popover_own_Default : list (string * val) :=
  [("placement", Str "right"); ("trigger", Str "click"); ("content", Str "");
   ("template", Str (tag "div" (class_is "popover" +:+ role_is "tooltip")
      (tag "div" (class_is "arrow") "" +:+ tag "h3" (class_is "popover-header") "" +:+
       tag "div" (class_is "popover-body") "")))].
Definition Popover_own_DefaultType : list (string * val) := strings [("content", "(string|element|function)")].

(** Lines 2563 to 3020. *)
Definition Tooltip_methods : list string :=
  ["enable"; "disable"; "toggleEnabled"; "toggle"; "dispose"; "show"; "hide"; "update"; "isWithContent";
   "addAttachmentClass"; "getTipElement"; "setContent"; "setElementContent"; "getTitle"; "_getAttachment";
   "_setListeners"; "_fixTitle"; "_enter"; "_leave"; "_isWithActiveTrigger"; "_getConfig"; "_getDelegateConfig";
   "_cleanTipClass"; "_handlePopperPlacementChange"; "_fixTransition"].
(** Lines 3172 to 3212. *)
Definition Popover_methods : list string :=
  ["isWithContent"; "addAttachmentClass"; "getTipElement"; "setContent"; "_getContent"; "_cleanTipClass"].

(** Lines 3048 to 3083. *)
Definition Tooltip_class (Default DefaultType Event : loc) : class_text :=
  Class "Tooltip" Tooltip_methods ["_jQueryInterface"]
    [version BsNames.Tooltip.VERSION; ("Default", Ref Default); ("NAME", Str BsNames.Tooltip.NAME);
     ("DATA_KEY", Str BsNames.Tooltip.DATA_KEY); ("Event", Ref Event); ("EVENT_KEY", Str BsNames.Tooltip.EVENT_KEY);
     ("DefaultType", Ref DefaultType)].
(** Lines 3240 to 3276. *)
Definition Popover_class (Default DefaultType Event : loc) : class_text :=
  Class "Popover" Popover_methods ["_jQueryInterface"]
    [version BsNames.Popover.VERSION; ("Default", Ref Default); ("NAME", Str BsNames.Popover.NAME);
     ("DATA_KEY", Str BsNames.Popover.DATA_KEY); ("Event", Ref Event); ("EVENT_KEY", Str BsNames.Popover.EVENT_KEY);
     ("DefaultType", Ref DefaultType)].

Section load.
Context (object_proto function_proto : loc).
Notation literal := (literal object_proto).
Notation declare := (declare object_proto function_proto).
Notation declare_sub := (declare_sub object_proto function_proto).

(** Lines 2460 to 3084. *)
Definition load_Tooltip : jsM heap loc :=
  DefaultType ← literal Tooltip_DefaultType;
  Default ← literal Tooltip_Default;
  Event ← literal (strings BsNames.Tooltip.Event);
  declare (Tooltip_class Default DefaultType Event).

(** A source of [_extends] that is an object or undefined. *)
Definition source (v : val) : option loc := match v with Ref l => Some l | _ => None end.
(** [_extends({}, class[k], fields)] *)
Definition extend_static (native : bool) (c : loc) (k : string) (fields : list (string * val)) : jsM heap loc :=
  e ← literal [];
  v ← get c k;
  l ← literal fields;
  _extends native e [source v; Some l].
(** Lines 3124 to 3277. *)
Definition load_Popover (native : bool) (Tooltip : loc) : jsM heap loc :=
  Default ← extend_static native Tooltip "Default" Popover_own_Default;
  DefaultType ← extend_static native Tooltip "DefaultType" Popover_own_DefaultType;
  Event ← literal (strings BsNames.Popover.Event);
  declare_sub (Popover_class Default DefaultType Event) Tooltip.

(** ** The constructor *)

(** [this.k = v] for one field after the other. *)
Definition assign_fields (this : loc) (fs : list (string * val)) : jsM heap () := meach (λ kv, put this kv.1 kv.2) fs.

(** Lines 2546 to 2554 on the object that [new] has made; [config] is what
    [_getConfig] answers, which Tooltip.v models with [_setListeners].  Popover
    (line 3166) calls this function on its own object. *)
Definition early_fields : list (string * val) := [("_isEnabled", Bool true); ("_timeout", Num 0); ("_hoverState", Str "")].
Definition late_fields (trigger : loc) (element config : val) : list (string * val) :=
  [("_activeTrigger", Ref trigger); ("_popper", Null); ("element", element); ("config", config); ("tip", Null)].
Definition tip_names : list string :=
  ["_isEnabled"; "_timeout"; "_hoverState"; "_activeTrigger"; "_popper"; "element"; "config"; "tip"].
Definition Tooltip_constructor (this : loc) (element config : val) : jsM heap () :=
  assign_fields this early_fields ;;
  trigger ← literal [];
  assign_fields this (late_fields trigger element config).
Definition new_tip (c : loc) (element config : val) : jsM heap loc :=
  this ← new_object object_proto c;
  Tooltip_constructor this element config ;;
  mret this.

(** ** What loading them does *)

Notation realm := (realm object_proto function_proto).
Notation literal_at := (literal_at object_proto).

(** The names that the classes and their options use are free to be assigned. *)
Definition names_free (h : heap) : Prop :=
  (∀ k, k ∈ Tooltip_methods ++ Popover_methods ++ Tooltip_Default.*1 ++ Popover_own_Default.*1 ++ tip_names →
     open_at h object_proto k) ∧
  open_at h function_proto "_jQueryInterface".

Lemma open_evolves h h' l k : ordered h → evolves [] h h' → (l < length h)%nat → open_at h l k → open_at h' l k.
Proof.
  intros Ho He Hl. unfold open_at. rewrite (evolves_search [] h h'); [done..|]. by intros ? ?%elem_of_nil.
Qed.
Lemma names_free_evolves h h' : realm h → evolves [] h h' → names_free h → names_free h'.
Proof.
  intros (Ho & H1 & H2) He [Hm Hs]. split; [|by eapply open_evolves].
  intros k Hk. eapply open_evolves; [done..|by apply Hm].
Qed.
Lemma literal_evolves h h' l fs : literal_at h l fs → evolves [] h h' → literal_at h' l fs.
Proof.
  intros Hl He. unfold literal_at.
  rewrite (evolves_same [] h h'); [done..|by eapply lookup_lt_Some|apply not_elem_of_nil].
Qed.

Lemma forall_in (l l' : list string) : Forall (λ k, k ∈ l') l → ∀ k, k ∈ l → k ∈ l'.
Proof. by rewrite Forall_forall. Qed.
Lemma tooltip_named d dt ev : named (Tooltip_class d dt ev).
Proof. unfold named. simpl. by_evaluation. Qed.
Lemma popover_named d dt ev : named (Popover_class d dt ev).
Proof. unfold named. simpl. by_evaluation. Qed.

Lemma load_Tooltip_ret h :
  realm h → names_free h →
  ∃ h' t p d dt ev, load_Tooltip h = (h', Ret t) ∧ evolves [] h h' ∧
    class_at h' (Tooltip_class d dt ev) t p function_proto object_proto false ∧
    literal_at h' d Tooltip_Default ∧ literal_at h' dt Tooltip_DefaultType ∧
    literal_at h' ev (strings BsNames.Tooltip.Event).
Proof.
  intros Hr Hf.
  destruct (literal_ret object_proto function_proto h Tooltip_DefaultType Hr) as (h1 & E1 & He1 & L1); [by_evaluation|].
  assert (R1 : realm h1) by by eapply realm_evolves.
  destruct (literal_ret object_proto function_proto h1 Tooltip_Default R1) as (h2 & E2 & He2 & L2); [by_evaluation|].
  assert (R2 : realm h2) by by eapply realm_evolves.
  destruct (literal_ret object_proto function_proto h2 (strings BsNames.Tooltip.Event) R2) as (h3 & E3 & He3 & L3);
    [by_evaluation|].
  assert (R3 : realm h3) by by eapply realm_evolves.
  assert (He13 : evolves [] h1 h3) by by eapply evolves_trans.
  assert (He03 : evolves [] h h3) by by eapply evolves_trans.
  destruct (names_free_evolves h h3 Hr He03 Hf) as [Hm Hs].
  destruct (declare_ret object_proto function_proto h3 (Tooltip_class (length h1) (length h) (length h2)) R3)
    as (h4 & E4 & He4 & Hca).
  { split; [apply tooltip_named| |].
    - intros k Hk. apply Hm, elem_of_app. by left.
    - by intros k ->%list_elem_of_singleton. }
  eexists h4, _, _, (length h1), (length h), (length h2). split_and!; [|by eapply evolves_trans|exact Hca|..].
  - unfold load_Tooltip. erewrite bind_ret by exact E1. erewrite bind_ret by exact E2. by erewrite bind_ret by exact E3.
  - eapply literal_evolves; [exact L2|by eapply evolves_trans].
  - eapply literal_evolves; [exact L1|by eapply evolves_trans].
  - by eapply literal_evolves; [exact L3|].
Qed.

Lemma extend_static_ret h native c k a fa fs :
  realm h → get_own h c k = Some (Getter (Ref a) false true) → literal_at h a fa →
  NoDup fa.*1 → NoDup fs.*1 → (∀ k, k ∈ fa.*1 ++ fs.*1 → open_at h object_proto k) →
  ∃ h' e, extend_static native c k fs h = (h', Ret e) ∧ evolves [] h h' ∧ (length h ≤ e)%nat ∧
    holds h' e object_proto None (add_fields fs (add_fields fa ∅)).
Proof.
  intros Hr Hk Ha Hda Hds Ho. pose proof (lookup_lt_Some _ _ _ Ha). set (e := length h).
  destruct (literal_ret object_proto function_proto h [] Hr) as (h1 & E1 & He1 & L1); [constructor|].
  assert (R1 : realm h1) by by eapply realm_evolves.
  destruct (literal_ret object_proto function_proto h1 fs R1) as (h2 & E2 & He2 & L2); [done|].
  assert (R2 : realm h2) by by eapply realm_evolves.
  assert (He02 : evolves [] h h2) by by eapply evolves_trans.
  pose proof (lookup_lt_Some _ _ _ L1).
  destruct (extends_two object_proto h2 native e a (length h1) fa fs) as (h3 & E3 & He3 & H3).
  - apply R2.
  - by eapply literal_evolves; [exact L1|].
  - by eapply literal_evolves; [exact Ha|].
  - done.
  - unfold e. lia.
  - unfold e. lia.
  - done.
  - done.
  - intros k' Hk'. eapply open_evolves; [apply Hr|done|apply Hr|by apply Ho].
  - exists h3, e. split_and!; [| |done|done].
    + unfold extend_static. erewrite bind_ret by exact E1.
      assert (Hk1 : get_own h1 c k = Some (Getter (Ref a) false true)).
      { unfold get_own in *. destruct (h !! c) as [o|] eqn:Ec; [|done].
        rewrite (evolves_same [] h h1), Ec; [done..|by eapply lookup_lt_Some|apply not_elem_of_nil]. }
      erewrite bind_ret by (eapply get_own_ret; [apply R1|exact Hk1]). by erewrite bind_ret by exact E2.
    + apply (evolves_weaken [e]); [intros l ->%list_elem_of_singleton; by right|].
      eapply evolves_trans; [eapply evolves_weaken; [|exact He02]; by intros ? ?%elem_of_nil|done].
Qed.


(** The names of the options are among those that are free. *)
Lemma defaults_open h :
  names_free h → ∀ k, k ∈ Tooltip_Default.*1 ++ Popover_own_Default.*1 → open_at h object_proto k.
Proof. intros [Hm _] k Hk. apply Hm. revert k Hk. apply forall_in. by_evaluation. Qed.
Lemma types_open h :
  names_free h → ∀ k, k ∈ Tooltip_DefaultType.*1 ++ Popover_own_DefaultType.*1 → open_at h object_proto k.
Proof. intros [Hm _] k Hk. apply Hm. revert k Hk. apply forall_in. by_evaluation. Qed.

Lemma popover_fits h t p d dt ev d' dt' ev' :
  ordered h → names_free h → class_at h (Tooltip_class d dt ev) t p function_proto object_proto false →
  fits h (Popover_class d' dt' ev') t p.
Proof.
  intros Ho [Hm Hs] Hca. eapply class_fits; [done|done|apply popover_named| |].
  - intros k Hk. apply Hm, elem_of_app. right. apply elem_of_app. by left.
  - intros k ->%list_elem_of_singleton. split; [by_evaluation|done].
Qed.

Lemma holds_keep h h' l pr cd B : holds h l pr cd B → evolves [] h h' → holds h' l pr cd B.
Proof. intros Hl He. eapply holds_evolves; [done|apply not_elem_of_nil|done]. Qed.
Lemma class_keep h h' x c p super sproto e :
  class_at h x c p super sproto e → evolves [] h h' → class_at h' x c p super sproto e.
Proof. intros Hc He. eapply class_evolves; [done|apply not_elem_of_nil..|done]. Qed.

Lemma load_Popover_ret native h t pt d dt ev :
  realm h → names_free h → class_at h (Tooltip_class d dt ev) t pt function_proto object_proto false →
  literal_at h d Tooltip_Default → literal_at h dt Tooltip_DefaultType →
  ∃ h' c p d' dt' ev', load_Popover native t h = (h', Ret c) ∧ evolves [] h h' ∧
    class_at h' (Popover_class d' dt' ev') c p t pt true ∧
    holds h' d' object_proto None (add_fields Popover_own_Default (add_fields Tooltip_Default ∅)) ∧
    holds h' dt' object_proto None (add_fields Popover_own_DefaultType (add_fields Tooltip_DefaultType ∅)) ∧
    literal_at h' ev' (strings BsNames.Popover.Event).
Proof.
  intros Hr Hf Hca Hd Hdt.
  destruct (extend_static_ret h native t "Default" d Tooltip_Default Popover_own_Default Hr)
    as (h1 & d' & E1 & He1 & _ & H1);
    [apply (class_getter (tooltip_named d dt ev) Hca); member|done|by_evaluation|by_evaluation|by apply defaults_open|].
  assert (R1 : realm h1) by by eapply realm_evolves.
  assert (F1 : names_free h1) by by apply (names_free_evolves h).
  pose proof (class_keep _ _ _ _ _ _ _ _ Hca He1) as Hca1.
  destruct (extend_static_ret h1 native t "DefaultType" dt Tooltip_DefaultType Popover_own_DefaultType R1)
    as (h2 & dt' & E2 & He2 & _ & H2);
    [apply (class_getter (tooltip_named d dt ev) Hca1); member|by eapply literal_evolves|by_evaluation|by_evaluation|
     by apply types_open|].
  assert (R2 : realm h2) by by eapply realm_evolves.
  destruct (literal_ret object_proto function_proto h2 (strings BsNames.Popover.Event) R2) as (h3 & E3 & He3 & L3);
    [by_evaluation|].
  assert (R3 : realm h3) by by eapply realm_evolves.
  assert (He13 : evolves [] h1 h3) by by eapply evolves_trans.
  pose proof (class_keep _ _ _ _ _ _ _ _ Hca1 He13) as Hca3.
  destruct (declare_sub_ret object_proto function_proto h3 (Popover_class d' dt' (length h2)) (Tooltip_class d dt ev)
    t pt function_proto object_proto false R3 (tooltip_named _ _ _) Hca3) as (h4 & p & E4 & He4 & Hca4);
    [by_evaluation|apply (popover_fits _ _ _ d dt ev); [apply R3|by apply (names_free_evolves h1)|done]|].
  exists h4, (length h3), p, d', dt', (length h2). split_and!.
  - unfold load_Popover. erewrite bind_ret by exact E1. erewrite bind_ret by exact E2. by erewrite bind_ret by exact E3.
  - apply (evolves_trans _ _ h1); [done|by eapply evolves_trans].
  - done.
  - eapply holds_keep; [exact H1|by eapply evolves_trans].
  - eapply holds_keep; [exact H2|by eapply evolves_trans].
  - by eapply literal_evolves; [exact L3|].
Qed.

Lemma new_object_ret h x c p super sproto e :
  realm h → named x → class_at h x c p super sproto e →
  ∃ h', new_object object_proto c h = (h', Ret (length h)) ∧ evolves [] h h' ∧ holds h' (length h) p None ∅.
Proof.
  intros Hr Hx Hca. pose proof (holds_lt _ _ _ _ _ (ca_proto _ _ _ _ _ _ _ Hca)).
  exists (h ++ [Object (Some p) [] None]). split_and!.
  - unfold new_object. erewrite bind_ret by (eapply get_own_ret; [apply Hr|by eapply class_prototype]). done.
  - apply evolves_alloc; [apply Hr|]. by intros q [= <-].
  - eexists. split_and!; [apply lookup_app_exact|done..].
Qed.

(** What the constructor leaves. *)
Lemma assign_fields_ret h i p fs B :
  ordered h → holds h i p None B → (∀ k, k ∈ fs.*1 → B !! k = None) → NoDup fs.*1 →
  (∀ k, k ∈ fs.*1 → open_at h p k) →
  ∃ h', assign_fields i fs h = (h', Ret ()) ∧ evolves [i] h h' ∧ holds h' i p None (add_fields fs B).
Proof.
  revert h B. induction fs as [|[k v] fs IH]; intros h B Ho Hi Hb Hd Hopen.
  { exists h. split_and!; [done|by apply evolves_refl|done]. }
  apply NoDup_cons in Hd as [Hk Hd]. cbn in Hk. pose proof (holds_proto _ _ _ _ _ Ho Hi). pose proof (holds_lt _ _ _ _ _ Hi).
  destruct (put_new_ret h i p None B k v Ho Hi) as (h1 & E1 & He1 & H1); [apply Hb; by left|apply Hopen; by left|].
  destruct (IH h1 (<[k := Fixed (plain v)]> B)) as (h2 & E2 & He2 & H2); [apply He1|done| |done| |].
  - intros k' Hk'. rewrite lookup_insert_ne by (by intros ->). apply Hb. by right.
  - intros k' Hk'. unfold open_at. rewrite (evolves_search [i] h h1); [apply Hopen; by right|done..|lia|].
    by intros l ->%list_elem_of_singleton.
  - exists h2. split_and!; [|by eapply evolves_trans|done]. unfold assign_fields. cbn [meach].
    erewrite bind_ret by exact E1. exact E2.
Qed.

Definition tip_fields (trigger : loc) (element config : val) : gmap string shown :=
  add_fields (late_fields trigger element config) (add_fields early_fields ∅).
Lemma tip_fields_none trigger element config k : k ∉ tip_names → tip_fields trigger element config !! k = None.
Proof.
  intros Hk. unfold tip_fields. rewrite !add_fields_lookup by by_evaluation.
  rewrite !not_elem_of_list_to_map_1; [done|..]; intros Hin; apply Hk; revert Hin; apply forall_in; by_evaluation.
Qed.

Lemma new_tip_ret h x c p super sproto e element config :
  realm h → named x → class_at h x c p super sproto e → (∀ k, k ∈ tip_names → open_at h p k) →
  ∃ h' i trigger, new_tip c element config h = (h', Ret i) ∧ evolves [] h h' ∧
    holds h' i p None (tip_fields trigger element config).
Proof.
  intros Hr Hx Hca Hopen. destruct (new_object_ret h x c p super sproto e Hr Hx Hca) as (h1 & E1 & He1 & H1).
  assert (R1 : realm h1) by by eapply realm_evolves. set (i := length h) in *.
  pose proof (holds_lt _ _ _ _ _ (ca_proto _ _ _ _ _ _ _ Hca)) as Hp.
  assert (Hopen1 : ∀ h', evolves [i] h1 h' → ∀ k, k ∈ tip_names → open_at h' p k).
  { intros h' He k Hk. pose proof (holds_proto _ _ _ _ _ (proj1 R1) H1). pose proof (holds_lt _ _ _ _ _ H1).
    unfold open_at. rewrite (evolves_search [i] h1 h'); [|apply R1|done|lia|by intros l ->%list_elem_of_singleton].
    by eapply open_evolves; [apply Hr|done..|auto]. }
  destruct (assign_fields_ret h1 i p early_fields ∅) as (h2 & E2 & He2 & H2); [apply R1|done|done|by_evaluation| |].
  { intros k Hk. apply Hopen1; [by apply evolves_refl; apply R1|]. revert k Hk. apply forall_in. by_evaluation. }
  assert (R2 : realm h2) by by eapply realm_evolves.
  destruct (literal_ret object_proto function_proto h2 [] R2) as (h3 & E3 & He3 & _); [constructor|].
  assert (R3 : realm h3) by by eapply realm_evolves.
  assert (He13 : evolves [i] h1 h3) by (eapply evolves_trans; [done|eapply evolves_weaken; [|done]; by intros ? ?%elem_of_nil]).
  destruct (assign_fields_ret h3 i p (late_fields (length h2) element config) (add_fields early_fields ∅))
    as (h4 & E4 & He4 & H4); [apply R3|by eapply holds_keep| |by_evaluation| |].
  { intros k Hk. rewrite add_fields_lookup, not_elem_of_list_to_map_1; [done| |by_evaluation]. revert k Hk.
    rewrite <- Forall_forall. by_evaluation. }
  { intros k Hk. apply (Hopen1 h3 He13). revert k Hk. apply forall_in. by_evaluation. }
  exists h4, i, (length h2). split_and!; [| |exact H4].
  - unfold new_tip. erewrite bind_ret by exact E1. erewrite bind_ret; [done|]. unfold Tooltip_constructor.
    erewrite bind_ret by exact E2. erewrite bind_ret by exact E3. exact E4.
  - apply (evolves_weaken [i]); [intros l ->%list_elem_of_singleton; right; unfold i; lia|].
    eapply evolves_trans; [eapply evolves_weaken; [|exact He1]; by intros ? ?%elem_of_nil|by eapply evolves_trans].
Qed.

(** ** What the objects answer *)

(** The function that [l[k]] is, and its value. *)
Definition ask (h : heap) (l : loc) (k : string) : option fn :=
  match search h l k with Some (Data (Ref f) _ _ _) => code_at h f | _ => None end.
Definition reads (h : heap) (l : loc) (k : string) : val := from_option value_of Undef (search h l k).

(** A property can be read and an assignment to it throws and changes nothing. *)
Definition read_only (h : heap) (c : loc) (kv : string * val) : Prop :=
  get c kv.1 h = (h, Ret kv.2) ∧ ∀ w, put c kv.1 w h = (h, Throw TypeError).

(** The object at [c[k]] has these fields as its own and no others. *)
Definition options_at (h : heap) (c : loc) (k : string) (fs : list (string * val)) : Prop :=
  ∃ d, reads h c k = Ref d ∧
    ∀ k', value_of <$> get_own h d k' = (list_to_map fs : gmap string val) !! k'.

(** The classes in the order of the file, and an object of each, for an element
    and options each. *)
Definition tips_program (native : bool) (te tc pe pc : val) : jsM heap (loc * loc * loc * loc) :=
  t ← load_Tooltip;
  p ← load_Popover native t;
  i ← new_tip t te tc;
  j ← new_tip p pe pc;
  mret (t, p, i, j).

Section answers.
Context {h : heap} {x : class_text} {c p super sproto i : loc} {e : bool} {B : gmap string shown}.
Hypothesis Hord : ordered h.
Hypothesis Hx : named x.
Hypothesis Hca : class_at h x c p super sproto e.
Hypothesis Hi : holds h i p None B.

Lemma instance_search k : B !! k = None → search h i k = search h p k.
Proof using Hord Hi.
  intros Hb. rewrite (holds_search _ _ _ _ _ k Hord Hi). pose proof (holds_own _ _ _ _ _ k Hi) as Hk. rewrite Hb in Hk.
  simpl in Hk. by rewrite Hk.
Qed.
Lemma instance_method k : B !! k = None → k ∈ cmethods x → ask h i k = Some (cname x, k).
Proof using Hord Hca Hi.
  intros Hb Hk. unfold ask. rewrite instance_search by done. by destruct (class_method Hord Hca k Hk) as (f & e' & -> & ->).
Qed.
Lemma instance_constructor :
  B !! "constructor" = None → "constructor" ∉ cmethods x → reads h i "constructor" = Ref c.
Proof using Hord Hca Hi. intros Hb Hk. unfold reads. by rewrite instance_search, (class_constructor Hord Hca Hk). Qed.
Lemma instance_other k : B !! k = None → k ∉ cmethods x → k ≠ "constructor" → search h i k = search h sproto k.
Proof using Hord Hca Hi. intros Hb Hk Hn. rewrite instance_search by done. by apply (class_inherited Hord Hca). Qed.
Lemma instance_of : instanceof i c h = (h, Ret true).
Proof using Hord Hx Hca Hi.
  destruct Hi as (o & Hl & Hp & _). unfold instanceof.
  erewrite bind_ret by (eapply get_own_ret; [done|by eapply class_prototype]). cbn [value_of as_loc].
  erewrite bind_ret by done. unfold mget. do 2 f_equal. apply bool_decide_eq_true.
  rewrite protos_step by done. rewrite Hl. simpl. rewrite Hp. simpl. rewrite protos_step by done. by left.
Qed.
Lemma class_read_only : Forall (read_only h c) (cgetters x).
Proof using Hord Hx Hca.
  apply Forall_forall. intros [k v] Hk. split; [by apply (class_getter_read Hord Hx Hca k v Undef)|].
  intros w. by apply (class_getter_read Hord Hx Hca k v w).
Qed.
End answers.

Lemma fields_at h c k d fs B :
  reads h c k = Ref d → holds h d object_proto None B →
  (∀ k', B !! k' = (λ v, Fixed (plain v)) <$> (list_to_map fs : gmap string val) !! k') → options_at h c k fs.
Proof.
  intros Hk Hd HB. exists d. split; [done|]. intros k'. pose proof (holds_own _ _ _ _ _ k' Hd) as Ho. rewrite HB in Ho.
  destruct ((list_to_map fs : gmap string val) !! k'); simpl in *; by rewrite Ho.
Qed.
Lemma merged_fields fa fb k :
  NoDup fa.*1 → NoDup fb.*1 →
  add_fields fb (add_fields fa ∅) !! k = (λ v, Fixed (plain v)) <$> (list_to_map (fb ++ fa) : gmap string val) !! k.
Proof.
  intros Ha Hb. rewrite !add_fields_lookup, list_to_map_app, lookup_union by done.
  by destruct (_ !! k), (_ !! k).
Qed.

Lemma reads_getter h x c p super sproto e k v :
  ordered h → named x → class_at h x c p super sproto e → (k, v) ∈ cgetters x → reads h c k = v.
Proof. intros Ho Hx Hca Hk. unfold reads. by rewrite (search_own _ _ _ _ Ho (class_getter Hx Hca k v Hk)). Qed.

(** The options behind a getter: a literal, or a merge of two. *)
Lemma literal_options h x c p super sproto e k d fs :
  ordered h → named x → class_at h x c p super sproto e → (k, Ref d) ∈ cgetters x →
  NoDup fs.*1 → literal_at h d fs → options_at h c k fs.
Proof.
  intros Ho Hx Hca Hk Hd Hl. eapply fields_at; [by eapply reads_getter|by apply literal_holds|].
  intros k'. rewrite add_fields_lookup by done. by destruct (_ !! k').
Qed.
Lemma merged_options h x c p super sproto e k d fa fb :
  ordered h → named x → class_at h x c p super sproto e → (k, Ref d) ∈ cgetters x →
  NoDup fa.*1 → NoDup fb.*1 → holds h d object_proto None (add_fields fb (add_fields fa ∅)) →
  options_at h c k (fb ++ fa).
Proof.
  intros Ho Hx Hca Hk Ha Hb Hl. eapply fields_at; [by eapply reads_getter|done|]. intros k'. by apply merged_fields.
Qed.
Lemma some_read_only h x c p super sproto e kvs :
  ordered h → named x → class_at h x c p super sproto e → Forall (λ kv, kv ∈ cgetters x) kvs →
  Forall (read_only h c) kvs.
Proof.
  intros Ho Hx Hca Hin. pose proof (class_read_only Ho Hx Hca) as Hg. rewrite Forall_forall in Hg, Hin |- *. auto.
Qed.

(** The state after loading. *)
Lemma tip_names_open h : names_free h → ∀ k, k ∈ tip_names → open_at h object_proto k.
Proof. intros [Hm _] k Hk. apply Hm. revert k Hk. apply forall_in. by_evaluation. Qed.
Lemma tooltip_open h t pt d dt ev :
  ordered h → names_free h → class_at h (Tooltip_class d dt ev) t pt function_proto object_proto false →
  ∀ k, k ∈ tip_names → open_at h pt k.
Proof.
  intros Ho Hf Hca k Hk. unfold open_at. rewrite (class_inherited Ho Hca); [by apply tip_names_open|..];
    [revert k Hk; rewrite <- Forall_forall; by_evaluation|intros ->; revert Hk; by_evaluation].
Qed.
Lemma popover_open h t pt d dt ev c p d' dt' ev' :
  ordered h → names_free h → class_at h (Tooltip_class d dt ev) t pt function_proto object_proto false →
  class_at h (Popover_class d' dt' ev') c p t pt true → ∀ k, k ∈ tip_names → open_at h p k.
Proof.
  intros Ho Hf Hca Hcp k Hk. unfold open_at. rewrite (class_inherited Ho Hcp); [by eapply tooltip_open|..];
    [revert k Hk; rewrite <- Forall_forall; by_evaluation|intros ->; revert Hk; by_evaluation].
Qed.

Lemma tips_ret native te tc pe pc h :
  realm h → names_free h →
  ∃ h' t pt d dt ev c p d' dt' ev' i j a b,
    tips_program native te tc pe pc h = (h', Ret (t, c, i, j)) ∧ evolves [] h h' ∧
    class_at h' (Tooltip_class d dt ev) t pt function_proto object_proto false ∧
    class_at h' (Popover_class d' dt' ev') c p t pt true ∧
    holds h' i pt None (tip_fields a te tc) ∧ holds h' j p None (tip_fields b pe pc) ∧
    literal_at h' d Tooltip_Default ∧
    holds h' d' object_proto None (add_fields Popover_own_Default (add_fields Tooltip_Default ∅)) ∧
    literal_at h' dt Tooltip_DefaultType ∧
    holds h' dt' object_proto None (add_fields Popover_own_DefaultType (add_fields Tooltip_DefaultType ∅)).
Proof.
  intros Hr Hf. destruct (load_Tooltip_ret h Hr Hf) as (h1 & t & pt & d & dt & ev & E1 & He1 & C1 & D1 & T1 & _).
  assert (R1 : realm h1) by by eapply realm_evolves.
  assert (F1 : names_free h1) by by apply (names_free_evolves h).
  destruct (load_Popover_ret native h1 t pt d dt ev R1 F1 C1 D1 T1)
    as (h2 & c & p & d' & dt' & ev' & E2 & He2 & C2 & D2 & T2 & _).
  assert (R2 : realm h2) by by eapply realm_evolves.
  assert (F2 : names_free h2) by by apply (names_free_evolves h1).
  pose proof (class_keep _ _ _ _ _ _ _ _ C1 He2) as C1'.
  destruct (new_tip_ret h2 _ t pt _ _ _ te tc R2 (tooltip_named d dt ev) C1') as (h3 & i & a & E3 & He3 & I3);
    [by eapply tooltip_open; [apply R2|..]|].
  assert (R3 : realm h3) by by eapply realm_evolves.
  assert (F3 : names_free h3) by by apply (names_free_evolves h2).
  pose proof (class_keep _ _ _ _ _ _ _ _ C2 He3) as C2'. pose proof (class_keep _ _ _ _ _ _ _ _ C1' He3) as C1''.
  destruct (new_tip_ret h3 _ c p _ _ _ pe pc R3 (popover_named d' dt' ev') C2') as (h4 & j & b & E4 & He4 & I4);
    [by eapply popover_open; [apply R3|..]|].
  assert (He24 : evolves [] h2 h4) by by eapply evolves_trans.
  assert (He14 : evolves [] h1 h4) by by eapply evolves_trans.
  exists h4, t, pt, d, dt, ev, c, p, d', dt', ev', i, j, a, b. split_and!;
    [|by eapply evolves_trans|by eapply class_keep|by eapply class_keep|by eapply holds_keep|done|
     by eapply literal_evolves|by eapply holds_keep|by eapply literal_evolves|by eapply holds_keep].
  unfold tips_program. erewrite bind_ret by exact E1. erewrite bind_ret by exact E2. erewrite bind_ret by exact E3.
  by erewrite bind_ret by exact E4.
Qed.

(** The constants of a class, with the objects of options and events. *)
Definition constants (h : heap) (c : loc) (name : string) : list (string * val) :=
  [("VERSION", Str "4.0.0"); ("NAME", Str name); ("DATA_KEY", Str ("bs." +:+ name)); ("EVENT_KEY", Str (".bs." +:+ name))] ++
  ((λ k, (k, reads h c k)) <$> ["Default"; "DefaultType"; "Event"]).
(** The fields of an object that the constructor sets, with a new object for the
    triggers. *)
Definition constructed (h : heap) (i : loc) (element config : val) : Prop :=
  ∃ trigger, ∀ k, k ∈ tip_names → value_of <$> get_own h i k =
    (list_to_map (early_fields ++ late_fields trigger element config) : gmap string val) !! k.

Lemma fields_constructed h i p trigger element config :
  holds h i p None (tip_fields trigger element config) → constructed h i element config.
Proof.
  intros Hi. exists trigger. intros k _. pose proof (holds_own _ _ _ _ _ k Hi) as Hk. revert Hk.
  unfold tip_fields. rewrite !add_fields_lookup by by_evaluation. rewrite list_to_map_app, lookup_union.
  destruct ((list_to_map (late_fields _ _ _) : gmap string val) !! k) as [v|] eqn:El.
  - assert (Hn : (list_to_map early_fields : gmap string val) !! k = None).
    { apply not_elem_of_list_to_map_1. apply elem_of_list_to_map_2, list_elem_of_fmap_2 with (f := fst) in El. cbn in El.
      revert El. change (k ∈ ["_activeTrigger"; "_popper"; "element"; "config"; "tip"] → k ∉ early_fields.*1).
      revert k. rewrite <- Forall_forall. by_evaluation. }
    rewrite Hn. cbn. by intros ->.
  - destruct (list_to_map early_fields !! k); cbn; by intros ->.
Qed.
Lemma constants_read_only h x c p super sproto e name :
  ordered h → named x → class_at h x c p super sproto e →
  Forall (λ kv, kv ∈ cgetters x) [("VERSION", Str "4.0.0"); ("NAME", Str name); ("DATA_KEY", Str ("bs." +:+ name));
    ("EVENT_KEY", Str (".bs." +:+ name))] →
  Forall (λ k, k ∈ (cgetters x).*1) ["Default"; "DefaultType"; "Event"] →
  Forall (read_only h c) (constants h c name).
Proof.
  intros Ho Hx Hca H1 H2. unfold constants. apply Forall_app. split; [by eapply some_read_only|].
  apply Forall_fmap. eapply Forall_impl; [exact H2|]. intros k ([k' v] & -> & Hk)%list_elem_of_fmap. change (read_only h c (k', reads h c k')).
  rewrite (reads_getter _ _ _ _ _ _ _ _ _ Ho Hx Hca Hk). pose proof (class_read_only Ho Hx Hca) as Hg.
  rewrite Forall_forall in Hg. by apply Hg.
Qed.


(** ** The other classes *)

Definition plugin_classes (carousel collapse dropdown dropdown_type modal scrollspy : loc) : list class_text :=
  [Alert_class; Button_class; Carousel_class carousel; Collapse_class collapse; Dropdown_class dropdown dropdown_type;
   Modal_class modal; ScrollSpy_class scrollspy; Tab_class].

(** Each of the other eight plugins is a class of its own: it is made without an
    exception if its names are free, the object that [new] hands to the constructor
    is an instance of it, the methods of the object are those of the class, and the version and
    options of the class can be read and not assigned. *)
Theorem plugin_class h x d1 d2 d3 d4 d5 d6 :
  realm h → x ∈ plugin_classes d1 d2 d3 d4 d5 d6 →
  (∀ k, k ∈ cmethods x → open_at h object_proto k) → (∀ k, k ∈ cstatics x → open_at h function_proto k) →
  ∃ h' c i, (c ← declare x; i ← new_object object_proto c; mret (c, i)) h = (h', Ret (c, i)) ∧
    instanceof i c h' = (h', Ret true) ∧
    (∀ k, k ∈ cmethods x → ask h' i k = Some (cname x, k)) ∧
    reads h' i "constructor" = Ref c ∧
    Forall (read_only h' c) (cgetters x).
Proof.
  intros Hr Hx Hm Hs.
  assert (Hn : named x ∧ "constructor" ∉ cmethods x).
  { unfold named. do 8 (apply elem_of_cons in Hx as [->|Hx]; [simpl; by_evaluation|]). by apply elem_of_nil in Hx. }
  destruct Hn as [Hn Hc]. destruct (declare_ret object_proto function_proto h x Hr) as (h1 & E1 & He1 & Ca); [done|].
  assert (R1 : realm h1) by by eapply realm_evolves.
  destruct (new_object_ret h1 x _ _ _ _ _ R1 Hn Ca) as (h2 & E2 & He2 & Hi).
  pose proof (class_keep _ _ _ _ _ _ _ _ Ca He2) as Ca2. assert (Ho : ordered h2) by apply He2.
  exists h2, (length h), (length h1). split_and!.
  - erewrite bind_ret by exact E1. by erewrite bind_ret by exact E2.
  - by eapply (instance_of Ho Hn Ca2 Hi).
  - intros k Hk. by apply (instance_method Ho Ca2 Hi).
  - by apply (instance_constructor Ho Ca2 Hi).
  - by apply (class_read_only Ho Hn Ca2).
Qed.
End load.

(** ** A page: the prototypes of objects and functions with their methods *)

Definition builtins : list string := filter (.≠ "__proto__") object_prototype.
Definition sample : heap :=
  Object None (imap (λ i k, (k, Data (Ref (2 + i)) true false true)) builtins) None ::
  Object (Some 0%nat) [("length", Data (Num 0) false false true); ("name", Data (Str "") false false true)] None ::
  ((λ k, Object (Some 1%nat) [] (Some ("Object", k))) <$> builtins).

Lemma sample_is_realm : realm 0 1 sample.
Proof.
  split_and!; [|by_evaluation..]. intros l o p Hl Hp.
  do 2 (destruct l as [|l]; [injection Hl as <-; simplify_eq/=; try lia|]).
  change (((λ k, Object (Some 1%nat) [] (Some ("Object", k))) <$> builtins) !! l = Some o) in Hl.
  apply list_lookup_fmap_Some in Hl as (k & -> & _). injection Hp as <-. lia.
Qed.
Lemma sample_names_free : names_free 0 1 sample.
Proof. unfold names_free, open_at. rewrite <- Forall_forall. by_evaluation. Qed.


End PluginClasses.
