(* ===== verification/BsModule.v ===== *)
(** * The module of Bootstrap, bootstrap.js lines 6 to 13 and 3880 to 3893

    How the file finds its surroundings, takes jQuery and Popper from them and
    hands its classes out. *)

From S2P Require Import Prelude JsObject BsClasses PluginClasses.
Local Open Scope string_scope.
Local Open Scope list_scope.

Module BsModule.
Import JsObject BsClasses PluginClasses.

(** What the wrapper asks of its surroundings: is [exports] an object, are
    [module] and [define] there, does [define] have the mark [amd]. *)
Record surroundings := Surroundings {
  exports_object : bool;
  module_defined : bool;
  define_function : bool;
  define_amd : bool
}.
Inductive loader := CommonJS | Amd | Global.

(** Lines 7 to 9. *)
Definition umd (s : surroundings) : loader :=
  if exports_object s && module_defined s then CommonJS
  else if define_function s && define_amd s then Amd
  else Global.

Section module.
Context (object_proto : loc).

(** The object that the factory fills: the one of the surroundings, or a new one. *)
Definition exports_of (given : loc) (s : surroundings) : jsM heap loc :=
  match umd s with Global => literal object_proto [] | _ => mret given end.

(** Lines 12 and 13: a module of another format has its value in the field
    [default]. *)
Definition interop (v : val) : jsM heap val :=
  match v with
  | Ref l =>
      b ← mget (λ h, bool_decide (is_Some (get_own h l "default")));
      if b : bool then get l "default" else mret v
  | _ => mret v
  end.

(** Lines 3880 to 3890; the class ScrollSpy is given out as Scrollspy. *)
Definition export_names : list string :=
  ["Util"; "Alert"; "Button"; "Carousel"; "Collapse"; "Dropdown"; "Modal"; "Popover"; "Scrollspy"; "Tab"; "Tooltip"].
(** Lines 3880 to 3892. *)
Definition export (exports : loc) (classes : list loc) : jsM heap () :=
  meach (λ kc, put exports kc.1 (Ref kc.2)) (zip export_names classes) ;;
  defineProperty (Ref exports) "__esModule" (Desc (Some (Bool true)) None None None None).

(** The properties that the exports get. *)
Definition exported (classes : list loc) : list (string * prop) :=
  fields_of (zip_with (λ k c, (k, Ref c)) export_names classes) ++ [("__esModule", Data (Bool true) false false false)].

Lemma put_fields h l ps fs :
  ordered h → h !! l = Some (Object (Some object_proto) ps None) → NoDup (ps.*1 ++ fs.*1) →
  (∀ k, k ∈ fs.*1 → open_at h object_proto k) →
  ∃ h', meach (λ kv, put l kv.1 kv.2) fs h = (h', Ret ()) ∧ evolves [l] h h' ∧
    h' !! l = Some (Object (Some object_proto) (ps ++ fields_of fs) None).
Proof.
  revert h ps; induction fs as [|[k v] fs IH]; intros h ps Ho Hl Hd Hopen.
  { exists h. rewrite app_nil_r. split_and!; [done|by apply evolves_refl|done]. }
  apply NoDup_app in Hd as Hd'. destruct Hd' as (_ & Hk & _).
  assert (Hkp : k ∉ ps.*1) by (intros Hin; apply (Hk k Hin); by left).
  assert (Hnone : get_own h l k = None).
  { unfold get_own. rewrite Hl. simpl. apply eq_None_not_Some. by rewrite own_in. }
  assert (Hput : put l k v h = (set_own l k (plain v) h, Ret ())).
  { unfold put. rewrite search_step, Hnone, Hl by done. simpl. by rewrite Hopen by by left. }
  assert (He1 : evolves [l] h (set_own l k (plain v) h)) by (apply evolves_set_own; [done|by left]).
  pose proof (lookup_lt_Some _ _ _ Hl). assert (object_proto < l)%nat by by eapply Ho.
  destruct (IH (set_own l k (plain v) h) (ps ++ [(k, plain v)])) as (h' & E & He & Hl').
  - apply He1.
  - unfold set_own. rewrite list_lookup_alter, decide_True, Hl by done. simpl. by rewrite put_own_fresh.
  - by rewrite fmap_app, <- (app_assoc ps.*1).
  - intros k' Hk'. unfold open_at. rewrite (evolves_search [l] h); [apply Hopen; by right|done|done|lia|].
    by intros l' ->%list_elem_of_singleton.
  - exists h'. split_and!; [cbn [meach]; by erewrite bind_ret by exact Hput|by eapply evolves_trans|].
    by rewrite <- (app_assoc ps) in Hl'.
Qed.

(** Filled into a new object, the exports are the eleven classes under their names,
    in this order, as ordinary properties, and a mark that is neither listed nor
    changed; every other object is as it was. *)
Theorem exports_filled h l classes :
  ordered h → literal_at object_proto h l [] → length classes = 11%nat →
  (∀ k, k ∈ export_names → open_at h object_proto k) →
  ∃ h', export l classes h = (h', Ret ()) ∧ evolves [l] h h' ∧
    h' !! l = Some (Object (Some object_proto) (exported classes) None) ∧
    put l "__esModule" (Bool false) h' = (h', Throw TypeError) ∧
    filter (λ k, enumerable_in h' l k = true) (own_keys h' l) = export_names.
Proof.
  intros Ho Hl Hlen Hopen. do 11 (destruct classes as [|? classes]; [done|]). destruct classes; [|done].
  set (cs := [_; _; _; _; _; _; _; _; _; _; _]) in *. set (fs := zip_with (λ k c, (k, Ref c)) export_names cs).
  assert (Hfs : fs.*1 = export_names) by done.
  destruct (put_fields h l [] fs Ho Hl) as (h1 & E1 & He1 & L1); [rewrite Hfs; by_evaluation|by rewrite Hfs|].
  set (mark := Data (Bool true) false false false).
  assert (He2 : evolves [l] h1 (set_own l "__esModule" mark h1)) by (apply evolves_set_own; [apply He1|by left]).
  assert (L2 : set_own l "__esModule" mark h1 !! l = Some (Object (Some object_proto) (exported cs) None)).
  { unfold set_own. rewrite list_lookup_alter, decide_True, L1 by done. done. }
  exists (set_own l "__esModule" mark h1). split_and!; [|by eapply evolves_trans|done|..].
  - unfold export. erewrite bind_ret by exact E1. unfold defineProperty, get_own. rewrite L1. done.
  - unfold put, get_own. by rewrite L2.
  - unfold own_keys, enumerable_in, get_own. rewrite L2. reflexivity.
Qed.
End module.
End BsModule.
