(* ===== verification/PopperClass.v ===== *)
(** * Popper: its class and the helpers of its file

    bootstrap.bundle.js, lines 1738 to 1793, 3688 to 3700 and 3758 to 3831: the
    class is made, an object is constructed, and its method [update] is hidden
    by a debounced one of the object itself. *)

From S2P Require Import Prelude JsObject BsClasses PluginClasses.
Local Open Scope string_scope.
Local Open Scope list_scope.

Module PopperClass.
Import JsObject BsClasses PluginClasses.

(** Lines 1738 to 1742. *)
Definition classCallCheck (instance : val) (c : loc) : jsM heap () :=
  b ← match instance with Ref l => instanceof l c | _ => mret false end;
  if b : bool then mret () else mthrow TypeError.

(** Lines 1744 to 1760, the text of [_defineProperties] and [_createClass]. *)
Definition defineProperties (target : val) (ps : list member) : jsM heap () :=
  meach (λ m, JsObject.defineProperty target (m_key m) (descriptor_of m)) ps.
Definition createClass (c : loc) (protoProps staticProps : option (list member)) : jsM heap loc :=
  match protoProps with Some ps => v ← get c "prototype"; defineProperties v ps | None => mret () end ;;
  match staticProps with Some ps => defineProperties (Ref c) ps | None => mret () end ;;
  mret c.

(** Lines 1766 to 1779: the field of a literal with a computed name. *)
Definition defineProperty (obj : loc) (key : string) (value : val) : jsM heap loc :=
  b ← mget (λ h, bool_decide (is_Some (search h obj key)));
  (if b : bool then JsObject.defineProperty (Ref obj) key (Desc (Some value) None (Some true) (Some true) (Some true))
   else put obj key value) ;;
  mret obj.

(** Whatever the object inherits, also a property that may only be read: afterwards
    it has the field as an ordinary property of its own, if it had none or
    one that could be configured. *)
Theorem computed_field h obj key value :
  ordered h → (obj < length h)%nat → from_option configurable true (get_own h obj key) = true →
  ∃ h', defineProperty obj key value h = (h', Ret obj) ∧ evolves [obj] h h' ∧
    get_own h' obj key = Some (plain value) ∧ ∀ k, k ≠ key → get_own h' obj k = get_own h obj k.
Proof.
  intros Ho Hl Hc.
  assert (E : defineProperty obj key value h = (set_own obj key (plain value) h, Ret obj)).
  { unfold defineProperty, mbind, jsM_bind, mget. case_bool_decide as Hs.
    - unfold JsObject.defineProperty. simpl. assert (Ha : from_option (λ p, allowed p
        (Desc (Some value) None (Some true) (Some true) (Some true))) true (get_own h obj key) = true).
      { destruct (get_own h obj key) as [p|]; [|done]. simpl in *. unfold allowed. by rewrite Hc. }
      rewrite Ha. by destruct (get_own h obj key) as [[]|].
    - unfold put. rewrite search_step in Hs |- * by done. destruct (get_own h obj key); [destruct Hs; eauto|].
      by apply eq_None_not_Some in Hs as ->. }
  eexists. split; [exact E|]. split; [apply evolves_set_own; [done|set_solver]|]. split.
  - rewrite get_set_own by done. by rewrite bool_decide_true.
  - intros k Hk. rewrite get_set_own by done. rewrite bool_decide_false by tauto. done.
Qed.

(** ** The class *)

Section popper.
Context (object_proto function_proto : loc).
Notation new_function := (new_function object_proto function_proto).
Notation realm := (realm object_proto function_proto).

(** [{key: k, value: function k() {...}}] *)
Definition value_member (k : string) : jsM heap member :=
  f ← new_function ("Popper", k);
  mret (Member k (Some (Ref f)) None None).
Fixpoint value_members (ks : list string) : jsM heap (list member) :=
  match ks with
  | [] => mret []
  | k :: ks' => m ← value_member k; ms ← value_members ks'; mret (m :: ms)
  end.

(** Lines 3758 to 3777. *)
Definition Popper_methods : list string := ["update"; "destroy"; "enableEventListeners"; "disableEventListeners"].
(** Lines 3688 to 3802. *)
Definition load_Popper : jsM heap loc :=
  c ← new_function ("Popper", "Popper");
  ms ← value_members Popper_methods;
  createClass c (Some ms) None.

(** Lines 3692 to 3699: the first part of the constructor; [debounce] returns a new
    function. *)
Definition construct (c : loc) (this : val) : jsM heap () :=
  classCallCheck this c ;;
  this ← as_loc this;
  method object_proto function_proto "Popper" this "scheduleUpdate" ;;
  u ← get this "update";
  _ ← as_loc u;
  g ← new_function ("debounce", "update");
  put this "update" (Ref g).

Definition members_at (h : heap) (ms : list member) (ks : list string) : Prop :=
  Forall2 (λ m k, ∃ f, m = Member k (Some (Ref f)) None None ∧ code_at h f = Some ("Popper", k)) ms ks.

Lemma value_members_ret h ks :
  realm h → ∃ h' ms, value_members ks h = (h', Ret ms) ∧ evolves [] h h' ∧ members_at h' ms ks.
Proof.
  revert h; induction ks as [|k ks IH]; intros h Hr.
  { exists h, []. split_and!; [done|by apply evolves_refl, Hr|constructor]. }
  destruct (new_function_ret object_proto function_proto h ("Popper", k) Hr) as (h1 & E1 & He1 & Hf & _).
  destruct (IH h1) as (h2 & ms & E2 & He2 & Hms); [by eapply realm_evolves|].
  exists h2, (Member k (Some (Ref (length h))) None None :: ms). split_and!; [|by eapply evolves_trans|].
  - cbn [value_members]. unfold value_member. erewrite bind_ret; [|by erewrite bind_ret by exact E1].
    by erewrite bind_ret by exact E2.
  - constructor; [|done]. eexists. split; [done|]. eapply code_evolves; [done|].
    destruct Hf as (o & Ho & _ & Hc & _). unfold code_at. by rewrite Ho.
Qed.

Lemma value_member_ret h l pr cd B k f c :
  ordered h → holds h l pr cd B → may_configure (B !! k) → code_at h f = Some c →
  ∃ h', JsObject.defineProperty (Ref l) k (descriptor_of (Member k (Some (Ref f)) None None)) h = (h', Ret ()) ∧
    evolves [l] h h' ∧ holds h' l pr cd (<[k := Method c]> B).
Proof.
  intros Ho Hl Hc Hf. pose proof (holds_own _ _ _ _ _ k Hl) as Hk. unfold JsObject.defineProperty. simpl.
  set (d := descriptor_of (Member k (Some (Ref f)) None None)).
  assert (Ha : from_option (λ p, allowed p d) true (get_own h l k) = true).
  { destruct (B !! k) as [[c'|p]|]; simpl in *; [by destruct Hk as (f' & e & -> & _)|rewrite Hk|by rewrite Hk].
    simpl. unfold allowed. by rewrite Hc. }
  assert (Hnew : new_prop (get_own h l k) d = Data (Ref f) true false true)
    by (unfold new_prop; simpl; by destruct (get_own h l k) as [[]|]).
  rewrite Ha, Hnew. eexists. split; [done|]. apply holds_set; [done..|]. intros T h' He.
  exists f, false. split; [done|]. by eapply code_evolves.
Qed.

Lemma defineProperties_ret h l pr cd B ms ks :
  ordered h → holds h l pr cd B → (∀ k, k ∈ ks → may_configure (B !! k)) → members_at h ms ks →
  ∃ h', defineProperties (Ref l) ms h = (h', Ret ()) ∧ evolves [l] h h' ∧ holds h' l pr cd (add_methods "Popper" ks B).
Proof.
  intros Ho Hl Hc Hm. revert h B Ho Hl Hc Hm. induction ms as [|m ms IH] in ks |- *; intros h B Ho Hl Hc Hm.
  { apply Forall2_nil_inv_l in Hm as ->. exists h. split_and!; [done|by apply evolves_refl|done]. }
  apply Forall2_cons_inv_l in Hm as (k & ks' & (f & -> & Hf) & Hms & ->).
  destruct (value_member_ret h l pr cd B k f ("Popper", k) Ho Hl) as (h1 & E1 & He1 & Hl1); [apply Hc; by left|done|].
  destruct (IH ks' h1 (<[k := Method ("Popper", k)]> B)) as (h2 & E2 & He2 & Hl2); [apply He1|done| | |].
  - intros k' Hk'. destruct (decide (k = k')) as [<-|]; [by rewrite lookup_insert_eq|].
    rewrite lookup_insert_ne by done. apply Hc. by right.
  - eapply Forall2_impl; [exact Hms|]. intros m k' (f' & -> & Hf'). eexists. split; [done|]. by eapply code_evolves.
  - exists h2. split_and!; [|by eapply evolves_trans|done]. unfold defineProperties. cbn [meach].
    by erewrite bind_ret by exact E1.
Qed.

Definition Popper_class : class_text := Class "Popper" Popper_methods [] [].
Lemma popper_named : named Popper_class.
Proof. unfold named. simpl. by_evaluation. Qed.

Lemma load_Popper_ret h :
  realm h →
  ∃ h' p, load_Popper h = (h', Ret (length h)) ∧ evolves [] h h' ∧
    class_at h' Popper_class (length h) p function_proto object_proto false.
Proof.
  intros Hr. destruct (new_function_ret object_proto function_proto h ("Popper", "Popper") Hr) as (h1 & E1 & He1 & Hc & Hp).
  destruct (value_members_ret h1 Popper_methods) as (h2 & ms & E2 & He2 & Hms); [by eapply realm_evolves|].
  pose proof (holds_keep _ _ _ _ _ _ Hc He2) as Hc2. pose proof (holds_keep _ _ _ _ _ _ Hp He2) as Hp2.
  destruct (defineProperties_ret h2 (S (length h)) object_proto None (prototype_shape (length h) false) ms Popper_methods)
    as (h3 & E3 & He3 & Hp3); [apply He2|done| |done|].
  { intros k Hk. unfold prototype_shape. rewrite lookup_singleton_ne; [done|]. intros <-. revert Hk. by_evaluation. }
  exists h3, (S (length h)). split_and!.
  - unfold load_Popper. erewrite bind_ret by exact E1. erewrite bind_ret by exact E2. unfold createClass.
    erewrite bind_ret; [done|]. erewrite bind_ret by (eapply get_own_ret; [apply He2|by eapply holds_fixed]). exact E3.
  - apply (evolves_weaken [S (length h)]); [intros l ->%list_elem_of_singleton; right; lia|].
    eapply evolves_trans; [|exact He3]. apply (evolves_weaken []); [by intros ? ?%elem_of_nil|by eapply evolves_trans].
  - split; [lia| |done]. eapply holds_evolves; [exact He3| |exact Hc2]. intros ?%list_elem_of_singleton. lia.
Qed.

(** Lines 3688 to 3700 on an object that [new] has made, or on another value. *)
Definition popper_program : jsM heap (loc * loc) :=
  c ← load_Popper;
  i ← new_object object_proto c;
  construct c (Ref i) ;;
  mret (c, i).

Lemma construct_ret h c p i :
  realm h → class_at h Popper_class c p function_proto object_proto false → holds h i p None ∅ →
  open_at h object_proto "scheduleUpdate" →
  ∃ h', construct c (Ref i) h = (h', Ret ()) ∧ evolves [i] h h' ∧
    holds h' i p None (<["update" := Method ("debounce", "update")]>
      (<["scheduleUpdate" := Method ("Popper", "scheduleUpdate")]> ∅)).
Proof.
  intros Hr Hca Hi Hopen. pose proof (proj1 Hr) as Ho. pose proof (holds_proto _ _ _ _ _ Ho Hi).
  pose proof (holds_lt _ _ _ _ _ Hi).
  destruct (method_ret object_proto function_proto h i p None ∅ "Popper" "scheduleUpdate" Hr Hi) as (h1 & E1 & He1 & H1).
  { change (open_at h p "scheduleUpdate"). unfold open_at. rewrite (class_inherited Ho Hca); [done|by_evaluation|done]. }
  assert (R1 : realm h1) by by eapply realm_evolves.
  assert (Hca1 : class_at h1 Popper_class c p function_proto object_proto false).
  { pose proof (ca_below _ _ _ _ _ _ _ Hca). eapply class_evolves; [exact He1| | |done]; intros ?%list_elem_of_singleton; lia. }
  destruct (class_method (proj1 R1) Hca1 "update") as (u & e & Hu & _); [by_evaluation|].
  assert (Hsu : search h1 i "update" = Some (Data (Ref u) true e true)).
  { rewrite (holds_search _ _ _ _ _ "update" (proj1 R1) H1). pose proof (holds_own _ _ _ _ _ "update" H1) as Hk.
    rewrite lookup_insert_ne in Hk by done. change (get_own h1 i "update" = None) in Hk. by rewrite Hk. }
  destruct (new_function_ret object_proto function_proto h1 ("debounce", "update") R1) as (h2 & E2 & He2 & Hf & _).
  pose proof (holds_keep _ _ _ _ _ _ H1 He2) as H2.
  destruct (put_ret h2 i p None _ "update" (length h1) ("debounce", "update") (ev_ordered _ _ _ He2) H2) as (h3 & E3 & He3 & H3).
  { rewrite lookup_insert_ne by done. change (open_at h2 p "update"). unfold open_at.
    rewrite (evolves_search [] h1 h2); [by rewrite Hu|apply R1|done| |by intros ? ?%elem_of_nil].
    pose proof (evolves_length _ _ _ He1). lia. }
  { destruct Hf as (o & Hl & _ & Hc & _). unfold code_at. by rewrite Hl. }
  exists h3. split_and!; [| |done].
  - unfold construct. erewrite bind_ret.
    2: { unfold classCallCheck. by erewrite bind_ret by (eapply (instance_of Ho popper_named Hca); exact Hi). }
    erewrite bind_ret by done. erewrite bind_ret by exact E1.
    erewrite bind_ret by (unfold get, mget; by rewrite Hsu). cbn [value_of as_loc]. erewrite bind_ret by done.
    by erewrite bind_ret by exact E2.
  - apply (evolves_trans _ _ h1); [done|]. eapply evolves_trans; [|exact He3].
    apply (evolves_weaken []); [by intros ? ?%elem_of_nil|done].
Qed.

Lemma construct_throws h c p l :
  ordered h → class_at h Popper_class c p function_proto object_proto false → p ∉ protos h l →
  construct c (Ref l) h = (h, Throw TypeError).
Proof.
  intros Ho Ca Hl. unfold construct. apply bind_throw. unfold classCallCheck.
  rewrite (bind_ret _ _ _ h false); [done|]. unfold instanceof.
  erewrite bind_ret by (eapply get_own_ret; [done|by eapply (class_prototype popper_named Ca)]).
  cbn [value_of as_loc]. erewrite bind_ret by done. unfold mget. do 2 f_equal. apply bool_decide_eq_false.
  intros Hin. apply Hl. rewrite protos_step in Hin |- * by done. by right.
Qed.

(** The constructor gives a new object of Popper an update of its own, which hides
    the method of the class, while the other methods are those of the class and the
    method that was hidden is still there.  Called without [new], on undefined or on
    an object made for another purpose, it throws before it has done anything. *)
Theorem popper_object h :
  realm h → open_at h object_proto "scheduleUpdate" →
  ∃ h' c p i, popper_program h = (h', Ret (c, i)) ∧
    ask h' i "update" = Some ("debounce", "update") ∧
    ask h' i "scheduleUpdate" = Some ("Popper", "scheduleUpdate") ∧
    (∀ k, k ∈ Popper_methods → ask h' p k = Some ("Popper", k)) ∧
    (∀ k, k ∈ Popper_methods → k ≠ "update" → ask h' i k = Some ("Popper", k)) ∧
    construct c Undef h' = (h', Throw TypeError) ∧
    (∀ l, p ∉ protos h' l → construct c (Ref l) h' = (h', Throw TypeError)).
Proof.
  intros Hr Hopen. destruct (load_Popper_ret h Hr) as (h1 & p & E1 & He1 & Ca1).
  assert (R1 : realm h1) by by eapply realm_evolves.
  destruct (new_object_ret object_proto function_proto h1 _ _ _ _ _ _ R1 popper_named Ca1) as (h2 & E2 & He2 & Hi).
  assert (R2 : realm h2) by by eapply realm_evolves.
  pose proof (class_keep _ _ _ _ _ _ _ _ Ca1 He2) as Ca2.
  destruct (construct_ret h2 (length h) p (length h1) R2 Ca2 Hi) as (h3 & E3 & He3 & Hi3).
  { eapply open_evolves; [apply R1|done|apply R1|]. by eapply open_evolves; [apply Hr|done|apply Hr|]. }
  assert (Ho : ordered h3) by apply He3.
  assert (Ca : class_at h3 Popper_class (length h) p function_proto object_proto false).
  { pose proof (ca_below _ _ _ _ _ _ _ Ca2). pose proof (holds_proto _ _ _ _ _ (proj1 R2) Hi).
    eapply class_evolves; [exact He3| | |done]; intros ?%list_elem_of_singleton; lia. }
  assert (Hown : ∀ k c, (<["update" := Method ("debounce", "update")]>
      (<["scheduleUpdate" := Method ("Popper", "scheduleUpdate")]> ∅) : gmap string shown) !! k = Some (Method c) →
    ask h3 (length h1) k = Some c).
  { intros k c Hk. pose proof (holds_own _ _ _ _ _ k Hi3) as Hs. rewrite Hk in Hs. destruct Hs as (f & e & Hs & Hf).
    unfold ask. by rewrite (search_own _ _ _ _ Ho Hs). }
  assert (Hproto : ∀ k, k ∈ Popper_methods → ask h3 p k = Some ("Popper", k)).
  { intros k Hk. unfold ask. by destruct (class_method Ho Ca k Hk) as (f & e & -> & ->). }
  exists h3, (length h), p, (length h1). split_and!; [|by apply Hown|by apply Hown|done|..].
  - unfold popper_program. erewrite bind_ret by exact E1. erewrite bind_ret by exact E2. by erewrite bind_ret by exact E3.
  - intros k Hk Hn. rewrite <- Hproto by done. unfold ask. rewrite (holds_search _ _ _ _ _ k Ho Hi3).
    pose proof (holds_own _ _ _ _ _ k Hi3) as Hs. rewrite lookup_insert_ne in Hs by done.
    rewrite lookup_insert_ne in Hs by (intros <-; revert Hk; by_evaluation). simpl in Hs. by rewrite Hs.
  - done.
  - intros l Hl. by apply (construct_throws h3 (length h) p).
Qed.
End popper.

End PopperClass.
