(* ===== verification/BsPlugins.v ===== *)
(** * Bootstrap: the plugins together

    Loading the library registers each plugin with jQuery and binds its
    listeners to the document.  Here are the registration with [noConflict], the
    name spaces by which a plugin removes its own listeners and no others, and
    the way of a click through the listeners of all plugins. *)

From S2P Require Import Prelude JsString Dom Bs BsNames PopperDom Popper Dropdown.
Local Open Scope string_scope.
Local Open Scope list_scope.

Module BsPlugins.

Record plugin := MkPlugin { p_name : string; p_event_key : string; p_events : list (string * string) }.

(** In the order of the file. *)
Definition library : list plugin :=
  [MkPlugin BsNames.Alert.NAME BsNames.Alert.EVENT_KEY BsNames.Alert.Event;
   MkPlugin BsNames.Button.NAME BsNames.Button.EVENT_KEY BsNames.Button.Event;
   MkPlugin BsNames.Carousel.NAME BsNames.Carousel.EVENT_KEY BsNames.Carousel.Event;
   MkPlugin BsNames.Collapse.NAME BsNames.Collapse.EVENT_KEY BsNames.Collapse.Event;
   MkPlugin BsNames.Dropdown.NAME BsNames.Dropdown.EVENT_KEY BsNames.Dropdown.Event;
   MkPlugin BsNames.Modal.NAME BsNames.Modal.EVENT_KEY BsNames.Modal.Event;
   MkPlugin BsNames.Tooltip.NAME BsNames.Tooltip.EVENT_KEY BsNames.Tooltip.Event;
   MkPlugin BsNames.Popover.NAME BsNames.Popover.EVENT_KEY BsNames.Popover.Event;
   MkPlugin BsNames.ScrollSpy.NAME BsNames.ScrollSpy.EVENT_KEY BsNames.ScrollSpy.Event;
   MkPlugin BsNames.Tab.NAME BsNames.Tab.EVENT_KEY BsNames.Tab.Event].
Lemma library_names : NoDup (p_name <$> library).
Proof. by_evaluation. Qed.

(** ** Registration *)

(** What [$.fn] holds under a name: the interface of a plugin of this library, or
    something of the page. *)
Inductive interface := Interface (name : string) | Foreign (id : nat).

(** [$.fn] and the constants [JQUERY_NO_CONFLICT] of the plugins. *)
Record jquery := JQuery { fn : gmap string interface; kept : gmap string (option interface) }.

(** Lines 213 and 356 of Alert, and the same of every plugin. *)
Definition load (x : plugin) (j : jquery) : jquery :=
  JQuery (<[p_name x := Interface (p_name x)]> (fn j)) (<[p_name x := fn j !! p_name x]> (kept j)).
Definition load_all (j : jquery) : jquery := foldl (λ j x, load x j) j library.
(** Lines 359 to 362 of Alert, and the same of every plugin. *)
Definition noConflict (x : plugin) (j : jquery) : jquery * interface :=
  (JQuery (partial_alter (λ _, mjoin (kept j !! p_name x)) (p_name x) (fn j)) (kept j), Interface (p_name x)).
Definition noConflicts (xs : list plugin) (j : jquery) : jquery := foldl (λ j x, (noConflict x j).1) j xs.

Lemma load_list xs j :
  NoDup (p_name <$> xs) →
  let j' := foldl (λ j x, load x j) j xs in
  ∀ n, fn j' !! n = (if bool_decide (n ∈ p_name <$> xs) then Some (Interface n) else fn j !! n) ∧
       kept j' !! n = (if bool_decide (n ∈ p_name <$> xs) then Some (fn j !! n) else kept j !! n).
Proof.
  revert j. induction xs as [|x xs IH]; intros j Hn; [done|]. cbn [foldl fmap list_fmap] in *.
  apply NoDup_cons in Hn as [Hx Hn]. intros n. destruct (IH (load x j) Hn n) as [-> ->]. cbn.
  destruct (decide (n ∈ p_name <$> xs)) as [Hin|Hin].
  - rewrite !(bool_decide_true (n ∈ _)) by (done || by right). rewrite lookup_insert_ne by congruence. done.
  - rewrite (bool_decide_false (n ∈ p_name <$> xs)) by done. destruct (decide (n = p_name x)) as [->|Hne].
    + rewrite (bool_decide_true (p_name x ∈ _)) by (by left). by rewrite !lookup_insert_eq.
    + rewrite (bool_decide_false (n ∈ _)) by (intros [|]%elem_of_cons; done). by rewrite !lookup_insert_ne by congruence.
Qed.

(** Loading the library takes over the names of its plugins and nothing else,
    and [noConflict] gives them back: whichever plugins are asked, in whatever
    order and however often, their names are as they were before the library was
    loaded, the names of the others stay with the library, and all other names
    are untouched. *)
Theorem no_conflict j xs :
  (∀ x, x ∈ xs → x ∈ library) →
  ∀ n, fn (noConflicts xs (load_all j)) !! n =
    if bool_decide (n ∈ p_name <$> xs) then fn j !! n
    else if bool_decide (n ∈ p_name <$> library) then Some (Interface n) else fn j !! n.
Proof.
  intros Hxs n. destruct (load_list library j library_names n) as [Hf _].
  assert (Hk : ∀ x, x ∈ library → kept (load_all j) !! p_name x = Some (fn j !! p_name x)).
  { intros x Hx. destruct (load_list library j library_names (p_name x)) as [_ Hk]. unfold load_all. rewrite Hk.
    rewrite bool_decide_true; [done|]. by apply list_elem_of_fmap_2. }
  fold (load_all j) in Hf. revert Hf Hk. generalize (load_all j). intros l.
  assert (H : ∀ l, (∀ x, x ∈ library → kept l !! p_name x = Some (fn j !! p_name x)) →
    fn (foldl (λ j x, (noConflict x j).1) l xs) !! n = if bool_decide (n ∈ p_name <$> xs) then fn j !! n else fn l !! n).
  { clear l. induction xs as [|x xs IH]; intros l Hk; [done|]. cbn [foldl noConflict fst].
    rewrite IH; [|intros; apply Hxs; by right|done]. cbn [fn fmap list_fmap].
    destruct (decide (n ∈ p_name <$> xs)) as [Hin|Hin].
    { by rewrite !bool_decide_true by (done || by right). }
    rewrite (bool_decide_false (n ∈ p_name <$> xs)) by done. destruct (decide (n = p_name x)) as [->|Hne].
    - rewrite bool_decide_true by (by left). rewrite lookup_partial_alter_eq, Hk by (apply Hxs; by left). done.
    - rewrite bool_decide_false by (intros [|]%elem_of_cons; done). by rewrite lookup_partial_alter_ne by congruence. }
  intros Hf Hk. unfold noConflicts. by rewrite H, Hf.
Qed.

Lemma no_conflict_witness :
  let page := JQuery {[ "tab" := Foreign 1; "modal" := Foreign 2 ]} ∅ in
  fn (noConflicts [MkPlugin BsNames.Tab.NAME BsNames.Tab.EVENT_KEY BsNames.Tab.Event] (load_all page)) !! "tab" = Some (Foreign 1).
Proof.
  intros page. apply (no_conflict page [MkPlugin BsNames.Tab.NAME BsNames.Tab.EVENT_KEY BsNames.Tab.Event]).
  intros x Hx. apply list_elem_of_singleton in Hx as ->. unfold library. repeat (first [left|right]).
Defined.

(** ** Name spaces *)

(** jQuery reads the name of a listener as a type and name spaces, and several
    names are separated by spaces. *)
Record bound := Bound { b_type : jsstring; b_spaces : list jsstring }.
#[export] Instance bound_eq_dec : EqDecision bound.
Proof. solve_decision. Defined.
Definition read_name (s : jsstring) : bound :=
  match split_on 46 s with t :: ns => Bound t ns | [] => Bound [] [] end.
Definition read_names (s : string) : list bound := read_name <$> split_on 32 (js s).

(** [off(key)] removes the listeners of the type, if one is given, that have all
    the name spaces of the key. *)
Definition named (key b : bound) : bool :=
  bool_decide (b_type key = [] ∨ b_type key = b_type b) && forallb (λ n, bool_decide (n ∈ b_spaces b)) (b_spaces key).
Definition off {A} (key : string) (ls : list (bound * A)) : list (bound * A) :=
  filter (λ x, negb (existsb (λ k, named k x.1) (read_names key))) ls.

(** The names under which a plugin binds its listeners. *)
Definition names_of (x : plugin) : list bound := p_events x ≫= λ e, read_names e.2.
Lemma own_names x y b : x ∈ library → y ∈ library → b ∈ names_of y →
  existsb (λ k, named k b) (read_names (p_event_key x)) = bool_decide (p_name x = p_name y).
Proof.
  intros Hx Hy. revert b. rewrite <- Forall_forall. revert y Hy. rewrite <- Forall_forall. revert x Hx. rewrite <- Forall_forall.
  by_evaluation.
Qed.

(** The plugins do not touch each other's listeners: when [dispose] of one
    removes everything under its key from an element, exactly the listeners that
    this plugin has bound under the names of its events go, and those of all
    other plugins stay, in their order. *)
Theorem plugins_isolated {A} x (ls : list (bound * (plugin * A))) :
  x ∈ library → Forall (λ l, l.2.1 ∈ library ∧ l.1 ∈ names_of l.2.1) ls →
  off (p_event_key x) ls = filter (λ l, p_name l.2.1 ≠ p_name x) ls.
Proof.
  intros Hx Hls. unfold off. induction Hls as [|l ls [Hl Hn] _ IH]; [done|]. rewrite !filter_cons, IH.
  rewrite (own_names x l.2.1 l.1) by done. destruct (decide (p_name x = p_name l.2.1)) as [E|E].
  - rewrite bool_decide_true by done. by rewrite (decide_False (P := p_name l.2.1 ≠ p_name x)) by (intros H; by apply H).
  - rewrite bool_decide_false by done. by rewrite (decide_True (P := p_name l.2.1 ≠ p_name x)) by congruence.
Qed.

(** But the listener by which a tooltip follows its modal (line 2857) has a name of
    that plugin, so that it counts as one of the modal's own. *)
Example tooltip_in_modal :
  off BsNames.Modal.EVENT_KEY [(read_name (js "hide.bs.modal"), ())] = [].
Proof. vm_compute. reflexivity. Qed.

(** ** Clicks *)

(** What the listeners for clicks on the document do, in the order in which they
    are bound: lines 349, 500, 1004, 1365, 1838 to 1845, 2391 and 3833; and those
    that the objects of plugins bind to elements: the dismiss buttons of the modal
    [n] (line 1990), a click on or in the open modal [n] (line 2200, which closes
    it if nothing but its background was clicked), the tooltip or popover of [n]
    with the trigger click (line 2844) and the toggle [n] of a dropdown that has
    an object (line 1595). *)
Inductive action := Dismiss | Press | Slide | Fold | Open | KeepForm | ClearMenus | Show | Switch
  | CloseModal (n : nid) | ModalClick (n : nid) | ToggleTip (n : nid) | MenuClick (n : nid).
#[export] Instance action_eq_dec : EqDecision action.
Proof. solve_decision. Defined.
Record delegate := Delegate { d_selector : Dom.selector; d_action : action; d_stops : bool }.

Definition DISMISS : Dom.selector := Dom.sel_attr "data-dismiss" "alert".
Definition DATA_TOGGLE_CARROT : Dom.selector := Dom.sel_attr_prefix "data-toggle" "button".
Definition DATA_SLIDE : Dom.selector := Dom.sel_or (Dom.sel_has_attr "data-slide") (Dom.sel_has_attr "data-slide-to").
Definition TOGGLE_COLLAPSE : Dom.selector := Dom.sel_attr "data-toggle" "collapse".
Definition TOGGLE_MODAL : Dom.selector := Dom.sel_attr "data-toggle" "modal".
Definition TOGGLE_TAB : Dom.selector :=
  Dom.sel_or (Dom.sel_attr "data-toggle" "tab") (Dom.sel_or (Dom.sel_attr "data-toggle" "pill") (Dom.sel_attr "data-toggle" "list")).
Definition delegates : list delegate :=
  [Delegate DISMISS Dismiss false; Delegate DATA_TOGGLE_CARROT Press false; Delegate DATA_SLIDE Slide false;
   Delegate TOGGLE_COLLAPSE Fold false; Delegate Dropdown.DATA_TOGGLE Open true; Delegate Dropdown.FORM_CHILD KeepForm true;
   Delegate TOGGLE_MODAL Show false; Delegate TOGGLE_TAB Switch false].

(** One delegate after the other, each with its own test. *)
Lemma filter_step {A} (f : A → bool) x l : filter (λ y, f y) (x :: l) = (if f x then [x] else []) ++ filter (λ y, f y) l.
Proof. rewrite filter_cons. by destruct (f x). Qed.
Lemma piece_stops (b : bool) s a st : existsb d_stops (if b then [Delegate s a st] else []) = b && st.
Proof. destruct b; [|done]. apply orb_false_r. Qed.
Lemma piece_action (b : bool) s a st a' : a' ∈ d_action <$> (if b then [Delegate s a st] else []) ↔ b = true ∧ a' = a.
Proof. destruct b; simpl; set_solver. Qed.

(** The listeners for clicks that an object binds to its own element; [TipTrigger]
    has the option [selector], if it is given. *)
Inductive own_listener := DismissButtons | Background | TipTrigger (selector : option Dom.selector) | MenuToggle.
Definition DISMISS_MODAL : Dom.selector := Dom.sel_attr "data-dismiss" "modal".
Definition own_selector (o : own_listener) : option Dom.selector :=
  match o with DismissButtons => Some DISMISS_MODAL | TipTrigger s => s | _ => None end.
Definition own_action (n : nid) (o : own_listener) : action :=
  match o with
  | DismissButtons => CloseModal n | Background => ModalClick n | TipTrigger _ => ToggleTip n | MenuToggle => MenuClick n
  end.
Definition is_menu (o : own_listener) : bool := match o with MenuToggle => true | _ => false end.
Definition delegated_to (d : dom) (m : nid) (o : own_listener) : bool :=
  match own_selector o with Some s => s d m | None => false end.
Definition direct (o : own_listener) : bool := match own_selector o with Some _ => false | None => true end.

Section click.
(** Elements that jQuery skips because they are disabled. *)
Context (disabled : dom → nid → bool).
(** The listeners on the elements themselves, in the order of binding. *)
Context (own : nid → list own_listener).

Definition matching (d : dom) (n : nid) : list delegate :=
  if disabled d n then [] else filter (λ x, d_selector x d n) delegates.
(** jQuery runs the delegates of the elements on the way, from the inside out;
    when one of them has stopped the event the elements further out and the
    listeners of the document itself do not get it. *)
Fixpoint deliver (d : dom) (way : list nid) : list (option nid * action) :=
  match way with
  | [] => [(None, ClearMenus)]
  | n :: way' =>
      let ms := matching d n in
      ((λ x, (Some n, d_action x)) <$> ms) ++ (if existsb d_stops ms then [] else deliver d way')
  end.
(** The listeners bound to [n]: those with a selector for the elements further
    inside, [inner], from the inside out, then the others. *)
Definition at_element (d : dom) (inner : list nid) (n : nid) : list (option nid * action) :=
  (inner ≫= λ m, if disabled d m then []
                 else (λ o, (Some m, own_action n o)) <$> filter (λ o, delegated_to d m o) (own n)) ++
  ((λ o, (Some n, own_action n o)) <$> filter (λ o, direct o) (own n)).
(** The click goes from element to element; only the listener of a dropdown on its
    own toggle stops it (lines 1592 to 1601), so that it does not reach the
    elements further out and the document. *)
Fixpoint bubble (d : dom) (inner way : list nid) : list (option nid * action) * bool :=
  match way with
  | [] => ([], true)
  | n :: way' =>
      if existsb is_menu (own n) then (at_element d inner n, false)
      else let '(runs, reaches) := bubble d (inner ++ [n]) way' in (at_element d inner n ++ runs, reaches)
  end.
(** The handlers that a click with the main button runs, with the element they run
    for, in the document as it is when the click happens. *)
Definition click (d : dom) (target : nid) : list (option nid * action) :=
  let way := Dropdown.path (size d) d target in
  let '(runs, reaches) := bubble d [] way in
  runs ++ if reaches then deliver d way else [].

(** The value of [data-toggle] names the plugin. *)
Definition of_toggle (v : string) : list action :=
  if String.prefix "button" v then [Press] else if bool_decide (v = "collapse") then [Fold]
  else if bool_decide (v = "dropdown") then [Open] else if bool_decide (v = "modal") then [Show]
  else if bool_decide (v ∈ ["tab"; "pill"; "list"]) then [Switch] else [].
(** An element without any of the attributes that the delegates ask for, outside
    of the forms in dropdowns. *)
Definition inert (d : dom) (n : nid) : Prop :=
  (∀ a, a ∈ ["data-toggle"; "data-dismiss"; "data-slide"; "data-slide-to"] → Dom.getAttribute d n a = None) ∧
  Dropdown.FORM_CHILD d n = false.
Lemma inert_matching d n : inert d n → matching d n = [].
Proof.
  intros [Ha Hf]. unfold matching. case_match; [done|]. unfold delegates, DISMISS, DATA_TOGGLE_CARROT, DATA_SLIDE, TOGGLE_COLLAPSE,
    TOGGLE_MODAL, TOGGLE_TAB, Dropdown.DATA_TOGGLE, Dom.sel_or, Dom.sel_attr, Dom.sel_has_attr, Dom.hasAttribute, Dom.sel_attr_prefix.
  rewrite !filter_step. cbn [d_selector]. rewrite !Ha by set_solver. by rewrite Hf.
Qed.
Lemma inert_way d way rest : Forall (inert d) way → deliver d (way ++ rest) = deliver d rest.
Proof. induction 1 as [|n way Hn _ IH]; [done|]. cbn [deliver app]. by rewrite inert_matching, IH. Qed.

Lemma toggle_matching d n v :
  disabled d n = false → Dom.getAttribute d n "data-toggle" = Some v → Dropdown.FORM_CHILD d n = false →
  (∀ a, a ∈ ["data-dismiss"; "data-slide"; "data-slide-to"] → Dom.getAttribute d n a = None) →
  d_action <$> matching d n = of_toggle v ∧ existsb d_stops (matching d n) = bool_decide (v = "dropdown").
Proof.
  intros Hd Hv Hf Ha. unfold matching. rewrite Hd. unfold delegates, DISMISS, DATA_TOGGLE_CARROT, DATA_SLIDE, TOGGLE_COLLAPSE,
    TOGGLE_MODAL, TOGGLE_TAB, Dropdown.DATA_TOGGLE, Dom.sel_or, Dom.sel_attr, Dom.sel_has_attr, Dom.hasAttribute, Dom.sel_attr_prefix.
  rewrite !filter_step. cbn [d_selector].
  rewrite (Ha "data-dismiss"), (Ha "data-slide"), (Ha "data-slide-to"), Hf, Hv by set_solver. unfold of_toggle.
  destruct (String.prefix "button" v) eqn:Eb.
  - assert (Hne : v ∉ ["collapse"; "dropdown"; "modal"; "tab"; "pill"; "list"]) by (intros Hin; each_of Hin; discriminate Eb).
    rewrite !(bool_decide_false (Some v = Some _)), !(bool_decide_false (v = _)) by (intros E; simplify_eq; apply Hne; by_evaluation). done.
  - destruct (decide (v ∈ ["collapse"; "dropdown"; "modal"; "tab"; "pill"; "list"])) as [Hin|Hne].
    + each_of Hin; done.
    + rewrite !(bool_decide_false (Some v = Some _)), !(bool_decide_false (v = _)), (bool_decide_false (v ∈ _)); [done|set_solver..].
Qed.

(** The handlers of the objects on the way: of an open modal that contains what was
    clicked, and of a tooltip that is there or asks for something that is there. *)
Definition of_objects (d : dom) (way : list nid) (run : option nid * action) : Prop :=
  ∃ n, n ∈ way ∧
    (run = (Some n, ModalClick n) ∧ Background ∈ own n ∨
     ∃ s, TipTrigger s ∈ own n ∧ run.2 = ToggleTip n ∧
       match s with None => run.1 = Some n | Some f => ∃ m, run.1 = Some m ∧ m ∈ way ∧ f d m = true end).

Lemma at_element_runs d inner n way :
  (∀ m, m ∈ n :: inner → m ∈ way) → (∀ m, m ∈ way → DISMISS_MODAL d m = false) → existsb is_menu (own n) = false →
  Forall (of_objects d way) (at_element d inner n).
Proof.
  intros Hsub Hno Hmenu. assert (Hmn : MenuToggle ∉ own n).
  { intros Hin. assert (existsb is_menu (own n) = true); [|congruence]. apply existsb_exists. exists MenuToggle. split; [|done].
    by apply list_elem_of_In. }
  assert (Hn : n ∈ way) by (apply Hsub; by left).
  unfold at_element. apply Forall_app. split; apply Forall_forall.
  - intros r (m & Hr & Hm)%list_elem_of_bind. destruct (disabled d m); [by apply elem_of_nil in Hr|].
    apply list_elem_of_fmap in Hr as (o & -> & [Ho Hin]%list_elem_of_filter). assert (Hmw : m ∈ way) by (apply Hsub; by right).
    unfold delegated_to in Ho. destruct o as [| |[f|]|]; cbn in Ho; try done.
    { rewrite (Hno m Hmw) in Ho. done. }
    exists n. split; [done|]. right. exists (Some f). split; [done|]. split; [done|]. exists m. by destruct (f d m).
  - intros r (o & -> & [Ho Hin]%list_elem_of_filter)%list_elem_of_fmap. exists n. split; [done|].
    destruct o as [| |[f|]|]; cbn in Ho; try done; [by left|right; by exists None].
Qed.
Lemma bubble_runs d inner way whole :
  (∀ m, m ∈ inner ++ way → m ∈ whole) → (∀ m, m ∈ whole → DISMISS_MODAL d m = false) →
  (∀ n, n ∈ way → existsb is_menu (own n) = false) →
  Forall (of_objects d whole) (bubble d inner way).1 ∧ (bubble d inner way).2 = true.
Proof.
  revert inner. induction way as [|n way IH]; intros inner Hsub Hno Hm; [done|]. cbn [bubble].
  rewrite Hm by (by left). destruct (IH (inner ++ [n])) as [H1 H2]; [|done|intros; apply Hm; by right|].
  { intros m Hin. apply Hsub. by rewrite <- app_assoc in Hin. }
  destruct (bubble d (inner ++ [n]) way) as [runs reaches]. cbn in H1, H2 |- *. split; [|done]. apply Forall_app. split; [|done].
  apply at_element_runs; [|done|apply Hm; by left]. intros m Hin. apply Hsub, elem_of_app.
  apply elem_of_cons in Hin as [->|Hin]; [right; by left|by left].
Qed.
(** Without objects on the way there is nothing but the document. *)
Lemma bubble_none d inner way : (∀ n, n ∈ way → own n = []) → bubble d inner way = ([], true).
Proof.
  revert inner. induction way as [|n way IH]; intros inner Ho; [done|]. cbn [bubble]. unfold at_element.
  rewrite (Ho n) by (by left). cbn. rewrite IH by (intros; apply Ho; by right).
  assert (Hnil : (inner ≫= λ m, if disabled d m then [] else ([] : list (option nid * action))) = []).
  { apply elem_of_nil_inv. intros r (m & Hr & _)%list_elem_of_bind. destruct (disabled d m); by apply elem_of_nil in Hr. }
  rewrite !app_nil_r. f_equal. exact Hnil.
Qed.
Lemma inert_dismiss d n : Dom.getAttribute d n "data-dismiss" = None → DISMISS_MODAL d n = false.
Proof. intros H. unfold DISMISS_MODAL, Dom.sel_attr. by rewrite H. Qed.


(** The menus are cleared, and a toggle is opened, exactly when the handlers of
    Dropdown on their own say so. *)
Theorem dropdown_view d way :
  (∀ n, n ∈ way → disabled d n = false) →
  match List.find (λ n, Dropdown.DATA_TOGGLE d n || Dropdown.FORM_CHILD d n) way with
  | Some m => (None, ClearMenus) ∉ deliver d way ∧
              (∀ n, (Some n, Open) ∈ deliver d way ↔ n = m ∧ Dropdown.DATA_TOGGLE d m = true)
  | None => (None, ClearMenus) ∈ deliver d way ∧ ∀ n, (Some n, Open) ∉ deliver d way
  end.
Proof.
  assert (Hm : ∀ n, disabled d n = false →
    existsb d_stops (matching d n) = Dropdown.DATA_TOGGLE d n || Dropdown.FORM_CHILD d n ∧
    (Open ∈ d_action <$> matching d n ↔ Dropdown.DATA_TOGGLE d n = true)).
  { intros n Hn. unfold matching. rewrite Hn. unfold delegates. rewrite !filter_step, filter_nil. cbn [d_selector].
    rewrite !fmap_app, !elem_of_app, !piece_action, !existsb_app, !piece_stops, !andb_false_r, !andb_true_r, !orb_false_r.
    split; [done|]. split; [|tauto]. intros H. repeat (destruct H as [[? ?]|H]; [done|]). by apply elem_of_nil in H. }
  induction way as [|n way IH]; intros Hd; cbn [List.find deliver]; [split; [by left|set_solver]|].
  destruct (Hm n) as [Hs Ho]; [apply Hd; by left|]. rewrite Hs.
  assert (Hfst : ∀ x, x ∈ (λ x, (Some n, d_action x)) <$> matching d n ↔ ∃ a, x = (Some n, a) ∧ a ∈ d_action <$> matching d n).
  { intros x. rewrite list_elem_of_fmap. setoid_rewrite list_elem_of_fmap. naive_solver. }
  destruct (Dropdown.DATA_TOGGLE d n || Dropdown.FORM_CHILD d n) eqn:E.
  - rewrite app_nil_r. setoid_rewrite Hfst. split; [naive_solver|]. intros m. split.
    + intros (a & [= -> <-] & Hin). split; [done|]. by apply Ho.
    + intros [-> Ht]. exists Open. split; [done|]. by apply Ho.
  - apply orb_false_iff in E as [E1 E2]. specialize (IH (λ m Hm, Hd m (list_elem_of_further _ _ _ Hm))).
    assert (Hno : ∀ m, (Some m, Open) ∈ (λ x, (Some n, d_action x)) <$> matching d n → False).
    { intros m (a & [= -> <-] & Hin)%Hfst. apply Ho in Hin. congruence. }
    assert (Hnc : (None, ClearMenus) ∉ (λ x, (Some n, d_action x)) <$> matching d n) by (intros (a & ? & _)%Hfst; done).
    destruct (List.find _ way) as [m|]; destruct IH as [Hc Hk]; (split; [rewrite elem_of_app; tauto|]).
    + intros k. rewrite elem_of_app, Hk. split; [|by right]. by intros [[]%Hno|].
    + by intros k [[]%Hno|[]%Hk]%elem_of_app.
Qed.
End click.

(** A click on the text of a tab link in an open modal; the link has a tooltip. *)
Definition sample_doc : dom :=
  {[ 1%nat := Elem "div" "" ["modal"] ∅ ∅ None [2%nat];
     2%nat := Elem "a" "" [] {[ "data-toggle" := "tab" ]} ∅ (Some 1%nat) [3%nat];
     3%nat := Elem "span" "" [] ∅ ∅ (Some 2%nat) [] ]}.
Definition sample_own (n : nid) : list own_listener :=
  match n with 1 => [DismissButtons; Background] | 2 => [TipTrigger None] | _ => [] end%nat.

End BsPlugins.
