(* ===== verification/Tooltip.v ===== *)
(** * Tooltip, bootstrap.js lines 2446 to 3102

    A tooltip object belongs to an element (its reference) and owns a tip, an
    element made from a template that is put into the document while the
    tooltip is shown and placed by a Popper instance.  The class is written for
    its subclass Popover (file Popover) as well: what Popover overrides is the
    interface [Widget], and everything here is proved for both.

    Objects live in a heap, because timers and callbacks of transitions hold on
    to them after the element has forgotten them. *)

From stdpp Require Import pretty.
From S2P Require Import Prelude Dom Bs.
Local Open Scope string_scope.
Local Open Scope list_scope.

Module Tooltip.

Abbreviation oid := nat.

(** ** Values of options

    The [delay] option is a number or an object with two numbers, 0 standing
    for a missing one; functions are known by a number. *)

Inductive value :=
  | VUndefined | VNull | VBool (b : bool) | VNum (z : Z) | VStr (s : string)
  | VElement (n : nid) | VDelay (show hide : Z) | VArray (l : list string) | VFunction (f : nat).
#[global] Instance value_eq_dec : EqDecision value.
Proof. solve_decision. Defined.

Definition to_optval (v : value) : Util.optval :=
  match v with
  | VUndefined => Util.OUndefined | VNull => Util.ONull | VBool b => Util.OBool b | VNum z => Util.ONum z
  | VStr s => Util.OStr s | VElement n => Util.OElement n | VDelay _ _ => Util.OObject
  | VArray _ => Util.OArray | VFunction _ => Util.OFunction
  end.

Abbreviation config := (gmap string value).
Definition opt (c : config) (k : string) : value := default VUndefined (c !! k).
Definition truthy (v : value) : bool :=
  match v with
  | VUndefined | VNull => false
  | VBool b => b
  | VNum z => negb (z =? 0)%Z
  | VStr s => negb (bool_decide (s = ""))
  | _ => true
  end.
Definition text_value (v : value) : string := match v with VStr s => s | _ => "" end.

(** What a tip shows: a text (or markup), or an element. *)
Inductive content := CText (s : string) | CElement (n : nid).
Definition has_content (c : content) : bool :=
  match c with CText s => negb (bool_decide (s = "")) | CElement _ => true end.

(** ** Objects *)

(** Lines 2495 to 2498; the state is also the empty string and null. *)
Inductive hover := HNull | HEmpty | HShow | HOut.
#[global] Instance hover_eq_dec : EqDecision hover.
Proof. solve_decision. Defined.

Record triggers := Triggers { t_click : bool; t_focus : bool; t_hover : bool }.

Record tooltip := MkTooltip {
  _isEnabled : bool;
  _timeout : nat;
  _hoverState : hover;
  _activeTrigger : triggers;
  _popper : option nat;
  element : nid;
  config_of : config;
  tip : option nid
}.
(** After [dispose] every field is null; [enable] may still set one. *)
Inductive cell := Live (t : tooltip) | Disposed (isEnabled : bool).

(** The instances of Popper and the options they are created with. *)
Record popper_options := PopperOptions {
  po_placement : string;
  po_offset : value;
  po_behavior : value;
  po_arrow : string;
  po_boundary : value
}.
Record popper := MkPopper {
  p_object : oid;                 (* whose callbacks it calls *)
  p_reference : nid;
  p_tip : nid;
  p_options : popper_options;
  p_scheduled : nat;              (* requested updates *)
  p_destroyed : bool
}.

Inductive action := AToggle (o : oid) | AEnter (o : oid) | ALeave (o : oid) | AHide (o : oid) | ANoop.
Record listener := Listener {
  l_on : nid;
  l_type : string;
  l_space : string;
  l_selector : option string;
  l_action : action
}.

(** What runs at the end of a transition of a tip. *)
Inductive kont := ShownComplete (o : oid) | HiddenComplete (o : oid) (tip : nid).

Inductive markup := Markup (tag : string) (classes : list string) (attrs : list (string * string))
  (inside : list markup).

Record tpage := TPage {
  base : bpage oid kont;                 (* [data]: the object of an element *)
  heap : gmap oid cell;
  timers : gmap nat (oid * hover);       (* pending, with the state they ask for *)
  poppers : gmap nat popper;
  handlers : list listener;
  texts : gmap nid (bool * string)       (* markup or text put into an element *)
}.
Abbreviation tipM := (jsM tpage).

Definition on_base (f : bpage oid kont → bpage oid kont) (p : tpage) : tpage :=
  TPage (f (base p)) (heap p) (timers p) (poppers p) (handlers p) (texts p).
Definition on_heap (f : gmap oid cell → gmap oid cell) (p : tpage) : tpage :=
  TPage (base p) (f (heap p)) (timers p) (poppers p) (handlers p) (texts p).
Definition on_timers (f : gmap nat (oid * hover) → gmap nat (oid * hover)) (p : tpage) : tpage :=
  TPage (base p) (heap p) (f (timers p)) (poppers p) (handlers p) (texts p).
Definition on_poppers (f : gmap nat popper → gmap nat popper) (p : tpage) : tpage :=
  TPage (base p) (heap p) (timers p) (f (poppers p)) (handlers p) (texts p).
Definition on_handlers (f : list listener → list listener) (p : tpage) : tpage :=
  TPage (base p) (heap p) (timers p) (poppers p) (f (handlers p)) (texts p).
Definition on_texts (f : gmap nid (bool * string) → gmap nid (bool * string)) (p : tpage) : tpage :=
  TPage (base p) (heap p) (timers p) (poppers p) (handlers p) (f (texts p)).
Definition doc (p : tpage) : dom := pdoc (base p).

(** ** The browser, the page's own functions and the construction of Popper *)

Class TipEnv := {
  documentElement : nid;
  document_body : nid;
  data_of : dom → nid → config;                       (* [$(el).data()] *)
  display_none : dom → nid → bool;                    (* [css('display')] *)
  has_touch : bool;
  parse_template : string → markup;                   (* [$(template)[0]] *)
  text_of : dom → nid → string;                       (* [$(el).text()] *)
  call_content : nat → dom → nid → content;           (* functions as title or content *)
  call_placement : nat → dom → nid → nid → string;    (* a function as placement *)
  draws : dom → list string;                          (* what Math.random gives *)
  loaded_placement : dom → nid → nid → popper_options → string   (* line 2531 of Popper *)
}.

(** What Tooltip leaves to its class: the names, the defaults and the methods
    that Popover overrides. *)
Class Widget := {
  NAME : string;
  CLASS_PREFIX : string;
  Default : config;
  DefaultType : list (string * list string);
  isWithContent : dom → tooltip → bool;
  setContent : oid → tipM ()
}.

(** ** Access to objects *)

Section base.
Context `{B : Browser, E : TipEnv}.

Definition lift {A} (m : bsM oid kont A) : tipM A := λ p,
  let '(b, r) := m (base p) in (on_base (λ _, b) p, r).
Definition docM (f : dom → dom) : tipM () := mupdate (on_base (on_doc f)).

Definition this {A} (o : oid) (f : tooltip → A) : tipM A := λ p,
  match heap p !! o with Some (Live t) => (p, Ret (f t)) | _ => (p, Throw TypeError) end.
Definition upd_cell (f : tooltip → tooltip) (c : cell) : cell :=
  match c with Live t => Live (f t) | Disposed b => Disposed b end.
Definition upd (f : tooltip → tooltip) (o : oid) : tipM () := mupdate (on_heap (alter (upd_cell f) o)).

Definition set_enabled (b : bool) (t : tooltip) : tooltip :=
  MkTooltip b (_timeout t) (_hoverState t) (_activeTrigger t) (_popper t) (element t) (config_of t) (tip t).
Definition set_timeout (i : nat) (t : tooltip) : tooltip :=
  MkTooltip (_isEnabled t) i (_hoverState t) (_activeTrigger t) (_popper t) (element t) (config_of t) (tip t).
Definition set_hover (h : hover) (t : tooltip) : tooltip :=
  MkTooltip (_isEnabled t) (_timeout t) h (_activeTrigger t) (_popper t) (element t) (config_of t) (tip t).
Definition set_triggers (f : triggers → triggers) (t : tooltip) : tooltip :=
  MkTooltip (_isEnabled t) (_timeout t) (_hoverState t) (f (_activeTrigger t)) (_popper t) (element t)
    (config_of t) (tip t).
Definition set_popper (i : option nat) (t : tooltip) : tooltip :=
  MkTooltip (_isEnabled t) (_timeout t) (_hoverState t) (_activeTrigger t) i (element t) (config_of t) (tip t).
Definition set_config (f : config → config) (t : tooltip) : tooltip :=
  MkTooltip (_isEnabled t) (_timeout t) (_hoverState t) (_activeTrigger t) (_popper t) (element t)
    (f (config_of t)) (tip t).
Definition set_tip (n : nid) (t : tooltip) : tooltip :=
  MkTooltip (_isEnabled t) (_timeout t) (_hoverState t) (_activeTrigger t) (_popper t) (element t)
    (config_of t) (Some n).

Definition bump (p : bpage oid kont) : bpage oid kont :=
  BPage (pdoc p) (plog p) (pwait p) (pdata p) (S (pfresh p)).
(** A number for a new object, timer or instance. *)
Definition fresh : tipM nat :=
  n ← mget (λ p, pfresh (base p)); _ ← mupdate (on_base bump); mret n.

(** [$.contains(a, n)] *)
Definition contains (d : dom) (a n : nid) : bool :=
  match Dom.parent d n with
  | Some q => bool_decide (is_Some (Dom.closest (λ _ m, bool_decide (m = a)) d q))
  | None => false
  end.
Definition inDocument (d : dom) (n : nid) : bool := contains d documentElement n.
(** [document.getElementById(i)] finds something. *)
Definition id_in_use (d : dom) (i : string) : bool :=
  existsb (λ n, Dom.sel_id i d n && inDocument d n) (map_to_list d).*1.

(** ** The tip and its content *)

(** The nodes of a template. *)
Fixpoint build (m : markup) (d : dom) : dom * nid :=
  match m with
  | Markup tag classes attrs inside =>
      let n := Dom.new_node d in
      (foldl (λ d c, let '(d', k) := build c d in Dom.append n k d')
         (<[n := Elem tag "" classes (list_to_map attrs) ∅ None []]> d) inside, n)
  end.

(** Lines 2795 to 2798 and 3180 to 3183. *)
Definition getTipElement (o : oid) : tipM nid :=
  t ← this o id;
  match tip t with
  | Some n => mret n
  | None =>
      r ← mget (λ p, build (parse_template (text_value (opt (config_of t) "template"))) (doc p));
      _ ← docM (λ _, r.1);
      _ ← upd (set_tip r.2) o;
      mret r.2
  end.

(** The content an option stands for: [s] unless it is empty, else the option,
    called on the element if it is a function. *)
Definition option_content (d : dom) (el : nid) (v : value) : content :=
  match v with
  | VStr s => CText s
  | VElement n => CElement n
  | VFunction f => call_content f d el
  | _ => CText ""
  end.

(** Lines 2823 to 2831. *)
Definition getTitle (d : dom) (t : tooltip) : content :=
  let title := default "" (Dom.getAttribute d (element t) "data-original-title") in
  if bool_decide (title = "") then option_content d (element t) (opt (config_of t) "title") else CText title.

(** [empty()], with which [text] and [html] begin. *)
Definition empty (n : nid) (d : dom) : dom := Dom.each Dom.detach (Dom.children d n) d.

(** Lines 2806 to 2821, for every element of the selection. *)
Definition put_content (html : bool) (c : content) (n : nid) : tipM () :=
  match c with
  | CElement e =>
      if html then
        there ← mget (λ p, bool_decide (Dom.parent (doc p) e = Some n));
        if (there : bool) then mret () else docM (λ d, Dom.append n e (empty n d))
      else
        s ← mget (λ p, text_of (doc p) e);
        _ ← docM (empty n); mupdate (on_texts <[n := (false, s)]>)
  | CText s => _ ← docM (empty n); mupdate (on_texts <[n := (html, s)]>)
  end.
Definition setElementContent (o : oid) (els : list nid) (c : content) : tipM () :=
  html ← this o (λ t, truthy (opt (config_of t) "html"));
  meach (put_content html c) els.

(** Lines 2834 to 2836; [None] is undefined. *)
Definition AttachmentMap : list (string * string) :=
  [("AUTO", "auto"); ("TOP", "top"); ("RIGHT", "right"); ("BOTTOM", "bottom"); ("LEFT", "left")].
Definition _getAttachment (placement : string) : option string :=
  snd <$> List.find (λ kv, bool_decide (kv.1 = Util.upper placement)) AttachmentMap.

End base.

(** ** The methods *)

Section methods.
Context `{B : Browser, E : TipEnv, W : Widget}.

Definition DATA_KEY : string := "bs." +:+ NAME.
Definition EVENT_KEY : string := "." +:+ DATA_KEY.
(** Lines 2499 to 2510. *)
Definition ev (e : string) : string := e +:+ EVENT_KEY.
Definition fire_event (e : string) (o : oid) : tipM bool :=
  el ← this o element; lift (trigger (ev e) [] el).

(** Lines 2791 to 2793 and 3176 to 3178. *)
Definition class_of (attachment : option string) : string :=
  CLASS_PREFIX +:+ "-" +:+ default "undefined" attachment.
Definition addAttachmentClass (attachment : option string) (o : oid) : tipM () :=
  n ← getTipElement o; docM (Dom.addClass (class_of attachment) n).

(** Lines 2992 to 2999 and 3205 to 3212: the matches of the expression are the
    classes that start with the prefix and go on. *)
Definition tab_class (c : string) : bool :=
  String.prefix CLASS_PREFIX c && negb (bool_decide (c = CLASS_PREFIX)).
Definition _cleanTipClass (o : oid) : tipM () :=
  n ← getTipElement o;
  tabClass ← mget (λ p, match doc p !! n with
                        | Some e => filter (λ c, tab_class c = true) (classList e)
                        | None => []
                        end);
  docM (λ d, foldl (λ d c, Dom.removeClass c n d) d tabClass).

(** Lines 3001 to 3005. *)
Definition _handlePopperPlacementChange (placement : string) (o : oid) : tipM () :=
  _ ← _cleanTipClass o; addAttachmentClass (_getAttachment placement) o.

(** ** Options, lines 2956 to 2990 *)

Definition number_text (k : string) (c : config) : config :=
  match c !! k with Some (VNum z) => <[k := VStr (pretty z)]> c | _ => c end.
Definition delay_pair (c : config) : config :=
  match c !! "delay" with Some (VNum z) => <["delay" := VDelay z z]> c | _ => c end.
Definition _getConfig (d : dom) (el : nid) (given : config) : outcome config :=
  let c := number_text "content" (number_text "title" (delay_pair (given ∪ data_of d el ∪ Default))) in
  match Util.typeCheckConfig "tooltip" (to_optval <$> c) DefaultType with
  | Ret _ => Ret c
  | Throw e => Throw e
  end.

(** Options that differ from the defaults; a value that is no default of the
    class differs from undefined. *)
Definition _getDelegateConfig (c : config) : config :=
  filter (λ kv, opt Default kv.1 ≠ kv.2) c.

(** ** Listeners, lines 2838 to 2879 *)

Fixpoint split_spaces (s : string) : list string :=
  match s with
  | EmptyString => [""]
  | String a s' =>
      if bool_decide (a = Ascii.ascii_of_nat 32) then "" :: split_spaces s'
      else match split_spaces s' with w :: ws => String a w :: ws | [] => [String a ""] end
  end.

Definition selector_option (c : config) : option string :=
  match opt c "selector" with VStr s => if bool_decide (s = "") then None else Some s | _ => None end.

Definition MODAL : Dom.selector := Dom.sel_class "modal".
Definition modal_listener (d : dom) (o : oid) (el : nid) : list listener :=
  match Dom.closest MODAL d el with
  | Some m => [Listener m "hide" ".bs.modal" None (AHide o)]
  | None => []
  end.
(** The listeners of one trigger. *)
Definition trigger_listeners (d : dom) (o : oid) (t : tooltip) (trigger : string) : list listener :=
  let on type a := Listener (element t) type EVENT_KEY (selector_option (config_of t)) a in
  (if bool_decide (trigger = "click") then [on "click" (AToggle o)]
   else if bool_decide (trigger = "manual") then []
   else if bool_decide (trigger = "hover") then [on "mouseenter" (AEnter o); on "mouseleave" (ALeave o)]
   else [on "focusin" (AEnter o); on "focusout" (ALeave o)]) ++ modal_listener d o (element t).

Definition _fixTitle (el : nid) (d : dom) : dom :=
  let title := default "" (Dom.getAttribute d el "title") in
  if negb (bool_decide (title = "")) || negb (Dom.hasAttribute d el "data-original-title")
  then Dom.setAttribute "title" "" el (Dom.setAttribute "data-original-title" title el d)
  else d.

Definition _setListeners (o : oid) : tipM () :=
  t ← this o id;
  d ← mget doc;
  _ ← mupdate (on_handlers (λ hs, hs ++ mjoin (trigger_listeners d o t <$>
        split_spaces (text_value (opt (config_of t) "trigger")))));
  if truthy (opt (config_of t) "selector")
  then upd (set_config (λ c, <["selector" := VStr ""]> (<["trigger" := VStr "manual"]> c))) o
  else docM (_fixTitle (element t)).

(** Lines 2536 to 2557. *)
Definition construct (el : nid) (given : config) : tipM oid :=
  d ← mget doc;
  match _getConfig d el given with
  | Throw e => mthrow e
  | Ret c =>
      o ← fresh;
      _ ← mupdate (on_heap <[o := Live (MkTooltip true 0 HEmpty (Triggers false false false) None el c None)]>);
      _ ← _setListeners o;
      mret o
  end.

(** The object of [el], made with the options of [o] if there is none: lines
    2580 to 2586, 2882 to 2888 and 2915 to 2921; a disposed object has none. *)
Definition config_or_empty (o : oid) (p : tpage) : config :=
  match heap p !! o with Some (Live t) => config_of t | _ => ∅ end.
Definition context_of (o : oid) (el : nid) : tipM oid :=
  known ← mget (λ p, pdata (base p) !! el);
  match known with
  | Some c => mret c
  | None =>
      c ← mget (config_or_empty o);
      o' ← construct el (_getDelegateConfig c);
      _ ← mupdate (on_base (set_data el o'));
      mret o'
  end.

(** ** Hiding, lines 2728 to 2778 *)

(** [destroy] of Popper, as far as the tip is concerned. *)
Definition destroyed (q : popper) : popper := 
  MkPopper (p_object q) (p_reference q) (p_tip q) (p_options q) (p_scheduled q) true.
Definition destroy_popper (i : nat) : tipM () :=
  q ← mget (λ p, poppers p !! i);
  match q with
  | Some q => _ ← docM (Dom.removeAttribute "x-placement" (p_tip q)); mupdate (on_poppers (alter destroyed i))
  | None => mret ()
  end.

Definition hover_of (o : oid) (p : tpage) : hover :=
  match heap p !! o with Some (Live t) => _hoverState t | _ => HNull end.

(** Lines 2734 to 2752. *)
Definition hidden_complete (o : oid) (n : nid) : tipM () :=
  h ← mget (hover_of o);
  _ ← mguard (negb (bool_decide (h = HShow))) (docM (Dom.detach n));
  _ ← _cleanTipClass o;
  el ← this o element;
  _ ← docM (Dom.removeAttribute "aria-describedby" el);
  _ ← fire_event "hidden" o;
  q ← this o _popper;
  match q with Some i => destroy_popper i | None => mret () end.

Definition body_children (d : dom) : list nid := Dom.children d document_body.
Definition touch_listener (n : nid) : listener := Listener n "mouseover" "" None ANoop.
Definition is_touch (l : listener) (ns : list nid) : bool :=
  bool_decide (l_on l ∈ ns) && bool_decide (l_type l = "mouseover") && match l_action l with ANoop => true | _ => false end.

Definition fades (n : nid) (p : tpage) : bool := supportsTransitionEnd && Dom.hasClass (doc p) n "fade".
Definition no_triggers (t : triggers) : triggers := Triggers false false false.

Definition hide (o : oid) : tipM () :=
  n ← getTipElement o;
  prevented ← fire_event "hide" o;
  if (prevented : bool) then mret ()
  else
    _ ← docM (Dom.removeClass "show" n);
    _ ← mguard has_touch (mupdate (λ p,
          on_handlers (filter (λ l, is_touch l (body_children (doc p)) = false)) p));
    _ ← upd (set_triggers no_triggers) o;
    fade ← mget (fades n);
    _ ← (if (fade : bool) then lift (one n TRANSITION_END (HiddenComplete o n)) else hidden_complete o n);
    upd (set_hover HEmpty) o.

(** Lines 2780 to 2784. *)
Definition scheduled (q : popper) : popper :=
  MkPopper (p_object q) (p_reference q) (p_tip q) (p_options q) (S (p_scheduled q)) (p_destroyed q).
Definition update (o : oid) : tipM () :=
  c ← mget (λ p, heap p !! o);
  match c with
  | Some (Live t) => match _popper t with Some i => mupdate (on_poppers (alter scheduled i)) | None => mret () end
  | _ => mret ()
  end.

(** ** Leaving, lines 2914 to 2953 *)

Definition _isWithActiveTrigger (t : triggers) : bool := t_click t || t_focus t || t_hover t.
Definition set_trigger (focus : bool) (b : bool) (t : triggers) : triggers :=
  if focus then Triggers (t_click t) b (t_hover t) else Triggers (t_click t) (t_focus t) b.

Definition clear_timeout (o : oid) : tipM () :=
  i ← this o _timeout; mupdate (on_timers (delete i)).
Definition start_timer (o : oid) (h : hover) : tipM () :=
  i ← fresh;
  _ ← mupdate (on_timers <[S i := (o, h)]>);
  upd (set_timeout (S i)) o.
Definition delays (c : config) : Z * Z :=
  match opt c "delay" with VDelay s h => (s, h) | _ => (0, 0)%Z end.

Definition leave (context : oid) : tipM () :=
  t ← this context id;
  if _isWithActiveTrigger (_activeTrigger t) then mret ()
  else
    _ ← clear_timeout context;
    _ ← upd (set_hover HOut) context;
    if ((delays (config_of t)).2 =? 0)%Z then hide context else start_timer context HOut.
(** The event is that of a listener, with its current target. *)
Definition _leave (o : oid) (event : option (nid * bool)) : tipM () :=
  match event with
  | None => leave o
  | Some (el, focusout) =>
      context ← context_of o el;
      _ ← upd (set_triggers (set_trigger focusout false)) context;
      leave context
  end.

(** ** Showing, lines 2632 to 2726 and 3007 to 3020 *)

(** Lines 2706 to 2718; [fix_] is [_fixTransition]. *)
Definition shown_complete (fix_ : oid → tipM ()) (o : oid) : tipM () :=
  animation ← this o (λ t, truthy (opt (config_of t) "animation"));
  _ ← mguard animation (fix_ o);
  prevHoverState ← this o _hoverState;
  _ ← upd (set_hover HNull) o;
  _ ← fire_event "shown" o;
  mguard (bool_decide (prevHoverState = HOut)) (leave o).

(** Lines 2659 to 2661. *)
Definition placement_of (d : dom) (n : nid) (t : tooltip) : string :=
  match opt (config_of t) "placement" with
  | VFunction f => call_placement f d n (element t)
  | v => text_value v
  end.
(** Line 2664: where the tip goes; of several containers the last one gets it. *)
Definition container_of (d : dom) (v : value) : outcome (option nid) :=
  match v with
  | VBool false => Ret (Some document_body)
  | VElement n => Ret (Some n)
  | VStr s => match query d s with Some ns => Ret (last ns) | None => Throw SyntaxError end
  | _ => Ret None
  end.
(** Lines 2672 to 2685, the options of the instance. *)
Definition popper_options_of (c : config) (attachment : string) : popper_options :=
  PopperOptions attachment (opt c "offset") (opt c "fallbackPlacement") ".arrow" (opt c "boundary").
(** Line 2672; the constructor needs a placement and marks the tip with the one
    it computes. *)
Definition create_popper (o : oid) (n : nid) (attachment : option string) : tipM () :=
  t ← this o id;
  match attachment with
  | None => mthrow TypeError
  | Some a =>
      let options := popper_options_of (config_of t) a in
      i ← fresh;
      _ ← mupdate (on_poppers <[i := MkPopper o (element t) n options 0 false]>);
      _ ← docM (λ d, Dom.setAttribute "x-placement" (loaded_placement d (element t) n options) n d);
      upd (set_popper (Some i)) o
  end.

(** Lines 2649 to 2657. *)
Definition fill_tip (o : oid) (n : nid) : tipM () :=
  t ← this o id;
  uid ← mget (λ p, Util.getUID (id_in_use (doc p)) NAME (draws (doc p)));
  match uid with
  | None => mthrow (ErrorMsg "getUID does not return")
  | Some tipId =>
      _ ← docM (Dom.setId tipId n);
      _ ← docM (Dom.setAttribute "aria-describedby" tipId (element t));
      _ ← setContent o;
      mguard (truthy (opt (config_of t) "animation")) (docM (Dom.addClass "fade" n))
  end.

(** Lines 2659 to 2671. *)
Definition insert_tip (o : oid) (n : nid) : tipM (option string) :=
  t ← this o id;
  attachment ← mget (λ p, _getAttachment (placement_of (doc p) n t));
  _ ← addAttachmentClass attachment o;
  container ← mget (λ p, container_of (doc p) (opt (config_of t) "container"));
  match container with
  | Throw e => mthrow e
  | Ret container =>
      _ ← mupdate (on_base (set_data n o));
      there ← mget (λ p, inDocument (doc p) n);
      _ ← (if there : bool then mret () else docM (match container with Some c => Dom.append c n | None => λ d, d end));
      _ ← fire_event "inserted" o;
      mret attachment
  end.

Definition show_with (fix_ : oid → tipM ()) (o : oid) : tipM () :=
  t ← this o id;
  hidden ← mget (λ p, display_none (doc p) (element t));
  if (hidden : bool) then mthrow (ErrorMsg "Please use show on visible elements")
  else
    content ← mget (λ p, isWithContent (doc p) t);
    if negb (content && _isEnabled t) then mret ()
    else
      prevented ← fire_event "show" o;
      isInTheDom ← mget (λ p, inDocument (doc p) (element t));
      if prevented || negb isInTheDom then mret ()
      else
        n ← getTipElement o;
        _ ← fill_tip o n;
        attachment ← insert_tip o n;
        _ ← create_popper o n attachment;
        _ ← docM (Dom.addClass "show" n);
        _ ← mguard has_touch (mupdate (λ p,
              on_handlers (λ hs, hs ++ (touch_listener <$> body_children (doc p))) p));
        fade ← mget (fades n);
        if (fade : bool) then lift (one n TRANSITION_END (ShownComplete o))
        else shown_complete fix_ o.

(** Lines 3007 to 3020.  The call of [show] is made with the option animation
    off, so that its callback does not come back here. *)
Definition set_animation (v : value) (o : oid) : tipM () := upd (set_config <["animation" := v]>) o.
Definition _fixTransition (o : oid) : tipM () :=
  n ← getTipElement o;
  initConfigAnimation ← this o (λ t, opt (config_of t) "animation");
  placed ← mget (λ p, Dom.hasAttribute (doc p) n "x-placement");
  if (placed : bool) then mret ()
  else
    _ ← docM (Dom.removeClass "fade" n);
    _ ← set_animation (VBool false) o;
    _ ← hide o;
    _ ← show_with (λ _, mret ()) o;
    set_animation initConfigAnimation o.

Definition show : oid → tipM () := show_with _fixTransition.

Definition resume (k : kont) : tipM () :=
  match k with
  | ShownComplete o => shown_complete _fixTransition o
  | HiddenComplete o n => hidden_complete o n
  end.

(** ** Entering, lines 2881 to 2912, and toggling, lines 2575 to 2605 *)

Definition enter (context : oid) : tipM () :=
  n ← getTipElement context;
  t ← this context id;
  shown ← mget (λ p, Dom.hasClass (doc p) n "show");
  if shown || bool_decide (_hoverState t = HShow) then upd (set_hover HShow) context
  else
    _ ← clear_timeout context;
    _ ← upd (set_hover HShow) context;
    if ((delays (config_of t)).1 =? 0)%Z then show context else start_timer context HShow.
Definition _enter (o : oid) (event : option (nid * bool)) : tipM () :=
  match event with
  | None => enter o
  | Some (el, focusin) =>
      context ← context_of o el;
      _ ← upd (set_triggers (set_trigger focusin true)) context;
      enter context
  end.

Definition enabled_of (o : oid) (p : tpage) : bool :=
  match heap p !! o with Some (Live t) => _isEnabled t | Some (Disposed b) => b | None => false end.
Definition flip_click (t : triggers) : triggers := Triggers (negb (t_click t)) (t_focus t) (t_hover t).
Definition toggle (o : oid) (event : option nid) : tipM () :=
  enabled ← mget (enabled_of o);
  if negb enabled then mret ()
  else
    match event with
    | Some el =>
        context ← context_of o el;
        _ ← upd (set_triggers flip_click) context;
        active ← this context (λ t, _isWithActiveTrigger (_activeTrigger t));
        if (active : bool) then _enter context None else _leave context None
    | None =>
        n ← getTipElement o;
        shown ← mget (λ p, Dom.hasClass (doc p) n "show");
        if (shown : bool) then _leave o None else _enter o None
    end.

(** Lines 2563 to 2573. *)
Definition enable_cell (f : bool → bool) (c : cell) : cell :=
  match c with Live t => Live (set_enabled (f (_isEnabled t)) t) | Disposed b => Disposed (f b) end.
Definition enable (o : oid) : tipM () := mupdate (on_heap (alter (enable_cell (λ _, true)) o)).
Definition disable (o : oid) : tipM () := mupdate (on_heap (alter (enable_cell (λ _, false)) o)).
Definition toggleEnabled (o : oid) : tipM () := mupdate (on_heap (alter (enable_cell negb) o)).

(** [$(n).remove()]: the nodes of the subtree leave the document and lose their
    data, their listeners and the callbacks that wait for an event of theirs. *)
Definition forget (ns : list nid) (p : tpage) : tpage :=
  on_handlers (filter (λ l, l_on l ∉ ns))
    (on_base (λ b, BPage (pdoc b) (plog b) (filter (λ w, w.1.1 ∉ ns) (pwait b))
      (filter (λ kv, kv.1 ∉ ns) (pdata b)) (pfresh b)) p).
Definition subtree (d : dom) (n : nid) : list nid := n :: Dom.descendants d n.
Definition remove_node (n : nid) : tipM () :=
  ns ← mget (λ p, subtree (doc p) n);
  _ ← mupdate (forget ns);
  docM (Dom.remove n).

(** Lines 2607 to 2630. *)
Definition dispose (o : oid) : tipM () :=
  t ← this o id;
  _ ← clear_timeout o;
  _ ← mupdate (on_base (drop_data (element t)));
  m ← mget (λ p, Dom.closest MODAL (doc p) (element t));
  _ ← mupdate (on_handlers (filter (λ l,
        ¬ (l_on l = element t ∧ l_space l = EVENT_KEY) ∧
        ¬ (Some (l_on l) = m ∧ l_type l = "hide" ∧ l_space l = ".bs.modal"))));
  _ ← match tip t with
      | Some n => remove_node n
      | None => mret ()
      end;
  _ ← match _popper t with Some i => destroy_popper i | None => mret () end;
  mupdate (on_heap (alter (λ _, Disposed false) o)).

(** ** Events, timers and calls *)

Definition run_action (target : nid) (type : string) (a : action) : tipM () :=
  match a with
  | AToggle o => toggle o (Some target)
  | AEnter o => _enter o (Some (target, bool_decide (type = "focusin")))
  | ALeave o => _leave o (Some (target, bool_decide (type = "focusout")))
  | AHide o => hide o
  | ANoop => mret ()
  end.
(** A listener hears an event with current target [n]: its own element, or one
    inside that its selector finds. *)
Definition hears (d : dom) (n : nid) (type : string) (l : listener) : bool :=
  bool_decide (l_type l = type) &&
  match l_selector l with
  | None => bool_decide (l_on l = n)
  | Some s => contains d (l_on l) n && match query d s with Some ns => bool_decide (n ∈ ns) | None => false end
  end.
Definition dispatch (n : nid) (type : string) : tipM () :=
  ls ← mget (λ p, filter (λ l, hears (doc p) n type l = true) (handlers p));
  meach (λ l, run_action n type (l_action l)) ls.

(** The timeouts of lines 2905 to 2911 and 2938 to 2943. *)
Definition run_timer (i : nat) : tipM () :=
  w ← mget (λ p, timers p !! i);
  match w with
  | None => mret ()
  | Some (o, h) =>
      _ ← mupdate (on_timers (delete i));
      now ← mget (hover_of o);
      if negb (bool_decide (now = h)) then mret ()
      else match h with HShow => show o | HOut => hide o | _ => mret () end
  end.

(** The end of a transition of [n]. *)
Definition transition_end (n : nid) : tipM () :=
  ks ← mget (λ p, waiting n TRANSITION_END (base p));
  _ ← mupdate (on_base (drop_wait n TRANSITION_END));
  meach resume ks.

(** Lines 2686 to 2694: Popper has placed the tip; a destroyed instance calls
    nobody. *)
Definition popper_callback (i : nat) (created : bool) (original placement : string) : tipM () :=
  q ← mget (λ p, poppers p !! i);
  match q with
  | None => mret ()
  | Some q =>
      if p_destroyed q || (created && bool_decide (original = placement)) then mret ()
      else _handlePopperPlacementChange placement (p_object q)
  end.

(** Lines 3029 to 3046 and 3221 to 3238, for the public methods and for names
    an object does not have. *)
Definition call_method (m : string) (o : oid) : tipM () :=
  if bool_decide (m = "enable") then enable o
  else if bool_decide (m = "disable") then disable o
  else if bool_decide (m = "toggleEnabled") then toggleEnabled o
  else if bool_decide (m = "toggle") then toggle o None
  else if bool_decide (m = "dispose") then dispose o
  else if bool_decide (m = "show") then show o
  else if bool_decide (m = "hide") then hide o
  else if bool_decide (m = "update") then update o
  else mthrow TypeError.
(** [ignored]: method names that make no object, [dispose|hide] for a tooltip
    and [destroy|hide] for a popover. *)
Definition interface_on (ignored : list string) (options : config) (method : option string) (el : nid) : tipM () :=
  known ← mget (λ p, pdata (base p) !! el);
  let skip := match method with Some m => existsb (λ i, Util.contains i m) ignored | None => false end in
  match known with
  | None =>
      if skip then mret ()
      else
        o ← construct el options;
        _ ← mupdate (on_base (set_data el o));
        match method with Some m => call_method m o | None => mret () end
  | Some o => match method with Some m => call_method m o | None => mret () end
  end.

End methods.

(** What the methods above rely on: [setContent] writes into the document and
    makes the tip, and does nothing else; any invariant of those is kept. *)
Class QuietContent `{W : Widget} := content_quiet : ∀ (I : tpage → Prop) o,
  (∀ f, keeps I (docM f)) → (∀ f, keeps I (mupdate (on_texts f))) →
  (∀ n o, keeps I (upd (set_tip n) o)) → keeps I (setContent o).

(** ** The class Tooltip itself *)

Section tooltip.
Context `{B : Browser, E : TipEnv}.

(** Lines 2481 to 2494. *)
Definition template : string :=
  "<div class=" +:+ Util.quote "tooltip" +:+ " role=" +:+ Util.quote "tooltip" +:+ ">" +:+
  "<div class=" +:+ Util.quote "arrow" +:+ "></div>" +:+
  "<div class=" +:+ Util.quote "tooltip-inner" +:+ "></div></div>".
Definition tooltip_defaults : config :=
  list_to_map [("animation", VBool true); ("template", VStr template); ("trigger", VStr "hover focus");
    ("title", VStr ""); ("delay", VNum 0); ("html", VBool false); ("selector", VBool false);
    ("placement", VStr "top"); ("offset", VNum 0); ("container", VBool false);
    ("fallbackPlacement", VStr "flip"); ("boundary", VStr "scrollParent")].
(** Lines 2460 to 2473. *)
Definition tooltip_types : list (string * list string) :=
  [("animation", ["boolean"]); ("template", ["string"]); ("title", ["string"; "element"; "function"]);
   ("trigger", ["string"]); ("delay", ["number"; "object"]); ("html", ["boolean"]);
   ("selector", ["string"; "boolean"]); ("placement", ["string"; "function"]);
   ("offset", ["number"; "string"]); ("container", ["string"; "element"; "boolean"]);
   ("fallbackPlacement", ["string"; "array"]); ("boundary", ["string"; "element"])].

(** Lines 2787 to 2789. *)
Definition tooltip_isWithContent (d : dom) (t : tooltip) : bool := has_content (getTitle d t).
(** Lines 2800 to 2804. *)
Definition tooltip_setContent (o : oid) : tipM () :=
  n ← getTipElement o;
  t ← this o id;
  inner ← mget (λ p, Dom.find (Dom.sel_class "tooltip-inner") (doc p) n);
  title ← mget (λ p, getTitle (doc p) t);
  _ ← setElementContent o inner title;
  docM (λ d, Dom.removeClass "show" n (Dom.removeClass "fade" n d)).

Definition tooltip_widget : Widget := {|
  NAME := "tooltip";
  CLASS_PREFIX := "bs-tooltip";
  Default := tooltip_defaults;
  DefaultType := tooltip_types;
  isWithContent := tooltip_isWithContent;
  setContent := tooltip_setContent
|}.

(** Lines 3023 to 3048. *)
Definition _jQueryInterface (options : config) (method : option string) (els : list nid) : tipM () :=
  meach (interface_on (W:=tooltip_widget) ["dispose"; "hide"] options method) els.

Lemma keeps_this (I : tpage → Prop) {A} o (f : tooltip → A) : keeps I (this o f).
Proof. intros p H. unfold this. by repeat case_match. Qed.

Lemma getTip_quiet (I : tpage → Prop) o :
  (∀ f, keeps I (docM f)) → (∀ n o, keeps I (upd (set_tip n) o)) → keeps I (getTipElement o).
Proof.
  intros Hd Ht. apply keeps_bind; [apply keeps_this|]. intros t. case_match; [apply keeps_ret|].
  repeat (apply keeps_bind; [auto with js|intros]). apply keeps_ret.
Qed.

Lemma setElementContent_quiet (I : tpage → Prop) o els c :
  (∀ f, keeps I (docM f)) → (∀ f, keeps I (mupdate (on_texts f))) → keeps I (setElementContent o els c).
Proof.
  intros Hd Ht. apply keeps_bind; [apply keeps_this|]. intros html. apply keeps_each. intros n.
  destruct c; simpl; [auto with js|]. destruct html; auto with js.
  apply keeps_bind; [apply keeps_get|]. intros []; auto with js.
Qed.

#[global] Instance tooltip_quiet : QuietContent (W:=tooltip_widget).
Proof.
  intros I o Hd Hx Ht. apply keeps_bind; [by apply getTip_quiet|]. intros n.
  apply keeps_bind; [apply keeps_this|]. intros t.
  do 2 (apply keeps_bind; [apply keeps_get|]; intros). apply keeps_bind; [by apply setElementContent_quiet|auto].
Qed.

End tooltip.

End Tooltip.
