(* ===== verification/TooltipTimers.v ===== *)
(** * Tooltip: timers and re-entry

    The theorems about file Tooltip that hold along every sequence of events:
    at most one timer per object, none for a disposed one; and what a user who
    comes back in time sees.  They hold for every [Widget]. *)

From S2P Require Import Prelude Dom Bs Tooltip.
Local Open Scope string_scope.
Local Open Scope list_scope.

Module TooltipTimers.
Import Tooltip.

Section timers.
Context `{B : Browser, E : TipEnv, W : Widget}.

(** What can happen on a page with tooltips. *)
Inductive step :=
  | UserEvent (target : nid) (type : string)
  | TransitionEnd (n : nid)
  | TimerFires (i : nat)
  | PopperPlaced (i : nat) (created : bool) (original placement : string)
  | Interface (ignored : list string) (options : config) (method : option string) (el : nid)
  | MethodCall (m : string) (o : oid).

Definition run_step (p : tpage) (s : step) : tpage :=
  (match s with
   | UserEvent n type => dispatch n type
   | TransitionEnd n => transition_end n
   | TimerFires i => run_timer i
   | PopperPlaced i c a b => popper_callback i c a b
   | Interface ig c m el => interface_on ig c m el
   | MethodCall m o => call_method m o
   end p).1.
Definition run_steps : tpage → list step → tpage := foldl run_step.

(** ** One timer per object *)

(** A pending timer belongs to a live object, which knows it; with [X], none
    belongs to the object [X]. *)
Definition timer_inv (X : option oid) (p : tpage) : Prop :=
  (∀ o, is_Some (heap p !! o) → (o < pfresh (base p))%nat) ∧
  (∀ i o h, timers p !! i = Some (o, h) →
     Some o ≠ X ∧ ∃ t, heap p !! o = Some (Live t) ∧ _timeout t = i).

Lemma inv_base X f : (∀ b, pfresh b ≤ pfresh (f b))%nat → keeps (timer_inv X) (mupdate (on_base f)).
Proof.
  intros Hf p [H1 H2]. split; [|done]. intros o Ho. specialize (H1 o Ho). specialize (Hf (base p)). simpl in *. lia.
Qed.
Lemma inv_doc X f : keeps (timer_inv X) (docM f).
Proof. by apply inv_base. Qed.
Lemma inv_handlers X f : keeps (timer_inv X) (mupdate (λ p, on_handlers (f p) p)).
Proof. by intros p H. Qed.
Lemma inv_texts X f : keeps (timer_inv X) (mupdate (on_texts f)).
Proof. by intros p H. Qed.
Lemma inv_poppers X f : keeps (timer_inv X) (mupdate (on_poppers f)).
Proof. by intros p H. Qed.
Lemma inv_lift X {A} (m : bsM oid kont A) :
  (∀ b, pfresh b ≤ pfresh (m b).1)%nat → keeps (timer_inv X) (lift m).
Proof.
  intros Hm p [H1 H2]. unfold lift. specialize (Hm (base p)). destruct (m (base p)) as [b r].
  split; [|done]. intros o Ho. specialize (H1 o Ho). simpl in *. lia.
Qed.
Lemma inv_this X {A} o (f : tooltip → A) : keeps (timer_inv X) (this o f).
Proof. intros p H. unfold this. by repeat case_match. Qed.
Lemma inv_cell X f o :
  (∀ t, ∃ t', f (Live t) = Live t' ∧ _timeout t' = _timeout t) →
  keeps (timer_inv X) (mupdate (on_heap (alter f o))).
Proof.
  intros Hf p [H1 H2]. split; simpl.
  - intros o'. rewrite lookup_alter. case_decide; [subst; rewrite fmap_is_Some|]; apply H1.
  - intros i o' h Ht. destruct (H2 i o' h Ht) as (Hx & t & Hh & Hi). split; [done|].
    rewrite lookup_alter. case_decide; [|by eauto]. subst. rewrite Hh. simpl.
    destruct (Hf t) as (t' & -> & E'). by exists t'.
Qed.
Lemma inv_upd X f o : (∀ t, _timeout (f t) = _timeout t) → keeps (timer_inv X) (upd f o).
Proof. intros Hf. apply inv_cell. intros t. by exists (f t). Qed.
Lemma inv_fresh X : keeps (timer_inv X) fresh.
Proof. unfold fresh. apply keeps_bind; [apply keeps_get|]. intros n. apply keeps_bind; [|intros; apply keeps_ret].
  apply inv_base. intros b. simpl. lia. Qed.
Lemma inv_untimer X f : (∀ m i, f m !! i = m !! i ∨ f m !! i = None) → keeps (timer_inv X) (mupdate (on_timers f)).
Proof. intros Hf p [H1 H2]. split; [done|]. intros i o h. simpl. destruct (Hf (timers p) i) as [->| ->]; [|done]. apply H2. Qed.

Lemma pfresh_trigger {D K} e a n (b : bpage D K) : (pfresh b ≤ pfresh (trigger e a n b).1)%nat.
Proof. done. Qed.
Lemma pfresh_one {D K} n e (k : K) (b : bpage D K) : (pfresh b ≤ pfresh (one n e k b).1)%nat.
Proof. done. Qed.

End timers.

Create HintDb tips discriminated.
#[export] Hint Resolve keeps_ret keeps_throw keeps_get keeps_bind keeps_guard keeps_each inv_doc inv_handlers
  inv_texts inv_poppers inv_this inv_fresh : tips.
#[export] Hint Extern 5 (keeps (timer_inv _) (upd _ _)) => apply inv_upd; reflexivity : tips.
#[export] Hint Extern 5 (keeps (timer_inv _) (lift _)) => apply inv_lift; intros; (apply pfresh_trigger || apply pfresh_one) : tips.
#[export] Hint Extern 5 (keeps (timer_inv _) (mupdate (on_base _))) => apply inv_base; intros; simpl; lia : tips.
#[export] Hint Extern 5 (keeps (timer_inv _) (mupdate (on_handlers _))) => by intros ? ? : tips.
#[export] Hint Extern 6 (keeps _ (match ?x with _ => _ end)) => destruct x : tips.

(** Prove that a method keeps the invariant from what its parts keep. *)
Ltac keep :=
  repeat first
    [ progress intros
    | solve [auto 2 with tips]
    | apply keeps_bind | apply keeps_guard | apply keeps_each
    | match goal with |- keeps _ (match ?x with _ => _ end) => destruct x end ].

Section kept.
Context `{B : Browser, E : TipEnv, W : Widget, Q : !QuietContent}.
Variable X : option oid.

Lemma inv_content o : keeps (timer_inv X) (setContent o).
Proof. apply content_quiet; auto with tips. Qed.
#[local] Hint Resolve inv_content : tips.

Lemma inv_getTip o : keeps (timer_inv X) (getTipElement o).
Proof. unfold getTipElement. keep. Qed.
#[local] Hint Resolve inv_getTip : tips.
Lemma inv_clean o : keeps (timer_inv X) (_cleanTipClass o).
Proof. unfold _cleanTipClass. keep. Qed.
Lemma inv_attach a o : keeps (timer_inv X) (addAttachmentClass a o).
Proof. unfold addAttachmentClass. keep. Qed.
Lemma inv_event e o : keeps (timer_inv X) (fire_event e o).
Proof. unfold fire_event. keep. Qed.
Lemma inv_destroy i : keeps (timer_inv X) (destroy_popper i).
Proof. unfold destroy_popper. keep. Qed.
Lemma inv_remove n : keeps (timer_inv X) (remove_node n).
Proof. unfold remove_node. keep. by intros p H. Qed.
#[local] Hint Resolve inv_clean inv_attach inv_event inv_destroy inv_remove : tips.
Lemma inv_hidden o n : keeps (timer_inv X) (hidden_complete o n).
Proof. unfold hidden_complete. keep. Qed.
#[local] Hint Resolve inv_hidden : tips.
Lemma inv_hide o : keeps (timer_inv X) (hide o).
Proof. unfold hide. keep. Qed.
Lemma inv_placed pl o : keeps (timer_inv X) (_handlePopperPlacementChange pl o).
Proof. unfold _handlePopperPlacementChange. keep. Qed.
Lemma inv_popper o n a : keeps (timer_inv X) (create_popper o n a).
Proof. unfold create_popper. keep. Qed.
Lemma inv_fill o n : keeps (timer_inv X) (fill_tip o n).
Proof. unfold fill_tip. keep. Qed.
Lemma inv_insert o n : keeps (timer_inv X) (insert_tip o n).
Proof. unfold insert_tip. keep. Qed.

End kept.
#[export] Hint Resolve inv_content inv_getTip inv_clean inv_attach inv_event inv_destroy inv_remove inv_hidden inv_hide
  inv_placed inv_popper inv_fill inv_insert : tips.

(** ** Methods that start and clear timers *)

Section timed.
Context `{B : Browser, E : TipEnv, W : Widget, Q : !QuietContent}.

(** Without a timer, and alive. *)
Definition idle (o : oid) (p : tpage) : Prop :=
  timer_inv (Some o) p ∧ ∃ t, heap p !! o = Some (Live t).
Definition leads (I J : tpage → Prop) (m : tipM ()) : Prop := ∀ p, I p → J (m p).1.

Lemma inv_weaken X p : timer_inv X p → timer_inv None p.
Proof. intros [H1 H2]. split; [done|]. intros i o h H. by destruct (H2 i o h H). Qed.

Lemma idle_hover o h p : idle o p → idle o ((upd (set_hover h) o) p).1.
Proof.
  intros [H [t Ht]]. split; [by apply inv_upd|]. eexists. simpl. by rewrite lookup_alter_eq, Ht.
Qed.

(** [clearTimeout] and then something that may start a timer. *)
Lemma clear_leads o k : leads (idle o) (timer_inv None) k → keeps (timer_inv None) (_ ← clear_timeout o; k).
Proof.
  intros Hk p Hp. unfold clear_timeout, this, mbind, jsM_bind, mupdate.
  destruct (heap p !! o) as [[t|]|] eqn:Ho; [|done..]. apply Hk. split; [|by eexists].
  destruct Hp as [H1 H2]. split; [done|]. intros i o' h. simpl.
  intros [Hi Hl]%lookup_delete_Some. destruct (H2 i o' h Hl) as (_ & t' & Ht' & Et). split; [|by eauto].
  intros [= ->]. congruence.
Qed.

Lemma start_leads o h : leads (idle o) (timer_inv None) (start_timer o h).
Proof.
  intros p [[H1 H2] [t Ht]]. split; simpl.
  - intros o'. rewrite lookup_alter. case_decide; [subst; rewrite fmap_is_Some|]; intros Ho; specialize (H1 _ Ho); lia.
  - intros i o' h'. rewrite lookup_insert. case_decide as Hi.
    + intros [= <- <-]. split; [done|]. rewrite lookup_alter_eq, Ht. simpl. by eexists.
    + intros Hl. destruct (H2 i o' h' Hl) as (Hne & t' & Ht' & Et). split; [done|].
      rewrite lookup_alter_ne by congruence. by eauto.
Qed.

(** Wait for the delay, or act at once. *)
Lemma inv_timed o (h : hover) (now : bool) m :
  keeps (timer_inv None) m →
  keeps (timer_inv None)
    (_ ← clear_timeout o; _ ← upd (set_hover h) o; if now then m else start_timer o h).
Proof.
  intros Hm. apply clear_leads. intros p Hp. apply (idle_hover o h) in Hp. destruct now.
  - apply Hm. eapply inv_weaken, Hp.
  - by apply (start_leads o h) in Hp.
Qed.

Lemma inv_leave o : keeps (timer_inv None) (leave o).
Proof. unfold leave. apply keeps_bind; [auto with tips|]. intros t. case_match; [auto with tips|]. apply inv_timed; auto with tips. Qed.
#[local] Hint Resolve inv_leave : tips.

Lemma inv_shown fix_ o : (∀ o, keeps (timer_inv None) (fix_ o)) → keeps (timer_inv None) (shown_complete fix_ o).
Proof. intros Hf. unfold shown_complete. keep. Qed.
Lemma inv_show_with fix_ o : (∀ o, keeps (timer_inv None) (fix_ o)) → keeps (timer_inv None) (show_with fix_ o).
Proof. intros Hf. pose proof (inv_shown fix_). unfold show_with. keep. Qed.
Lemma inv_fix o : keeps (timer_inv None) (_fixTransition o).
Proof.
  assert (H : ∀ o, keeps (timer_inv None) (show_with (λ _, mret ()) o)) by (intros; apply inv_show_with; auto with tips).
  unfold _fixTransition, set_animation. keep.
Qed.
Lemma inv_show o : keeps (timer_inv None) (show o).
Proof. apply inv_show_with, inv_fix. Qed.
#[local] Hint Resolve inv_show : tips.

Lemma inv_enter o : keeps (timer_inv None) (enter o).
Proof. unfold enter. do 3 (apply keeps_bind; [auto with tips|intros]). case_match; [auto with tips|]. apply inv_timed; auto with tips. Qed.
#[local] Hint Resolve inv_enter : tips.

(** A new object. *)
Lemma inv_construct el c : keeps (timer_inv None) (construct el c).
Proof.
  unfold construct. apply keeps_bind; [auto with tips|]. intros d. case_match; [|auto with tips].
  intros p [H1 H2]. unfold fresh, mbind, jsM_bind, mget, mupdate, mret, jsM_ret. cbn [fst snd].
  match goal with |- timer_inv None (match _setListeners ?o ?q with _ => _ end).1 =>
    enough (Hq : timer_inv None q) end.
  - assert (Hl : keeps (timer_inv None) (_setListeners (pfresh (base p)))) by (unfold _setListeners; keep).
    apply Hl in Hq. by destruct (_setListeners _ _) as [q []].
  - split; simpl.
    + intros o. rewrite lookup_insert. case_decide; [lia|]. intros Ho. specialize (H1 o Ho). lia.
    + intros i o h Hi. destruct (H2 i o h Hi) as (Hne & t & Ht & Et). split; [done|].
      rewrite lookup_insert_ne; [by eauto|]. intros <-. specialize (H1 _ (mk_is_Some _ _ Ht)). lia.
Qed.
#[local] Hint Resolve inv_construct : tips.
Lemma inv_context o el : keeps (timer_inv None) (context_of o el).
Proof. unfold context_of. keep. Qed.
#[local] Hint Resolve inv_context : tips.

Lemma inv_enter_event o e : keeps (timer_inv None) (_enter o e).
Proof. unfold _enter. keep. Qed.
Lemma inv_leave_event o e : keeps (timer_inv None) (_leave o e).
Proof. unfold _leave. keep. Qed.
#[local] Hint Resolve inv_enter_event inv_leave_event : tips.
Lemma inv_toggle o e : keeps (timer_inv None) (toggle o e).
Proof. unfold toggle. keep. Qed.

(** [dispose] ends in a disposed object, which had lost its timer before. *)
Lemma inv_dispose o : keeps (timer_inv None) (dispose o).
Proof.
  unfold dispose. apply keeps_bind; [auto with tips|]. intros t. apply clear_leads.
  match goal with |- leads _ _ ?m => enough (H : ∀ p, timer_inv (Some o) p → timer_inv None (m p).1) by (intros p [Hp _]; auto) end.
  assert (Hrun : ∀ {A} (m : tipM A) (k : A → tipM ()), keeps (timer_inv (Some o)) m →
    (∀ a p, timer_inv (Some o) p → timer_inv None (k a p).1) → ∀ p, timer_inv (Some o) p → timer_inv None ((a ← m; k a) p).1).
  { intros A m k Hm Hk p Hp. apply Hm in Hp. unfold mbind, jsM_bind. destruct (m p) as [q []]; [by apply Hk|].
    by eapply inv_weaken. }
  repeat (simple apply Hrun; [keep|intros ?]). intros p [H1 H2]. split; simpl.
  - intros o'. rewrite lookup_alter. case_decide; [subst; rewrite fmap_is_Some|]; apply H1.
  - intros i o' h Hi. destruct (H2 i o' h Hi) as (Hne & t' & Ht' & Et). split; [done|].
    rewrite lookup_alter_ne by congruence. by eauto.
Qed.
#[local] Hint Resolve inv_toggle inv_dispose : tips.

Lemma inv_method m o : keeps (timer_inv None) (call_method m o).
Proof.
  assert (Hc : ∀ f, keeps (timer_inv None) (mupdate (on_heap (alter (enable_cell f) o))))
    by (intros f; apply inv_cell; intros t; by eexists).
  unfold call_method, enable, disable, toggleEnabled, update. keep.
Qed.
#[local] Hint Resolve inv_method : tips.

Lemma inv_resume k : keeps (timer_inv None) (resume k).
Proof. destruct k; simpl; [apply inv_shown, inv_fix|auto with tips]. Qed.
#[local] Hint Resolve inv_resume : tips.

Lemma inv_action n type a : keeps (timer_inv None) (run_action n type a).
Proof. destruct a; simpl; auto with tips. Qed.
#[local] Hint Resolve inv_action : tips.

Lemma inv_timers_delete i : keeps (timer_inv None) (mupdate (on_timers (delete i))).
Proof. apply inv_untimer. intros m j. rewrite lookup_delete. case_decide; auto. Qed.
#[local] Hint Resolve inv_timers_delete : tips.

Lemma run_step_inv p s : timer_inv None p → timer_inv None (run_step p s).
Proof.
  revert p. destruct s; simpl.
  - change (keeps (timer_inv None) (dispatch target type)). unfold dispatch. keep.
  - change (keeps (timer_inv None) (transition_end n)). unfold transition_end. keep.
  - change (keeps (timer_inv None) (run_timer i)). unfold run_timer. keep.
  - change (keeps (timer_inv None) (popper_callback i created original placement)). unfold popper_callback. keep.
  - change (keeps (timer_inv None) (interface_on ignored options method el)). unfold interface_on. keep.
  - apply inv_method.
Qed.

(** A page before any tooltip is made. *)
Definition no_tooltips (p : tpage) : Prop := heap p = ∅ ∧ timers p = ∅.

Lemma run_steps_inv p ss : no_tooltips p → timer_inv None (run_steps p ss).
Proof.
  intros [Hh Ht]. assert (H0 : timer_inv None p).
  { split; rewrite ?Hh, ?Ht; intros *; [intros [? Hx]|intros Hx]; by rewrite lookup_empty in Hx. }
  clear Hh Ht. revert p H0; induction ss as [|s ss IH]; intros p H0; [done|]. by apply IH, run_step_inv.
Qed.

(** C7. Whatever events, transitions, timers, placements and calls follow one
    another, every pending timer belongs to an object that is not disposed and
    is the one its [_timeout] names: no object ever has two timers. *)
Theorem one_timer p ss i o h :
  no_tooltips p → timers (run_steps p ss) !! i = Some (o, h) →
  ∃ t, heap (run_steps p ss) !! o = Some (Live t) ∧ _timeout t = i.
Proof. intros Hp Hi. by destruct (proj2 (run_steps_inv p ss Hp) i o h Hi). Qed.

End timed.

(** ** Coming back before the delay is over *)

Section back.
Context `{B : Browser, E : TipEnv, W : Widget}.

Lemma this_live {A} o t (f : tooltip → A) p : heap p !! o = Some (Live t) → this o f p = (p, Ret (f t)).
Proof. intros H. unfold this. by rewrite H. Qed.
Lemma upd_live f o t p :
  heap p !! o = Some (Live t) → upd f o p = (on_heap <[o := Live (f t)]> p, Ret ()).
Proof.
  intros H. unfold upd, mupdate, on_heap. f_equal. f_equal. apply map_eq. intros k.
  rewrite lookup_alter, lookup_insert. case_decide; [|done]. subst. by rewrite H.
Qed.

End back.

(** Run a method on an object that is known to be live. *)
Ltac live := cbn [heap on_heap on_timers on_base on_poppers on_handlers on_texts];
  first [eassumption | apply lookup_insert_eq].
Ltac tstep := erewrite bind_ret;
  [ cbv beta
  | first [ apply this_live; live | apply upd_live; live | unfold upd; reflexivity ] ].

Section return_.
Context `{B : Browser, E : TipEnv, W : Widget}.

Lemma context_known o el c p : pdata (base p) !! el = Some c → context_of o el p = (p, Ret c).
Proof. intros H. unfold context_of. tstep. by rewrite H. Qed.
Lemma tip_known o t n p :
  heap p !! o = Some (Live t) → tip t = Some n → getTipElement o p = (p, Ret n).
Proof. intros H Hn. unfold getTipElement. tstep. unfold id. by rewrite Hn. Qed.

(** A shown tooltip with a delay for hiding stays as it is for a user who
    leaves and comes back before the delay is over: the timer that the leaving
    started finds another state and neither the document nor the log of events
    changes, and no timer is left. *)
Theorem back_in_time o t n el p :
  heap p !! o = Some (Live t) → tip t = Some n → pdata (base p) !! el = Some o →
  Dom.hasClass (doc p) n "show" = true → (delays (config_of t)).2 ≠ 0%Z →
  t_click (_activeTrigger t) = false → t_focus (_activeTrigger t) = false →
  let p1 := (_leave o (Some (el, false)) p).1 in
  let p2 := (_enter o (Some (el, false)) p1).1 in
  ∃ i, timers p1 !! i = Some (o, HOut) ∧
    let p3 := (run_timer i p2).1 in
    doc p3 = doc p ∧ plog (base p3) = plog (base p) ∧ hover_of o p3 = HShow ∧ timers p3 !! i = None.
Proof.
  intros Ho Hn Hel Hs Hd Hc Hf p1 p2.
  set (t1 := set_triggers (set_trigger false false) t).
  set (i := S (pfresh (base p))).
  set (t2 := set_timeout i (set_hover HOut t1)).
  assert (Hp1 : p1 = on_heap <[o := Live t2]> (on_timers (λ m, <[i := (o, HOut)]> (delete (_timeout t) m)) (on_base bump p))).
  { unfold p1, _leave. rewrite (bind_ret _ _ p p o) by (by apply context_known). tstep.
    unfold leave. tstep. unfold id. fold t1.
    replace (_isWithActiveTrigger (_activeTrigger t1)) with false
      by (unfold t1, _isWithActiveTrigger, set_trigger; simpl; by rewrite Hc, Hf).
    unfold clear_timeout, start_timer, fresh. erewrite bind_ret by (tstep; reflexivity). tstep.
    change (config_of t1) with (config_of t). rewrite (proj2 (Z.eqb_neq _ _) Hd).
    erewrite bind_ret by (do 2 tstep; reflexivity). tstep.
    erewrite upd_live by live. unfold on_heap, on_timers, on_base. cbn. by rewrite !insert_insert_eq. }
  set (t3 := set_hover HShow (set_triggers (set_trigger false true) t2)).
  assert (Hp2 : p2 = on_heap <[o := Live t3]> p1).
  { assert (H1 : heap p1 !! o = Some (Live t2)) by (rewrite Hp1; simpl; apply lookup_insert_eq).
    unfold p2, _enter. rewrite (bind_ret _ _ p1 p1 o) by (apply context_known; by rewrite Hp1). tstep.
    unfold enter. erewrite bind_ret by (eapply tip_known; [live|exact Hn]). do 2 tstep.
    replace (Dom.hasClass _ n "show") with true by (rewrite Hp1; by symmetry). cbn [orb].
    erewrite upd_live by live. unfold on_heap. cbn. by rewrite insert_insert_eq. }
  exists i. split; [rewrite Hp1; simpl; apply lookup_insert_eq|].
  unfold run_timer. tstep.
  replace (timers p2 !! i) with (Some (o, HOut)) by (rewrite Hp2, Hp1; simpl; by rewrite lookup_insert_eq).
  do 2 tstep.
  assert (Hov : hover_of o (on_timers (delete i) p2) = HShow)
    by (rewrite Hp2; unfold hover_of; simpl; by rewrite lookup_insert_eq).
  rewrite Hov, bool_decide_false by done. cbn [negb mret jsM_ret fst].
  split_and!; [by rewrite Hp2, Hp1|by rewrite Hp2, Hp1|exact Hov|apply lookup_delete_eq].
Qed.

End return_.

End TooltipTimers.
