(* ===== verification/TooltipOptions.v ===== *)
(** * Tooltip: options

    What [_getConfig] accepts, and that an object made for an element inside a
    delegating one gets the same options. *)

From S2P Require Import Prelude Dom Bs Tooltip.
Local Open Scope string_scope.
Local Open Scope list_scope.

Module TooltipOptions.
Import Tooltip.

(** ** The type check *)

Lemma typeCheck_spec name c ts :
  match Util.typeCheckConfig name c ts with
  | Ret _ => Forall (λ kt, existsb (λ t, Util.contains t (Util.toType (default Util.OUndefined (c !! kt.1)))) kt.2 = true) ts
  | Throw e => ∃ ts1 k t ts2, ts = ts1 ++ (k, t) :: ts2 ∧
      Forall (λ kt, existsb (λ t, Util.contains t (Util.toType (default Util.OUndefined (c !! kt.1)))) kt.2 = true) ts1 ∧
      existsb (λ t, Util.contains t (Util.toType (default Util.OUndefined (c !! k)))) t = false
  end.
Proof.
  induction ts as [|[k t] ts IH]; [constructor|]. cbn [Util.typeCheckConfig].
  destruct (existsb _ t) eqn:Et.
  - destruct (Util.typeCheckConfig name c ts) as [[]|e]; [by constructor|].
    destruct IH as (ts1 & k' & t' & ts2 & -> & H1 & H2). exists ((k, t) :: ts1), k', t', ts2.
    split; [done|]. split; [by constructor|done].
  - exists [], k, t, ts. split; [done|]. split; [constructor|done].
Qed.

(** The check reads the options and nothing else. *)
Lemma typeCheck_ext name c c' ts :
  (∀ k, default Util.OUndefined (c' !! k) = default Util.OUndefined (c !! k)) →
  Util.typeCheckConfig name c' ts = Util.typeCheckConfig name c ts.
Proof. intros H. induction ts as [|[k t] ts IH]; simpl; [done|]. by rewrite H, IH. Qed.

Lemma opt_optval c k : default Util.OUndefined ((to_optval <$> c) !! k) = to_optval (opt c k).
Proof. unfold opt. rewrite lookup_fmap. by destruct (c !! k). Qed.

Section options.
Context `{B : Browser, E : TipEnv, W : Widget}.

(** ** The same options again *)

Definition not_number (v : value) : Prop := match v with VNum _ => False | _ => True end.
Definition check (c : config) : outcome () := Util.typeCheckConfig "tooltip" (to_optval <$> c) DefaultType.

(** What [_getConfig] answers: numbers turned into what they stand for, a value
    for every default, and the types right. *)
Record accepted (c : config) : Prop := {
  acc_delay : not_number (opt c "delay");
  acc_title : not_number (opt c "title");
  acc_content : not_number (opt c "content");
  acc_covers : ∀ k, is_Some (Default !! k) → is_Some (c !! k);
  acc_check : check c = Ret ()
}.

Lemma delay_pair_id c : not_number (opt c "delay") → delay_pair c = c.
Proof. unfold delay_pair, opt. destruct (c !! "delay") as [[]|]; simpl; done. Qed.
Lemma number_text_id k c : not_number (opt c k) → number_text k c = c.
Proof. unfold number_text, opt. destruct (c !! k) as [[]|]; simpl; done. Qed.
Lemma delay_pair_lookup c k :
  opt (delay_pair c) k = if bool_decide (k = "delay") then
    match opt c "delay" with VNum z => VDelay z z | v => v end else opt c k.
Proof.
  unfold delay_pair, opt. destruct (c !! "delay") as [v|] eqn:Ev; [destruct v|];
    case_bool_decide; subst; rewrite ?Ev, ?lookup_insert_eq, ?lookup_insert_ne by done; done.
Qed.
Lemma number_text_lookup j c k :
  opt (number_text j c) k = if bool_decide (k = j) then
    match opt c j with VNum z => VStr (pretty.pretty z) | v => v end else opt c k.
Proof.
  unfold number_text, opt. destruct (c !! j) as [v|] eqn:Ev; [destruct v|];
    case_bool_decide; subst; rewrite ?Ev, ?lookup_insert_eq, ?lookup_insert_ne by done; done.
Qed.
Lemma delay_pair_covers c k : is_Some (c !! k) → is_Some (delay_pair c !! k).
Proof. unfold delay_pair. intros H. repeat case_match; try done. rewrite lookup_insert. by case_decide. Qed.
Lemma number_text_covers j c k : is_Some (c !! k) → is_Some (number_text j c !! k).
Proof. unfold number_text. intros H. repeat case_match; try done. rewrite lookup_insert. by case_decide. Qed.

Definition normal (c : config) : config := number_text "content" (number_text "title" (delay_pair c)).

Lemma getConfig_accepted d el given c : _getConfig d el given = Ret c → accepted c.
Proof.
  unfold _getConfig. fold (normal (given ∪ data_of d el ∪ Default)).
  set (m := given ∪ data_of d el ∪ Default). fold (check (normal m)).
  destruct (check (normal m)) as [[]|] eqn:Ec; [|done]. intros [= <-]. unfold normal in *. split.
  - rewrite !number_text_lookup, !delay_pair_lookup. repeat case_bool_decide; try done. by destruct (opt m "delay").
  - rewrite !number_text_lookup, !delay_pair_lookup. repeat case_bool_decide; try done. by destruct (opt m "title").
  - rewrite !number_text_lookup, !delay_pair_lookup. repeat case_bool_decide; try done. by destruct (opt m "content").
  - intros k Hk. apply number_text_covers, number_text_covers, delay_pair_covers. unfold m.
    rewrite lookup_union_is_Some. by right.
  - done.
Qed.

(** Options that [_setListeners] sets for a delegating tooltip. *)
Definition manual (c : config) : config := <["selector" := VStr ""]> (<["trigger" := VStr "manual"]> c).

Class StringOptions := string_options : ∀ k ts,
  k ∈ ["trigger"; "selector"] → (k, ts) ∈ DefaultType → "string" ∈ ts.

Lemma accepted_manual `{!StringOptions} c : accepted c → accepted (manual c).
Proof.
  intros [H1 H2 H3 H4 H5]. unfold manual, opt in *. split; unfold opt; rewrite ?lookup_insert_ne by done; try done.
  - intros k Hk. rewrite !lookup_insert. repeat case_decide; try done. by apply H4.
  - unfold check in *. pose proof (typeCheck_spec "tooltip" (to_optval <$> c) DefaultType) as Hs. rewrite H5 in Hs.
    match goal with |- ?x = _ => destruct x as [[]|e] eqn:Ex end; [done|].
    pose proof (typeCheck_spec "tooltip" (to_optval <$> manual c) DefaultType) as Hs'.
    unfold manual in Hs'. rewrite Ex in Hs'. destruct Hs' as (ts1 & k & ts & ts2 & Hd & _ & Hf).
    rewrite opt_optval in Hf. unfold opt in Hf. rewrite !lookup_insert in Hf.
    assert (Hin : (k, ts) ∈ DefaultType) by (rewrite Hd; apply elem_of_app; right; by left).
    assert (Hstr : k ∈ ["trigger"; "selector"] → existsb (λ t, Util.contains t "string") ts = true).
    { intros Hk. apply existsb_exists. exists "string". split; [|done].
      apply list_elem_of_In. by apply (string_options k). }
    destruct (decide (k ∈ ["trigger"; "selector"])) as [Hk|Hk].
    + specialize (Hstr Hk). destruct (decide ("selector" = k)); [|destruct (decide ("trigger" = k))];
        [assert (true = false) by (rewrite <- Hstr; exact Hf); done..|set_solver].
    + destruct (decide ("selector" = k)); [set_solver|]. destruct (decide ("trigger" = k)); [set_solver|].
      rewrite Forall_forall in Hs. specialize (Hs _ Hin). rewrite opt_optval in Hs.
      assert (true = false) by (rewrite <- Hs; exact Hf). done.
Qed.

(** Options without those that are the defaults, and the defaults again. *)
Lemma delegate_opt c k :
  (∀ k, is_Some (Default !! k) → is_Some (c !! k)) →
  opt (_getDelegateConfig c ∪ ∅ ∪ Default) k = opt c k.
Proof.
  intros Hc. unfold opt, _getDelegateConfig. rewrite (right_id_L ∅ (∪)), lookup_union, map_lookup_filter.
  specialize (Hc k). destruct (c !! k) as [v|] eqn:Ev; simpl.
  - case_guard as Hg; simpl; [by rewrite union_Some_l|]. rewrite (left_id_L None (∪)).
    by rewrite <- Hg.
  - rewrite (left_id_L None (∪)). destruct (Default !! k); [|done]. by destruct Hc.
Qed.

(** An object that is made for an element inside a delegating one, from the
    options that differ from the defaults, gets the options of the delegating
    one: nothing is lost and the type check does not fail, if the element has
    no data attributes of its own. *)
Theorem delegate_config `{!StringOptions} d el given c d' el' :
  _getConfig d el given = Ret c → data_of d' el' = ∅ →
  ∃ c', _getConfig d' el' (_getDelegateConfig (manual c)) = Ret c' ∧ ∀ k, opt c' k = opt (manual c) k.
Proof.
  intros Hc Hd. apply getConfig_accepted, accepted_manual in Hc as [H1 H2 H3 H4 H5]. set (m := manual c) in *.
  pose proof (λ k, delegate_opt m k H4) as Hk. exists (_getDelegateConfig m ∪ ∅ ∪ Default). split; [|done].
  unfold _getConfig. rewrite Hd. rewrite delay_pair_id by (by rewrite Hk).
  rewrite (number_text_id "title") by (by rewrite Hk). rewrite number_text_id by (by rewrite Hk).
  rewrite (typeCheck_ext _ (to_optval <$> m)); [by unfold check in H5; rewrite H5|].
  intros k. by rewrite !opt_optval, Hk.
Qed.

End options.

(** ** The options of tooltips *)

Definition is_string (v : value) : Prop := ∃ s, v = VStr s.
Definition is_bool (v : value) : Prop := ∃ b, v = VBool b.
Definition is_number (v : value) : Prop := ∃ z, v = VNum z.
Definition is_element (v : value) : Prop := ∃ n, v = VElement n.
Definition is_function (v : value) : Prop := ∃ f, v = VFunction f.

(** Every option has a value the methods can use. *)
Record well_typed (c : config) : Prop := {
  wt_animation : is_bool (opt c "animation");
  wt_template : is_string (opt c "template");
  wt_title : is_string (opt c "title") ∨ is_element (opt c "title") ∨ is_function (opt c "title");
  wt_trigger : is_string (opt c "trigger");
  wt_delay : ∃ show hide, opt c "delay" = VDelay show hide;
  wt_html : is_bool (opt c "html");
  wt_selector : is_string (opt c "selector") ∨ is_bool (opt c "selector");
  wt_placement : is_string (opt c "placement") ∨ is_function (opt c "placement");
  wt_offset : is_number (opt c "offset") ∨ is_string (opt c "offset");
  wt_container : is_string (opt c "container") ∨ is_element (opt c "container") ∨ is_bool (opt c "container");
  wt_fallback : is_string (opt c "fallbackPlacement") ∨ ∃ l, opt c "fallbackPlacement" = VArray l;
  wt_boundary : is_string (opt c "boundary") ∨ is_element (opt c "boundary")
}.

(** The types of one option. *)
Definition of_types (ts : list string) (v : value) : Prop :=
  existsb (λ t, Util.contains t (Util.toType (to_optval v))) ts = true.

Lemma typeCheck_iff name c ts :
  Util.typeCheckConfig name (to_optval <$> c) ts = Ret () ↔ Forall (λ kt, of_types kt.2 (opt c kt.1)) ts.
Proof.
  pose proof (typeCheck_spec name (to_optval <$> c) ts) as Hs. unfold of_types. split.
  - intros H. rewrite H in Hs. eapply Forall_impl; [exact Hs|]. intros kt. cbv beta. by rewrite opt_optval.
  - intros H. destruct (Util.typeCheckConfig _ _ ts) as [[]|e]; [done|].
    destruct Hs as (ts1 & k & t & ts2 & -> & _ & Hf). rewrite opt_optval in Hf.
    apply Forall_app in H as [_ H]. inversion_clear H. simpl in *. congruence.
Qed.

(** Decide a type by looking at the value. *)
Ltac destruct_ex := repeat match goal with H : ∃ _, _ |- _ => destruct H end; discriminate.
Ltac by_shape := unfold of_types, is_bool, is_string, is_element, is_function, is_number;
  match goal with |- context [to_optval ?v] => destruct v end;
  (split; [intros H; first [by vm_compute in H | by eauto 6]|intros H; first [by vm_compute | by destruct_or?; destruct_ex]]).
Lemma bool_type v : of_types ["boolean"] v ↔ is_bool v.
Proof. by_shape. Qed.
Lemma string_type v : of_types ["string"] v ↔ is_string v.
Proof. by_shape. Qed.
Lemma content_type v : of_types ["string"; "element"; "function"] v ↔ is_string v ∨ is_element v ∨ is_function v.
Proof. by_shape. Qed.
Lemma delay_type v : of_types ["number"; "object"] v ↔ is_number v ∨ ∃ s h, v = VDelay s h.
Proof. by_shape. Qed.
Lemma selector_type v : of_types ["string"; "boolean"] v ↔ is_string v ∨ is_bool v.
Proof. by_shape. Qed.
Lemma placement_type v : of_types ["string"; "function"] v ↔ is_string v ∨ is_function v.
Proof. by_shape. Qed.
Lemma offset_type v : of_types ["number"; "string"] v ↔ is_number v ∨ is_string v.
Proof. by_shape. Qed.
Lemma container_type v : of_types ["string"; "element"; "boolean"] v ↔ is_string v ∨ is_element v ∨ is_bool v.
Proof. by_shape. Qed.
Lemma fallback_type v : of_types ["string"; "array"] v ↔ is_string v ∨ ∃ l, v = VArray l.
Proof. by_shape. Qed.
Lemma boundary_type v : of_types ["string"; "element"] v ↔ is_string v ∨ is_element v.
Proof. by_shape. Qed.

Lemma tooltip_types_iff c :
  not_number (opt c "delay") → Forall (λ kt, of_types kt.2 (opt c kt.1)) tooltip_types ↔ well_typed c.
Proof.
  intros Hn. unfold tooltip_types. rewrite !Forall_cons, Forall_nil. cbn [fst snd].
  rewrite !bool_type, !string_type, content_type, delay_type, selector_type, placement_type, offset_type,
    container_type, fallback_type, boundary_type.
  assert (Hnum : ¬ is_number (opt c "delay")) by (intros [z Hz]; by rewrite Hz in Hn).
  split; [intros (?&?&?&?&[?|?]&?&?&?&?&?&?&?&_); [done|by split]|intros []; split_and!; by auto].
Qed.

(** C35. The options of a tooltip are the given ones, then the data attributes of
    the element, then the defaults, with a number as delay standing for both
    delays and a number as title for its text; they are accepted exactly when
    every one of them has a type its methods can use. *)
Theorem tooltip_config_typed `{E : TipEnv} d el given :
  let c := normal (given ∪ data_of d el ∪ tooltip_defaults) in
  match _getConfig (W:=tooltip_widget) d el given with
  | Ret c' => c' = c ∧ well_typed c
  | Throw _ => ¬ well_typed c
  end.
Proof.
  intros c. unfold _getConfig.
  change (number_text "content" _) with c. change (@DefaultType tooltip_widget) with tooltip_types.
  assert (Hn : not_number (opt c "delay")).
  { unfold c, normal. rewrite !number_text_lookup, !delay_pair_lookup. repeat case_bool_decide; try done.
    by destruct (opt _ "delay"). }
  pose proof (typeCheck_iff "tooltip" c tooltip_types) as Hiff. rewrite (tooltip_types_iff c Hn) in Hiff.
  destruct (Util.typeCheckConfig _ _ _) as [[]|e]; [by split; [|apply Hiff]|].
  intros H. by apply Hiff in H.
Qed.

#[export] Instance tooltip_strings `{E : TipEnv} : StringOptions (W:=tooltip_widget).
Proof.
  intros k ts Hk Hin. assert (H : Forall (λ kt, kt.1 ∈ ["trigger"; "selector"] → "string" ∈ kt.2) tooltip_types)
    by by_evaluation.
  rewrite Forall_forall in H. by apply (H (k, ts)).
Qed.

End TooltipOptions.
