(* ===== verification/TooltipLife.v ===== *)
(** * Tooltip: showing and hiding

    What the user sees after a tooltip was shown or hidden and its transition
    is over, for texts as content and a template whose parts are not nested.
    The theorems hold for every [Widget] that keeps to [PlainContent]. *)

From S2P Require Import Prelude Dom Bs Tooltip TooltipTimers.
Local Open Scope string_scope.
Local Open Scope list_scope.

Module TooltipLife.
Import Tooltip TooltipTimers.

(** The parts of a tip have no elements inside. *)
Definition flat (d : dom) (n : nid) : Prop :=
  ∀ k, k ∈ Dom.descendants d n → Dom.children d k = [].

Definition unclass (n : nid) (d : dom) : dom := Dom.removeClass "show" n (Dom.removeClass "fade" n d).

(** What showing relies on: objects with [plain] content always have something
    to show, and [setContent] writes texts and takes two classes off. *)
Class PlainContent `{B : Browser, E : TipEnv, W : Widget} := {
  plain : tooltip → Prop;
  plain_ext t t' : (∀ k, k ≠ "animation" → opt (config_of t') k = opt (config_of t) k) → plain t → plain t';
  plain_has d t : plain t → isWithContent d t = true;
  class_apart a : class_of a ≠ "fade" ∧ class_of a ≠ "show";
  plain_set o t n p : heap p !! o = Some (Live t) → tip t = Some n → plain t → flat (doc p) n →
    ∃ f, setContent o p = (on_texts f (on_base (on_doc (unclass n)) p), Ret ())
}.

Lemma descendants_alter f m d n :
  (∀ e, childNodes (f e) = childNodes e) → Dom.descendants (alter f m d) n = Dom.descendants d n.
Proof.
  intros Hf. unfold Dom.descendants. rewrite Dom.size_alter_doc. generalize (size d). intros k. revert n.
  induction k as [|k IH]; intros n; [done|]. cbn [Dom.descendants_fuel]. rewrite Dom.children_alter by done.
  f_equal. apply list_fmap_ext. intros i x _. by rewrite IH.
Qed.
Lemma flat_alter f m d n : (∀ e, childNodes (f e) = childNodes e) → flat d n → flat (alter f m d) n.
Proof. intros Hf H k. rewrite descendants_alter, Dom.children_alter by done. apply H. Qed.

(** ** Tooltips have plain content *)

Definition text_title (t : tooltip) : Prop := ∃ s, s ≠ "" ∧ opt (config_of t) "title" = VStr s.

Section content.
Context `{B : Browser, E : TipEnv}.

Lemma text_getTitle d t : text_title t → ∃ s, s ≠ "" ∧ getTitle d t = CText s.
Proof.
  intros (s & Hs & Ht). unfold getTitle. case_bool_decide as Hc; [|by eauto]. rewrite Ht. by exists s.
Qed.

Lemma empty_leaf n d : Dom.children d n = [] → empty n d = d.
Proof. intros H. unfold empty. by rewrite H. Qed.

Lemma descendants_find P d n k : k ∈ Dom.find P d n → k ∈ Dom.descendants d n.
Proof. unfold Dom.find. by intros [_ H]%list_elem_of_filter. Qed.

(** Writing a text into parts of a flat tip. *)
Lemma put_texts html s ks p :
  (∀ k, k ∈ ks → Dom.children (doc p) k = []) →
  ∃ f, meach (put_content html (CText s)) ks p = (on_texts f p, Ret ()).
Proof.
  revert p; induction ks as [|k ks IH]; intros p Hk.
  - exists id. by destruct p.
  - cbn [meach]. erewrite bind_ret.
    2: { unfold put_content, docM. erewrite bind_ret by reflexivity. reflexivity. }
    assert (He : on_base (on_doc (empty k)) p = p).
    { unfold on_base, on_doc. rewrite empty_leaf by (apply Hk; by left). by destruct p as [[]]. }
    rewrite He. destruct (IH (on_texts <[k := (html, s)]> p)) as [f Hf].
    { intros j Hj. apply Hk. by right. }
    exists (λ m, f (<[k := (html, s)]> m)). rewrite Hf. done.
Qed.

Lemma setElementContent_text o t s ks p :
  heap p !! o = Some (Live t) → (∀ k, k ∈ ks → Dom.children (doc p) k = []) →
  ∃ f, setElementContent o ks (CText s) p = (on_texts f p, Ret ()).
Proof. intros Ho Hk. unfold setElementContent. tstep. by apply put_texts. Qed.

#[global] Program Instance tooltip_plain : PlainContent (W:=tooltip_widget) := {| plain := text_title |}.
Next Obligation. intros t t' Hk (s & Hs & Ht). exists s. by rewrite Hk. Qed.
Next Obligation.
  intros d t Ht. destruct (text_getTitle d t Ht) as (s & Hs & E'). unfold isWithContent. simpl.
  unfold tooltip_isWithContent. rewrite E'. simpl. by rewrite bool_decide_false.
Qed.
Next Obligation. done. Qed.
Next Obligation.
  intros o t n p Ho Hn Ht Hf. destruct (text_getTitle (doc p) t Ht) as (s & Hs & Etitle).
  simpl. unfold tooltip_setContent. erewrite bind_ret by (by eapply tip_known). do 3 tstep. unfold id. rewrite Etitle.
  edestruct (setElementContent_text o t s) as [f Hx]; [live| |].
  { intros k Hk. eapply Hf, descendants_find, Hk. }
  erewrite bind_ret by exact Hx. by exists f.
Qed.

End content.

(** ** The page after [show] *)

Section life.
Context `{B : Browser, E : TipEnv, W : Widget, P : !PlainContent}.
(** Nobody prevents an event, references are displayed, and some drawn number
    gives a free identifier. *)
Hypothesis calm : ∀ d n e, prevents d n e = false.
Hypothesis displayed : ∀ d n, display_none d n = false.
Hypothesis drawn : ∀ d, is_Some (Util.getUID (id_in_use d) NAME (draws d)).

Record ready (o : oid) (t : tooltip) (n : nid) (p : tpage) : Prop := {
  r_object : heap p !! o = Some (Live t);
  r_tip : tip t = Some n;
  r_enabled : _isEnabled t = true;
  r_plain : plain t;
  r_flat : flat (doc p) n;
  r_placement : ∃ s a, opt (config_of t) "placement" = VStr s ∧ _getAttachment s = Some a;
  r_container : opt (config_of t) "container" = VBool false;
  r_node : is_Some (doc p !! n);
  r_element : is_Some (doc p !! element t);
  r_inside : inDocument (doc p) (element t) = true;
  r_differ : n ≠ element t ∧ n ≠ documentElement;
  r_body : Dom.closest (λ _ m, bool_decide (m = documentElement)) (doc p) document_body = Some documentElement;
  r_linked : Dom.parent (doc p) n = None ∨ inDocument (doc p) n = true
}.

Definition animated (t : tooltip) : bool := truthy (opt (config_of t) "animation").

(** The document while [show] goes on. *)
Definition filled (t : tooltip) (n : nid) (tipId cls : string) (d : dom) : dom :=
  let d := unclass n (Dom.setAttribute "aria-describedby" tipId (element t) (Dom.setId tipId n d)) in
  Dom.addClass cls n (if animated t then Dom.addClass "fade" n d else d).
Definition linked (n : nid) (d : dom) : dom := if inDocument d n then d else Dom.append document_body n d.
Definition shown_doc (t : tooltip) (n : nid) (tipId cls pl : string) (d : dom) : dom :=
  Dom.addClass "show" n (Dom.setAttribute "x-placement" pl n (linked n (filled t n tipId cls d))).

Definition shown_base (o : oid) (t : tooltip) (n : nid) (tipId cls pl : string) (b : bpage oid kont) :
    bpage oid kont :=
  BPage (shown_doc t n tipId cls pl (pdoc b))
    ((plog b ++ [Ev (element t) (ev "show") []]) ++ [Ev (element t) (ev "inserted") []])
    (pwait b) (<[n := o]> (pdata b)) (S (pfresh b)).

(** A page on which [show] has put the tip. *)
Inductive shown_page (o : oid) (t : tooltip) (n : nid) (p : tpage) : tpage → Prop :=
  Shown_page tipId a pl options f g :
    shown_page o t n p
      (on_handlers g (on_texts f (on_poppers <[pfresh (base p) := MkPopper o (element t) n options 0 false]>
        (on_heap <[o := Live (set_popper (Some (pfresh (base p))) t)]>
          (on_base (shown_base o t n tipId (class_of a) pl) p))))).

Lemma fire_event_live e o t p :
  heap p !! o = Some (Live t) →
  fire_event e o p = (on_base (add_log (Ev (element t) (ev e) [])) p, Ret false).
Proof. intros H. unfold fire_event. tstep. unfold lift, trigger. run. by rewrite calm. Qed.

Lemma docM_run f p : docM f p = (on_base (on_doc f) p, Ret ()).
Proof. done. Qed.

(** Line 2668. *)
Lemma link_run n p :
  (if inDocument (doc p) n then mret () else docM (Dom.append document_body n)) p =
    (on_base (on_doc (linked n)) p, Ret ()).
Proof.
  unfold linked, on_base, on_doc, doc. destruct (inDocument (pdoc (base p)) n) eqn:Ei; [|done].
  by destruct p as [[]].
Qed.

Lemma fill_run o t n p :
  heap p !! o = Some (Live t) → tip t = Some n → plain t →
  (∀ id, flat (Dom.setAttribute "aria-describedby" id (element t) (Dom.setId id n (doc p))) n) →
  ∃ tipId f, fill_tip o n p =
    (on_texts f (on_base (on_doc (λ d,
       let d := unclass n (Dom.setAttribute "aria-describedby" tipId (element t) (Dom.setId tipId n d)) in
       if animated t then Dom.addClass "fade" n d else d)) p), Ret ()).
Proof.
  intros Ho Hn Ht Hf. unfold fill_tip. do 2 tstep. destruct (drawn (doc p)) as [tipId ->].
  rewrite !(bind_ret _ _ _ _ _ (docM_run _ _)).
  destruct (plain_set o t n (on_base (on_doc (Dom.setAttribute "aria-describedby" tipId (element t)))
    (on_base (on_doc (Dom.setId tipId n)) p))) as [f Hset]; [done|done|done|apply Hf|].
  rewrite (bind_ret _ _ _ _ _ Hset). exists tipId, f. unfold id. fold (animated t).
  by destruct (animated t).
Qed.

(** Lines 2659 to 2671. *)
Lemma insert_run o t n s a p :
  heap p !! o = Some (Live t) → tip t = Some n →
  opt (config_of t) "placement" = VStr s → _getAttachment s = Some a → opt (config_of t) "container" = VBool false →
  insert_tip o n p =
    (on_base (λ b, BPage (linked n (Dom.addClass (class_of (Some a)) n (pdoc b)))
       (plog b ++ [Ev (element t) (ev "inserted") []]) (pwait b) (<[n := o]> (pdata b)) (pfresh b)) p, Ret (Some a)).
Proof.
  intros Ho Hn Hs Ha Hc. unfold insert_tip, addAttachmentClass. do 2 tstep. unfold id, placement_of.
  rewrite Hs. cbn [text_value]. rewrite Ha.
  erewrite bind_ret by (erewrite bind_ret by (by eapply tip_known); apply docM_run). tstep. rewrite Hc. cbn [container_of].
  do 2 tstep. erewrite bind_ret by apply link_run. erewrite bind_ret by (apply fire_event_live; live). done.
Qed.

Lemma popper_run o t n a p :
  heap p !! o = Some (Live t) →
  ∃ options pl, create_popper o n (Some a) p =
    (on_heap <[o := Live (set_popper (Some (pfresh (base p))) t)]>
       (on_base (on_doc (Dom.setAttribute "x-placement" pl n))
          (on_poppers <[pfresh (base p) := MkPopper o (element t) n options 0 false]> (on_base bump p))), Ret ()).
Proof.
  intros Ho. unfold create_popper. tstep. unfold id. set (options := popper_options_of (config_of t) a).
  exists options, (loaded_placement (doc p) (element t) n options).
  erewrite bind_ret by (unfold fresh; do 2 tstep; reflexivity). tstep. rewrite (bind_ret _ _ _ _ _ (docM_run _ _)).
  erewrite upd_live by live. reflexivity.
Qed.

Lemma filled_fade t n tipId a pl d :
  is_Some (d !! n) → Dom.hasClass (shown_doc t n tipId (class_of a) pl d) n "fade" = animated t.
Proof.
  intros Hn. destruct (class_apart a) as [H1 H2]. unfold shown_doc.
  rewrite Dom.hasClass_add_other, Dom.hasClass_setAttribute by naive_solver.
  assert (Hl : ∀ d, Dom.hasClass (linked n d) n "fade" = Dom.hasClass d n "fade").
  { intros d'. unfold linked. case_match; [done|]. apply Dom.hasClass_append. }
  rewrite Hl. unfold filled, unclass. rewrite Dom.hasClass_add_other by naive_solver.
  destruct (animated t).
  - apply Dom.hasClass_add_same. by rewrite !Dom.present_removeClass, Dom.present_setAttribute, Dom.present_setId.
  - rewrite Dom.hasClass_remove_other by naive_solver. apply Dom.hasClass_remove_same.
Qed.

(** [show], up to the end of the transition. *)
Lemma show_run fix_ o t n p :
  ready o t n p →
  ∃ q, shown_page o t n p q ∧
    show_with fix_ o p =
      (if supportsTransitionEnd && animated t then lift (one n TRANSITION_END (ShownComplete o)) q
       else shown_complete fix_ o q).
Proof.
  intros [Ho Hn He Hp Hf (s & a & Hs & Ha) Hc Hnn Hel Hin [Hd1 Hd2] Hb Hl].
  unfold show_with. do 2 tstep. rewrite displayed. tstep. unfold id. rewrite plain_has, He by done. cbn [andb negb].
  erewrite bind_ret by (apply fire_event_live; live). tstep.
  replace (inDocument _ (element t)) with true by (by symmetry). cbn [orb negb].
  erewrite bind_ret by (eapply tip_known; [live|done]).
  destruct (fill_run o t n (on_base (add_log (Ev (element t) (ev "show") [])) p)) as (tipId & f & Hfill); [done..| |].
  { intros i. by repeat apply flat_alter. }
  rewrite (bind_ret _ _ _ _ _ Hfill).
  erewrite bind_ret by (eapply insert_run; [live|eassumption..]).
  edestruct (popper_run o t n a) as (options & pl & Hpop); [|rewrite (bind_ret _ _ _ _ _ Hpop)]; [live|].
  rewrite (bind_ret _ _ _ _ _ (docM_run _ _)).
  set (g := λ hs : list listener, if has_touch then hs ++ (touch_listener <$> body_children
    (shown_doc t n tipId (class_of (Some a)) pl (doc p))) else hs).
  eexists. split; [apply (Shown_page o t n p tipId (Some a) pl options f g)|].
  set (q := on_handlers g _). match goal with |- mbind _ _ ?q0 = _ => assert (Hq : on_handlers g q0 = q) by done end.
  erewrite bind_ret.
  2: { instantiate (1 := ()). instantiate (1 := q). rewrite <- Hq. unfold g. by destruct has_touch. }
  tstep. unfold fades. replace (Dom.hasClass (doc q) n "fade") with (animated t);
    [by destruct (supportsTransitionEnd && animated t)|].
  symmetry. by apply filled_fade.
Qed.

(** ** What is visible *)

(** The tip is in the document, marked as shown, described to assistive
    technology, and placed by a Popper instance that is alive. *)
Record visible (o : oid) (t : tooltip) (n : nid) (p : tpage) : Prop := {
  v_object : heap p !! o = Some (Live t);
  v_tip : tip t = Some n;
  v_inside : inDocument (doc p) n = true;
  v_show : Dom.hasClass (doc p) n "show" = true;
  v_described : ∃ i, Dom.getAttribute (doc p) (element t) "aria-describedby" = Some i ∧ Dom.sel_id i (doc p) n = true;
  v_popper : ∃ i q, _popper t = Some i ∧ poppers p !! i = Some q ∧ p_destroyed q = false ∧
    p_tip q = n ∧ p_reference q = element t;
  v_placed : Dom.hasAttribute (doc p) n "x-placement" = true
}.

Lemma inDocument_tree d d' n : Dom.same_tree d d' → inDocument d' n = inDocument d n.
Proof.
  intros Ht. unfold inDocument, contains. rewrite (proj2 Ht). destruct (Dom.parent d n); [|done].
  by rewrite (Dom.closest_node_tree _ _ _ _ Ht).
Qed.
Lemma inDocument_append d n :
  is_Some (d !! n) → Dom.parent d n = None → n ≠ documentElement →
  Dom.closest (λ _ m, bool_decide (m = documentElement)) d document_body = Some documentElement →
  inDocument (Dom.append document_body n d) n = true.
Proof.
  intros Hn Hp Hr Hb. unfold inDocument, contains. rewrite Dom.parent_append, bool_decide_true by done.
  apply bool_decide_eq_true. exists documentElement. revert Hb. apply (Dom.closest_link _ _ _ n); try done.
  - unfold Dom.append, Dom.detach. rewrite Hp. by rewrite !Dom.size_alter_doc.
  - intros k Hk. by rewrite Dom.parent_append, bool_decide_false by naive_solver.
Qed.

Lemma filled_tree t n tipId cls d : Dom.same_tree d (filled t n tipId cls d).
Proof.
  unfold filled, unclass. destruct (animated t); repeat (etrans; [|by apply Dom.same_tree_alter]); reflexivity.
Qed.
Lemma linked_inside n d :
  is_Some (d !! n) → n ≠ documentElement →
  Dom.closest (λ _ m, bool_decide (m = documentElement)) d document_body = Some documentElement →
  Dom.parent d n = None ∨ inDocument d n = true → inDocument (linked n d) n = true.
Proof.
  intros Hn Hr Hb Hl. unfold linked. destruct (inDocument d n) eqn:Ei; [done|].
  destruct Hl as [Hl|]; [|done]. by apply inDocument_append.
Qed.

Lemma present_filled t n tipId cls d m : is_Some (filled t n tipId cls d !! m) ↔ is_Some (d !! m).
Proof. unfold filled, unclass. destruct (animated t); by autorewrite with dom. Qed.
Lemma present_linked n d m : is_Some (linked n d !! m) ↔ is_Some (d !! m).
Proof. unfold linked. case_match; [done|]. apply Dom.present_append. Qed.

Lemma shown_attr t n tipId cls pl d m a :
  a ≠ "x-placement" → Dom.getAttribute (shown_doc t n tipId cls pl d) m a =
    Dom.getAttribute (Dom.setAttribute "aria-describedby" tipId (element t) (Dom.setId tipId n d)) m a.
Proof.
  intros Ha. unfold shown_doc. rewrite Dom.getAttribute_addClass, Dom.getAttribute_set_other by naive_solver.
  unfold linked. destruct (inDocument _ n); rewrite ?Dom.getAttribute_append; unfold filled, unclass;
    destruct (animated t); by rewrite !Dom.getAttribute_addClass, !Dom.getAttribute_removeClass.
Qed.
Lemma shown_id t n tipId cls pl d :
  is_Some (d !! n) → Dom.sel_id tipId (shown_doc t n tipId cls pl d) n = true.
Proof.
  intros Hn. unfold shown_doc, Dom.addClass, Dom.setAttribute. rewrite !Dom.sel_id_alter by done.
  unfold linked. destruct (inDocument _ n); rewrite ?Dom.sel_id_append; unfold filled, unclass, Dom.addClass, Dom.removeClass,
    Dom.setAttribute; destruct (animated t); rewrite !Dom.sel_id_alter by done; by apply Dom.sel_id_setId.
Qed.

Lemma shown_visible o t n p q :
  ready o t n p → shown_page o t n p q → visible o (set_popper (Some (pfresh (base p))) t) n q.
Proof.
  intros [Ho Hn He Hp Hf Hs Hc Hnn Hel Hin [Hd1 Hd2] Hb Hl] [tipId a pl options f g].
  assert (Hpres : is_Some (linked n (filled t n tipId (class_of a) (doc p)) !! n))
    by (by rewrite present_linked, present_filled).
  split; unfold doc; cbn [heap on_heap on_texts on_handlers on_poppers on_base base shown_base pdoc poppers].
  - apply lookup_insert_eq.
  - done.
  - rewrite (inDocument_tree (linked n (filled t n tipId (class_of a) (doc p)))).
    + apply linked_inside; [by apply present_filled|done| |].
      * by rewrite (Dom.closest_node_tree _ _ _ _ (filled_tree _ _ _ _ _)).
      * rewrite (proj2 (filled_tree _ _ _ _ _)), (inDocument_tree _ _ _ (filled_tree _ _ _ _ _)). done.
    + unfold shown_doc. repeat (etrans; [|by apply Dom.same_tree_alter]); reflexivity.
  - unfold shown_doc. apply Dom.hasClass_add_same. by rewrite Dom.present_setAttribute.
  - exists tipId. split; [|by apply shown_id]. rewrite shown_attr by done.
    apply Dom.getAttribute_set_same. by rewrite Dom.present_setId.
  - eexists _, _. split; [done|]. split; [apply lookup_insert_eq|done].
  - unfold shown_doc, Dom.hasAttribute. rewrite Dom.getAttribute_addClass, Dom.getAttribute_set_same by done.
    by apply bool_decide_eq_true.
Qed.

(** The callback of [show] on a visible tip has nothing to repair. *)
Lemma fix_placed o t n p : visible o t n p → _fixTransition o p = (p, Ret ()).
Proof.
  intros [Ho Hn _ _ _ _ Hp]. unfold _fixTransition. erewrite bind_ret by (by eapply tip_known). do 2 tstep. by rewrite Hp.
Qed.
Definition completed (o : oid) (t : tooltip) (p : tpage) : tpage :=
  on_base (add_log (Ev (element t) (ev "shown") [])) (on_heap <[o := Live (set_hover HNull t)]> p).
Lemma complete_run fix_ o t p :
  (animated t = true → fix_ o p = (p, Ret ())) → heap p !! o = Some (Live t) → _hoverState t ≠ HOut →
  shown_complete fix_ o p = (completed o t p, Ret ()).
Proof.
  intros Hfix Ho Hh. unfold shown_complete. tstep. fold (animated t).
  erewrite bind_ret by (instantiate (1 := ()); instantiate (1 := p); unfold mguard; destruct (animated t); [by apply Hfix|done]).
  do 2 tstep. erewrite bind_ret by (apply fire_event_live; live). by rewrite bool_decide_false.
Qed.
Lemma completed_visible o t n p : visible o t n p → visible o (set_hover HNull t) n (completed o t p).
Proof. intros []. split; try done. apply lookup_insert_eq. Qed.

(** The end of the transition. *)
Lemma transition_none n p :
  waiting n TRANSITION_END (base p) = [] → transition_end n p = (on_base (drop_wait n TRANSITION_END) p, Ret ()).
Proof. intros H. unfold transition_end. do 2 tstep. by rewrite H. Qed.
Lemma transition_one n k p :
  waiting n TRANSITION_END (base p) = [k] →
  (transition_end n p).1 = (resume k (on_base (drop_wait n TRANSITION_END) p)).1.
Proof.
  intros H. unfold transition_end. do 2 tstep. rewrite H. cbn [meach]. unfold mbind, jsM_bind.
  by destruct (resume k _) as [q [[]|]].
Qed.
Lemma one_run n k p : lift (one n TRANSITION_END k) p = (on_base (add_wait n TRANSITION_END k) p, Ret ()).
Proof. done. Qed.
Lemma visible_base o t n p f :
  (∀ b, pdoc (f b) = pdoc b) → visible o t n p → visible o t n (on_base f p).
Proof. intros Hf []. unfold doc in *. split; unfold doc; simpl; rewrite ?Hf; done. Qed.

(** [show] and the end of its transition. *)
Lemma show_settled o t n p :
  ready o t n p → _hoverState t ≠ HOut → waiting n TRANSITION_END (base p) = [] →
  let p' := (transition_end n (show o p).1).1 in
  let t' := set_hover HNull (set_popper (Some (pfresh (base p))) t) in
  visible o t' n p' ∧
  plog (base p') = plog (base p) ++
    [Ev (element t) (ev "show") []; Ev (element t) (ev "inserted") []; Ev (element t) (ev "shown") []] ∧
  waiting n TRANSITION_END (base p') = [] ∧ pdata (base p') = <[n := o]> (pdata (base p)).
Proof.
  intros Hr Hh Hw p' t'. destruct (show_run _fixTransition o t n p Hr) as (q & Hq & Hrun).
  pose proof (shown_visible o t n p q Hr Hq) as Hv. set (t1 := set_popper (Some (pfresh (base p))) t) in *.
  assert (Hwq : pwait (base q) = pwait (base p) ∧ pdata (base q) = <[n := o]> (pdata (base p)) ∧
    plog (base q) = plog (base p) ++ [Ev (element t) (ev "show") []; Ev (element t) (ev "inserted") []])
    by (destruct Hq; cbn; by rewrite <- app_assoc).
  destruct Hwq as (Hwq & Hdq & Hlq).
  assert (Hdone : ∀ q', visible o t1 n q' → plog (base q') = plog (base q) →
    shown_complete _fixTransition o q' = (completed o t1 q', Ret ()) ∧
    visible o t' n (completed o t1 q') ∧
    plog (base (completed o t1 q')) = plog (base p) ++ [Ev (element t) (ev "show") [];
      Ev (element t) (ev "inserted") []; Ev (element t) (ev "shown") []]).
  { intros q' Hv' Hl'. split; [|split; [by apply completed_visible|]].
    - apply complete_run; [intros _; by eapply fix_placed|apply Hv'|done].
    - cbn. rewrite Hl', Hlq. by rewrite <- app_assoc. }
  subst p'. unfold show. rewrite Hrun. destruct (supportsTransitionEnd && animated t).
  - rewrite one_run. cbn [fst]. rewrite (transition_one n (ShownComplete o)).
    + cbn [resume]. set (q' := on_base _ _). destruct (Hdone q') as (-> & Hv' & Hl'); [by repeat apply visible_base|done|].
      split_and!; [exact Hv'|exact Hl'|apply (waiting_drop n TRANSITION_END)|exact Hdq].
    + cbn [base on_base]. rewrite waiting_add, bool_decide_true by done.
      unfold waiting in *. by rewrite Hwq, Hw.
  - destruct (Hdone q Hv eq_refl) as (-> & Hv' & Hl'). cbn [fst]. rewrite transition_none.
    + split_and!; [by apply visible_base|exact Hl'|apply (waiting_drop n TRANSITION_END)|exact Hdq].
    + unfold waiting in *. cbn. by rewrite Hwq, Hw.
Qed.

(** ** Hiding *)

(** The classes of the placement. *)
Definition tabs (n : nid) (d : dom) : list string :=
  match d !! n with Some e => filter (λ c, tab_class c = true) (classList e) | None => [] end.
Definition cleaned (n : nid) (d : dom) : dom := foldl (λ d c, Dom.removeClass c n d) d (tabs n d).

Lemma removeClasses_class cs n d m c :
  Dom.hasClass (foldl (λ d c, Dom.removeClass c n d) d cs) m c =
    negb (bool_decide (n = m ∧ c ∈ cs)) && Dom.hasClass d m c.
Proof.
  revert d; induction cs as [|c' cs IH]; intros d; simpl.
  - rewrite bool_decide_false; [done|]. intros [_ H]. by apply elem_of_nil in H.
  - rewrite IH, Dom.hasClass_removeClass. rewrite andb_assoc, <- negb_orb. f_equal. f_equal.
    apply eq_iff_eq_true. rewrite orb_true_iff, !bool_decide_eq_true, elem_of_cons. naive_solver.
Qed.
Lemma cleaned_class n d m c :
  Dom.hasClass (cleaned n d) m c = negb (bool_decide (n = m) && tab_class c) && Dom.hasClass d m c.
Proof.
  unfold cleaned. rewrite removeClasses_class. destruct (Dom.hasClass d m c) eqn:Ec; [|by rewrite !andb_false_r].
  f_equal. f_equal. apply eq_iff_eq_true. rewrite andb_true_iff, !bool_decide_eq_true.
  split; [|]; intros [-> H]; (split; [done|]); revert Ec H; unfold tabs, Dom.hasClass; destruct (d !! m) as [e|]; try done.
  - intros _ [H _]%list_elem_of_filter. done.
  - intros Hc H. apply list_elem_of_filter. by rewrite bool_decide_eq_true in Hc.
Qed.
(** Taking classes off changes nothing else. *)
Lemma cleaned_obs n d m :
  (∀ a, Dom.getAttribute (cleaned n d) m a = Dom.getAttribute d m a) ∧
  Dom.parent (cleaned n d) m = Dom.parent d m ∧ (is_Some (cleaned n d !! m) ↔ is_Some (d !! m)) ∧
  (∀ i, Dom.sel_id i (cleaned n d) m = Dom.sel_id i d m).
Proof.
  unfold cleaned. generalize (tabs n d). intros cs. revert d; induction cs as [|c cs IH]; intros d; [done|]. simpl.
  destruct (IH (Dom.removeClass c n d)) as (H1 & H2 & H3 & H4). split_and!.
  - intros a. by rewrite H1, Dom.getAttribute_removeClass.
  - by rewrite H2, Dom.parent_removeClass.
  - by rewrite H3, Dom.present_removeClass.
  - intros i. rewrite H4. by apply Dom.sel_id_alter.
Qed.

Lemma clean_run o t n p :
  heap p !! o = Some (Live t) → tip t = Some n →
  _cleanTipClass o p = (on_base (on_doc (cleaned n)) p, Ret ()).
Proof. intros Ho Hn. unfold _cleanTipClass. erewrite bind_ret by (by eapply tip_known). tstep. done. Qed.

Definition hidden_doc (keep : bool) (el n : nid) (d : dom) : dom :=
  Dom.removeAttribute "x-placement" n (Dom.removeAttribute "aria-describedby" el
    (cleaned n (if keep then d else Dom.detach n d))).

(** The callback of [hide]: the tip stays if the user has come back. *)
Lemma hidden_run o t n i q p :
  heap p !! o = Some (Live t) → tip t = Some n → _popper t = Some i → poppers p !! i = Some q → p_tip q = n →
  hidden_complete o n p =
    (on_poppers (alter destroyed i)
       (on_base (λ b, BPage (hidden_doc (bool_decide (_hoverState t = HShow)) (element t) n (pdoc b))
          (plog b ++ [Ev (element t) (ev "hidden") []]) (pwait b) (pdata b) (pfresh b)) p), Ret ()).
Proof.
  intros Ho Hn Hi Hq Hp. unfold hidden_complete. tstep. unfold hover_of. rewrite Ho.
  erewrite bind_ret.
  2: { instantiate (1 := ()).
       instantiate (1 := on_base (on_doc (λ d, if bool_decide (_hoverState t = HShow) then d else Dom.detach n d)) p).
       case_bool_decide; [|done]. by destruct p as [[]]. }
  erewrite bind_ret by (eapply clean_run; [live|done]). tstep. rewrite (bind_ret _ _ _ _ _ (docM_run _ _)).
  erewrite bind_ret by (apply fire_event_live; live). tstep. rewrite Hi. unfold destroy_popper. tstep.
  cbn [poppers on_base]. rewrite Hq. cbv beta iota.
  subst n. rewrite (bind_ret _ _ _ _ _ (docM_run _ _)). done.
Qed.

(** [hide], up to the end of the transition. *)
Definition hiding (n : nid) (t : tooltip) (b : bpage oid kont) : bpage oid kont :=
  BPage (Dom.removeClass "show" n (pdoc b)) (plog b ++ [Ev (element t) (ev "hide") []]) (pwait b) (pdata b) (pfresh b).
Lemma hide_run o t n p :
  heap p !! o = Some (Live t) → tip t = Some n →
  ∃ g, hide o p =
    (_ ← (if supportsTransitionEnd && Dom.hasClass (doc p) n "fade"
          then lift (one n TRANSITION_END (HiddenComplete o n)) else hidden_complete o n);
     upd (set_hover HEmpty) o)
    (on_heap <[o := Live (set_triggers no_triggers t)]> (on_handlers g (on_base (hiding n t) p))).
Proof.
  intros Ho Hn. unfold hide. erewrite bind_ret by (by eapply tip_known).
  erewrite bind_ret by (by apply fire_event_live). cbv beta iota. rewrite (bind_ret _ _ _ _ _ (docM_run _ _)).
  set (g := λ hs : list listener, if has_touch
    then filter (λ l, is_touch l (body_children (Dom.removeClass "show" n (doc p))) = false) hs else hs).
  exists g. erewrite bind_ret. 2: { instantiate (1 := ()). instantiate (1 := on_handlers g (on_base (hiding n t) p)).
    unfold g. by destruct has_touch. }
  tstep. tstep. unfold fades, doc. cbn [on_heap on_handlers on_base base hiding pdoc].
  rewrite Dom.hasClass_remove_other by naive_solver. done.
Qed.

(** The tip is out of the document and nothing of it is left on the element. *)
Record hidden (o : oid) (t : tooltip) (n : nid) (p : tpage) : Prop := {
  h_object : heap p !! o = Some (Live t);
  h_tip : tip t = Some n;
  h_parent : Dom.parent (doc p) n = None;
  h_show : Dom.hasClass (doc p) n "show" = false;
  h_described : Dom.getAttribute (doc p) (element t) "aria-describedby" = None;
  h_popper : ∃ i q, _popper t = Some i ∧ poppers p !! i = Some q ∧ p_destroyed q = true;
  h_placed : Dom.hasAttribute (doc p) n "x-placement" = false;
  h_classes : ∀ c, tab_class c = true → Dom.hasClass (doc p) n c = false;
  h_triggers : _isWithActiveTrigger (_activeTrigger t) = false
}.

Lemma hidden_base o t n p f : (∀ b, pdoc (f b) = pdoc b) → hidden o t n p → hidden o t n (on_base f p).
Proof. intros Hf []. unfold doc in *. split; unfold doc; simpl; rewrite ?Hf; done. Qed.
Lemma hidden_hover o t n p h : hidden o t n p → hidden o (set_hover h t) n (on_heap <[o := Live (set_hover h t)]> p).
Proof. intros []. split; try done. apply lookup_insert_eq. Qed.

(** After the callback of [hide]. *)
Lemma hidden_after o t n p :
  heap p !! o = Some (Live t) → tip t = Some n → _hoverState t ≠ HShow →
  (∃ i q, _popper t = Some i ∧ poppers p !! i = Some q ∧ p_tip q = n) →
  _isWithActiveTrigger (_activeTrigger t) = false → Dom.hasClass (doc p) n "show" = false →
  ∃ p', hidden_complete o n p = (p', Ret ()) ∧ hidden o t n p' ∧
    plog (base p') = plog (base p) ++ [Ev (element t) (ev "hidden") []] ∧ pwait (base p') = pwait (base p) ∧
    timers p' = timers p ∧ pdata (base p') = pdata (base p).
Proof.
  intros Ho Hn Hh (i & q & Hi & Hq & Hp) Ht Hs. eexists. split; [by eapply hidden_run|].
  rewrite bool_decide_false by done. set (d := cleaned n (Dom.detach n (doc p))).
  split; [|done]. split; unfold doc, hidden_doc; cbn [heap on_heap on_poppers on_base base pdoc poppers];
    change (cleaned n (Dom.detach n (pdoc (base p)))) with d.
  - done.
  - done.
  - rewrite !Dom.parent_removeAttribute. unfold d. destruct (cleaned_obs n (Dom.detach n (doc p)) n) as (_ & -> & _).
    by rewrite Dom.parent_detach, bool_decide_true.
  - rewrite !Dom.hasClass_removeAttribute. unfold d. rewrite cleaned_class, Dom.hasClass_detach, Hs. by rewrite andb_false_r.
  - rewrite !Dom.getAttribute_removeAttribute. case_bool_decide; [done|]. by rewrite bool_decide_true.
  - exists i, (destroyed q). by rewrite lookup_alter_eq, Hq.
  - unfold Dom.hasAttribute. rewrite Dom.getAttribute_removeAttribute, (bool_decide_true (n = n ∧ _)) by done.
    apply bool_decide_eq_false. by intros [? [=]].
  - intros c Hc. rewrite !Dom.hasClass_removeAttribute. unfold d. rewrite cleaned_class, bool_decide_true by done. by rewrite Hc.
  - done.
Qed.

(** [hide] and the end of its transition. *)
Lemma hide_settled o t n p :
  visible o t n p → _hoverState t ≠ HShow → waiting n TRANSITION_END (base p) = [] →
  let p' := (transition_end n (hide o p).1).1 in
  (∃ t', hidden o t' n p' ∧ element t' = element t ∧ _hoverState t' = HEmpty ∧ config_of t' = config_of t) ∧
  plog (base p') = plog (base p) ++ [Ev (element t) (ev "hide") []; Ev (element t) (ev "hidden") []].
Proof.
  intros [Ho Hn Hin Hs Hd (i & q & Hi & Hq & Hde & Hpt & Hpr) Hp] Hh Hw p'.
  destruct (hide_run o t n p Ho Hn) as [g Hrun]. subst p'. rewrite Hrun. clear Hrun.
  set (t1 := set_triggers no_triggers t).
  set (p1 := on_heap _ _). assert (Ho1 : heap p1 !! o = Some (Live t1)) by apply lookup_insert_eq.
  assert (Hs1 : Dom.hasClass (doc p1) n "show" = false) by apply Dom.hasClass_remove_same.
  destruct (supportsTransitionEnd && _).
  - set (p2 := on_heap <[o := Live (set_hover HEmpty t1)]> (on_base (add_wait n TRANSITION_END (HiddenComplete o n)) p1)).
    replace ((_ ← lift (one n TRANSITION_END (HiddenComplete o n)); upd (set_hover HEmpty) o) p1).1 with p2
      by (rewrite (bind_ret _ _ _ _ _ (one_run _ _ _)); by erewrite upd_live by live).
    rewrite (transition_one n (HiddenComplete o n)).
    + cbn [resume]. destruct (hidden_after o (set_hover HEmpty t1) n (on_base (drop_wait n TRANSITION_END) p2))
        as (p3 & -> & H3 & Hl3 & _); [apply lookup_insert_eq|done|done|by eauto|done|done|].
      cbn [fst]. split; [by exists (set_hover HEmpty t1)|]. rewrite Hl3. cbn. by rewrite <- app_assoc.
    + cbn [base on_heap on_base p2]. rewrite waiting_add, bool_decide_true by done.
      unfold waiting in *. cbn. by rewrite Hw.
  - destruct (hidden_after o t1 n p1) as (p3 & E3 & H3 & Hl3 & Hw3 & _); [done|done|done|by eauto|done|done|].
    rewrite (bind_ret _ _ _ _ _ E3). erewrite upd_live by apply H3. cbn [fst]. rewrite transition_none.
    + split; [exists (set_hover HEmpty t1); split; [|done]; by apply hidden_base, hidden_hover|].
      cbn. rewrite Hl3. cbn. by rewrite <- app_assoc.
    + unfold waiting in *. cbn. rewrite Hw3. cbn. by rewrite Hw.
Qed.

(** Showing a tooltip that has something to show puts its tip into the
    document: when its transition is over the tip is inside the document with
    the class show, the element is described by the identifier the tip carries,
    a new Popper instance places it, and the events were show, inserted and
    shown, in this order. *)
Theorem show_shown o t n p :
  ready o t n p → _hoverState t ≠ HOut → waiting n TRANSITION_END (base p) = [] →
  let p' := (transition_end n (show o p).1).1 in
  (∃ t', visible o t' n p' ∧ element t' = element t ∧ _hoverState t' = HNull ∧ config_of t' = config_of t) ∧
  plog (base p') = plog (base p) ++
    [Ev (element t) (ev "show") []; Ev (element t) (ev "inserted") []; Ev (element t) (ev "shown") []].
Proof.
  intros Hr Hh Hw p'. destruct (show_settled o t n p Hr Hh Hw) as (Hv & Hl & _). split; [by eexists|exact Hl].
Qed.

(** Hiding a visible tip takes it out of the document when its transition is
    over: the element is described by nothing, the Popper instance is destroyed,
    no class of a placement is left, no trigger is active, and the events were
    hide and hidden. *)
Theorem hide_hidden o t n p :
  visible o t n p → _hoverState t ≠ HShow → waiting n TRANSITION_END (base p) = [] →
  let p' := (transition_end n (hide o p).1).1 in
  (∃ t', hidden o t' n p' ∧ element t' = element t ∧ _hoverState t' = HEmpty ∧ config_of t' = config_of t) ∧
  plog (base p') = plog (base p) ++ [Ev (element t) (ev "hide") []; Ev (element t) (ev "hidden") []].
Proof. apply hide_settled. Qed.

(** ** A visit of the mouse *)

Lemma ready_object o t n p t' g :
  ready o t n p → tip t' = tip t → _isEnabled t' = true → element t' = element t → config_of t' = config_of t →
  ready o t' n (on_heap <[o := Live t']> (on_timers g p)).
Proof.
  intros [Ho Hn He Hp Hf Hs Hc Hnn Hel Hin Hd Hb Hl] Ht Hen He' Hc'.
  split; rewrite ?Ht, ?He', ?Hc'; try done; [apply lookup_insert_eq|].
  by apply (plain_ext t); [intros k _; rewrite Hc'|].
Qed.

(** Entering and leaving without a delay. *)
Lemma enter_now o t n p :
  heap p !! o = Some (Live t) → tip t = Some n → pdata (base p) !! element t = Some o →
  (delays (config_of t)).1 = 0%Z → Dom.hasClass (doc p) n "show" = false → _hoverState t ≠ HShow →
  _enter o (Some (element t, false)) p =
    show o (on_heap <[o := Live (set_hover HShow (set_triggers (set_trigger false true) t))]>
              (on_timers (delete (_timeout t)) p)).
Proof.
  intros Ho Hn Hel Hd Hs Hh. unfold _enter. rewrite (bind_ret _ _ p p o) by (by apply context_known). tstep.
  unfold enter. erewrite bind_ret by (eapply tip_known; [live|done]). do 2 tstep.
  replace (Dom.hasClass _ n "show") with false by (by symmetry). unfold id.
  rewrite bool_decide_false by done. cbn [orb]. erewrite bind_ret by (unfold clear_timeout; tstep; reflexivity). tstep.
  change (config_of (set_triggers _ t)) with (config_of t). rewrite Hd. cbn [Z.eqb].
  f_equal. unfold on_heap, on_timers. cbn. by rewrite !insert_insert_eq.
Qed.
Lemma leave_now o t p :
  heap p !! o = Some (Live t) → pdata (base p) !! element t = Some o → (delays (config_of t)).2 = 0%Z →
  t_click (_activeTrigger t) = false → t_focus (_activeTrigger t) = false →
  _leave o (Some (element t, false)) p =
    hide o (on_heap <[o := Live (set_hover HOut (set_triggers (set_trigger false false) t))]>
              (on_timers (delete (_timeout t)) p)).
Proof.
  intros Ho Hel Hd Hc Hf. unfold _leave. rewrite (bind_ret _ _ p p o) by (by apply context_known). tstep.
  unfold leave. tstep. unfold id.
  replace (_isWithActiveTrigger _) with false by (unfold _isWithActiveTrigger; cbn; by rewrite Hc, Hf).
  erewrite bind_ret by (unfold clear_timeout; tstep; reflexivity). tstep.
  change (config_of (set_triggers _ t)) with (config_of t). rewrite Hd. cbn [Z.eqb].
  f_equal. unfold on_heap, on_timers. cbn. by rewrite !insert_insert_eq.
Qed.

(** C8. A visit of the mouse always comes to an end: without delays, when the
    mouse has entered the element and the transition is over the tip is visible,
    and when it has left and the transition is over the tip is hidden again;
    the events of the visit are show, inserted, shown, hide, hidden. *)
Theorem hover_cycle o t n p :
  ready o t n p → pdata (base p) !! element t = Some o → waiting n TRANSITION_END (base p) = [] →
  delays (config_of t) = (0, 0)%Z → Dom.hasClass (doc p) n "show" = false → _hoverState t ≠ HShow →
  _isWithActiveTrigger (_activeTrigger t) = false →
  let el := element t in
  let p1 := (transition_end n (_enter o (Some (el, false)) p).1).1 in
  let p2 := (transition_end n (_leave o (Some (el, false)) p1).1).1 in
  (∃ t1, visible o t1 n p1) ∧ (∃ t2, hidden o t2 n p2) ∧
  plog (base p2) = plog (base p) ++
    [Ev el (ev "show") []; Ev el (ev "inserted") []; Ev el (ev "shown") []; Ev el (ev "hide") []; Ev el (ev "hidden") []].
Proof.
  intros Hr Hel Hw Hd Hs Hh Hact el p1 p2. pose proof Hr as [Ho Hn He Hp Hf Hpl Hc Hnn Hee Hin [Hd1 Hd2] Hb Hl].
  set (t0 := set_hover HShow (set_triggers (set_trigger false true) t)).
  set (q0 := on_heap <[o := Live t0]> (on_timers (delete (_timeout t)) p)).
  assert (E1 : _enter o (Some (el, false)) p = show o q0) by (apply (enter_now o t n); by rewrite ?Hd).
  assert (Hr0 : ready o t0 n q0) by (by apply (ready_object o t)).
  destruct (show_settled o t0 n q0 Hr0) as (Hv & Hl1 & Hw1 & Hda); [done|done|].
  rewrite <- E1 in Hv, Hl1, Hw1, Hda. fold el in Hv, Hl1, Hw1, Hda. fold p1 in Hv, Hl1, Hw1, Hda.
  set (t1 := set_hover HNull _) in Hv. split; [by exists t1|].
  set (t2 := set_hover HOut (set_triggers (set_trigger false false) t1)).
  set (q1 := on_heap <[o := Live t2]> (on_timers (delete (_timeout t1)) p1)).
  pose proof (v_object _ _ _ _ Hv) as Ho1.
  apply orb_false_iff in Hact as [[Hclick Hfocus]%orb_false_iff _].
  assert (E2 : _leave o (Some (el, false)) p1 = hide o q1).
  { apply (leave_now o t1); try done; [|cbn; by rewrite Hd].
    rewrite Hda. by rewrite lookup_insert_ne by naive_solver. }
  assert (Hv1 : visible o t2 n q1) by (destruct Hv; split; try done; apply lookup_insert_eq).
  destruct (hide_settled o t2 n q1 Hv1) as ((t3 & H3 & _) & Hl2); [done|done|].
  rewrite <- E2 in H3, Hl2. fold p2 in H3, Hl2. split; [by exists t3|]. rewrite Hl2. cbn. rewrite Hl1. cbn.
  by rewrite <- app_assoc.
Qed.

(** ** Coming back while the tip fades out *)

(** Documents that differ in classes, attributes and identifiers only. *)
Definition alike (d d' : dom) : Prop :=
  Dom.same_tree d d' ∧ (∀ m, is_Some (d' !! m) ↔ is_Some (d !! m)) ∧ ∀ n, flat d n → flat d' n.
#[local] Instance alike_preorder : PreOrder alike.
Proof.
  split; [done|]. intros d1 d2 d3 (H1 & H2 & H3) (H1' & H2' & H3').
  split; [by etrans|]. split; [intros m; by rewrite H2'|auto].
Qed.
Lemma alike_alter f n d :
  (∀ e, parentNode (f e) = parentNode e) → (∀ e, childNodes (f e) = childNodes e) → alike d (alter f n d).
Proof.
  intros Hp Hc. split; [by apply Dom.same_tree_alter|]. split; [intros m; apply Dom.present_alter|].
  intros k. by apply flat_alter.
Qed.
Lemma alike_removeClasses cs n d : alike d (foldl (λ d c, Dom.removeClass c n d) d cs).
Proof.
  revert d; induction cs as [|c cs IH]; intros d; [reflexivity|]. simpl. etrans; [|apply IH]. by apply alike_alter.
Qed.
Lemma alike_shown t n tipId cls pl d : inDocument d n = true → alike d (shown_doc t n tipId cls pl d).
Proof.
  intros Hi. unfold shown_doc, linked. rewrite (inDocument_tree _ _ _ (filled_tree _ _ _ _ _)), Hi.
  unfold filled, unclass. destruct (animated t); repeat (etrans; [|by apply alike_alter]); reflexivity.
Qed.
Lemma alike_hidden el n d : alike d (hidden_doc true el n d).
Proof.
  unfold hidden_doc. repeat (etrans; [|by apply alike_alter]). apply alike_removeClasses.
Qed.

Lemma ready_alike o t n p t' p' :
  ready o t n p → alike (doc p) (doc p') → inDocument (doc p) n = true → heap p' !! o = Some (Live t') →
  tip t' = tip t → _isEnabled t' = true → element t' = element t →
  (∀ k, k ≠ "animation" → opt (config_of t') k = opt (config_of t) k) →
  ready o t' n p' ∧ inDocument (doc p') n = true.
Proof.
  intros [Ho Hn He Hp Hf Hs Hc Hnn Hel Hin Hd Hb Hl] (Ht & Hpr & Hfl) Hi Ho' Etip Een Eel Eopt.
  assert (Hi' : inDocument (doc p') n = true) by (by rewrite (inDocument_tree _ _ _ Ht)).
  split; [|done]. split; rewrite ?Etip, ?Eel, ?(Eopt "placement"), ?(Eopt "container"), ?Hpr by done; try done.
  - by apply (plain_ext t).
  - by apply Hfl.
  - by rewrite (inDocument_tree _ _ _ Ht).
  - by rewrite (Dom.closest_node_tree _ _ _ _ Ht).
  - by right.
Qed.

(** The document has a shown page and its poppers. *)
Lemma shown_page_facts o t n p q :
  shown_page o t n p q → inDocument (doc p) n = true →
  alike (doc p) (doc q) ∧ heap q !! o = Some (Live (set_popper (Some (pfresh (base p))) t)) ∧
  (∃ r, poppers q !! pfresh (base p) = Some r ∧ p_tip r = n) ∧
  (∀ i, i ≠ pfresh (base p) → poppers q !! i = poppers p !! i) ∧
  pfresh (base q) = S (pfresh (base p)) ∧ pwait (base q) = pwait (base p) ∧
  plog (base q) = plog (base p) ++ [Ev (element t) (ev "show") []; Ev (element t) (ev "inserted") []].
Proof.
  intros [tipId a pl options f g] Hi. split; [by apply alike_shown|]. split; [apply lookup_insert_eq|].
  split; [eexists; split; [apply lookup_insert_eq|done]|]. cbn. split_and!; try done.
  - intros i Hne. by apply lookup_insert_ne.
  - by rewrite <- app_assoc.
Qed.

Definition repaired : list string := ["hide"; "hidden"; "show"; "inserted"; "shown"].
Definition events (el : nid) (es : list string) : list Bs.ev := (λ e, Ev el (ev e) []) <$> es.

(** [hide] without a transition while the user wants to see the tip. *)
Lemma hide_kept o t n i r p :
  heap p !! o = Some (Live t) → tip t = Some n → _popper t = Some i → poppers p !! i = Some r → p_tip r = n →
  _hoverState t = HShow → Dom.hasClass (doc p) n "fade" = false →
  ∃ p', hide o p = (p', Ret ()) ∧ heap p' !! o = Some (Live (set_hover HEmpty (set_triggers no_triggers t))) ∧
    alike (doc p) (doc p') ∧ (∀ j, j ≠ i → poppers p' !! j = poppers p !! j) ∧
    pfresh (base p') = pfresh (base p) ∧ pwait (base p') = pwait (base p) ∧
    plog (base p') = plog (base p) ++ events (element t) ["hide"; "hidden"].
Proof.
  intros Ho Hn Hi Hr Hp Hh Hf. destruct (hide_run o t n p Ho Hn) as [g Hrun]. rewrite Hrun, Hf, andb_false_r.
  set (t1 := set_triggers no_triggers t). set (p1 := on_heap _ _).
  assert (Ho1 : heap p1 !! o = Some (Live t1)) by apply lookup_insert_eq.
  pose proof (hidden_run o t1 n i r p1 Ho1 Hn Hi Hr Hp) as E1. rewrite (bool_decide_true (_hoverState t1 = HShow)) in E1 by done.
  rewrite (bind_ret _ _ _ _ _ E1). erewrite upd_live by live. eexists. split; [reflexivity|].
  split; [apply lookup_insert_eq|]. split.
  { etrans; [|apply alike_hidden]. by apply alike_alter. }
  split; [intros j Hj; cbn; by rewrite lookup_alter_ne by done|]. split_and!; try done. cbn. by rewrite <- app_assoc.
Qed.

(** [_fixTransition] on a tip whose Popper instance is gone. *)
Lemma fix_repair o t n i r p :
  ready o t n p → inDocument (doc p) n = true → Dom.hasAttribute (doc p) n "x-placement" = false →
  _hoverState t = HShow → _popper t = Some i → poppers p !! i = Some r → p_tip r = n →
  ∃ p' t', _fixTransition o p = (p', Ret ()) ∧ visible o t' n p' ∧ _hoverState t' = HNull ∧ element t' = element t ∧
    _popper t' = Some (pfresh (base p)) ∧
    (∀ k, opt (config_of t') k = opt (config_of t) k) ∧
    (∀ j, j ≠ i → j ≠ pfresh (base p) → poppers p' !! j = poppers p !! j) ∧
    plog (base p') = plog (base p) ++ events (element t) repaired.
Proof.
  intros Hr Hin Hpl Hh Hi Hri Hpt. pose proof (r_object _ _ _ _ Hr) as Ho. pose proof (r_tip _ _ _ _ Hr) as Hn.
  unfold _fixTransition. erewrite bind_ret by (by eapply tip_known). do 2 tstep. rewrite Hpl. unfold id.
  rewrite (bind_ret _ _ _ _ _ (docM_run _ _)). unfold set_animation. tstep.
  set (tA := set_config _ t). set (pA := on_heap _ _).
  assert (HoA : heap pA !! o = Some (Live tA)) by apply lookup_insert_eq.
  destruct (hide_kept o tA n i r pA) as (pB & EB & HoB & HaB & HpB & HfB & HwB & HlB); try done.
  { apply Dom.hasClass_remove_same. }
  rewrite (bind_ret _ _ _ _ _ EB). set (tB := set_hover HEmpty _) in HoB.
  assert (HaAB : alike (doc p) (doc pB)) by (etrans; [|exact HaB]; by apply alike_alter).
  assert (Hopt : ∀ k, k ≠ "animation" → opt (config_of tB) k = opt (config_of t) k)
    by (intros k Hk; unfold opt; cbn; by rewrite lookup_insert_ne by congruence).
  destruct (ready_alike o t n p tB pB) as [HrB HinB]; try done; [by destruct Hr|].
  destruct (show_run (λ _, mret ()) o tB n pB HrB) as (q & Hq & Hrun).
  assert (Han : animated tB = false) by (unfold animated, opt; cbn; by rewrite lookup_insert_eq).
  rewrite Han, andb_false_r in Hrun.
  pose proof (shown_visible o tB n pB q HrB Hq) as Hv. set (tC := set_popper _ tB) in Hv.
  destruct (shown_page_facts o tB n pB q Hq HinB) as (_ & _ & _ & HpC & _ & _ & HlC).
  rewrite (complete_run (λ _, mret ()) o tC q) in Hrun by (done || apply Hv).
  rewrite (bind_ret _ _ _ _ _ Hrun). pose proof (completed_visible o tC n q Hv) as Hv'.
  set (t' := set_config <["animation" := opt (config_of t) "animation"]> (set_hover HNull tC)).
  exists (on_heap <[o := Live t']> (completed o tC q)), t'.
  split; [by rewrite (upd_live _ o (set_hover HNull tC)) by apply Hv'|].
  split; [destruct Hv'; split; try done; apply lookup_insert_eq|]. split; [done|]. split; [done|].
  split; [cbn; by rewrite HfB|]. split.
  { intros k. unfold opt at 1. cbn. rewrite lookup_insert. case_decide; [by subst|].
    fold (opt (<["animation" := VBool false]> (config_of t)) k). unfold opt. by rewrite lookup_insert_ne. }
  split.
  { intros j H1 H2. cbn. rewrite HpC by (rewrite HfB; done). by rewrite HpB. }
  cbn. rewrite HlC, HlB. cbn. by rewrite <- !app_assoc.
Qed.

(** The callbacks of both transitions, in the order they were asked for. *)
Lemma transition_two n k1 k2 p p1 :
  waiting n TRANSITION_END (base p) = [k1; k2] →
  resume k1 (on_base (drop_wait n TRANSITION_END) p) = (p1, Ret ()) →
  (transition_end n p).1 = (resume k2 p1).1.
Proof.
  intros H H1. unfold transition_end. do 2 tstep. rewrite H. cbn [meach]. rewrite (bind_ret _ _ _ _ _ H1).
  unfold mbind, jsM_bind. by destruct (resume k2 p1) as [q [[]|]].
Qed.

(** Both callbacks on a tip that was asked to hide and then to show. *)
Lemma both_callbacks o t n j r p :
  ready o t n p → inDocument (doc p) n = true → _hoverState t = HShow → _popper t = Some j →
  poppers p !! j = Some r → p_tip r = n → animated t = true → (j < pfresh (base p))%nat →
  waiting n TRANSITION_END (base p) = [HiddenComplete o n; ShownComplete o] →
  let p' := (transition_end n p).1 in
  ∃ t', visible o t' n p' ∧ _popper t' = Some (pfresh (base p)) ∧
    (∀ i, i ≠ j → (i < pfresh (base p))%nat → poppers p' !! i = poppers p !! i) ∧
    plog (base p') = plog (base p) ++ events (element t) (["hidden"] ++ repaired ++ ["shown"]).
Proof.
  intros Hr Hin Hh Hj Hrj Hpt Han Hlt Hw p'. pose proof (r_object _ _ _ _ Hr) as Ho. pose proof (r_tip _ _ _ _ Hr) as Hn.
  pose proof (hidden_run o t n j r (on_base (drop_wait n TRANSITION_END) p) Ho Hn Hj Hrj Hpt) as E1.
  rewrite (bool_decide_true (_hoverState t = HShow)) in E1 by done.
  subst p'. rewrite (transition_two _ _ _ _ _ Hw E1). cbn [resume]. set (p1 := on_poppers _ _).
  destruct (ready_alike o t n p t p1) as [Hr1 Hin1]; try done; [apply alike_hidden|by destruct Hr|].
  destruct (fix_repair o t n j (destroyed r) p1) as (p2 & t2 & E2 & Hv2 & Hh2 & He2 & Hp2 & _ & Hq2 & Hl2); try done.
  { unfold Dom.hasAttribute, doc, p1, hidden_doc. cbn [on_poppers on_base base pdoc].
    rewrite Dom.getAttribute_removeAttribute, (bool_decide_true (n = n ∧ _)) by done.
    apply bool_decide_eq_false. by intros [? [=]]. }
  { cbn. by rewrite lookup_alter_eq, Hrj. }
  assert (E3 : shown_complete _fixTransition o p1 = (completed o t2 p2, Ret ())).
  { unfold shown_complete. tstep. fold (animated t). rewrite Han. cbn [mguard]. rewrite (bind_ret _ _ _ _ _ E2).
    pose proof (v_object _ _ _ _ Hv2) as Ho2. do 2 tstep.
    erewrite bind_ret by (apply fire_event_live; live). rewrite Hh2. by rewrite bool_decide_false. }
  rewrite E3. cbn [fst]. exists (set_hover HNull t2). split; [by apply completed_visible|]. split; [exact Hp2|]. split.
  - intros i Hi Hlt'. cbn. rewrite Hq2; [|done|cbn; lia]. cbn. by rewrite lookup_alter_ne.
  - cbn. rewrite Hl2, He2. cbn. by rewrite <- !app_assoc.
Qed.

(** C27. A user who comes back while the tip fades out sees it again: the pending
    callback of hide takes away the placement of the new show, which its own
    callback notices and repairs, so that in the end the tip is visible and
    placed by an instance that is alive.  The price: hidden, hide and shown are
    announced more than once, and the instance of the first show, which nobody
    refers to any more, is never destroyed. *)
Theorem reenter_while_fading o t n i r p :
  ready o t n p → visible o t n p → _popper t = Some i → poppers p !! i = Some r → (i < pfresh (base p))%nat →
  supportsTransitionEnd = true → animated t = true → Dom.hasClass (doc p) n "fade" = true →
  _hoverState t ≠ HShow → pdata (base p) !! element t = Some o → delays (config_of t) = (0, 0)%Z →
  waiting n TRANSITION_END (base p) = [] →
  let el := element t in
  let p' := (transition_end n (_enter o (Some (el, false)) (hide o p).1).1).1 in
  (∃ t', visible o t' n p' ∧ _popper t' ≠ Some i) ∧ poppers p' !! i = Some r ∧
  plog (base p') = plog (base p) ++
    events el ["hide"; "show"; "inserted"; "hidden"; "hide"; "hidden"; "show"; "inserted"; "shown"; "shown"].
Proof.
  intros Hr Hv Hi Hri Hlt Hsup Han Hfade Hh Hel Hd Hw el p'.
  pose proof (r_object _ _ _ _ Hr) as Ho. pose proof (r_tip _ _ _ _ Hr) as Hn. pose proof (v_inside _ _ _ _ Hv) as Hin.
  set (t1 := set_hover HEmpty (set_triggers no_triggers t)).
  destruct (hide_run o t n p Ho Hn) as [g Hrun]. rewrite Hsup, Hfade in Hrun. cbn [andb] in Hrun.
  set (p1 := on_heap <[o := Live t1]> (on_base (add_wait n TRANSITION_END (HiddenComplete o n))
    (on_handlers g (on_base (hiding n t) p)))).
  assert (E1 : hide o p = (p1, Ret ())).
  { rewrite Hrun, (bind_ret _ _ _ _ _ (one_run _ _ _)). erewrite upd_live by live.
    unfold p1, on_heap. cbn. by rewrite insert_insert_eq. }
  set (t2 := set_hover HShow (set_triggers (set_trigger false true) t1)).
  set (q0 := on_heap <[o := Live t2]> (on_timers (delete (_timeout t)) p1)).
  assert (E2 : _enter o (Some (el, false)) p1 = show o q0).
  { apply (enter_now o t1 n); try done; [apply lookup_insert_eq|cbn; by rewrite Hd|apply Dom.hasClass_remove_same]. }
  assert (Ho2 : heap q0 !! o = Some (Live t2)) by apply lookup_insert_eq.
  destruct (ready_alike o t n p t2 q0) as [Hr2 Hin2]; try done; [by apply alike_alter|by destruct Hr|].
  destruct (show_run _fixTransition o t2 n q0 Hr2) as (q & Hq & Hshow).
  change (animated t2) with (animated t) in Hshow. rewrite Hsup, Han, one_run in Hshow. cbn [andb] in Hshow.
  destruct (shown_page_facts o t2 n q0 q Hq Hin2) as (Ha & Ho3 & (r3 & Hr3 & Hpt3) & Hp3 & Hf3 & Hw3 & Hl3).
  set (t3 := set_popper _ t2) in Ho3.
  set (q1 := on_base (add_wait n TRANSITION_END (ShownComplete o)) q) in Hshow.
  destruct (ready_alike o t2 n q0 t3 q1) as [Hr3' Hin3]; try done; [by destruct Hr|].
  destruct (both_callbacks o t3 n (pfresh (base q0)) r3 q1) as (t4 & Hv4 & Hp4 & Hq4 & Hl4); try done.
  { cbn [q1 on_base base]. unfold add_wait at 1. cbn [pfresh]. rewrite Hf3. lia. }
  { cbn [q1 on_base base]. rewrite waiting_add, bool_decide_true by done. unfold waiting in *. rewrite Hw3.
    cbn [q0 p1 on_heap on_timers on_base on_handlers base add_wait hiding pwait].
    rewrite filter_app, fmap_app, Hw. by rewrite filter_cons_True. }
  subst p'. rewrite E1. cbn [fst]. rewrite E2. unfold show. rewrite Hshow. cbn [fst].
  assert (Hne : pfresh (base q0) = pfresh (base p)) by done.
  split; [exists t4; split; [exact Hv4|]; rewrite Hp4; cbn [q1 on_base base add_wait pfresh]; rewrite Hf3; intros [= <-]; lia|].
  split.
  - rewrite Hq4; [|lia|cbn; lia]. cbn. rewrite Hp3 by lia. exact Hri.
  - rewrite Hl4. cbn [q1 on_base base add_wait plog]. rewrite Hl3. cbn. by rewrite <- !app_assoc.
Qed.

End life.

(** ** The end *)

Section dispose.
Context `{B : Browser, E : TipEnv, W : Widget}.

Lemma destroy_popper_run i p :
  ∃ f g, destroy_popper i p = (on_poppers g (on_base (on_doc f) p), Ret ()) ∧
    ∀ d m, d !! m = None → f d !! m = None.
Proof.
  unfold destroy_popper. erewrite bind_ret by reflexivity. cbv beta. destruct (poppers p !! i) as [q|].
  - eexists _, _. split; [reflexivity|]. intros d m Hm. unfold Dom.removeAttribute.
    rewrite lookup_alter. case_decide; subst; by rewrite Hm.
  - exists id, id. split; [by destruct p as [[]]|done].
Qed.

(** A transition of an element for which nothing waits. *)
Lemma transition_end_idle n p :
  (∀ w, w ∈ pwait (base p) → w.1.1 ≠ n) → transition_end n p = (p, Ret ()).
Proof.
  intros Hw. assert (Hnone : filter (λ w, w.1.1 = n ∧ w.1.2 = TRANSITION_END) (pwait (base p)) = []).
  { apply elem_of_nil_inv. intros w [[Hn _] Hin]%list_elem_of_filter. by apply (Hw w). }
  unfold transition_end, mbind, jsM_bind, mget, mupdate, waiting. rewrite Hnone. cbn [fmap list_fmap meach].
  assert (Hb : on_base (drop_wait n TRANSITION_END) p = p).
  { unfold on_base, drop_wait. rewrite filter_all; [by destruct p as [[]]|]. intros w Hin [Hn _]. by apply (Hw w). }
  by rewrite Hb.
Qed.

(** C28. Disposing a tooltip ends it: its element forgets it, no timer of it is
    left, its listeners are gone, its tip is no longer in the document, and the
    removal of the tip has taken the callbacks with it that waited for a
    transition of the tip or of something inside, so that the end of such a
    transition finds nothing to run.  What waits elsewhere goes on waiting.  From
    the modal around the element it takes the listeners for the event hide of all
    other tooltips as well. *)
Theorem dispose_final o t n p :
  timer_inv None p → heap p !! o = Some (Live t) → tip t = Some n →
  ∃ p', dispose o p = (p', Ret ()) ∧ heap p' !! o = Some (Disposed false) ∧
    pdata (base p') !! element t = None ∧ (∀ i h, timers p' !! i ≠ Some (o, h)) ∧ doc p' !! n = None ∧
    (∀ w, w ∈ pwait (base p') ↔ w ∈ pwait (base p) ∧ w.1.1 ∉ subtree (doc p) n) ∧
    (∀ m, m ∈ subtree (doc p) n → transition_end m p' = (p', Ret ())) ∧
    ∀ l, l ∈ handlers p' ↔ l ∈ handlers p ∧ l_on l ∉ subtree (doc p) n ∧ ¬ (l_on l = element t ∧ l_space l = EVENT_KEY) ∧
      ¬ (Some (l_on l) = Dom.closest MODAL (doc p) (element t) ∧ l_type l = "hide" ∧ l_space l = ".bs.modal").
Proof.
  intros Hinv Ho Hn. unfold dispose. tstep. erewrite bind_ret by (unfold clear_timeout; tstep; reflexivity).
  do 3 tstep. unfold id. rewrite Hn.
  erewrite bind_ret by (unfold remove_node; do 2 tstep; reflexivity). set (m := Dom.closest MODAL _ _). set (p1 := on_base (on_doc (Dom.remove n)) _).
  assert (∃ f g, (match _popper t with Some i => destroy_popper i | None => mret () end) p1 =
    (on_poppers g (on_base (on_doc f) p1), Ret ()) ∧ ∀ d m, d !! m = None → f d !! m = None) as (f & g & E1 & Hf).
  { destruct (_popper t) as [i|]; [apply destroy_popper_run|]. exists id, id. done. }
  rewrite (bind_ret _ _ _ _ _ E1). set (p2 := on_heap (alter (λ _, Disposed false) o) (on_poppers g (on_base (on_doc f) p1))).
  exists p2. split; [done|].
  assert (Ho2 : heap p2 !! o = Some (Disposed false)) by (cbn; by rewrite lookup_alter_eq, Ho).
  assert (Hd2 : doc p2 !! n = None) by (apply Hf; apply Bs.Alert.remove_lookup).
  assert (Hw2 : ∀ w, w ∈ pwait (base p2) ↔ w ∈ pwait (base p) ∧ w.1.1 ∉ subtree (doc p) n).
  { intros w. cbn. rewrite list_elem_of_filter. tauto. }
  split; [done|]. split_and!.
  - cbn. apply map_lookup_filter_None. left. apply lookup_delete_eq.
  - intros i h. cbn. rewrite lookup_delete. case_decide; [done|]. intros Hi.
    destruct (proj2 Hinv i o h Hi) as (_ & t' & Ht' & Et). congruence.
  - done.
  - done.
  - intros m' Hm'. apply transition_end_idle. intros w [_ Hw]%Hw2 Hwm. by rewrite Hwm in Hw.
  - intros l. cbn. rewrite !list_elem_of_filter. tauto.
Qed.

End dispose.

End TooltipLife.
