(* ===== verification/Popover.v ===== *)
(** * Popover, bootstrap.js lines 3111 to 3295

    A popover is a tooltip with a title and a content: the class of file Tooltip
    with other names and defaults and its own [isWithContent] and
    [setContent]. *)

From S2P Require Import Prelude Dom Bs Tooltip TooltipTimers TooltipOptions TooltipLife.
Local Open Scope string_scope.
Local Open Scope list_scope.

Module Popover.
Import Tooltip TooltipTimers TooltipOptions TooltipLife.

Section popover.
Context `{B : Browser, E : TipEnv}.

(** Lines 3124 to 3129. *)
Definition template : string :=
  "<div class=" +:+ Util.quote "popover" +:+ " role=" +:+ Util.quote "tooltip" +:+ ">" +:+
  "<div class=" +:+ Util.quote "arrow" +:+ "></div>" +:+
  "<h3 class=" +:+ Util.quote "popover-header" +:+ "></h3>" +:+
  "<div class=" +:+ Util.quote "popover-body" +:+ "></div></div>".
Definition popover_defaults : config :=
  list_to_map [("placement", VStr "right"); ("trigger", VStr "click"); ("content", VStr "");
    ("template", VStr template)] ∪ tooltip_defaults.
(** Lines 3130 to 3132. *)
Definition popover_types : list (string * list string) :=
  tooltip_types ++ [("content", ["string"; "element"; "function"])].

(** Lines 3201 to 3203. *)
Definition _getContent (d : dom) (t : tooltip) : value :=
  let content := default "" (Dom.getAttribute d (element t) "data-content") in
  if bool_decide (content = "") then opt (config_of t) "content" else VStr content.
(** Lines 3172 to 3174. *)
Definition popover_isWithContent (d : dom) (t : tooltip) : bool :=
  has_content (getTitle d t) || truthy (_getContent d t).
(** Lines 3185 to 3198. *)
Definition popover_setContent (o : oid) : tipM () :=
  n ← getTipElement o;
  t ← this o id;
  header ← mget (λ p, Dom.find (Dom.sel_class "popover-header") (doc p) n);
  title ← mget (λ p, getTitle (doc p) t);
  _ ← setElementContent o header title;
  content ← mget (λ p, option_content (doc p) (element t) (_getContent (doc p) t));
  body ← mget (λ p, Dom.find (Dom.sel_class "popover-body") (doc p) n);
  _ ← setElementContent o body content;
  docM (λ d, Dom.removeClass "show" n (Dom.removeClass "fade" n d)).

(** Lines 3117 to 3132 and 3160 to 3212. *)
Definition popover_widget : Widget := {|
  NAME := "popover";
  CLASS_PREFIX := "bs-popover";
  Default := popover_defaults;
  DefaultType := popover_types;
  isWithContent := popover_isWithContent;
  setContent := popover_setContent
|}.

(** Lines 3215 to 3240. *)
Definition _jQueryInterface (options : config) (method : option string) (els : list nid) : tipM () :=
  meach (interface_on (W:=popover_widget) ["destroy"; "hide"] options method) els.

#[global] Instance popover_quiet : QuietContent (W:=popover_widget).
Proof.
  intros I o Hd Hx Ht. apply keeps_bind; [by apply getTip_quiet|]. intros n.
  apply keeps_bind; [apply keeps_this|]. intros t.
  do 2 (apply keeps_bind; [apply keeps_get|]; intros). apply keeps_bind; [by apply setElementContent_quiet|intros].
  do 2 (apply keeps_bind; [apply keeps_get|]; intros). apply keeps_bind; [by apply setElementContent_quiet|auto].
Qed.

#[global] Instance popover_strings : StringOptions (W:=popover_widget).
Proof.
  intros k ts Hk Hin. assert (H : Forall (λ kt, kt.1 ∈ ["trigger"; "selector"] → "string" ∈ kt.2) popover_types)
    by by_evaluation.
  rewrite Forall_forall in H. by apply (H (k, ts)).
Qed.

(** Texts as title and content. *)
Definition texts_given (t : tooltip) : Prop :=
  text_title t ∧ ∃ s, opt (config_of t) "content" = VStr s.

Lemma text_content d t : texts_given t → ∃ s, option_content d (element t) (_getContent d t) = CText s.
Proof. intros [_ [s Hs]]. unfold _getContent. case_bool_decide; [rewrite Hs|]; by eexists. Qed.

#[global] Program Instance popover_plain : PlainContent (W:=popover_widget) := {| plain := texts_given |}.
Next Obligation.
  intros t t' Hk [(s & Hs & Ht) [c Hc]]. split; [exists s|exists c]; by rewrite Hk.
Qed.
Next Obligation.
  intros d t [Ht _]. destruct (text_getTitle d t Ht) as (s & Hs & E'). simpl.
  unfold popover_isWithContent. rewrite E'. simpl. by rewrite bool_decide_false.
Qed.
Next Obligation. done. Qed.
Next Obligation.
  intros o t n p Ho Hn Ht Hf. destruct (text_getTitle (doc p) t (proj1 Ht)) as (s & Hs & Etitle).
  simpl. unfold popover_setContent. erewrite bind_ret by (by eapply tip_known). do 3 tstep. unfold id. rewrite Etitle.
  edestruct (setElementContent_text o t s) as [f Hx]; [live|intros k Hk; eapply Hf, descendants_find, Hk|].
  erewrite bind_ret by exact Hx. do 2 tstep.
  destruct (text_content (doc (on_texts f p)) t Ht) as [c Hc]. rewrite Hc.
  destruct (setElementContent_text o t c (Dom.find (Dom.sel_class "popover-body") (doc (on_texts f p)) n) (on_texts f p))
    as [f' Hx']; [live|intros k Hk; eapply Hf, descendants_find, Hk|].
  erewrite bind_ret by exact Hx'. by exists (λ m, f' (f m)).
Qed.

End popover.

End Popover.
