(* ===== verification/TipClasses.v ===== *)
(** * Tooltip and Popover: the classes and the interface [Widget]

    The files on tooltips write the methods of Tooltip once, against the interface
    [Widget], and give its values for Tooltip and for Popover.  Here these values
    are found again in the classes that the library makes. *)

From Stdlib Require Import Ascii.
From S2P Require Import Prelude Dom Bs JsObject BsClasses PluginClasses Tooltip Popover.
Local Open Scope string_scope.
Local Open Scope list_scope.

Module TipClasses.
Import JsObject BsClasses PluginClasses.

(** Options as the methods of Tooltip see them. *)
Definition value_in (v : val) : Tooltip.value :=
  match v with
  | Undef | Ref _ => Tooltip.VUndefined
  | Null => Tooltip.VNull
  | Bool b => Tooltip.VBool b
  | Num z => Tooltip.VNum z
  | Str s => Tooltip.VStr s
  end.
(** The types that a pattern such as [(string|element)] allows. *)
Fixpoint alternatives (pattern : string) : list string :=
  match pattern with
  | EmptyString => [""]
  | String c s =>
      let r := alternatives s in
      if bool_decide (c = "("%char ∨ c = ")"%char) then r
      else if bool_decide (c = "|"%char) then "" :: r
      else match r with w :: ws => String c w :: ws | [] => [String c ""] end
  end.
Definition types_in (v : val) : list string := match v with Str s => alternatives s | _ => [] end.

Section widget.
Context `{B : Browser, E : Tooltip.TipEnv}.
Context (object_proto function_proto : loc).

(** A class has the name, the options and the types of options of a widget. *)
Record implements (h : heap) (c : loc) (W : Tooltip.Widget) : Prop := {
  im_name : reads h c "NAME" = Str (Tooltip.NAME (Widget:=W));
  im_key : reads h c "DATA_KEY" = Str ("bs." +:+ Tooltip.NAME (Widget:=W));
  im_options : ∃ d, reads h c "Default" = Ref d ∧
    ∀ k, value_in <$> (value_of <$> get_own h d k) = Tooltip.Default (Widget:=W) !! k;
  im_types : ∃ d, reads h c "DefaultType" = Ref d ∧
    ∀ k, types_in <$> (value_of <$> get_own h d k) =
      (list_to_map (Tooltip.DefaultType (Widget:=W)) : gmap string (list string)) !! k
}.

Lemma options_in {A} (f : val → A) h c k fs (m : gmap string A) :
  options_at h c k fs → f <$> (list_to_map fs : gmap string val) = m →
  ∃ d, reads h c k = Ref d ∧ ∀ k', f <$> (value_of <$> get_own h d k') = m !! k'.
Proof. intros (d & Hd & Hk) <-. exists d. split; [done|]. intros k'. by rewrite Hk, lookup_fmap. Qed.

(** The class that an object finds at its property constructor has the constants of
    the widget by which the object is modelled: the widget of Tooltip for
    tooltips, that of Popover for popovers. *)
Theorem widgets_implemented native te tc pe pc h :
  realm object_proto function_proto h → names_free object_proto function_proto h →
  ∃ h' t p i j, tips_program object_proto function_proto native te tc pe pc h = (h', Ret (t, p, i, j)) ∧
    (reads h' i "constructor" = Ref t ∧ implements h' t Tooltip.tooltip_widget) ∧
    (reads h' j "constructor" = Ref p ∧ implements h' p Popover.popover_widget).
Proof.
  intros Hr Hf. destruct (tips_ret object_proto function_proto native te tc pe pc h Hr Hf)
    as (h' & t & pt & d & dt & ev & c & p & d' & dt' & ev' & i & j & a & b & E' & He & Ct & Cp & Hi & Hj & D & D' & T & T').
  assert (Ho : ordered h') by apply He.
  pose proof (tooltip_named d dt ev) as Nt. pose proof (popover_named d' dt' ev') as Np.
  exists h', t, c, i, j. split; [done|]. split.
  - split; [apply (instance_constructor Ho Ct Hi); [apply tip_fields_none|]; by_evaluation|]. split.
    + apply (reads_getter _ _ _ _ _ _ _ _ _ Ho Nt Ct). member.
    + apply (reads_getter _ _ _ _ _ _ _ _ _ Ho Nt Ct). member.
    + eapply options_in; [eapply (literal_options object_proto _ _ _ _ _ _ _ "Default" _ Tooltip_Default Ho Nt Ct);
        [member|by_evaluation|exact D]|by_evaluation].
    + eapply options_in; [eapply (literal_options object_proto _ _ _ _ _ _ _ "DefaultType" _ Tooltip_DefaultType Ho Nt Ct);
        [member|by_evaluation|exact T]|by_evaluation].
  - split; [apply (instance_constructor Ho Cp Hj); [apply tip_fields_none|]; by_evaluation|]. split.
    + apply (reads_getter _ _ _ _ _ _ _ _ _ Ho Np Cp). member.
    + apply (reads_getter _ _ _ _ _ _ _ _ _ Ho Np Cp). member.
    + eapply options_in; [eapply (merged_options object_proto _ _ _ _ _ _ _ "Default" _ Tooltip_Default Popover_own_Default Ho Np Cp);
        [member|by_evaluation|by_evaluation|exact D']|by_evaluation].
    + eapply options_in; [eapply (merged_options object_proto _ _ _ _ _ _ _ "DefaultType" _ Tooltip_DefaultType Popover_own_DefaultType Ho Np Cp);
        [member|by_evaluation|by_evaluation|exact T']|by_evaluation].
Qed.
End widget.

End TipClasses.
