(* ===== verification/TooltipSample.v ===== *)
(** * Tooltip: a page with a button

    A small page on which the methods of files Tooltip and Popover run, and on
    which the hypotheses of the theorems about them hold. *)

From S2P Require Import Prelude Dom Bs Tooltip TooltipTimers TooltipOptions TooltipLife Popover.
Local Open Scope string_scope.
Local Open Scope list_scope.

Module TooltipSample.
Import Tooltip TooltipTimers TooltipOptions TooltipLife.

(** A number that no identifier of the document ends in. *)
Fixpoint zeros (n : nat) : string := match n with O => "" | S n => String (Ascii.ascii_of_nat 48) (zeros n) end.
Definition long_draw (d : dom) : string :=
  zeros (S (sum_list_with (λ kv, String.length (elId kv.2)) (map_to_list d))).

Definition sample_env : TipEnv := {|
  documentElement := 0%nat;
  document_body := 1%nat;
  data_of _ _ := ∅;
  display_none _ _ := false;
  has_touch := true;
  parse_template _ := Markup "div" ["tooltip"] [("role", "tooltip")]
    [Markup "div" ["arrow"] [] []; Markup "div" ["tooltip-inner"] [] []];
  text_of _ _ := "";
  call_content _ _ _ := CText "";
  call_placement _ _ _ _ := "top";
  draws d := [long_draw d];
  loaded_placement _ _ _ o := po_placement o
|}.
#[local] Existing Instance sample_env.
#[local] Existing Instance plain_browser.
#[local] Existing Instance tooltip_widget.

Definition sample_doc : dom := {[
  0%nat := Elem "html" "" [] ∅ ∅ None [1%nat];
  1%nat := Elem "body" "" [] ∅ ∅ (Some 0%nat) [2%nat];
  2%nat := Elem "button" "" ["btn"] {[ "title" := "Speed" ]} ∅ (Some 1%nat) []
]}.
Definition sample_start : tpage := TPage (BPage sample_doc [] [] ∅ 0) ∅ ∅ ∅ [] ∅.

(** The tooltip of the button, and its tip. *)
Definition sample_made (delay : Z) : tpage :=
  (_jQueryInterface {[ "title" := VStr "Speed"; "delay" := VNum delay ]} None [2%nat] sample_start).1.
Definition sample_ready (delay : Z) : tpage := (getTipElement 0 (sample_made delay)).1.

(** A visit of the mouse, through the listeners. *)
Example sample_visit :
  let p := run_steps (sample_made 0) [UserEvent 2 "mouseenter"; TransitionEnd 3; UserEvent 2 "mouseleave"; TransitionEnd 3] in
  (ev_type <$> plog (base p), Dom.parent (doc p) 3, texts p !! 5%nat) =
  (["show.bs.tooltip"; "inserted.bs.tooltip"; "shown.bs.tooltip"; "hide.bs.tooltip"; "hidden.bs.tooltip"],
   None, Some (false, "Speed")).
Proof. vm_compute. reflexivity. Qed.

(** ** The hypotheses hold here *)

Lemma sample_calm d n e : prevents d n e = false.
Proof. done. Qed.
Lemma sample_displayed d n : display_none d n = false.
Proof. done. Qed.

Lemma zeros_length n : String.length (zeros n) = n.
Proof. induction n; simpl; [done|]. by rewrite IHn. Qed.
Lemma sum_bound {A} (f : A → nat) l x : x ∈ l → (f x ≤ sum_list_with f l)%nat.
Proof.
  induction l as [|y l IH]; [by intros ?%elem_of_nil|]. intros [->|H]%elem_of_cons; simpl; [lia|].
  specialize (IH H). lia.
Qed.
Lemma sample_drawn d : is_Some (Util.getUID (id_in_use d) NAME (draws d)).
Proof.
  change (draws d) with [long_draw d]. cbn [Util.getUID].
  destruct (id_in_use d (NAME +:+ long_draw d)) eqn:Ei; [|by eexists]. exfalso.
  apply existsb_exists in Ei as (n & _ & [Hn _]%andb_true_iff). unfold Dom.sel_id in Hn.
  destruct (d !! n) as [e|] eqn:En; [|done]. apply bool_decide_eq_true in Hn.
  pose proof (sum_bound (λ kv, String.length (elId kv.2)) (map_to_list d) (n, e)) as Hs.
  specialize (Hs ltac:(by apply elem_of_map_to_list)). simpl in Hs. rewrite Hn in Hs. clear Hn.
  unfold long_draw in Hs. revert Hs.
  generalize (sum_list_with (λ kv : nat * elem, String.length (elId kv.2)) (map_to_list d)). intros k Hs.
  assert (Hlen : ∀ a b, String.length (a +:+ b) = (String.length a + String.length b)%nat)
    by (intros a b; induction a as [|c a IH]; simpl; [done|by rewrite <- IH]).
  rewrite Hlen, zeros_length in Hs. lia.
Qed.

Definition object_of (p : tpage) : tooltip :=
  match heap p !! 0%nat with Some (Live t) => t | _ => MkTooltip false 0 HNull (Triggers false false false) None 0 ∅ None end.

(** Check the fields of [ready] by evaluation. *)
Ltac check_ready := split;
  match goal with
  | |- plain _ => exists "Speed"; split; [done|vm_compute; reflexivity]
  | |- flat _ _ => intros k; apply (proj1 (Forall_forall (λ k, Dom.children _ k = []) _)), (bool_decide_unpack _);
                   vm_compute; exact I
  | |- ∃ s a, _ => exists "top", "top"; split; vm_compute; reflexivity
  | |- is_Some _ => apply (bool_decide_unpack _); vm_compute; exact I
  | |- _ ∨ _ => first [left; vm_compute; reflexivity | right; vm_compute; reflexivity]
  | |- _ ∧ _ => split; vm_compute; discriminate
  | |- _ => vm_compute; reflexivity
  end.

Lemma sample_is_ready : ready 0 (object_of (sample_ready 0)) 3 (sample_ready 0).
Proof. check_ready. Qed.

(** ** The theorems at work *)

Lemma show_shown_witness :
  let p' := (transition_end 3 (show 0 (sample_ready 0)).1).1 in
  (∃ t', visible 0 t' 3 p') ∧ ev_type <$> plog (base p') = ["show.bs.tooltip"; "inserted.bs.tooltip"; "shown.bs.tooltip"].
Proof.
  destruct (show_shown sample_calm sample_displayed sample_drawn 0 (object_of (sample_ready 0)) 3 (sample_ready 0))
    as [(t' & H & _) Hl]; [apply sample_is_ready|vm_compute; discriminate|vm_compute; reflexivity|].
  split; [by exists t'|]. rewrite Hl. vm_compute. reflexivity.
Defined.

(** A page on which the tip is visible. *)
Definition sample_shown : tpage := (transition_end 3 (show 0 (sample_ready 0)).1).1.
Lemma sample_visible : visible 0 (object_of sample_shown) 3 sample_shown.
Proof.
  destruct (show_settled sample_calm sample_displayed sample_drawn 0 (object_of (sample_ready 0)) 3 (sample_ready 0))
    as [H _]; [apply sample_is_ready|vm_compute; discriminate|vm_compute; reflexivity|].
  pose proof (v_object _ _ _ _ H) as Ho. unfold object_of at 1. fold sample_shown in H, Ho. by rewrite Ho.
Qed.

Lemma hide_hidden_witness :
  let p' := (transition_end 3 (hide 0 sample_shown).1).1 in ∃ t', hidden 0 t' 3 p'.
Proof.
  destruct (hide_hidden sample_calm 0 (object_of sample_shown) 3 sample_shown)
    as [(t' & H & _) _]; [apply sample_visible|vm_compute; discriminate|vm_compute; reflexivity|].
  by exists t'.
Defined.

Lemma hover_cycle_witness :
  let p1 := (transition_end 3 (_enter 0 (Some (2%nat, false)) (sample_ready 0)).1).1 in
  let p2 := (transition_end 3 (_leave 0 (Some (2%nat, false)) p1).1).1 in
  (∃ t1, visible 0 t1 3 p1) ∧ ∃ t2, hidden 0 t2 3 p2.
Proof.
  destruct (hover_cycle sample_calm sample_displayed sample_drawn 0 (object_of (sample_ready 0)) 3 (sample_ready 0))
    as (H1 & H2 & _); [apply sample_is_ready|vm_compute; (reflexivity || discriminate)..|].
  split; assumption.
Defined.

Lemma reenter_while_fading_witness :
  let p' := (transition_end 3 (_enter 0 (Some (2%nat, false)) (hide 0 sample_shown).1).1).1 in
  ∃ t', visible 0 t' 3 p'.
Proof.
  destruct (reenter_while_fading sample_calm sample_displayed sample_drawn 0 (object_of sample_shown) 3 1
    (default (MkPopper 0 0 0 (PopperOptions "" VNull VNull "" VNull) 0 true) (poppers sample_shown !! 1%nat)) sample_shown)
    as [(t' & H & _) _].
  1: check_ready.
  1: apply sample_visible.
  all: try (vm_compute; first [reflexivity|discriminate|lia]).
  by exists t'.
Defined.

(** A tooltip that is disposed of while it appears: the callback of its transition
    goes with the tip. *)
Definition sample_appearing : tpage := (show 0 (sample_ready 0)).1.
Lemma dispose_final_witness :
  let p' := (dispose 0 sample_appearing).1 in
  waiting 3 TRANSITION_END (base sample_appearing) = [ShownComplete 0] ∧
  heap p' !! 0%nat = Some (Disposed false) ∧ doc p' !! 3%nat = None ∧
  transition_end 3 p' = (p', Ret ()).
Proof.
  assert (Hinv : timer_inv None sample_appearing).
  { assert (Ht : timers sample_appearing = ∅) by (vm_compute; reflexivity).
    assert (Hh : map_Forall (λ o _, (o < pfresh (base sample_appearing))%nat) (heap sample_appearing))
      by (apply (bool_decide_unpack _); vm_compute; exact I).
    split; [intros o [c Hc]; exact (Hh o c Hc)|]. intros i o h. rewrite Ht, lookup_empty. discriminate. }
  destruct (dispose_final 0 (object_of sample_appearing) 3 sample_appearing Hinv)
    as (p' & E' & Ho & _ & _ & Hd & _ & Hk & _); [vm_compute; reflexivity..|].
  split; [vm_compute; reflexivity|]. rewrite E'. split; [exact Ho|]. split; [exact Hd|]. apply Hk. by left.
Defined.

(** The timers of a delayed one. *)
Definition delayed (ss : list step) : tpage :=
  run_steps sample_start
    (Interface ["dispose"; "hide"] {[ "title" := VStr "Speed"; "delay" := VNum 100 ]} None 2 :: UserEvent 2 "mouseenter" :: ss).

Lemma one_timer_witness :
  timers (delayed []) !! 2%nat = Some (0%nat, HShow) ∧ ∃ t, heap (delayed []) !! 0%nat = Some (Live t) ∧ _timeout t = 2%nat.
Proof.
  split; [vm_compute; reflexivity|].
  apply (one_timer sample_start [Interface ["dispose"; "hide"] {[ "title" := VStr "Speed"; "delay" := VNum 100 ]} None 2;
    UserEvent 2 "mouseenter"] 2 0 HShow); [done|vm_compute; reflexivity].
Defined.

Lemma back_in_time_witness :
  let p := delayed [TimerFires 2; TransitionEnd 3] in
  let p1 := (_leave 0 (Some (2%nat, false)) p).1 in
  let p2 := (_enter 0 (Some (2%nat, false)) p1).1 in
  ∃ i, timers p1 !! i = Some (0%nat, HOut) ∧ doc (run_timer i p2).1 = doc p.
Proof.
  intros p. destruct (back_in_time 0 (object_of p) 3 2 p) as (i & Hi & Hd & _);
    [vm_compute; (reflexivity || discriminate)..|].
  exists i. split; [exact Hi|exact Hd].
Defined.

(** The options of a tooltip that watches the buttons inside the body. *)
Definition given_options : config := {[ "selector" := VStr ".btn"; "title" := VNum 7 ]}.
Definition sample_config : config :=
  match _getConfig sample_doc 1 given_options with Ret c => c | Throw _ => ∅ end.

Lemma sample_config_ok : _getConfig sample_doc 1 given_options = Ret sample_config.
Proof.
  assert (H : (match _getConfig sample_doc 1 given_options with Ret _ => true | Throw _ => false end) = true)
    by (vm_compute; reflexivity).
  unfold sample_config. by destruct (_getConfig _ _ _).
Qed.

Lemma delegate_config_witness :
  ∃ c', _getConfig sample_doc 2 (_getDelegateConfig (manual sample_config)) = Ret c' ∧ opt c' "title" = VStr "7".
Proof.
  destruct (delegate_config sample_doc 1 given_options sample_config sample_doc 2) as (c' & Hc & Ho);
    [apply sample_config_ok|reflexivity|].
  exists c'. split; [exact Hc|]. rewrite Ho. vm_compute. reflexivity.
Defined.

End TooltipSample.
