(* ===== verification/PopperOptions.v ===== *)
(** * Popper, the options of an instance: bootstrap.bundle.js lines 3701 to 3730

    The constructor merges the options it is given into the defaults, modifier
    by modifier and option by option, and sorts the modifiers by their order.
    An object is a list of properties in the order in which they were added. *)

From stdpp Require Import sorting.
From S2P Require Import Prelude JsString Dom Bs PopperDom PopperOffset Popper PopperSpec PopperLife Dropdown Tooltip.
Local Open Scope string_scope.
Local Open Scope list_scope.

Module PopperOptions.

(** ** Objects and [Object.assign] *)

Section objects.
Context {V : Type}.
Abbreviation object := (list (string * V)).

Fixpoint get (o : object) (k : string) : option V :=
  match o with [] => None | (k', v) :: o' => if bool_decide (k' = k) then Some v else get o' k end.
Definition keys (o : object) : list string := o.*1.
Fixpoint put (k : string) (v : V) (o : object) : object :=
  match o with
  | [] => [(k, v)]
  | (k', v') :: o' => if bool_decide (k' = k) then (k, v) :: o' else (k', v') :: put k v o'
  end.
(** [_extends({}, o, p)] *)
Definition extend (o p : object) : object := foldl (λ o kv, put kv.1 kv.2 o) o p.

Lemma get_put k v o k' : get (put k v o) k' = if bool_decide (k = k') then Some v else get o k'.
Proof.
  induction o as [|[j w] o IH]; simpl; [done|].
  destruct (decide (j = k)) as [->|Hj]; [rewrite (bool_decide_true (k = k)) by done; simpl; by case_bool_decide|].
  rewrite (bool_decide_false (j = k)) by done. simpl. rewrite IH. repeat case_bool_decide; congruence.
Qed.
Lemma keys_put k v o : keys (put k v o) = if bool_decide (k ∈ keys o) then keys o else keys o ++ [k].
Proof.
  unfold keys. induction o as [|[j w] o IH]; [done|]. csimpl. destruct (decide (j = k)) as [->|Hj].
  - by rewrite (bool_decide_true (k = k)), bool_decide_true by set_solver.
  - rewrite (bool_decide_false (j = k)) by done. csimpl. rewrite IH.
    case_bool_decide as H1; case_bool_decide as H2; try done.
    + destruct H2. set_solver.
    + set_solver.
Qed.
Lemma get_None o k : get o k = None ↔ k ∉ keys o.
Proof.
  induction o as [|[j w] o IH]; simpl; [split; [intros _ ?%elem_of_nil|]; done|].
  change (keys ((j, w) :: o)) with (j :: keys o). rewrite elem_of_cons. case_bool_decide as Hj.
  - split; [done|]. intros []. by left.
  - rewrite IH. split; [intros Hn [->|?]; tauto|tauto].
Qed.
Lemma get_extend o p k : NoDup (keys p) → get (extend o p) k = match get p k with Some v => Some v | None => get o k end.
Proof.
  unfold extend. revert o; induction p as [|[j v] p IH]; intros o Hd; [done|]. simpl in *.
  apply NoDup_cons in Hd as [Hj Hd]. rewrite IH by done. rewrite get_put.
  destruct (decide (j = k)) as [->|Hne]; [|by rewrite !bool_decide_false].
  rewrite !bool_decide_true by done. enough (get p k = None) as -> by done.
  by apply get_None.
Qed.
Lemma get_elem o k v : get o k = Some v → (k, v) ∈ o.
Proof.
  induction o as [|[j w] o IH]; [done|]. simpl. case_bool_decide; [subst; intros [= ->]; by left|].
  intros Hg. right. by apply IH.
Qed.
Lemma keys_extend o p : ∃ q, keys (extend o p) = keys o ++ q ∧ NoDup q ∧ ∀ k, k ∈ q ↔ k ∈ keys p ∧ k ∉ keys o.
Proof.
  unfold extend. revert o; induction p as [|[j v] p IH]; intros o.
  - exists []. rewrite app_nil_r. split; [done|]. split; [constructor|].
    intros k. cbn. rewrite elem_of_nil. tauto.
  - simpl. destruct (IH (put j v o)) as (q & Hk & Hd & Hq). rewrite keys_put in Hk, Hq.
    change (keys ((j, v) :: p)) with (j :: keys p). case_bool_decide as Hj.
    + exists q. split; [done|]. split; [done|]. intros k. rewrite Hq, elem_of_cons.
      split; [tauto|]. intros [[->|?] ?]; [done|by split].
    + exists (j :: q). split; [by rewrite Hk, <- app_assoc|].
      split; [constructor; [|done]; rewrite Hq, elem_of_app, list_elem_of_singleton; tauto|].
      intros k. rewrite !elem_of_cons, Hq, elem_of_app, list_elem_of_singleton.
      split; [intros [->|[? ?]]; tauto|]. intros [[->|?] ?]; [by left|]. destruct (decide (k = j)); tauto.
Qed.
Lemma keys_extend_elem o p k : k ∈ keys (extend o p) ↔ k ∈ keys o ∨ k ∈ keys p.
Proof.
  destruct (keys_extend o p) as (q & -> & _ & Hq). rewrite elem_of_app, Hq.
  destruct (decide (k ∈ keys o)); tauto.
Qed.
Lemma keys_extend_NoDup o p : NoDup (keys o) → NoDup (keys (extend o p)).
Proof.
  intros Ho. destruct (keys_extend o p) as (q & -> & Hd & Hq). apply NoDup_app. split; [done|].
  split; [|done]. intros k Hk. rewrite Hq. naive_solver.
Qed.
End objects.

(** ** The constructor, lines 3716 to 3730 *)

Section merge.
Context {V : Type} (text : string → V) (order : list (string * V) → num).
Abbreviation object := (list (string * V)).

(** Lines 3715 to 3718. *)
Definition given (options : option (list (string * object))) (name : string) : object :=
  match options with Some m => default [] (get m name) | None => [] end.
Definition merge_modifiers (defaults : list (string * object)) (options : option (list (string * object))) :
    list (string * object) :=
  (λ name, (name, extend (default [] (get defaults name)) (given options name)))
    <$> keys (extend defaults (default [] options)).

(** Lines 3721 to 3725. *)
Definition named (m : string * object) : object := extend [("name", text m.1)] m.2.
(** Lines 3727 to 3729: a modifier goes before the first one of a greater
    order. *)
Fixpoint insert_modifier (m : object) (l : list object) : list object :=
  match l with
  | [] => [m]
  | m' :: l' => if num_lt (order m) (order m') then m :: l else m' :: insert_modifier m l'
  end.
Definition sort_modifiers (l : list object) : list object := foldl (λ acc m, insert_modifier m acc) [] l.
Definition modifiers_of (defaults : list (string * object)) (options : option (list (string * object))) : list object :=
  sort_modifiers (named <$> merge_modifiers defaults options).

Lemma insert_perm m l : insert_modifier m l ≡ₚ m :: l.
Proof. induction l as [|m' l IH]; simpl; [done|]. case_match; [done|]. rewrite IH. constructor. Qed.
Lemma sort_perm l : sort_modifiers l ≡ₚ l.
Proof.
  unfold sort_modifiers. assert (H : ∀ acc, foldl (λ acc m, insert_modifier m acc) acc l ≡ₚ acc ++ l).
  { induction l as [|m l IH]; intros acc; simpl; [by rewrite app_nil_r|]. rewrite IH, insert_perm.
    by rewrite <- Permutation_middle. }
  by rewrite H.
Qed.

(** Modifiers whose orders are numbers end up in their order. *)
Definition is_number (x : num) : Prop := is_Some x.
Definition in_order (a b : object) : Prop := num_lt (order b) (order a) = false.
Lemma num_lt_trans x y z : is_number y → num_lt y x = false → num_lt z y = false → num_lt z x = false.
Proof.
  intros [q ->]. destruct x as [x|], z as [z|]; simpl; try done. rewrite !negb_false_iff, !Qle_bool_iff.
  intros. by apply (Qle_trans _ q).
Qed.
Lemma num_lt_flip x y : num_lt x y = true → num_lt y x = false.
Proof.
  destruct x as [x|], y as [y|]; simpl; try done. rewrite negb_true_iff, negb_false_iff, Qle_bool_iff.
  intros H. apply Qlt_le_weak, Qnot_le_lt. intros Hle. apply Qle_bool_iff in Hle. congruence.
Qed.

Lemma insert_modifier_sorted m l :
  is_number (order m) → Forall (λ x, is_number (order x)) l → StronglySorted in_order l →
  StronglySorted in_order (insert_modifier m l).
Proof.
  intros Hm Hl Hs. induction Hs as [|m' l Hs IH Hf]; simpl; [repeat constructor|].
  apply Forall_cons in Hl as [Hm' Hl]. destruct (num_lt (order m) (order m')) eqn:El.
  - apply num_lt_flip in El. constructor; [by constructor|]. constructor; [done|].
    eapply Forall_impl; [exact Hf|]. intros x Hx. by apply (num_lt_trans _ (order m')).
  - constructor; [by apply IH|]. rewrite insert_perm. by constructor.
Qed.
Lemma sort_sorted l :
  Forall (λ x, is_number (order x)) l → StronglySorted in_order (sort_modifiers l).
Proof.
  unfold sort_modifiers. assert (H : ∀ acc, Forall (λ x, is_number (order x)) acc → StronglySorted in_order acc →
    Forall (λ x, is_number (order x)) l → StronglySorted in_order (foldl (λ acc m, insert_modifier m acc) acc l)).
  { induction l as [|m l IH]; intros acc Ha Hs Hl; [done|]. apply Forall_cons in Hl as [Hm Hl]. simpl.
    apply IH; [|by apply insert_modifier_sorted|done]. rewrite insert_perm. by constructor. }
  apply H; constructor.
Qed.

Lemma merged_keys defaults options :
  keys (merge_modifiers defaults options) = keys (extend defaults (default [] options)).
Proof. unfold keys, merge_modifiers. rewrite <- list_fmap_compose. by rewrite list_fmap_id. Qed.

Lemma get_merged defaults options name :
  get (merge_modifiers defaults options) name =
    if bool_decide (name ∈ keys (extend defaults (default [] options)))
    then Some (extend (default [] (get defaults name)) (given options name)) else None.
Proof.
  clear text order. unfold merge_modifiers. generalize (keys (extend defaults (default [] options))). intros ks.
  induction ks as [|k ks IH]; [done|]. csimpl. destruct (decide (k = name)) as [->|Hk].
  - by rewrite (bool_decide_true (name = name)), (bool_decide_true (name ∈ name :: ks)) by (done || by left).
  - rewrite (bool_decide_false (k = name)), IH by done.
    replace (bool_decide (name ∈ k :: ks)) with (bool_decide (name ∈ ks)); [done|].
    apply bool_decide_ext. rewrite elem_of_cons. naive_solver.
Qed.

(** The option [k] of the modifier [name]. *)
Definition option_of (ms : list (string * object)) (name k : string) : option V := get ms name ≫= λ o, get o k.

(** An option of a modifier is the one that was given, else the default:
    giving some options of one modifier loses none of its other options and none
    of the other modifiers, and modifiers without defaults are added; no modifier
    appears twice. *)
Theorem merge_lookup defaults options :
  NoDup (keys defaults) → (∀ name, NoDup (keys (given options name))) →
  NoDup (keys (merge_modifiers defaults options)) ∧
  ∀ name k, option_of (merge_modifiers defaults options) name k =
    match get (given options name) k with Some v => Some v | None => option_of defaults name k end.
Proof.
  clear text order. intros Hd Hg. rewrite merged_keys. split; [by apply keys_extend_NoDup|]. intros name k. unfold option_of.
  rewrite get_merged. case_bool_decide as Hn; simpl.
  - rewrite get_extend by done. destruct (get (given options name) k); [done|]. by destruct (get defaults name).
  - rewrite keys_extend_elem in Hn.
    assert (get defaults name = None) as -> by (apply get_None; naive_solver).
    destruct options as [m|]; [|done]. simpl in *.
    assert (get m name = None) as -> by (apply get_None; naive_solver). done.
Qed.

End merge.

(** ** The options of the modifiers, lines 3283 to 3584 *)

Import PopperDom Popper.

Inductive mval :=
  | MUndefined | MBool (b : bool) | MNum (z : Z) | MText (s : string) | MTexts (l : list string)
  | MElement (n : nat) | MOffset (o : offset_option) | MFn (f : string)
  | MCustom (f : data → option data).
Abbreviation modifier_object := (list (string * mval)).

Definition base_options (ord : Z) (en : bool) (f : string) : modifier_object :=
  [("order", MNum ord); ("enabled", MBool en); ("fn", MFn f)].
(** Lines 3292 to 3434. *)
Definition placing_options : list (string * modifier_object) :=
  [("shift", base_options 100 true "shift");
   ("offset", base_options 200 true "offset" ++ [("offset", MOffset (OffsetNumber 0))]);
   ("preventOverflow", base_options 300 true "preventOverflow" ++
     [("priority", MTexts ["left"; "right"; "top"; "bottom"]); ("padding", MNum 5);
      ("boundariesElement", MText "scrollParent")]);
   ("keepTogether", base_options 400 true "keepTogether");
   ("arrow", base_options 500 true "arrow" ++ [("element", MText "[x-arrow]")])].
(** Lines 3447 to 3583. *)
Definition finishing_options : list (string * modifier_object) :=
  [("flip", base_options 600 true "flip" ++
     [("behavior", MText "flip"); ("padding", MNum 5); ("boundariesElement", MText "viewport")]);
   ("inner", base_options 700 false "inner");
   ("hide", base_options 800 true "hide");
   ("computeStyle", base_options 850 true "computeStyle" ++
     [("gpuAcceleration", MBool true); ("x", MText "bottom"); ("y", MText "right")]);
   ("applyStyle", base_options 900 true "applyStyle" ++
     [("onLoad", MFn "applyStyleOnLoad"); ("gpuAcceleration", MUndefined)])].
Definition default_options : list (string * modifier_object) := placing_options ++ finishing_options.

Definition order_option (o : modifier_object) : num :=
  match get o "order" with Some (MNum z) => num_of_Z z | _ => NaN end.
(** The modifiers of an instance. *)
Definition instance_modifiers (options : option (list (string * modifier_object))) : list modifier_object :=
  modifiers_of MText order_option default_options options.

(** ** What the functions read of their options *)

Definition truthy_option (v : option mval) : bool :=
  match v with
  | None | Some MUndefined | Some (MBool false) => false
  | Some (MNum z) => negb (z =? 0)%Z
  | Some (MText s) => negb (s =? "")
  | _ => true
  end.
Definition boundary_option (v : mval) : option boundary :=
  match v with
  | MText s => Some (boundary_text s)
  | MElement n => Some (BoundaryElement n)
  | _ => None
  end.
Definition behavior_option (v : mval) : option behavior :=
  match v with
  | MText "flip" => Some Flip
  | MText "clockwise" => Some Clockwise
  | MText "counterclockwise" => Some Counterclockwise
  | MTexts l => Some (Order l)
  | _ => None
  end.
Definition text_option (v : option mval) : string := match v with Some (MText s) => s | _ => "" end.

Section decode.
Context (find_in_popper : string → option nat).

Definition fn_of (f : string) (o : modifier_object) : option modifier_fn :=
  match f with
  | "shift" => Some FnShift
  | "offset" => match get o "offset" with Some (MOffset x) => Some (FnOffset x) | _ => None end
  | "preventOverflow" =>
      match get o "priority", get o "padding", get o "boundariesElement" with
      | Some (MTexts l), Some (MNum p), Some b =>
          b ← boundary_option b;
          Some (FnPreventOverflow (PreventOptions l (num_of_Z p) (Some b) (truthy_option (get o "escapeWithReference"))))
      | _, _, _ => None
      end
  | "keepTogether" => Some FnKeepTogether
  | "arrow" =>
      match get o "element" with
      | Some (MText s) => Some (FnArrow (ArrowSelector (find_in_popper s)))
      | Some (MElement n) => Some (FnArrow (ArrowElement n))
      | _ => None
      end
  | "flip" =>
      match get o "behavior", get o "padding", get o "boundariesElement" with
      | Some h, Some (MNum p), Some b =>
          h ← behavior_option h; b ← boundary_option b;
          Some (FnFlip (FlipOptions h (num_of_Z p) b (truthy_option (get o "flipVariations"))))
      | _, _, _ => None
      end
  | "inner" => Some FnInner
  | "hide" => Some FnHide
  | "computeStyle" =>
      Some (FnComputeStyle (StyleOptions (truthy_option (get o "gpuAcceleration")) (text_option (get o "x")) (text_option (get o "y"))))
  | "applyStyle" =>
      Some (FnApplyStyle match get o "gpuAcceleration" with Some (MBool b) => Some b | _ => None end)
  | _ => None
  end.
Definition decode (o : modifier_object) : option modifier :=
  match get o "order", get o "fn" with
  | Some (MNum z), Some (MFn f) => fn ← fn_of f o; Some (Modifier z (truthy_option (get o "enabled")) fn)
  | Some (MNum z), Some (MCustom f) => Some (Modifier z (truthy_option (get o "enabled")) (FnCustom (text_option (get o "name")) f))
  | _, _ => None
  end.
Definition decode_all (options : option (list (string * modifier_object))) : option (list modifier) :=
  mapM decode (instance_modifiers options).

(** An instance without options gets the default list. *)
Lemma decode_defaults : decode_all None = Some (default_modifiers (find_in_popper "[x-arrow]")).
Proof. vm_compute. reflexivity. Qed.

(** ** The options of a dropdown, bootstrap.js lines 1644 to 1671 *)

Definition boundary_value (b : Dropdown.boundary_setting) : mval :=
  match b with Dropdown.BoundaryName s => MText s | Dropdown.BoundaryNode n => MElement n end.
(** Lines 1647 to 1655. *)
Definition offset_conf (o : Dropdown.offset_setting) : string * mval :=
  match o with
  | Dropdown.OffsetValue o => ("offset", MOffset o)
  | Dropdown.OffsetFunction f => ("fn", MCustom (λ x, Some (Dropdown.call_offset f x)))
  end.
Definition dropdown_options (c : Dropdown.config) : list (string * modifier_object) :=
  [("offset", [offset_conf (Dropdown.c_offset c)]);
   ("flip", [("enabled", MBool (Dropdown.c_flip c))]);
   ("preventOverflow", [("boundariesElement", boundary_value (Dropdown.c_boundary c))])].

(** The modifiers that the constructor of Popper makes out of the options of
    a dropdown, merged into the defaults and sorted, are the ones with which the
    dropdown places its menu. *)
Theorem dropdown_modifiers d el x :
  decode_all (Some (dropdown_options (Dropdown._config x))) =
    Some (Dropdown._getPopperConfig d el x (find_in_popper "[x-arrow]")).2.
Proof. destruct x as [[[o|g] f b] m nav pop cr]; destruct f, b; vm_compute; reflexivity. Qed.

(** ** The options of a tooltip, bootstrap.js lines 2672 to 2685 *)

Definition plain_value (v : Tooltip.value) : mval :=
  match v with
  | Tooltip.VStr s => MText s
  | Tooltip.VArray l => MTexts l
  | Tooltip.VElement n => MElement n
  | _ => MUndefined
  end.
Definition offset_value (v : Tooltip.value) : mval :=
  match v with
  | Tooltip.VNum z => MOffset (OffsetNumber (inject_Z z))
  | Tooltip.VStr s => MOffset (OffsetText (js s))
  | _ => MUndefined
  end.
Definition tip_options (o : Tooltip.popper_options) : list (string * modifier_object) :=
  [("offset", [("offset", offset_value (Tooltip.po_offset o))]);
   ("flip", [("behavior", plain_value (Tooltip.po_behavior o))]);
   ("arrow", [("element", MText (Tooltip.po_arrow o))]);
   ("preventOverflow", [("boundariesElement", plain_value (Tooltip.po_boundary o))])].

(** Options that Popper understands. *)
Definition understood (o : Tooltip.popper_options) : Prop :=
  (∃ x, offset_value (Tooltip.po_offset o) = MOffset x) ∧
  is_Some (behavior_option (plain_value (Tooltip.po_behavior o))) ∧
  is_Some (boundary_option (plain_value (Tooltip.po_boundary o))).

Lemma tip_modifiers o : understood o →
  ∃ x h b, decode_all (Some (tip_options o)) = Some
    [Modifier 100 true FnShift; Modifier 200 true (FnOffset x);
     Modifier 300 true (FnPreventOverflow (PreventOptions ["left"; "right"; "top"; "bottom"] (num_of_Z 5) (Some b) false));
     Modifier 400 true FnKeepTogether;
     Modifier 500 true (FnArrow (ArrowSelector (find_in_popper (Tooltip.po_arrow o))));
     Modifier 600 true (FnFlip (FlipOptions h (num_of_Z 5) Viewport false));
     Modifier 700 false FnInner; Modifier 800 true FnHide;
     Modifier 850 true (FnComputeStyle (StyleOptions true "bottom" "right")); Modifier 900 true (FnApplyStyle None)].
Proof.
  destruct o as [pl off beh arr bnd]. unfold understood, tip_options. cbn [Tooltip.po_offset Tooltip.po_behavior Tooltip.po_boundary Tooltip.po_arrow].
  generalize (offset_value off), (plain_value beh), (plain_value bnd). intros vo vh vb ([x ->] & [h Hh] & [b Hb]).
  exists x, h, b. unfold decode_all.
  assert (Hi : instance_modifiers (Some [("offset", [("offset", MOffset x)]); ("flip", [("behavior", vh)]);
      ("arrow", [("element", MText arr)]); ("preventOverflow", [("boundariesElement", vb)])]) =
    [("name", MText "shift") :: base_options 100 true "shift";
     ("name", MText "offset") :: base_options 200 true "offset" ++ [("offset", MOffset x)];
     ("name", MText "preventOverflow") :: base_options 300 true "preventOverflow" ++
       [("priority", MTexts ["left"; "right"; "top"; "bottom"]); ("padding", MNum 5); ("boundariesElement", vb)];
     ("name", MText "keepTogether") :: base_options 400 true "keepTogether";
     ("name", MText "arrow") :: base_options 500 true "arrow" ++ [("element", MText arr)];
     ("name", MText "flip") :: base_options 600 true "flip" ++
       [("behavior", vh); ("padding", MNum 5); ("boundariesElement", MText "viewport")];
     ("name", MText "inner") :: base_options 700 false "inner";
     ("name", MText "hide") :: base_options 800 true "hide";
     ("name", MText "computeStyle") :: base_options 850 true "computeStyle" ++
       [("gpuAcceleration", MBool true); ("x", MText "bottom"); ("y", MText "right")];
     ("name", MText "applyStyle") :: base_options 900 true "applyStyle" ++
       [("onLoad", MFn "applyStyleOnLoad"); ("gpuAcceleration", MUndefined)]]) by (vm_compute; reflexivity).
  rewrite Hi. apply mapM_Some_2. repeat constructor.
  - transitivity (fn ← (b ← boundary_option vb; Some (FnPreventOverflow (PreventOptions ["left"; "right"; "top"; "bottom"]
      (num_of_Z 5) (Some b) false))); Some (Modifier 300 true fn)); [vm_compute; reflexivity|by rewrite Hb].
  - transitivity (fn ← (h ← behavior_option vh; Some (FnFlip (FlipOptions h (num_of_Z 5) Viewport false)));
      Some (Modifier 600 true fn)); [vm_compute; reflexivity|by rewrite Hh].
Qed.

End decode.

(** ** An instance of a tooltip keeps to what the tooltip relies on *)

Import PopperLife.

Lemma construct_marks `{PG : Page} popper reference ms pl flip_opts events r i :
  isModifierEnabled ms "applyStyle" = true → construct popper reference ms pl flip_opts events (PG:=PG) r = Some i →
  is_Some (el_attr (doc i) !! (popper, "x-placement")).
Proof.
  intros Ha. unfold construct. rewrite Ha. intros H. apply bind_Some in H as (r' & Hr & H).
  unfold applyStyleOnLoad in Hr. apply bind_Some in Hr as (ref & _ & Hr). apply bind_Some in Hr as (p & _ & [= <-]).
  destruct events.
  - unfold enableEventListeners in H. cbn [eventsEnabled call_update called set_called] in H.
    apply bind_Some in H as (s & _ & H). apply bind_Some in H as (ts & _ & [= <-]).
    cbn [doc set_listeners set_called call_update called el_attr setStyles]. rewrite lookup_insert_eq. by eexists.
  - injection H as <-. cbn [doc set_listeners set_called call_update called el_attr setStyles]. rewrite lookup_insert_eq. by eexists.
Qed.

(** C36. The Popper instance of a tooltip keeps to what the tooltip relies on: it
    is made with a list of modifiers that includes applyStyle, marks the tip with
    its placement as soon as it is constructed, and once it is destroyed the mark
    is gone for good, whatever events and calls follow. *)
Theorem tooltip_instance `{PG : Page} find_in_popper o supported tip el flip_opts events remove r :
  understood o →
  ∃ ms, decode_all find_in_popper (Some (tip_options o)) = Some ms ∧
    ∀ i, construct tip el ms (Tooltip.po_placement o) flip_opts events r = Some i →
      is_Some (el_attr (doc i) !! (tip, "x-placement")) ∧
      ∀ before after,
        let run := run_steps supported tip el ms (Tooltip.po_placement o) flip_opts remove in
        el_attr (doc (run (destroy supported tip ms remove (run i before)) after)) !! (tip, "x-placement") = None.
Proof.
  intros Ho. assert (∃ ms, decode_all find_in_popper (Some (tip_options o)) = Some ms ∧ isModifierEnabled ms "applyStyle" = true)
    as (ms & Hms & Ha) by (destruct (tip_modifiers find_in_popper o Ho) as (x & h & b & ->); by eexists).
  exists ms. split; [done|]. intros i Hi. split; [by eapply construct_marks|]. intros before after run.
  destruct (destroyed_frozen supported tip el ms (Tooltip.po_placement o) flip_opts remove (run i before) after Ha)
    as (_ & _ & Hf). unfold run at 1. rewrite Hf.
  destruct (destroyed_effect supported tip ms remove (run i before)) as (_ & _ & ->). rewrite Ha.
  rewrite (proj2 (clear_styles_lookup supported tip (Tooltip.po_placement o) _ _)). by rewrite bool_decide_true.
Qed.

Lemma tooltip_instance_witness :
  let o := Tooltip.popper_options_of Tooltip.tooltip_defaults "bottom" in
  ∃ ms, decode_all (λ _, None) (Some (tip_options o)) = Some ms ∧
    is_Some (construct 2 3 ms "bottom" default_flip true (PG:=PopperSpec.sample_page) (Rendered ∅ ∅)).
Proof.
  intros o. destruct (tooltip_instance (PG:=PopperSpec.sample_page) (λ _, None) o (λ _, true) 2 3 default_flip true false
    (Rendered ∅ ∅)) as (ms & Hms & _).
  - split; [exists (OffsetNumber 0); vm_compute; reflexivity|].
    split; apply (bool_decide_unpack _); vm_compute; exact I.
  - exists ms. split; [exact Hms|]. vm_compute in Hms. injection Hms as <-. apply (bool_decide_unpack _). vm_compute. exact I.
Defined.

(** The padding given for flip is the one that counts, its other options and
    those of the other modifiers stay. *)
Lemma merge_lookup_witness :
  let ms := merge_modifiers default_options (Some [("flip", [("padding", MNum 9)]); ("own", [("order", MNum 10)])]) in
  option_of ms "flip" "padding" = Some (MNum 9) ∧ option_of ms "flip" "behavior" = Some (MText "flip") ∧
  option_of ms "own" "order" = Some (MNum 10) ∧ option_of ms "shift" "order" = Some (MNum 100).
Proof.
  intros ms.
  assert (H : ∀ name k, option_of ms name k = match get (given (Some [("flip", [("padding", MNum 9)]);
      ("own", [("order", MNum 10)])]) name) k with Some v => Some v | None => option_of default_options name k end).
  { refine (proj2 (merge_lookup default_options _ _ _)); [apply (bool_decide_unpack _); vm_compute; exact I|].
    intros name. unfold given. simpl.
    repeat case_bool_decide; simpl; apply (bool_decide_unpack _); vm_compute; exact I. }
  rewrite !H. repeat split; vm_compute; reflexivity.
Defined.

End PopperOptions.
