(* ===== verification/PopperUtils.v ===== *)
(** * Popper, functions with a fallback: bootstrap.bundle.js lines 1431 to 1469
    and 2167 to 2199

    Popper chooses between two versions of some functions, by what the browser
    offers.  Both versions are modelled here and proved to do the same. *)

From S2P Require Import Prelude.
Local Open Scope list_scope.

Module PopperUtils.

(** ** [find] and [findIndex]

    An array is a list of objects with their identity as equality; [None] is
    undefined. *)

Section find.
Context {A : Type} `{EqDecision A}.

(** The methods of arrays that the browser offers. *)
Fixpoint array_find (check : A → bool) (arr : list A) : option A :=
  match arr with [] => None | x :: arr' => if check x then Some x else array_find check arr' end.
Fixpoint array_findIndex (i : Z) (check : A → bool) (arr : list A) : Z :=
  match arr with [] => -1 | x :: arr' => if check x then i else array_findIndex (i + 1) check arr' end.
Fixpoint array_indexOf (i : Z) (x : option A) (arr : list A) : Z :=
  match arr with
  | [] => -1
  | y :: arr' => if bool_decide (x = Some y) then i else array_indexOf (i + 1) x arr'
  end.

(** Lines 2167 to 2175. *)
Definition find (native : bool) (arr : list A) (check : A → bool) : option A :=
  if native then array_find check arr else head (filter (λ x, check x = true) arr).

(** Lines 2186 to 2199; [check] is the comparison of one property. *)
Definition findIndex (native native_find : bool) (arr : list A) (check : A → bool) : Z :=
  if native then array_findIndex 0 check arr
  else array_indexOf 0 (find native_find arr check) arr.

Lemma find_fallback arr check : find false arr check = find true arr check.
Proof.
  unfold find. induction arr as [|x arr IH]; [done|]. simpl. rewrite filter_cons.
  destruct (check x) eqn:E; [by rewrite decide_True|]. rewrite decide_False by congruence. exact IH.
Qed.

Lemma array_find_check check arr x : array_find check arr = Some x → check x = true.
Proof. induction arr as [|y arr IH]; simpl; [done|]. destruct (check y) eqn:E; [by intros [= ->]|done]. Qed.

Lemma index_of_found i check arr :
  array_indexOf i (array_find check arr) arr = array_findIndex i check arr.
Proof.
  revert i; induction arr as [|x arr IH]; intros i; simpl; [done|].
  destruct (check x) eqn:E; [by rewrite bool_decide_true|].
  rewrite bool_decide_false; [apply IH|]. intros Hf%array_find_check. congruence.
Qed.

(** The versions of find and findIndex for browsers without these methods
    answer what the methods answer, for every array and every test, also when
    nothing is found or an object occurs more than once. *)
Theorem find_equivalent native native_find arr check :
  find native arr check = array_find check arr ∧
  findIndex native native_find arr check = array_findIndex 0 check arr.
Proof.
  assert (Hf : ∀ b, find b arr check = array_find check arr) by (intros []; [done|apply find_fallback]).
  split; [apply Hf|]. destruct native; [done|]. unfold findIndex. rewrite Hf. apply index_of_found.
Qed.
End find.

(** ** [debounce] *)

(** The variable of the closure, the tasks it has scheduled, and how often the
    function has run. *)
Record closure := Closure { flag : bool; tasks : nat; runs : nat }.

(** Lines 1431 to 1443. *)
Definition microtask_call (s : closure) : closure :=
  if flag s then s else Closure true (S (tasks s)) (runs s).
(** Lines 1445 to 1456. *)
Definition task_call (s : closure) : closure :=
  if negb (flag s) then Closure true (S (tasks s)) (runs s) else s.
(** Line 1469. *)
Definition debounced (microtasks : bool) : closure → closure :=
  if microtasks then microtask_call else task_call.
(** A scheduled task runs: lines 1438 to 1441 and 1450 to 1453; the function may
    call its debounced version again. *)
Definition run_task (microtasks again : bool) (s : closure) : closure :=
  match tasks s with
  | O => s
  | S n =>
      let s := Closure false n (S (runs s)) in
      if again then debounced microtasks s else s
  end.

Inductive step := Call | Turn (again : bool).
Definition run_step (microtasks : bool) (s : closure) (x : step) : closure :=
  match x with Call => debounced microtasks s | Turn again => run_task microtasks again s end.

(** What is promised: calls are collected until the next turn, which runs the
    function once. *)
Definition spec_step (s : bool * nat) (x : step) : bool * nat :=
  match x with
  | Call => (true, s.2)
  | Turn again => if s.1 then (again, S s.2) else s
  end.

Definition implements (s : closure) (a : bool * nat) : Prop :=
  flag s = a.1 ∧ tasks s = (if a.1 then 1 else 0)%nat ∧ runs s = a.2.

Lemma step_implements microtasks s a x :
  implements s a → implements (run_step microtasks s x) (spec_step a x).
Proof.
  destruct s as [f n r], a as [pending k]. intros (H1 & H2 & H3). simpl in *. subst.
  destruct x as [|[]]; destruct microtasks, pending; done.
Qed.

(** Both versions of debounce collect the calls between two turns of the
    queue into one run of the function, also when the function calls itself
    again: at every moment there is exactly one scheduled task if there was a
    call since the last run, and none otherwise, and the flag says which. *)
Theorem debounce_refines microtasks steps :
  implements (foldl (run_step microtasks) (Closure false 0 0) steps) (foldl spec_step (false, 0%nat) steps).
Proof.
  assert (H : ∀ s a, implements s a → implements (foldl (run_step microtasks) s steps) (foldl spec_step a steps)).
  { induction steps as [|x steps IH]; intros s a Hs; [done|]. simpl. by apply IH, step_implements. }
  by apply H.
Qed.

End PopperUtils.
